(** * catalogueConnect backend: route handlers over the storage interface

    A shallow embedding of [registerRoutes] (the Express route handlers) and
    of the two implementations of [IStorage] in [storage.ts]: the in-memory
    [MemStorage] and the relational [DatabaseStorage].

    Conventions of the embedding.
    - A JavaScript number that the code uses as an id, a counter or a
      timestamp is a [Z]; this is exact below 2^53.  [NaN] is [None] where
      [parseInt] can produce it.
    - A JavaScript string is a [string] holding its UTF-8 bytes.
    - [Date] values are epoch milliseconds; the clock reading of a request
      ([Date.now()], [new Date()]) is an input of the handler.
    - A handler is a function from the storage state to the new state and
      the response; an exception that reaches [next(error)] is the response
      [Next]. *)

From Stdlib Require Import ZArith NArith List String Ascii Bool Lia.
From Stdlib Require Import DecimalString DecimalFacts DecimalPos DecimalZ.
From Stdlib Require Import Permutation Sorted.
Import ListNotations.

Local Open Scope string_scope.
Local Open Scope Z_scope.

Set Implicit Arguments.
Local Set Warnings "-register-all,-notation-for-abbreviation".

(** ** JavaScript values *)

(** The values that reach the handlers: what [JSON.parse] and the body
    parser produce, plus [undefined] and [Date] for the objects the handlers
    build themselves. *)
Inductive JsValue : Type :=
| JUndefined
| JNull
| JBool (b : bool)
| JNum (n : Z)
| JStr (s : string)
| JDate (ms : Z)
| JArr (items : list JsValue)
| JObj (fields : list (string * JsValue)).

Definition JsObject := list (string * JsValue).

(** [!!v] *)
Definition truthy (v : JsValue) : bool :=
  match v with
  | JUndefined | JNull => false
  | JBool b => b
  | JNum n => negb (n =? 0)
  | JStr s => negb (s =? "")%string
  | JDate _ | JArr _ | JObj _ => true
  end.

(** Own-property lookup in an object literal; [None] is [undefined]. *)
Fixpoint obj_get (k : string) (o : JsObject) : option JsValue :=
  match o with
  | [] => None
  | (k', v) :: o' => if (k' =? k)%string then Some v else obj_get k o'
  end.

(** [o[k] = v]: an existing key keeps its place, a new key goes last. *)
Fixpoint obj_set (k : string) (v : JsValue) (o : JsObject) : JsObject :=
  match o with
  | [] => [(k, v)]
  | (k', v') :: o' =>
      if (k' =? k)%string then (k', v) :: o' else (k', v') :: obj_set k v o'
  end.

(** [delete o[k]], also the rest pattern [const { k, ...rest } = o]. *)
Definition obj_delete (k : string) (o : JsObject) : JsObject :=
  filter (fun kv => negb (fst kv =? k)%string) o.

(** [{ ...a, ...b }] *)
Definition obj_spread (a b : JsObject) : JsObject :=
  fold_left (fun acc kv => obj_set (fst kv) (snd kv) acc) b a.

(** [v.k] for a value [v] that is neither [null] nor [undefined] (on those
    the access throws, which the callers handle before coming here).  The
    keys the handlers read are [catalogueId], [exp] and [email], which no
    primitive wrapper, array or [Date] carries. *)
Definition prop (v : JsValue) (k : string) : JsValue :=
  match v with
  | JObj o => match obj_get k o with Some x => x | None => JUndefined end
  | _ => JUndefined
  end.

Definition opt_js {A} (f : A -> JsValue) (o : option A) : JsValue :=
  match o with Some a => f a | None => JNull end.

(** [a ?? d], and the value of a key that [{ ...a, ...b }] takes from [b]
    when [b] has it *)
Definition or_else {A} (o : option A) (d : A) : A :=
  match o with Some a => a | None => d end.

(** [a || d] on an optional string *)
Definition or_string (o : option string) (d : string) : string :=
  match o with
  | Some s => if (s =? "")%string then d else s
  | None => d
  end.

(** [views || 0] *)
Definition or_zero (o : option Z) : Z :=
  match o with Some v => v | None => 0 end.

(** ** Data model ([@shared/schema], as used by [storage.ts]) *)

Module User.
Record t := mk {
  id : Z; username : string; password : string; email : string;
  company : option string; createdAt : Z }.
Definition to_js (u : t) : JsObject :=
  [ ("id", JNum (id u)); ("username", JStr (username u));
    ("password", JStr (password u)); ("email", JStr (email u));
    ("company", opt_js JStr (company u)); ("createdAt", JDate (createdAt u)) ].
End User.
Notation User := User.t.

Module InsertUser.
Record t := mk {
  username : string; password : string; email : string;
  company : option string }.
End InsertUser.
Notation InsertUser := InsertUser.t.

Module Product.
Record t := mk {
  id : Z; userId : Z; name : string; description : option string;
  price : string; imageUrl : option string; category : option string;
  inStock : option bool; createdAt : Z }.
Definition to_js (p : t) : JsObject :=
  [ ("id", JNum (id p)); ("userId", JNum (userId p)); ("name", JStr (name p));
    ("description", opt_js JStr (description p)); ("price", JStr (price p));
    ("imageUrl", opt_js JStr (imageUrl p));
    ("category", opt_js JStr (category p));
    ("inStock", opt_js JBool (inStock p)); ("createdAt", JDate (createdAt p)) ].
End Product.
Notation Product := Product.t.

(** [InsertProduct]; a numeric [price] is held by its [toString()], the form
    both storages store. *)
Module InsertProduct.
Record t := mk {
  userId : Z; name : string; description : option string; price : string;
  imageUrl : option string; category : option string;
  inStock : option bool }.
End InsertProduct.
Notation InsertProduct := InsertProduct.t.

(** [Partial<InsertProduct>]: [None] is an absent key. *)
Module ProductUpdates.
Record t := mk {
  userId : option Z; name : option string;
  description : option (option string); price : option string;
  imageUrl : option (option string); category : option (option string);
  inStock : option (option bool) }.
(** [{ ...product, ...updates }], and [UPDATE ... SET updates] on a row *)
Definition apply (u : t) (p : Product) : Product :=
  Product.mk (Product.id p)
    (or_else (userId u) (Product.userId p))
    (or_else (name u) (Product.name p))
    (or_else (description u) (Product.description p))
    (or_else (price u) (Product.price p))
    (or_else (imageUrl u) (Product.imageUrl p))
    (or_else (category u) (Product.category p))
    (or_else (inStock u) (Product.inStock p))
    (Product.createdAt p).
(** [{ ...updates, price }] *)
Definition with_price (p : option string) (u : t) : t :=
  mk (userId u) (name u) (description u) p (imageUrl u) (category u)
     (inStock u).
End ProductUpdates.
Notation ProductUpdates := ProductUpdates.t.

Module Catalogue.
Record t := mk {
  id : Z; userId : Z; name : string; description : option string;
  shareableLink : string; isPublic : option bool; views : option Z;
  createdAt : Z }.
Definition with_views (v : option Z) (c : t) : t :=
  mk (id c) (userId c) (name c) (description c) (shareableLink c)
     (isPublic c) v (createdAt c).
Definition to_js (c : t) : JsObject :=
  [ ("id", JNum (id c)); ("userId", JNum (userId c)); ("name", JStr (name c));
    ("description", opt_js JStr (description c));
    ("shareableLink", JStr (shareableLink c));
    ("isPublic", opt_js JBool (isPublic c)); ("views", opt_js JNum (views c));
    ("createdAt", JDate (createdAt c)) ].
End Catalogue.
Notation Catalogue := Catalogue.t.

Module InsertCatalogue.
Record t := mk {
  userId : Z; name : string; description : option string;
  shareableLink : string; isPublic : option bool }.
End InsertCatalogue.
Notation InsertCatalogue := InsertCatalogue.t.

(** [Partial<InsertCatalogue>]: [None] is an absent key. *)
Module CatalogueUpdates.
Record t := mk {
  userId : option Z; name : option string;
  description : option (option string); shareableLink : option string;
  isPublic : option (option bool) }.
(** [delete validatedData.userId] *)
Definition delete_userId (u : t) : t :=
  mk None (name u) (description u) (shareableLink u) (isPublic u).
(** [{ ...catalogue, ...updates }], and [UPDATE ... SET updates] on a row *)
Definition apply (u : t) (c : Catalogue) : Catalogue :=
  Catalogue.mk (Catalogue.id c)
    (or_else (userId u) (Catalogue.userId c))
    (or_else (name u) (Catalogue.name c))
    (or_else (description u) (Catalogue.description c))
    (or_else (shareableLink u) (Catalogue.shareableLink c))
    (or_else (isPublic u) (Catalogue.isPublic c))
    (Catalogue.views c) (Catalogue.createdAt c).
End CatalogueUpdates.
Notation CatalogueUpdates := CatalogueUpdates.t.

Module CatalogueProduct.
Record t := mk { id : Z; catalogueId : Z; productId : Z }.
Definition to_js (cp : t) : JsObject :=
  [ ("id", JNum (id cp)); ("catalogueId", JNum (catalogueId cp));
    ("productId", JNum (productId cp)) ].
End CatalogueProduct.
Notation CatalogueProduct := CatalogueProduct.t.

Module Order.
Record t := mk {
  id : Z; userId : Z; orderId : string; catalogueId : option Z;
  retailerName : string; retailerEmail : string; retailerCompany : string;
  items : JsValue; amount : string; paymentStatus : option string;
  orderDate : Z }.
Definition with_paymentStatus (s : option string) (o : t) : t :=
  mk (id o) (userId o) (orderId o) (catalogueId o) (retailerName o)
     (retailerEmail o) (retailerCompany o) (items o) (amount o) s
     (orderDate o).
Definition to_js (o : t) : JsObject :=
  [ ("id", JNum (id o)); ("userId", JNum (userId o));
    ("orderId", JStr (orderId o)); ("catalogueId", opt_js JNum (catalogueId o));
    ("retailerName", JStr (retailerName o));
    ("retailerEmail", JStr (retailerEmail o));
    ("retailerCompany", JStr (retailerCompany o)); ("items", items o);
    ("amount", JStr (amount o));
    ("paymentStatus", match paymentStatus o with
                      | Some s => JStr s | None => JUndefined end);
    ("orderDate", JDate (orderDate o)) ].
End Order.
Notation Order := Order.t.

(** [InsertOrder]; a numeric [amount] is held by its [toString()]. *)
Module InsertOrder.
Record t := mk {
  userId : Z; orderId : option string; catalogueId : option Z;
  retailerName : string; retailerEmail : string;
  retailerCompany : option string; items : JsValue; amount : string;
  paymentStatus : option string }.
End InsertOrder.
Notation InsertOrder := InsertOrder.t.

(** The access-request status, ["pending" | "approved" | "rejected"]. *)
Inductive Status := pending | approved | rejected.

Definition Status_eqb (a b : Status) : bool :=
  match a, b with
  | pending, pending | approved, approved | rejected, rejected => true
  | _, _ => false
  end.

Definition Status_to_string (s : Status) : string :=
  match s with
  | pending => "pending" | approved => "approved" | rejected => "rejected"
  end.

Module AccessRequest.
Record t := mk {
  id : Z; catalogueId : Z; name : string; email : string; company : string;
  message : option string; status : Status; requestDate : Z }.
Definition with_status (s : Status) (r : t) : t :=
  mk (id r) (catalogueId r) (name r) (email r) (company r) (message r) s
     (requestDate r).
Definition to_js (r : t) : JsObject :=
  [ ("id", JNum (id r)); ("catalogueId", JNum (catalogueId r));
    ("name", JStr (name r)); ("email", JStr (email r));
    ("company", JStr (company r)); ("message", opt_js JStr (message r));
    ("status", JStr (Status_to_string (status r)));
    ("requestDate", JDate (requestDate r)) ].
End AccessRequest.
Notation AccessRequest := AccessRequest.t.

Module InsertAccessRequest.
Record t := mk {
  catalogueId : Z; name : string; email : string; company : string;
  message : option string; status : option Status; requestDate : Z }.
End InsertAccessRequest.
Notation InsertAccessRequest := InsertAccessRequest.t.

(** ** nanoid

    [nanoid] is the npm package of that name, not a file of the repository.
    Its generator draws each symbol of the id from a 64-symbol alphabet by
    the low six bits of a random byte: [id += urlAlphabet[pool[i] & 63]].
    The random pool is an input of the model. *)

Definition urlAlphabet : string :=
  "useandom-26T198340PX75pxJACKVERYMINDBUSHWOLF_GQZbfghjklqvwyzrict".

Definition Pool := nat -> Z.

Definition string_nth (n : nat) (s : string) : ascii :=
  match String.get n s with Some c => c | None => "000"%char end.

Definition nanoid (size : nat) (pool : Pool) : string :=
  string_of_list_ascii
    (map (fun i => string_nth (Z.to_nat (Z.land (pool i) 63)) urlAlphabet)
         (seq 0 size)).

(** The pool as the next call of [nanoid] finds it. *)
Definition pool_skip (n : nat) (pool : Pool) : Pool := fun i => pool (n + i)%nat.

(** [String.prototype.toUpperCase] on the ASCII range. *)
Definition upper_char (c : ascii) : ascii :=
  let n := nat_of_ascii c in
  if andb (97 <=? n)%nat (n <=? 122)%nat then ascii_of_nat (n - 32) else c.

Fixpoint toUpperCase (s : string) : string :=
  match s with
  | EmptyString => EmptyString
  | String c s' => String (upper_char c) (toUpperCase s')
  end.

(** [`ORD-${nanoid(6).toUpperCase()}`] *)
Definition new_orderId (pool : Pool) : string :=
  "ORD-" ++ toUpperCase (nanoid 6 pool).

(** ** [Map<number, V>]

    A JavaScript [Map] iterates in insertion order, and the storage searches
    [values()] with [find], so the map is an association list in insertion
    order. *)
Module JsMap.
Section Ops.
Variable V : Type.
Definition t := list (Z * V).

Fixpoint get (k : Z) (m : t) : option V :=
  match m with
  | [] => None
  | (k', v) :: m' => if k' =? k then Some v else get k m'
  end.

Fixpoint set (k : Z) (v : V) (m : t) : t :=
  match m with
  | [] => [(k, v)]
  | (k', v') :: m' =>
      if k' =? k then (k', v) :: m' else (k', v') :: set k v m'
  end.

Definition has (k : Z) (m : t) : bool :=
  match get k m with Some _ => true | None => false end.

(** [delete] answers whether the key was present. *)
Definition delete (k : Z) (m : t) : t * bool :=
  (filter (fun kv => negb (fst kv =? k)) m, has k m).

Definition values (m : t) : list V := map snd m.

(** The first value that satisfies [p] is changed in place: an object
    found by [values().find(p)] and then assigned to. *)
Fixpoint mutate_first (p : V -> bool) (f : V -> V) (m : t) : t :=
  match m with
  | [] => []
  | (k, v) :: m' =>
      if p v then (k, f v) :: m' else (k, v) :: mutate_first p f m'
  end.
End Ops.
End JsMap.

(** ** [class MemStorage implements IStorage] *)
Module MemStorage.

Record t := mk {
  users : JsMap.t User;
  products : JsMap.t Product;
  catalogues : JsMap.t Catalogue;
  catalogueProducts : JsMap.t CatalogueProduct;
  orders : JsMap.t Order;
  accessRequests : JsMap.t AccessRequest;
  currentUserId : Z;
  currentProductId : Z;
  currentCatalogueId : Z;
  currentCatalogueProductId : Z;
  currentOrderId : Z;
  currentAccessRequestId : Z }.

(** [constructor()] *)
Definition empty : t := mk [] [] [] [] [] [] 1 1 1 1 1 1.

Definition set_users m n (s : t) : t :=
  mk m (products s) (catalogues s) (catalogueProducts s) (orders s)
     (accessRequests s) n (currentProductId s) (currentCatalogueId s)
     (currentCatalogueProductId s) (currentOrderId s)
     (currentAccessRequestId s).
Definition set_products m n (s : t) : t :=
  mk (users s) m (catalogues s) (catalogueProducts s) (orders s)
     (accessRequests s) (currentUserId s) n (currentCatalogueId s)
     (currentCatalogueProductId s) (currentOrderId s)
     (currentAccessRequestId s).
Definition set_catalogues m n (s : t) : t :=
  mk (users s) (products s) m (catalogueProducts s) (orders s)
     (accessRequests s) (currentUserId s) (currentProductId s) n
     (currentCatalogueProductId s) (currentOrderId s)
     (currentAccessRequestId s).
Definition set_catalogueProducts m n (s : t) : t :=
  mk (users s) (products s) (catalogues s) m (orders s)
     (accessRequests s) (currentUserId s) (currentProductId s)
     (currentCatalogueId s) n (currentOrderId s)
     (currentAccessRequestId s).
Definition set_orders m n (s : t) : t :=
  mk (users s) (products s) (catalogues s) (catalogueProducts s) m
     (accessRequests s) (currentUserId s) (currentProductId s)
     (currentCatalogueId s) (currentCatalogueProductId s) n
     (currentAccessRequestId s).
Definition set_accessRequests m n (s : t) : t :=
  mk (users s) (products s) (catalogues s) (catalogueProducts s) (orders s)
     m (currentUserId s) (currentProductId s) (currentCatalogueId s)
     (currentCatalogueProductId s) (currentOrderId s) n.

(** *** User operations *)
Definition getUser (id : Z) (s : t) : option User :=
  JsMap.get id (users s).

Definition getUserByUsername (username : string) (s : t) : option User :=
  find (fun u => (User.username u =? username)%string)
             (JsMap.values (users s)).

Definition getUserByEmail (email : string) (s : t) : option User :=
  find (fun u => (User.email u =? email)%string)
             (JsMap.values (users s)).

Definition createUser (now : Z) (u : InsertUser) (s : t) : t * User :=
  let id := currentUserId s in
  let user := User.mk id (InsertUser.username u) (InsertUser.password u)
                      (InsertUser.email u) (InsertUser.company u) now in
  (set_users (JsMap.set id user (users s)) (id + 1) s, user).

(** *** Product operations *)
Definition getProducts (userId : Z) (s : t) : list Product :=
  filter (fun p => Product.userId p =? userId) (JsMap.values (products s)).

Definition getProduct (id : Z) (s : t) : option Product :=
  JsMap.get id (products s).

Definition createProduct (now : Z) (p : InsertProduct) (s : t)
  : t * Product :=
  let id := currentProductId s in
  let product :=
    Product.mk id (InsertProduct.userId p) (InsertProduct.name p)
               (InsertProduct.description p) (InsertProduct.price p)
               (InsertProduct.imageUrl p) (InsertProduct.category p)
               (InsertProduct.inStock p) now in
  (set_products (JsMap.set id product (products s)) (id + 1) s, product).

Definition updateProduct (id : Z) (u : ProductUpdates) (s : t)
  : t * option Product :=
  match JsMap.get id (products s) with
  | None => (s, None)
  | Some product =>
      let price := match ProductUpdates.price u with
                   | Some p => p
                   | None => Product.price product
                   end in
      let updatesWithStringPrice := ProductUpdates.with_price (Some price) u in
      let updated := ProductUpdates.apply updatesWithStringPrice product in
      (set_products (JsMap.set id updated (products s))
                    (currentProductId s) s, Some updated)
  end.

Definition deleteProduct (id : Z) (s : t) : t * bool :=
  let (m, r) := JsMap.delete id (products s) in
  (set_products m (currentProductId s) s, r).

(** *** Catalogue operations *)
Definition getCatalogues (userId : Z) (s : t) : list Catalogue :=
  filter (fun c => Catalogue.userId c =? userId)
         (JsMap.values (catalogues s)).

Definition getCatalogue (id : Z) (s : t) : option Catalogue :=
  JsMap.get id (catalogues s).

Definition getCatalogueByLink (link : string) (s : t) : option Catalogue :=
  find (fun c => (Catalogue.shareableLink c =? link)%string)
             (JsMap.values (catalogues s)).

Definition createCatalogue (now : Z) (c : InsertCatalogue) (s : t)
  : t * Catalogue :=
  let id := currentCatalogueId s in
  let catalogue :=
    Catalogue.mk id (InsertCatalogue.userId c) (InsertCatalogue.name c)
                 (InsertCatalogue.description c)
                 (InsertCatalogue.shareableLink c)
                 (InsertCatalogue.isPublic c) (Some 0) now in
  (set_catalogues (JsMap.set id catalogue (catalogues s)) (id + 1) s,
   catalogue).

Definition updateCatalogue (id : Z) (u : CatalogueUpdates) (s : t)
  : t * option Catalogue :=
  match JsMap.get id (catalogues s) with
  | None => (s, None)
  | Some catalogue =>
      let updated := CatalogueUpdates.apply u catalogue in
      (set_catalogues (JsMap.set id updated (catalogues s))
                      (currentCatalogueId s) s, Some updated)
  end.

Definition deleteCatalogue (id : Z) (s : t) : t * bool :=
  let (m, r) := JsMap.delete id (catalogues s) in
  (set_catalogues m (currentCatalogueId s) s, r).

Definition incrementCatalogueViews (id : Z) (s : t) : t :=
  match JsMap.get id (catalogues s) with
  | Some catalogue =>
      let currentViews := or_zero (Catalogue.views catalogue) in
      set_catalogues
        (JsMap.set id (Catalogue.with_views (Some (currentViews + 1))
                                            catalogue)
                   (catalogues s))
        (currentCatalogueId s) s
  | None => s
  end.

(** *** Catalogue Products operations *)
Definition addProductToCatalogue (catalogueId productId : Z) (s : t)
  : t * CatalogueProduct :=
  let id := currentCatalogueProductId s in
  let cp := CatalogueProduct.mk id catalogueId productId in
  (set_catalogueProducts (JsMap.set id cp (catalogueProducts s)) (id + 1) s,
   cp).

Definition removeProductFromCatalogue (catalogueId productId : Z) (s : t)
  : t * bool :=
  match find
          (fun cp => (CatalogueProduct.catalogueId cp =? catalogueId)
                     && (CatalogueProduct.productId cp =? productId))
          (JsMap.values (catalogueProducts s)) with
  | Some cp =>
      let (m, r) := JsMap.delete (CatalogueProduct.id cp)
                                 (catalogueProducts s) in
      (set_catalogueProducts m (currentCatalogueProductId s) s, r)
  | None => (s, false)
  end.

(** [entries.map(cp => products.get(cp.productId)!).filter(Boolean)] *)
Definition getCatalogueProducts (catalogueId : Z) (s : t) : list Product :=
  let entries :=
    filter (fun cp => CatalogueProduct.catalogueId cp =? catalogueId)
           (JsMap.values (catalogueProducts s)) in
  flat_map (fun cp =>
              match JsMap.get (CatalogueProduct.productId cp) (products s)
              with Some p => [p] | None => [] end)
    entries.

(** *** Order operations *)
Definition getOrders (userId : Z) (s : t) : list Order :=
  filter (fun o => Order.userId o =? userId) (JsMap.values (orders s)).

Definition getOrder (id : Z) (s : t) : option Order :=
  JsMap.get id (orders s).

Definition getOrderByOrderId (orderId : string) (s : t) : option Order :=
  find (fun o => (Order.orderId o =? orderId)%string)
             (JsMap.values (orders s)).

Definition createOrder (now : Z) (pool : Pool) (o : InsertOrder) (s : t)
  : t * Order :=
  let id := currentOrderId s in
  let orderId :=
    match InsertOrder.orderId o with
    | Some x => if (x =? "")%string then new_orderId pool else x
    | None => new_orderId pool
    end in
  let paymentStatus := or_string (InsertOrder.paymentStatus o) "pending" in
  let order :=
    Order.mk id (InsertOrder.userId o) orderId (InsertOrder.catalogueId o)
             (InsertOrder.retailerName o) (InsertOrder.retailerEmail o)
             (or_string (InsertOrder.retailerCompany o) "")
             (InsertOrder.items o) (InsertOrder.amount o)
             (Some paymentStatus) now in
  (set_orders (JsMap.set id order (orders s)) (id + 1) s, order).

(** The order found is assigned to in place and then stored again under
    its own [id]. *)
Definition updateOrderPaymentStatus (orderId : string)
           (paymentStatus : option string) (s : t) : t * option Order :=
  let p := fun o => (Order.orderId o =? orderId)%string in
  match find p (JsMap.values (orders s)) with
  | Some order =>
      let order' := Order.with_paymentStatus paymentStatus order in
      let m := JsMap.mutate_first p (Order.with_paymentStatus paymentStatus)
                                  (orders s) in
      (set_orders (JsMap.set (Order.id order') order' m) (currentOrderId s) s,
       Some order')
  | None => (s, None)
  end.

Definition getOrdersByEmail (email : string) (s : t) : list Order :=
  filter (fun o => (Order.retailerEmail o =? email)%string)
         (JsMap.values (orders s)).

(** *** Access request operations *)
Definition createAccessRequest (now : Z) (r : InsertAccessRequest) (s : t)
  : t * Z :=
  let id := currentAccessRequestId s in
  let accessRequest :=
    AccessRequest.mk id (InsertAccessRequest.catalogueId r)
      (InsertAccessRequest.name r) (InsertAccessRequest.email r)
      (InsertAccessRequest.company r) (InsertAccessRequest.message r)
      (or_else (InsertAccessRequest.status r) pending) now in
  (set_accessRequests (JsMap.set id accessRequest (accessRequests s))
                      (id + 1) s, id).

Definition getAccessRequest (id : Z) (s : t) : option AccessRequest :=
  JsMap.get id (accessRequests s).

Definition getAccessRequestByEmail (catalogueId : Z) (email : string)
           (s : t) : option AccessRequest :=
  find (fun r => (AccessRequest.catalogueId r =? catalogueId)
                       && (AccessRequest.email r =? email)%string)
             (JsMap.values (accessRequests s)).

Definition getAccessRequests (catalogueId : Z) (s : t)
  : list AccessRequest :=
  filter (fun r => AccessRequest.catalogueId r =? catalogueId)
         (JsMap.values (accessRequests s)).

Definition updateAccessRequest (id : Z) (status : Status) (s : t)
  : t * bool :=
  match JsMap.get id (accessRequests s) with
  | None => (s, false)
  | Some request =>
      (set_accessRequests
         (JsMap.set id (AccessRequest.with_status status request)
                    (accessRequests s))
         (currentAccessRequestId s) s, true)
  end.

End MemStorage.

(** ** Relational tables

    A table is the list of its rows and the next value of its [serial] id
    sequence.  [db.select().from(t).where(p)] keeps the rows that satisfy
    [p], in table order; [const [row] = await ...] takes the first.  The
    model is total: a statement never fails.  Where the driver would reject
    a statement (an [UPDATE] with nothing to set, a comparison of an
    [integer] column with [NaN] or with a number out of its range) the
    model leaves the table as it is and finds no row; the statements about
    such requests carry [update_sets_a_column], [ids_given] and [int4]
    below to stay clear of them.  The table order is the order of
    insertion, and an [UPDATE] leaves a row in its place; a database
    promises no order without [ORDER BY], so what is stated about a list or
    a first row of such a query is stated up to [Permutation], or for
    queries that at most one row answers.  The schema ([@shared/schema]) is not in the source; per the
    data model of the specification, no foreign key is enforced, and a row
    inserted without a value for a column gets what [MemStorage] assigns. *)
Module Table.
Section Ops.
Variable R : Type.
Record t := mk { rows : list R; nextId : Z }.

Definition select (p : R -> bool) (tb : t) : list R :=
  filter p (rows tb).

(** [insert(...).values(...).returning()] *)
Definition insert (row : Z -> R) (tb : t) : t * R :=
  let r := row (nextId tb) in
  (mk (rows tb ++ [r])%list (nextId tb + 1), r).

(** [update(...).set(...).where(p).returning()] *)
Definition update (p : R -> bool) (f : R -> R) (tb : t) : t * list R :=
  (mk (map (fun r => if p r then f r else r) (rows tb)) (nextId tb),
   map f (filter p (rows tb))).

(** [delete(...).where(p)], with its [rowCount] *)
Definition delete (p : R -> bool) (tb : t) : t * nat :=
  (mk (filter (fun r => negb (p r)) (rows tb)) (nextId tb),
   List.length (filter p (rows tb))).

(** [orderBy(desc(key))] *)
Fixpoint insert_desc (key : R -> Z) (x : R) (l : list R) : list R :=
  match l with
  | [] => [x]
  | y :: l' =>
      if key y <=? key x then x :: l else y :: insert_desc key x l'
  end.

Definition order_by_desc (key : R -> Z) (l : list R) : list R :=
  fold_right (insert_desc key) [] l.
End Ops.
End Table.

(** [result.rowCount ? result.rowCount > 0 : false] *)
Definition affected (rowCount : nat) : bool :=
  match rowCount with O => false | S _ => true end.

(** ** [class DatabaseStorage implements IStorage] *)
Module DatabaseStorage.

Record t := mk {
  users : Table.t User;
  products : Table.t Product;
  catalogues : Table.t Catalogue;
  catalogueProducts : Table.t CatalogueProduct;
  orders : Table.t Order;
  accessRequests : Table.t AccessRequest }.

Definition empty : t :=
  mk (Table.mk [] 1) (Table.mk [] 1) (Table.mk [] 1) (Table.mk [] 1)
     (Table.mk [] 1) (Table.mk [] 1).

Definition set_users x (s : t) : t :=
  mk x (products s) (catalogues s) (catalogueProducts s) (orders s)
     (accessRequests s).
Definition set_products x (s : t) : t :=
  mk (users s) x (catalogues s) (catalogueProducts s) (orders s)
     (accessRequests s).
Definition set_catalogues x (s : t) : t :=
  mk (users s) (products s) x (catalogueProducts s) (orders s)
     (accessRequests s).
Definition set_catalogueProducts x (s : t) : t :=
  mk (users s) (products s) (catalogues s) x (orders s) (accessRequests s).
Definition set_orders x (s : t) : t :=
  mk (users s) (products s) (catalogues s) (catalogueProducts s) x
     (accessRequests s).
Definition set_accessRequests x (s : t) : t :=
  mk (users s) (products s) (catalogues s) (catalogueProducts s) (orders s)
     x.

(** *** User operations *)
Definition getUser (id : Z) (s : t) : option User :=
  hd_error (Table.select (fun u => User.id u =? id) (users s)).

Definition getUserByUsername (username : string) (s : t) : option User :=
  hd_error (Table.select (fun u => (User.username u =? username)%string)
                         (users s)).

Definition getUserByEmail (email : string) (s : t) : option User :=
  hd_error (Table.select (fun u => (User.email u =? email)%string)
                         (users s)).

Definition createUser (now : Z) (u : InsertUser) (s : t) : t * User :=
  let (tb, user) :=
    Table.insert (fun id => User.mk id (InsertUser.username u)
                              (InsertUser.password u) (InsertUser.email u)
                              (InsertUser.company u) now)
                 (users s) in
  (set_users tb s, user).

(** *** Product operations *)
Definition getProducts (userId : Z) (s : t) : list Product :=
  Table.select (fun p => Product.userId p =? userId) (products s).

Definition getProduct (id : Z) (s : t) : option Product :=
  hd_error (Table.select (fun p => Product.id p =? id) (products s)).

Definition createProduct (now : Z) (p : InsertProduct) (s : t)
  : t * Product :=
  let (tb, product) :=
    Table.insert
      (fun id => Product.mk id (InsertProduct.userId p)
                   (InsertProduct.name p) (InsertProduct.description p)
                   (InsertProduct.price p) (InsertProduct.imageUrl p)
                   (InsertProduct.category p) (InsertProduct.inStock p) now)
      (products s) in
  (set_products tb s, product).

Definition updateProduct (id : Z) (u : ProductUpdates) (s : t)
  : t * option Product :=
  let originalProduct :=
    match ProductUpdates.price u with
    | None => getProduct id s
    | Some _ => None
    end in
  let price :=
    match ProductUpdates.price u with
    | Some p => Some p
    | None => option_map Product.price originalProduct
    end in
  let updatesWithStringPrice := ProductUpdates.with_price price u in
  let (tb, updated) :=
    Table.update (fun p => Product.id p =? id)
                 (ProductUpdates.apply updatesWithStringPrice)
                 (products s) in
  (set_products tb s, hd_error updated).

Definition deleteProduct (id : Z) (s : t) : t * bool :=
  let (tb, n) := Table.delete (fun p => Product.id p =? id) (products s) in
  (set_products tb s, affected n).

(** *** Catalogue operations *)
Definition getCatalogues (userId : Z) (s : t) : list Catalogue :=
  Table.select (fun c => Catalogue.userId c =? userId) (catalogues s).

Definition getCatalogue (id : Z) (s : t) : option Catalogue :=
  hd_error (Table.select (fun c => Catalogue.id c =? id) (catalogues s)).

Definition getCatalogueByLink (link : string) (s : t) : option Catalogue :=
  hd_error (Table.select
              (fun c => (Catalogue.shareableLink c =? link)%string)
              (catalogues s)).

Definition createCatalogue (now : Z) (c : InsertCatalogue) (s : t)
  : t * Catalogue :=
  let (tb, catalogue) :=
    Table.insert
      (fun id => Catalogue.mk id (InsertCatalogue.userId c)
                   (InsertCatalogue.name c) (InsertCatalogue.description c)
                   (InsertCatalogue.shareableLink c)
                   (InsertCatalogue.isPublic c) (Some 0) now)
      (catalogues s) in
  (set_catalogues tb s, catalogue).

Definition updateCatalogue (id : Z) (u : CatalogueUpdates) (s : t)
  : t * option Catalogue :=
  let (tb, updated) :=
    Table.update (fun c => Catalogue.id c =? id) (CatalogueUpdates.apply u)
                 (catalogues s) in
  (set_catalogues tb s, hd_error updated).

Definition deleteCatalogue (id : Z) (s : t) : t * bool :=
  let (tb, n) :=
    Table.delete (fun c => Catalogue.id c =? id) (catalogues s) in
  (set_catalogues tb s, affected n).

Definition incrementCatalogueViews (id : Z) (s : t) : t :=
  match getCatalogue id s with
  | Some catalogue =>
      let currentViews := or_zero (Catalogue.views catalogue) in
      let (tb, _) :=
        Table.update (fun c => Catalogue.id c =? id)
                     (Catalogue.with_views (Some (currentViews + 1)))
                     (catalogues s) in
      set_catalogues tb s
  | None => s
  end.

(** *** Catalogue Products operations *)
Definition addProductToCatalogue (catalogueId productId : Z) (s : t)
  : t * CatalogueProduct :=
  let (tb, cp) :=
    Table.insert (fun id => CatalogueProduct.mk id catalogueId productId)
                 (catalogueProducts s) in
  (set_catalogueProducts tb s, cp).

Definition removeProductFromCatalogue (catalogueId productId : Z) (s : t)
  : t * bool :=
  let (tb, n) :=
    Table.delete
      (fun cp => (CatalogueProduct.catalogueId cp =? catalogueId)
                 && (CatalogueProduct.productId cp =? productId))
      (catalogueProducts s) in
  (set_catalogueProducts tb s, affected n).

(** [from(catalogueProducts).innerJoin(products, ...).where(...)] *)
Definition getCatalogueProducts (catalogueId : Z) (s : t) : list Product :=
  flat_map
    (fun cp =>
       Table.select (fun p => CatalogueProduct.productId cp =? Product.id p)
                    (products s))
    (Table.select (fun cp => CatalogueProduct.catalogueId cp =? catalogueId)
                  (catalogueProducts s)).

(** *** Order operations *)
Definition getOrders (userId : Z) (s : t) : list Order :=
  Table.order_by_desc Order.orderDate
    (Table.select (fun o => Order.userId o =? userId) (orders s)).

Definition getOrder (id : Z) (s : t) : option Order :=
  hd_error (Table.select (fun o => Order.id o =? id) (orders s)).

Definition getOrderByOrderId (orderId : string) (s : t) : option Order :=
  hd_error (Table.select (fun o => (Order.orderId o =? orderId)%string)
                         (orders s)).

Definition createOrder (now : Z) (pool : Pool) (o : InsertOrder) (s : t)
  : t * Order :=
  let orderId :=
    match InsertOrder.orderId o with
    | Some x => if (x =? "")%string then new_orderId pool else x
    | None => new_orderId pool
    end in
  let (tb, order) :=
    Table.insert
      (fun id =>
         Order.mk id (InsertOrder.userId o) orderId
           (InsertOrder.catalogueId o) (InsertOrder.retailerName o)
           (InsertOrder.retailerEmail o)
           (or_string (InsertOrder.retailerCompany o) "")
           (InsertOrder.items o) (InsertOrder.amount o)
           (Some (or_string (InsertOrder.paymentStatus o) "pending")) now)
      (orders s) in
  (set_orders tb s, order).

(** [set({ paymentStatus })]: with [paymentStatus] undefined there is
    nothing to set. *)
Definition updateOrderPaymentStatus (orderId : string)
           (paymentStatus : option string) (s : t) : t * option Order :=
  let (tb, updated) :=
    Table.update (fun o => (Order.orderId o =? orderId)%string)
                 (match paymentStatus with
                  | Some _ => Order.with_paymentStatus paymentStatus
                  | None => fun o => o
                  end)
                 (orders s) in
  (set_orders tb s, hd_error updated).

Definition getOrdersByEmail (email : string) (s : t) : list Order :=
  Table.select (fun o => (Order.retailerEmail o =? email)%string) (orders s).

(** *** Access request operations *)
Definition createAccessRequest (now : Z) (r : InsertAccessRequest) (s : t)
  : t * Z :=
  let (tb, accessRequest) :=
    Table.insert
      (fun id =>
         AccessRequest.mk id (InsertAccessRequest.catalogueId r)
           (InsertAccessRequest.name r) (InsertAccessRequest.email r)
           (InsertAccessRequest.company r) (InsertAccessRequest.message r)
           (or_else (InsertAccessRequest.status r) pending) now)
      (accessRequests s) in
  (set_accessRequests tb s, AccessRequest.id accessRequest).

Definition getAccessRequest (id : Z) (s : t) : option AccessRequest :=
  hd_error (Table.select (fun r => AccessRequest.id r =? id)
                         (accessRequests s)).

Definition getAccessRequestByEmail (catalogueId : Z) (email : string)
           (s : t) : option AccessRequest :=
  hd_error (Table.select
              (fun r => (AccessRequest.catalogueId r =? catalogueId)
                        && (AccessRequest.email r =? email)%string)
              (accessRequests s)).

Definition getAccessRequests (catalogueId : Z) (s : t)
  : list AccessRequest :=
  Table.order_by_desc AccessRequest.requestDate
    (Table.select (fun r => AccessRequest.catalogueId r =? catalogueId)
                  (accessRequests s)).

Definition updateAccessRequest (id : Z) (status : Status) (s : t)
  : t * bool :=
  let (tb, updated) :=
    Table.update (fun r => AccessRequest.id r =? id)
                 (AccessRequest.with_status status) (accessRequests s) in
  (set_accessRequests tb s, affected (List.length updated)).

End DatabaseStorage.

(** ** [interface IStorage] *)

(** The operations of the interface, on a storage state [S].  A read is a
    function of the state; a write gives the new state and its result.
    [held] is not a method of the interface: it is the catalogue object a
    handler got from the storage, as it reads later in the same request.
    [MemStorage] hands out the objects it keeps and assigns to them in
    place, so the handler sees the stored object; a database row that was
    read is a copy. *)
Class IStorage (S : Type) := {
  getUser : Z -> S -> option User;
  getUserByUsername : string -> S -> option User;
  getUserByEmail : string -> S -> option User;
  createUser : Z -> InsertUser -> S -> S * User;
  getProducts : Z -> S -> list Product;
  getProduct : Z -> S -> option Product;
  createProduct : Z -> InsertProduct -> S -> S * Product;
  updateProduct : Z -> ProductUpdates -> S -> S * option Product;
  deleteProduct : Z -> S -> S * bool;
  getCatalogues : Z -> S -> list Catalogue;
  getCatalogue : Z -> S -> option Catalogue;
  getCatalogueByLink : string -> S -> option Catalogue;
  createCatalogue : Z -> InsertCatalogue -> S -> S * Catalogue;
  updateCatalogue : Z -> CatalogueUpdates -> S -> S * option Catalogue;
  deleteCatalogue : Z -> S -> S * bool;
  incrementCatalogueViews : Z -> S -> S;
  addProductToCatalogue : Z -> Z -> S -> S * CatalogueProduct;
  removeProductFromCatalogue : Z -> Z -> S -> S * bool;
  getCatalogueProducts : Z -> S -> list Product;
  getOrders : Z -> S -> list Order;
  getOrder : Z -> S -> option Order;
  getOrderByOrderId : string -> S -> option Order;
  createOrder : Z -> Pool -> InsertOrder -> S -> S * Order;
  updateOrderPaymentStatus : string -> option string -> S -> S * option Order;
  getOrdersByEmail : string -> S -> list Order;
  createAccessRequest : Z -> InsertAccessRequest -> S -> S * Z;
  getAccessRequest : Z -> S -> option AccessRequest;
  getAccessRequestByEmail : Z -> string -> S -> option AccessRequest;
  getAccessRequests : Z -> S -> list AccessRequest;
  updateAccessRequest : Z -> Status -> S -> S * bool;
  held : S -> Catalogue -> Catalogue
}.

#[export] Instance MemStorage_IStorage : IStorage MemStorage.t := {
  getUser := MemStorage.getUser;
  getUserByUsername := MemStorage.getUserByUsername;
  getUserByEmail := MemStorage.getUserByEmail;
  createUser := MemStorage.createUser;
  getProducts := MemStorage.getProducts;
  getProduct := MemStorage.getProduct;
  createProduct := MemStorage.createProduct;
  updateProduct := MemStorage.updateProduct;
  deleteProduct := MemStorage.deleteProduct;
  getCatalogues := MemStorage.getCatalogues;
  getCatalogue := MemStorage.getCatalogue;
  getCatalogueByLink := MemStorage.getCatalogueByLink;
  createCatalogue := MemStorage.createCatalogue;
  updateCatalogue := MemStorage.updateCatalogue;
  deleteCatalogue := MemStorage.deleteCatalogue;
  incrementCatalogueViews := MemStorage.incrementCatalogueViews;
  addProductToCatalogue := MemStorage.addProductToCatalogue;
  removeProductFromCatalogue := MemStorage.removeProductFromCatalogue;
  getCatalogueProducts := MemStorage.getCatalogueProducts;
  getOrders := MemStorage.getOrders;
  getOrder := MemStorage.getOrder;
  getOrderByOrderId := MemStorage.getOrderByOrderId;
  createOrder := MemStorage.createOrder;
  updateOrderPaymentStatus := MemStorage.updateOrderPaymentStatus;
  getOrdersByEmail := MemStorage.getOrdersByEmail;
  createAccessRequest := MemStorage.createAccessRequest;
  getAccessRequest := MemStorage.getAccessRequest;
  getAccessRequestByEmail := MemStorage.getAccessRequestByEmail;
  getAccessRequests := MemStorage.getAccessRequests;
  updateAccessRequest := MemStorage.updateAccessRequest;
  held := fun s c =>
    match MemStorage.getCatalogue (Catalogue.id c) s with
    | Some c' => c'
    | None => c
    end
}.

(** [export const storage = new DatabaseStorage()] *)
#[export] Instance DatabaseStorage_IStorage : IStorage DatabaseStorage.t := {
  getUser := DatabaseStorage.getUser;
  getUserByUsername := DatabaseStorage.getUserByUsername;
  getUserByEmail := DatabaseStorage.getUserByEmail;
  createUser := DatabaseStorage.createUser;
  getProducts := DatabaseStorage.getProducts;
  getProduct := DatabaseStorage.getProduct;
  createProduct := DatabaseStorage.createProduct;
  updateProduct := DatabaseStorage.updateProduct;
  deleteProduct := DatabaseStorage.deleteProduct;
  getCatalogues := DatabaseStorage.getCatalogues;
  getCatalogue := DatabaseStorage.getCatalogue;
  getCatalogueByLink := DatabaseStorage.getCatalogueByLink;
  createCatalogue := DatabaseStorage.createCatalogue;
  updateCatalogue := DatabaseStorage.updateCatalogue;
  deleteCatalogue := DatabaseStorage.deleteCatalogue;
  incrementCatalogueViews := DatabaseStorage.incrementCatalogueViews;
  addProductToCatalogue := DatabaseStorage.addProductToCatalogue;
  removeProductFromCatalogue := DatabaseStorage.removeProductFromCatalogue;
  getCatalogueProducts := DatabaseStorage.getCatalogueProducts;
  getOrders := DatabaseStorage.getOrders;
  getOrder := DatabaseStorage.getOrder;
  getOrderByOrderId := DatabaseStorage.getOrderByOrderId;
  createOrder := DatabaseStorage.createOrder;
  updateOrderPaymentStatus := DatabaseStorage.updateOrderPaymentStatus;
  getOrdersByEmail := DatabaseStorage.getOrdersByEmail;
  createAccessRequest := DatabaseStorage.createAccessRequest;
  getAccessRequest := DatabaseStorage.getAccessRequest;
  getAccessRequestByEmail := DatabaseStorage.getAccessRequestByEmail;
  getAccessRequests := DatabaseStorage.getAccessRequests;
  updateAccessRequest := DatabaseStorage.updateAccessRequest;
  held := fun _ c => c
}.

(** ** JavaScript built-ins used by the handlers *)

Definition is_space1 (x : nat) : bool :=
  ((9 <=? x) && (x <=? 13) || (x =? 32))%nat.

(** The two-byte and three-byte UTF-8 forms of the white space and line
    terminators that [parseInt] skips: U+00A0; U+1680, U+2000 to U+200A,
    U+2028, U+2029, U+202F, U+205F, U+3000, U+FEFF. *)
Definition is_space2 (x y : nat) : bool := ((x =? 194) && (y =? 160))%nat.

Definition is_space3 (x y z : nat) : bool :=
  ((x =? 225) && (y =? 154) && (z =? 128)
   || (x =? 226) && (y =? 128)
      && ((128 <=? z) && (z <=? 138) || (z =? 168) || (z =? 169) || (z =? 175))
   || (x =? 226) && (y =? 129) && (z =? 159)
   || (x =? 227) && (y =? 128) && (z =? 128)
   || (x =? 239) && (y =? 187) && (z =? 191))%nat.

Fixpoint skip_space (s : string) : string :=
  match s with
  | EmptyString => s
  | String a s1 =>
      if is_space1 (nat_of_ascii a) then skip_space s1
      else
        match s1 with
        | EmptyString => s
        | String b s2 =>
            if is_space2 (nat_of_ascii a) (nat_of_ascii b) then skip_space s2
            else
              match s2 with
              | EmptyString => s
              | String c s3 =>
                  if is_space3 (nat_of_ascii a) (nat_of_ascii b)
                               (nat_of_ascii c)
                  then skip_space s3 else s
              end
        end
  end.

Definition digit_of (c : ascii) : option Z :=
  let n := Z.of_nat (nat_of_ascii c) in
  if (48 <=? n) && (n <=? 57) then Some (n - 48)
  else if (97 <=? n) && (n <=? 122) then Some (n - 87)
  else if (65 <=? n) && (n <=? 90) then Some (n - 55)
  else None.

(** The longest prefix of digits of the radix; [None] when there is none. *)
Fixpoint parse_digits (radix : Z) (s : string) (acc : option Z) : option Z :=
  match s with
  | EmptyString => acc
  | String c s' =>
      match digit_of c with
      | Some d =>
          if d <? radix
          then parse_digits radix s' (Some (or_zero acc * radix + d))
          else acc
      | None => acc
      end
  end.

(** [parseInt(s)] with no radix argument; [None] is [NaN]. *)
Definition parseInt_string (s : string) : option Z :=
  let s0 := skip_space s in
  let '(sign, s1) :=
    match s0 with
    | String "-" r => (-1, r)
    | String "+" r => (1, r)
    | _ => (1, s0)
    end in
  let '(radix, s2) :=
    match s1 with
    | String "0" (String "x" r) | String "0" (String "X" r) => (16, r)
    | _ => (10, s1)
    end in
  option_map (Z.mul sign) (parse_digits radix s2 None).

(** [parseInt(v)]: the argument is first converted to a string.  An array
    converts to its elements joined by commas, so only the first element
    counts; [null], booleans and objects give no digits.  The numbers of
    the model are the integers and the result is exact; JavaScript agrees
    on the safe integers ([safe_integer] below), and rounds or prints an
    exponent beyond them. *)
Fixpoint parseInt (v : JsValue) : option Z :=
  match v with
  | JNum n => Some n
  | JStr s => parseInt_string s
  | JArr (x :: _) => parseInt x
  | _ => None
  end.

(** [n.toString()] *)
Definition Z_toString (n : Z) : string :=
  DecimalString.NilZero.string_of_int (Z.to_int n).

(** [numbers.includes(n)] *)
Definition includes_number (l : list Z) (n : Z) : bool :=
  existsb (fun m => m =? n) l.

(** [values.includes(s)] for a string [s]: [includes] compares with
    SameValueZero, so only an element that is the same string counts. *)
Definition includes_string (l : list JsValue) (s : string) : bool :=
  existsb (fun v => match v with
                    | JStr s' => (s' =? s)%string
                    | _ => false
                    end) l.

(** [authHeader && authHeader.startsWith('Bearer ')], then
    [authHeader.substring(7)] *)
Definition bearer_token (authHeader : option string) : option string :=
  match authHeader with
  | Some h =>
      if String.prefix "Bearer " h
      then Some (String.substring 7 (String.length h - 7) h)
      else None
  | None => None
  end.

(** [!!s] for an optional string *)
Definition present (o : option string) : bool :=
  match o with
  | Some s => negb (s =? "")%string
  | None => false
  end.

(** The string of a field that is present. *)
Definition text (o : option string) : string :=
  match o with Some s => s | None => "" end.

(** The body of request-access as the handler destructures it:
    [const { name, email, company, message } = req.body]. *)
Record AccessBody := {
  body_name : option string;
  body_email : option string;
  body_company : option string;
  body_message : option string }.

(** What the handlers take from the platform and from [@shared/schema],
    neither of which is in the source.

    - [decodeToken token] is
      [JSON.parse(Buffer.from(token, 'base64').toString())]; [None] when
      [JSON.parse] throws.
    - [encodeToken catalogueId email exp] is
      [btoa(JSON.stringify({ catalogueId, email, exp }))].
    - [lt_coerced v n] is [v < n] for a [v] that is not a number, where
      JavaScript first converts [v] to one.
    - [sum_toFixed2 amounts] is the floating-point sum of [parseFloat] of
      the amounts, printed with [toFixed(2)].
    - [thirtyDaysAgo now] is the date that [setDate(getDate() - 30)] gives.
    - The [parse] functions are the zod schemas; [None] when [parse]
      throws. *)
Record Platform := {
  decodeToken : string -> option JsValue;
  encodeToken : Z -> string -> Z -> string;
  lt_coerced : JsValue -> Z -> bool;
  sum_toFixed2 : list string -> string;
  thirtyDaysAgo : Z -> Z;
  insertProductSchema_parse : JsObject -> option InsertProduct;
  insertProductSchema_partial_parse : JsObject -> option ProductUpdates;
  insertCatalogueSchema_parse : JsObject -> option InsertCatalogue;
  insertCatalogueSchema_partial_parse : JsObject -> option CatalogueUpdates;
  insertOrderSchema_parse : JsObject -> option InsertOrder
}.

(** [v < n] *)
Definition js_lt (pf : Platform) (v : JsValue) (n : Z) : bool :=
  match v with
  | JNum x => x <? n
  | _ => lt_coerced pf v n
  end.

(** [n !== v] for a number [n] *)
Definition differs (n : Z) (v : JsValue) : bool :=
  match v with
  | JNum x => negb (n =? x)
  | _ => true
  end.

(** [s !== v] for a string [s] *)
Definition differs_string (s : string) (v : JsValue) : bool :=
  match v with
  | JStr x => negb (s =? x)%string
  | _ => true
  end.

(** [{ catalogueId, email, exp }], the payload of an access token *)
Definition tokenPayload (catalogueId : Z) (email : string) (exp : Z)
  : JsObject :=
  [ ("catalogueId", JNum catalogueId); ("email", JStr email);
    ("exp", JNum exp) ].

(** ** Responses *)
Inductive Response :=
| Json (status : Z) (body : JsValue)
| Send (status : Z)
| Next (error : string).

Definition status_of (r : Response) : option Z :=
  match r with
  | Json n _ | Send n => Some n
  | Next _ => None
  end.

Definition body_of (r : Response) : JsValue :=
  match r with
  | Json _ body => body
  | Send _ | Next _ => JUndefined
  end.

Definition message (m : string) : JsValue := JObj [("message", JStr m)].

(** ** [registerRoutes]

    Each handler takes what it reads from the request: the session user
    ([None] when [req.isAuthenticated()] is false), the route parameters
    (a numeric [:id] already through [parseInt]; an [:id] that is not a
    number finds nothing), the body, the [Authorization] header, the clock
    and the random pool.  A body that goes through a zod schema is the JSON
    object; the few fields that a handler destructures and uses as strings
    are optional strings, [None] for an absent field. *)
Section Routes.
Context {S : Type} {storage : IStorage S}.
Variable pf : Platform.

Definition not_authenticated : Response :=
  Json 401 (message "Not authenticated").

Definition products_js (l : list Product) : JsValue :=
  JArr (map (fun p => JObj (Product.to_js p)) l).

Definition orders_js (l : list Order) : JsValue :=
  JArr (map (fun o => JObj (Order.to_js o)) l).

Definition opt_obj {A} (f : A -> JsObject) (o : option A) : JsValue :=
  match o with Some a => JObj (f a) | None => JUndefined end.

(** *** Products routes *)

(** GET /api/products *)
Definition get_products (user : option User) (s : S) : S * Response :=
  match user with
  | None => (s, not_authenticated)
  | Some u => (s, Json 200 (products_js (getProducts (User.id u) s)))
  end.

(** GET /api/products/:id *)
Definition get_product (user : option User) (productId : Z) (s : S)
  : S * Response :=
  match user with
  | None => (s, not_authenticated)
  | Some u =>
      match getProduct productId s with
      | None => (s, Json 404 (message "Product not found"))
      | Some product =>
          if negb (Product.userId product =? User.id u)
          then (s, Json 403 (message "Unauthorized"))
          else (s, Json 200 (JObj (Product.to_js product)))
      end
  end.

(** POST /api/products *)
Definition post_products (user : option User) (body : JsObject) (now : Z)
           (s : S) : S * Response :=
  match user with
  | None => (s, not_authenticated)
  | Some u =>
      match insertProductSchema_parse pf
              (obj_set "userId" (JNum (User.id u)) body) with
      | None => (s, Next "ZodError")
      | Some validatedData =>
          let (s', product) := createProduct now validatedData s in
          (s', Json 201 (JObj (Product.to_js product)))
      end
  end.

(** PUT /api/products/:id *)
Definition put_product (user : option User) (productId : Z)
           (body : JsObject) (s : S) : S * Response :=
  match user with
  | None => (s, not_authenticated)
  | Some u =>
      match getProduct productId s with
      | None => (s, Json 404 (message "Product not found"))
      | Some product =>
          if negb (Product.userId product =? User.id u)
          then (s, Json 403 (message "Unauthorized"))
          else
            match insertProductSchema_partial_parse pf body with
            | None => (s, Next "ZodError")
            | Some validatedData =>
                let (s', updatedProduct) :=
                  updateProduct productId validatedData s in
                (s', Json 200 (opt_obj Product.to_js updatedProduct))
            end
      end
  end.

(** DELETE /api/products/:id *)
Definition delete_product (user : option User) (productId : Z) (s : S)
  : S * Response :=
  match user with
  | None => (s, not_authenticated)
  | Some u =>
      match getProduct productId s with
      | None => (s, Json 404 (message "Product not found"))
      | Some product =>
          if negb (Product.userId product =? User.id u)
          then (s, Json 403 (message "Unauthorized"))
          else (fst (deleteProduct productId s), Send 204)
      end
  end.

(** *** Catalogue routes *)

(** GET /api/catalogues *)
Definition get_catalogues (user : option User) (s : S) : S * Response :=
  match user with
  | None => (s, not_authenticated)
  | Some u =>
      (s, Json 200 (JArr (map (fun c => JObj (Catalogue.to_js c))
                              (getCatalogues (User.id u) s))))
  end.

(** GET /api/catalogues/:id *)
Definition get_catalogue (user : option User) (catalogueId : Z) (s : S)
  : S * Response :=
  match user with
  | None => (s, not_authenticated)
  | Some u =>
      match getCatalogue catalogueId s with
      | None => (s, Json 404 (message "Catalogue not found"))
      | Some catalogue =>
          if negb (Catalogue.userId catalogue =? User.id u)
          then (s, Json 403 (message "Unauthorized"))
          else
            let products := getCatalogueProducts catalogueId s in
            (s, Json 200 (JObj (obj_set "products" (products_js products)
                                        (Catalogue.to_js catalogue))))
      end
  end.

(** One round of the loop that attaches the products of
    [req.body.productIds] to a new catalogue. *)
Definition attach_product (u : User) (catalogueId : Z) (s : S)
           (productId : JsValue) : S :=
  match parseInt productId with
  | None => s
  | Some n =>
      match getProduct n s with
      | Some product =>
          if Product.userId product =? User.id u
          then fst (addProductToCatalogue catalogueId (Product.id product) s)
          else s
      | None => s
      end
  end.

(** POST /api/catalogues *)
Definition post_catalogues (user : option User) (body : JsObject) (now : Z)
           (pool : Pool) (s : S) : S * Response :=
  match user with
  | None => (s, not_authenticated)
  | Some u =>
      let shareableLink := "catalogue-" ++ nanoid 10 pool in
      match insertCatalogueSchema_parse pf
              (obj_set "shareableLink" (JStr shareableLink)
                       (obj_set "userId" (JNum (User.id u)) body)) with
      | None => (s, Next "ZodError")
      | Some validatedData =>
          let (s1, catalogue) := createCatalogue now validatedData s in
          let s2 :=
            match obj_get "productIds" body with
            | Some (JArr productIds) =>
                fold_left (attach_product u (Catalogue.id catalogue))
                          productIds s1
            | _ => s1
            end in
          (s2, Json 201 (JObj (Catalogue.to_js catalogue)))
      end
  end.

(** "Add new products": one round of the first loop of the update. *)
Definition sync_add (u : User) (catalogueId : Z) (currentProductIds : list Z)
           (s : S) (productId : JsValue) : S :=
  match parseInt productId with
  | None => s
  | Some n =>
      if includes_number currentProductIds n then s
      else
        match getProduct n s with
        | Some product =>
            if Product.userId product =? User.id u
            then fst (addProductToCatalogue catalogueId (Product.id product)
                                            s)
            else s
        | None => s
        end
  end.

(** "Remove products that are no longer in the list": one round of the
    second loop. *)
Definition sync_remove (catalogueId : Z) (productIds : list JsValue) (s : S)
           (currentProductId : Z) : S :=
  if negb (includes_string productIds (Z_toString currentProductId))
  then fst (removeProductFromCatalogue catalogueId currentProductId s)
  else s.

Definition sync_products (u : User) (catalogueId : Z)
           (productIds : list JsValue) (s : S) : S :=
  let currentProducts := getCatalogueProducts catalogueId s in
  let currentProductIds := map Product.id currentProducts in
  let s1 := fold_left (sync_add u catalogueId currentProductIds)
                      productIds s in
  fold_left (sync_remove catalogueId productIds) currentProductIds s1.

(** PUT /api/catalogues/:id *)
Definition put_catalogue (user : option User) (catalogueId : Z)
           (body : JsObject) (s : S) : S * Response :=
  match user with
  | None => (s, not_authenticated)
  | Some u =>
      match getCatalogue catalogueId s with
      | None => (s, Json 404 (message "Catalogue not found"))
      | Some catalogue =>
          if negb (Catalogue.userId catalogue =? User.id u)
          then (s, Json 403 (message "Unauthorized"))
          else
            let updateData := obj_delete "productIds" body in
            match insertCatalogueSchema_partial_parse pf updateData with
            | None => (s, Next "ZodError")
            | Some parsed =>
                let validatedData := CatalogueUpdates.delete_userId parsed in
                let (s1, updatedCatalogue) :=
                  updateCatalogue catalogueId validatedData s in
                let s2 :=
                  match obj_get "productIds" body with
                  | Some (JArr productIds) =>
                      sync_products u catalogueId productIds s1
                  | _ => s1
                  end in
                (s2, Json 200 (opt_obj Catalogue.to_js updatedCatalogue))
            end
      end
  end.

(** DELETE /api/catalogues/:id *)
Definition delete_catalogue (user : option User) (catalogueId : Z) (s : S)
  : S * Response :=
  match user with
  | None => (s, not_authenticated)
  | Some u =>
      match getCatalogue catalogueId s with
      | None => (s, Json 404 (message "Catalogue not found"))
      | Some catalogue =>
          if negb (Catalogue.userId catalogue =? User.id u)
          then (s, Json 403 (message "Unauthorized"))
          else (fst (deleteCatalogue catalogueId s), Send 204)
      end
  end.

(** *** Shared catalogue routes *)

(** GET /api/shared/:link/info *)
Definition shared_info (link : string) (s : S) : S * Response :=
  match getCatalogueByLink link s with
  | None => (s, Json 404 (message "Catalogue not found"))
  | Some catalogue =>
      (s, Json 200 (JObj [("name", JStr (Catalogue.name catalogue));
                          ("description",
                           opt_js JStr (Catalogue.description catalogue))]))
  end.

(** POST /api/shared/:link/request-access *)
Definition request_access (link : string) (body : AccessBody) (now : Z)
           (s : S) : S * Response :=
  if negb (present (body_name body)) || negb (present (body_email body))
     || negb (present (body_company body))
  then (s, Json 400 (message "Missing required fields"))
  else
    match getCatalogueByLink link s with
    | None => (s, Json 404 (message "Catalogue not found"))
    | Some catalogue =>
        let (s', requestId) :=
          createAccessRequest now
            (InsertAccessRequest.mk (Catalogue.id catalogue)
               (text (body_name body)) (text (body_email body))
               (text (body_company body))
               (Some (or_string (body_message body) ""))
               (Some pending) now)
            s in
        (s', Json 201 (JObj [("id", JNum requestId);
                             ("status", JStr "pending")]))
    end.

Definition week_ms : Z := 7 * 24 * 60 * 60 * 1000.

(** POST /api/shared/:link/check-access *)
Definition check_access (link : string) (email : option string) (now : Z)
           (s : S) : S * Response :=
  if negb (present email)
  then (s, Json 400 (message "Email is required"))
  else
    match getCatalogueByLink link s with
    | None => (s, Json 404 (message "Catalogue not found"))
    | Some catalogue =>
        match getAccessRequestByEmail (Catalogue.id catalogue) (text email) s
        with
        | None => (s, Json 404 (message "Access request not found"))
        | Some accessRequest =>
            let granted :=
              Status_eqb (AccessRequest.status accessRequest) approved in
            if granted then
              let accessToken :=
                encodeToken pf (Catalogue.id catalogue) (text email)
                            (now + week_ms) in
              (s, Json 200 (JObj [("granted", JBool true);
                                  ("accessToken", JStr accessToken)]))
            else (s, Json 200 (JObj [("granted", JBool false)]))
        end
    end.

(** The token is decoded, and when [JSON.parse] throws it is decoded once
    more through [atob], which this file defines as the same [Buffer]
    call. *)
Definition decode_twice (token : string) : option JsValue :=
  match decodeToken pf token with
  | Some tokenData => Some tokenData
  | None => decodeToken pf token
  end.

(** [!tokenData || !tokenData.catalogueId || !tokenData.exp] *)
Definition bad_token_format (tokenData : JsValue) : bool :=
  negb (truthy tokenData)
  || negb (truthy (prop tokenData "catalogueId"))
  || negb (truthy (prop tokenData "exp")).

(** POST /api/shared/:link/retailer-info *)
Definition retailer_info (link : string) (email : option string)
           (authHeader : option string) (now : Z) (s : S) : S * Response :=
  match bearer_token authHeader with
  | None => (s, Json 401 (message "Unauthorized"))
  | Some token =>
      match decode_twice token with
      | None => (s, Json 401 (message "Invalid token format"))
      | Some tokenData =>
          if bad_token_format tokenData
          then (s, Json 401 (message "Invalid token format"))
          else if js_lt pf (prop tokenData "exp") now
          then (s, Json 401 (message "Token expired"))
          else
            match getCatalogueByLink link s with
            | None => (s, Json 404 (message "Catalogue not found"))
            | Some catalogue =>
                if differs (Catalogue.id catalogue)
                           (prop tokenData "catalogueId")
                then (s, Json 404 (message "Catalogue not found"))
                else
                  let accessRequest :=
                    match email with
                    | Some e =>
                        getAccessRequestByEmail (Catalogue.id catalogue) e s
                    | None => None
                    end in
                  match accessRequest with
                  | Some r =>
                      if negb (Status_eqb (AccessRequest.status r) approved)
                      then (s, Json 404 (message
                             "Access request not found or not approved"))
                      else
                        (s, Json 200
                              (JObj [("name", JStr (AccessRequest.name r));
                                     ("email", JStr (AccessRequest.email r));
                                     ("company",
                                      JStr (AccessRequest.company r))]))
                  | None => (s, Json 404 (message
                               "Access request not found or not approved"))
                  end
            end
      end
  end.

(** [tokenData.email]: the access throws a [TypeError] on [null]. *)
Definition token_email (tokenData : JsValue) : option JsValue :=
  match tokenData with
  | JNull | JUndefined => None
  | _ => Some (prop tokenData "email")
  end.

(** GET /api/shared/:link/orders.  An [email] in the token that is not a
    string equals no order's [retailerEmail]. *)
Definition shared_orders (link : string) (authHeader : option string)
           (s : S) : S * Response :=
  match bearer_token authHeader with
  | None => (s, Json 401 (message "Unauthorized"))
  | Some token =>
      match decodeToken pf token with
      | None => (s, Json 401 (message "Invalid token"))
      | Some tokenData =>
          match getCatalogueByLink link s with
          | None => (s, Json 404 (message "Catalogue not found"))
          | Some catalogue =>
              match token_email tokenData with
              | None => (s, Next "TypeError")
              | Some (JStr email) =>
                  (s, Json 200 (orders_js (getOrdersByEmail email s)))
              | Some _ => (s, Json 200 (JArr []))
              end
          end
      end
  end.

(** PUT /api/shared/:link/orders/:orderId/payment-status *)
Definition shared_payment_status (link orderId : string)
           (status : option string) (authHeader : option string) (s : S)
  : S * Response :=
  match bearer_token authHeader with
  | None => (s, Json 401 (message "Unauthorized"))
  | Some token =>
      match decodeToken pf token with
      | None => (s, Json 401 (message "Invalid token"))
      | Some tokenData =>
          match getOrderByOrderId orderId s with
          | None => (s, Json 404 (message "Order not found"))
          | Some order =>
              match token_email tokenData with
              | None => (s, Next "TypeError")
              | Some email =>
                  if differs_string (Order.retailerEmail order) email
                  then (s, Json 403 (message "Unauthorized"))
                  else
                    let (s', updatedOrder) :=
                      updateOrderPaymentStatus orderId status s in
                    (s', Json 200 (opt_obj Order.to_js updatedOrder))
              end
          end
      end
  end.

(** GET /api/shared/:link/view *)
Definition shared_view (link : string) (authHeader : option string)
           (now : Z) (s : S) : S * Response :=
  match bearer_token authHeader with
  | None =>
      (s, Json 401 (message
            "Unauthorized - Missing or invalid authorization header"))
  | Some token =>
      match decode_twice token with
      | None => (s, Json 401 (message "Invalid token format"))
      | Some tokenData =>
          if bad_token_format tokenData
          then (s, Json 401 (message "Invalid token format"))
          else if js_lt pf (prop tokenData "exp") now
          then (s, Json 401 (message "Token expired"))
          else
            match getCatalogueByLink link s with
            | None => (s, Json 404 (message "Catalogue not found"))
            | Some catalogue =>
                if differs (Catalogue.id catalogue)
                           (prop tokenData "catalogueId")
                then (s, Json 401 (message
                            "Invalid token for this catalogue"))
                else
                  let s1 :=
                    incrementCatalogueViews (Catalogue.id catalogue) s in
                  let products :=
                    getCatalogueProducts (Catalogue.id catalogue) s1 in
                  match getUser (Catalogue.userId catalogue) s1 with
                  | None => (s1, Json 404 (message "Distributor not found"))
                  | Some user =>
                      let userInfo :=
                        obj_delete "password" (User.to_js user) in
                      (s1, Json 200
                             (JObj (obj_set "distributor" (JObj userInfo)
                                      (obj_set "products"
                                         (products_js products)
                                         (Catalogue.to_js
                                            (held s1 catalogue))))))
                  end
            end
      end
  end.

(** *** Access request routes *)

(** GET /api/catalogues/:id/access-requests *)
Definition get_access_requests (user : option User) (catalogueId : Z)
           (s : S) : S * Response :=
  match user with
  | None => (s, not_authenticated)
  | Some u =>
      match getCatalogue catalogueId s with
      | None => (s, Json 404 (message "Catalogue not found"))
      | Some catalogue =>
          if negb (Catalogue.userId catalogue =? User.id u)
          then (s, Json 403 (message "Unauthorized"))
          else
            (s, Json 200
                  (JArr (map (fun r => JObj (AccessRequest.to_js r))
                             (getAccessRequests catalogueId s))))
      end
  end.

(** [status] when [["approved", "rejected"].includes(status)] *)
Definition decision (status : option string) : option Status :=
  match status with
  | Some x =>
      if (x =? "approved")%string then Some approved
      else if (x =? "rejected")%string then Some rejected
      else None
  | None => None
  end.

(** PUT /api/access-requests/:id *)
Definition put_access_request (user : option User) (requestId : Z)
           (status : option string) (s : S) : S * Response :=
  match user with
  | None => (s, not_authenticated)
  | Some u =>
      match decision status with
      | None => (s, Json 400 (message "Invalid status"))
      | Some st =>
          match getAccessRequest requestId s with
          | None => (s, Json 404 (message "Access request not found"))
          | Some accessRequest =>
              match getCatalogue (AccessRequest.catalogueId accessRequest) s
              with
              | None => (s, Json 404 (message "Catalogue not found"))
              | Some catalogue =>
                  if negb (Catalogue.userId catalogue =? User.id u)
                  then (s, Json 403 (message "Unauthorized"))
                  else
                    (fst (updateAccessRequest requestId st s),
                     Json 200 (JObj [("id", JNum requestId);
                                     ("status",
                                      JStr (Status_to_string st))]))
              end
          end
      end
  end.

(** *** Order routes *)

(** GET /api/orders *)
Definition get_orders (user : option User) (s : S) : S * Response :=
  match user with
  | None => (s, not_authenticated)
  | Some u => (s, Json 200 (orders_js (getOrders (User.id u) s)))
  end.

(** GET /api/orders/:orderId *)
Definition get_order (user : option User) (orderId : string) (s : S)
  : S * Response :=
  match user with
  | None => (s, not_authenticated)
  | Some u =>
      match getOrderByOrderId orderId s with
      | None => (s, Json 404 (message "Order not found"))
      | Some order =>
          if negb (Order.userId order =? User.id u)
          then (s, Json 403 (message "Unauthorized"))
          else (s, Json 200 (JObj (Order.to_js order)))
      end
  end.

(** POST /api/orders.  The pool that [createOrder] finds is the one the
    handler left. *)
Definition post_orders (body : JsObject) (now : Z) (pool : Pool) (s : S)
  : S * Response :=
  let orderId := new_orderId pool in
  match insertOrderSchema_parse pf (obj_set "orderId" (JStr orderId) body)
  with
  | None => (s, Next "ZodError")
  | Some validatedData =>
      let (s', order) :=
        createOrder now (pool_skip 6 pool) validatedData s in
      (s', Json 201 (JObj (Order.to_js order)))
  end.

(** PUT /api/orders/:orderId/status *)
Definition put_order_status (user : option User) (orderId : string)
           (paymentStatus : option string) (s : S) : S * Response :=
  match user with
  | None => (s, not_authenticated)
  | Some u =>
      if negb (present paymentStatus)
      then (s, Json 400 (message "Payment status is required"))
      else
        match getOrderByOrderId orderId s with
        | None => (s, Json 404 (message "Order not found"))
        | Some order =>
            if negb (Order.userId order =? User.id u)
            then (s, Json 403 (message "Unauthorized"))
            else
              let (s', updatedOrder) :=
                updateOrderPaymentStatus orderId paymentStatus s in
              (s', Json 200 (opt_obj Order.to_js updatedOrder))
        end
  end.

(** *** Dashboard routes *)

(** GET /api/dashboard/stats *)
Definition dashboard_stats (user : option User) (now : Z) (s : S)
  : S * Response :=
  match user with
  | None => (s, not_authenticated)
  | Some u =>
      let products := getProducts (User.id u) s in
      let catalogues := getCatalogues (User.id u) s in
      let orders := getOrders (User.id u) s in
      let totalViews :=
        fold_left (fun sum c => sum + or_zero (Catalogue.views c))
                  catalogues 0 in
      let pendingPayments :=
        sum_toFixed2 pf
          (map Order.amount
               (filter (fun o => match Order.paymentStatus o with
                                 | Some x => (x =? "pending")%string
                                 | None => false
                                 end) orders)) in
      let recentOrders :=
        List.length (filter (fun o => thirtyDaysAgo pf now <=? Order.orderDate o)
                            orders) in
      (s, Json 200 (JObj [("totalProducts",
                           JNum (Z.of_nat (List.length products)));
                          ("newOrders", JNum (Z.of_nat recentOrders));
                          ("pendingPayments", JStr pendingPayments);
                          ("catalogueViews", JNum totalViews)]))
  end.

(** GET /api/dashboard/recent-orders *)
Definition dashboard_recent_orders (user : option User) (s : S)
  : S * Response :=
  match user with
  | None => (s, not_authenticated)
  | Some u =>
      let orders := getOrders (User.id u) s in
      let recentOrders :=
        firstn 5 (Table.order_by_desc Order.orderDate orders) in
      (s, Json 200 (orders_js recentOrders))
  end.

End Routes.

(** ** The whole API *)

(** A request to one of the routes that [registerRoutes] defines.  (The
    routes of [setupAuth] are not in the source.) *)
Inductive Request :=
| GET_products (user : option User)
| GET_product (user : option User) (id : Z)
| POST_products (user : option User) (body : JsObject)
| PUT_product (user : option User) (id : Z) (body : JsObject)
| DELETE_product (user : option User) (id : Z)
| GET_catalogues (user : option User)
| GET_catalogue (user : option User) (id : Z)
| POST_catalogues (user : option User) (body : JsObject)
| PUT_catalogue (user : option User) (id : Z) (body : JsObject)
| DELETE_catalogue (user : option User) (id : Z)
| GET_shared_info (link : string)
| POST_request_access (link : string) (body : AccessBody)
| POST_check_access (link : string) (email : option string)
| POST_retailer_info (link : string) (email : option string)
                     (authorization : option string)
| GET_shared_orders (link : string) (authorization : option string)
| PUT_shared_payment_status (link orderId : string) (status : option string)
                            (authorization : option string)
| GET_shared_view (link : string) (authorization : option string)
| GET_access_requests (user : option User) (id : Z)
| PUT_access_request (user : option User) (id : Z) (status : option string)
| GET_orders (user : option User)
| GET_order (user : option User) (orderId : string)
| POST_orders (body : JsObject)
| PUT_order_status (user : option User) (orderId : string)
                   (paymentStatus : option string)
| GET_dashboard_stats (user : option User)
| GET_dashboard_recent_orders (user : option User).

(** The clock and the random pool at the time of a request. *)
Record Env := { now : Z; pool : Pool }.

Definition handle {S} {storage : IStorage S} (pf : Platform) (e : Env)
           (r : Request) (s : S) : S * Response :=
  match r with
  | GET_products u => get_products u s
  | GET_product u id => get_product u id s
  | POST_products u b => post_products pf u b (now e) s
  | PUT_product u id b => put_product pf u id b s
  | DELETE_product u id => delete_product u id s
  | GET_catalogues u => get_catalogues u s
  | GET_catalogue u id => get_catalogue u id s
  | POST_catalogues u b => post_catalogues pf u b (now e) (pool e) s
  | PUT_catalogue u id b => put_catalogue pf u id b s
  | DELETE_catalogue u id => delete_catalogue u id s
  | GET_shared_info l => shared_info l s
  | POST_request_access l b => request_access l b (now e) s
  | POST_check_access l em => check_access pf l em (now e) s
  | POST_retailer_info l em a => retailer_info pf l em a (now e) s
  | GET_shared_orders l a => shared_orders pf l a s
  | PUT_shared_payment_status l o st a => shared_payment_status pf l o st a s
  | GET_shared_view l a => shared_view pf l a (now e) s
  | GET_access_requests u id => get_access_requests u id s
  | PUT_access_request u id st => put_access_request u id st s
  | GET_orders u => get_orders u s
  | GET_order u o => get_order u o s
  | POST_orders b => post_orders pf b (now e) (pool e) s
  | PUT_order_status u o st => put_order_status u o st s
  | GET_dashboard_stats u => dashboard_stats pf u (now e) s
  | GET_dashboard_recent_orders u => dashboard_recent_orders u s
  end.

(** Requests served one after the other, each with its own clock reading
    and pool. *)
Fixpoint serve {S} {storage : IStorage S} (pf : Platform)
         (rs : list (Env * Request)) (s : S) : S :=
  match rs with
  | [] => s
  | (e, r) :: rs' => serve pf rs' (fst (handle pf e r s))
  end.

(** ** Base64 as [Buffer] does it

    [Buffer.from(str).toString('base64')] encodes with the standard alphabet
    and pads with [=].  [Buffer.from(token, 'base64')] is lenient: it takes
    both the standard and the URL-safe alphabet, skips any other character,
    and stops at the first [=].  [Buffer] is part of Node, not of the
    repository. *)
Module Base64.

Definition alphabet : string :=
  "ABCDEFGHIJKLMNOPQRSTUVWXYZabcdefghijklmnopqrstuvwxyz0123456789+/".

(** Six bits, least significant first, as in [Ascii]. *)
Record sextet := S6 { s0 : bool; s1 : bool; s2 : bool; s3 : bool;
                      s4 : bool; s5 : bool }.

Definition index (x : sextet) : nat :=
  nat_of_ascii (Ascii (s0 x) (s1 x) (s2 x) (s3 x) (s4 x) (s5 x) false false).

Definition enc_char (x : sextet) : ascii := string_nth (index x) alphabet.

Definition of_index (v : nat) : sextet :=
  match ascii_of_nat v with Ascii a b c d e f _ _ => S6 a b c d e f end.

Definition dec_char (c : ascii) : option sextet :=
  let n := nat_of_ascii c in
  if ((65 <=? n) && (n <=? 90))%nat then Some (of_index (n - 65))
  else if ((97 <=? n) && (n <=? 122))%nat then Some (of_index (n - 71))
  else if ((48 <=? n) && (n <=? 57))%nat then Some (of_index (n + 4))
  else if ((n =? 43) || (n =? 45))%nat then Some (of_index 62)
  else if ((n =? 47) || (n =? 95))%nat then Some (of_index 63)
  else None.

(** Three bytes make four sextets; one or two bytes at the end make two
    or three. *)
Fixpoint sextets_of_bytes (l : list ascii) : list sextet :=
  match l with
  | [] => []
  | [Ascii a0 a1 a2 a3 a4 a5 a6 a7] =>
      [S6 a2 a3 a4 a5 a6 a7; S6 false false false false a0 a1]
  | [Ascii a0 a1 a2 a3 a4 a5 a6 a7; Ascii b0 b1 b2 b3 b4 b5 b6 b7] =>
      [S6 a2 a3 a4 a5 a6 a7; S6 b4 b5 b6 b7 a0 a1;
       S6 false false b0 b1 b2 b3]
  | Ascii a0 a1 a2 a3 a4 a5 a6 a7 :: Ascii b0 b1 b2 b3 b4 b5 b6 b7
      :: Ascii c0 c1 c2 c3 c4 c5 c6 c7 :: rest =>
      S6 a2 a3 a4 a5 a6 a7 :: S6 b4 b5 b6 b7 a0 a1
        :: S6 c6 c7 b0 b1 b2 b3 :: S6 c0 c1 c2 c3 c4 c5
        :: sextets_of_bytes rest
  end.

Definition padding (n : nat) : string :=
  match (n mod 3)%nat with
  | 1%nat => "=="
  | 2%nat => "="
  | _ => ""
  end.

Definition encode (s : string) : string :=
  (string_of_list_ascii
     (map enc_char (sextets_of_bytes (list_ascii_of_string s)))
   ++ padding (String.length s))%string.

(** The sextets of the characters up to the first [=], the characters
    outside the alphabets skipped. *)
Fixpoint collect (s : string) : list sextet :=
  match s with
  | EmptyString => []
  | String c s' =>
      if (c =? "=")%char then []
      else
        match dec_char c with
        | Some x => x :: collect s'
        | None => collect s'
        end
  end.

Definition byte1 (x y : sextet) : ascii :=
  Ascii (s4 y) (s5 y) (s0 x) (s1 x) (s2 x) (s3 x) (s4 x) (s5 x).
Definition byte2 (y z : sextet) : ascii :=
  Ascii (s2 z) (s3 z) (s4 z) (s5 z) (s0 y) (s1 y) (s2 y) (s3 y).
Definition byte3 (z w : sextet) : ascii :=
  Ascii (s0 w) (s1 w) (s2 w) (s3 w) (s4 w) (s5 w) (s0 z) (s1 z).

Fixpoint bytes_of_sextets (l : list sextet) : list ascii :=
  match l with
  | x :: y :: z :: w :: rest =>
      byte1 x y :: byte2 y z :: byte3 z w :: bytes_of_sextets rest
  | [x; y; z] => [byte1 x y; byte2 y z]
  | [x; y] => [byte1 x y]
  | _ => []
  end.

Definition decode (s : string) : string :=
  string_of_list_ascii (bytes_of_sextets (collect s)).

End Base64.

(** ** JSON as the handlers use it

    [JSON.stringify] of a token payload and [JSON.parse].  The engine is
    part of Node, not of the repository.  The parser follows the JSON
    grammar; a number with a fraction or an exponent has no value in
    [JNum], and a [\u] escape of a surrogate has no UTF-8 form, so the
    parser rejects both.  The handlers do not depend on this parser: they
    take the decoder from the [Platform]. *)
Module Json.

Definition dq : ascii := "034"%char.
Definition backslash : ascii := "092"%char.

Definition hex_digit (n : nat) : ascii := string_nth n "0123456789abcdef".

(** One character of a quoted string: QuoteJSONString. *)
Definition escape (c : ascii) : string :=
  let n := nat_of_ascii c in
  if (n =? 34)%nat then String backslash (String dq "")
  else if (n =? 92)%nat then String backslash (String backslash "")
  else if (n =? 8)%nat then String backslash "b"
  else if (n =? 12)%nat then String backslash "f"
  else if (n =? 10)%nat then String backslash "n"
  else if (n =? 13)%nat then String backslash "r"
  else if (n =? 9)%nat then String backslash "t"
  else if (n <? 32)%nat
  then String backslash
         (String "u" (String "0" (String "0"
            (String (hex_digit (n / 16)) (String (hex_digit (n mod 16)) "")))))
  else String c "".

Fixpoint quote_body (s : string) : string :=
  match s with
  | EmptyString => EmptyString
  | String c s' => (escape c ++ quote_body s')%string
  end.

Definition quote (s : string) : string :=
  String dq (quote_body s ++ String dq "")%string.

(** [JSON.stringify({ catalogueId, email, exp })] *)
Definition stringify_token (catalogueId : Z) (email : string) (exp : Z)
  : string :=
  ("{" ++ quote "catalogueId" ++ ":" ++ Z_toString catalogueId
   ++ "," ++ quote "email" ++ ":" ++ quote email
   ++ "," ++ quote "exp" ++ ":" ++ Z_toString exp ++ "}")%string.

Definition is_ws (c : ascii) : bool :=
  let n := nat_of_ascii c in
  ((n =? 32) || (n =? 9) || (n =? 10) || (n =? 13))%nat.

Fixpoint skip_ws (s : string) : string :=
  match s with
  | String c s' => if is_ws c then skip_ws s' else s
  | EmptyString => s
  end.

Definition hex_val (c : ascii) : option N :=
  let n := N_of_ascii c in
  if ((48 <=? n) && (n <=? 57))%N then Some (n - 48)%N
  else if ((97 <=? n) && (n <=? 102))%N then Some (n - 87)%N
  else if ((65 <=? n) && (n <=? 70))%N then Some (n - 55)%N
  else None.

Definition hex4 (a b c d : ascii) : option N :=
  match hex_val a, hex_val b, hex_val c, hex_val d with
  | Some x, Some y, Some z, Some w =>
      Some (((x * 16 + y) * 16 + z) * 16 + w)%N
  | _, _, _, _ => None
  end.

(** The UTF-8 bytes of a code unit that is not a surrogate. *)
Definition utf8 (code : N) : option string :=
  if (code <? 128)%N then Some (String (ascii_of_N code) "")
  else if (code <? 2048)%N
  then Some (String (ascii_of_N (192 + code / 64))
               (String (ascii_of_N (128 + code mod 64)) ""))
  else if ((55296 <=? code) && (code <=? 57343))%N then None
  else Some (String (ascii_of_N (224 + code / 4096))
               (String (ascii_of_N (128 + (code / 64) mod 64))
                  (String (ascii_of_N (128 + code mod 64)) ""))).

Definition simple_escape (e : ascii) : option ascii :=
  let n := nat_of_ascii e in
  if (n =? 34)%nat then Some dq
  else if (n =? 92)%nat then Some backslash
  else if (n =? 47)%nat then Some "/"%char
  else if (n =? 98)%nat then Some "008"%char
  else if (n =? 102)%nat then Some "012"%char
  else if (n =? 110)%nat then Some "010"%char
  else if (n =? 114)%nat then Some "013"%char
  else if (n =? 116)%nat then Some "009"%char
  else None.

Definition cons_chars (x : string) (r : option (string * string))
  : option (string * string) :=
  match r with
  | Some (s, rest) => Some ((x ++ s)%string, rest)
  | None => None
  end.

(** The characters of a string after its opening quote, up to the closing
    quote, and what follows. *)
Fixpoint parse_chars (s : string) : option (string * string) :=
  match s with
  | EmptyString => None
  | String c s' =>
      let n := nat_of_ascii c in
      if (n =? 34)%nat then Some (EmptyString, s')
      else if (n =? 92)%nat then
        match s' with
        | EmptyString => None
        | String e s'' =>
            match simple_escape e with
            | Some x => cons_chars (String x "") (parse_chars s'')
            | None =>
                if (nat_of_ascii e =? 117)%nat then
                  match s'' with
                  | String h1 (String h2 (String h3 (String h4 r))) =>
                      match hex4 h1 h2 h3 h4 with
                      | Some code =>
                          match utf8 code with
                          | Some bytes => cons_chars bytes (parse_chars r)
                          | None => None
                          end
                      | None => None
                      end
                  | _ => None
                  end
                else None
            end
        end
      else if (n <? 32)%nat then None
      else cons_chars (String c "") (parse_chars s')
  end.

Definition is_digit (c : ascii) : bool :=
  let n := nat_of_ascii c in ((48 <=? n) && (n <=? 57))%nat.

(** The longest prefix of decimal digits, and the rest. *)
Fixpoint digits (s : string) : string * string :=
  match s with
  | String c s' =>
      if is_digit c
      then let (d, r) := digits s' in (String c d, r)
      else (EmptyString, s)
  | EmptyString => (EmptyString, s)
  end.

Definition leading_zero (d : string) : bool :=
  match d with
  | String "0" (String _ _) => true
  | _ => false
  end.

Definition starts_fraction (r : string) : bool :=
  match r with
  | String c _ =>
      let n := nat_of_ascii c in ((n =? 46) || (n =? 101) || (n =? 69))%nat
  | EmptyString => false
  end.

Definition parse_number (s : string) : option (Z * string) :=
  let '(negative, s1) :=
    match s with
    | String c r => if (c =? "-")%char then (true, r) else (false, s)
    | EmptyString => (false, s)
    end in
  let (d, r) := digits s1 in
  if leading_zero d || starts_fraction r then None
  else
    match NilZero.uint_of_string d with
    | Some u =>
        let v := Z.of_uint u in
        Some (if negative then - v else v, r)
    | None => None
    end.

Fixpoint parse_value (fuel : nat) (s : string)
  : option (JsValue * string) :=
  match fuel with
  | O => None
  | S fuel' =>
      match skip_ws s with
      | EmptyString => None
      | String "n" (String "u" (String "l" (String "l" r))) =>
          Some (JNull, r)
      | String "t" (String "r" (String "u" (String "e" r))) =>
          Some (JBool true, r)
      | String "f" (String "a" (String "l" (String "s" (String "e" r)))) =>
          Some (JBool false, r)
      | String "[" r =>
          match skip_ws r with
          | String "]" r' => Some (JArr [], r')
          | _ =>
              match parse_elements fuel' r with
              | Some (l, r') => Some (JArr l, r')
              | None => None
              end
          end
      | String "{" r =>
          match skip_ws r with
          | String "}" r' => Some (JObj [], r')
          | _ =>
              match parse_members fuel' r with
              | Some (o, r') => Some (JObj (obj_spread [] o), r')
              | None => None
              end
          end
      | String c r =>
          if (nat_of_ascii c =? 34)%nat then
            match parse_chars r with
            | Some (x, r') => Some (JStr x, r')
            | None => None
            end
          else
            match parse_number (String c r) with
            | Some (n, r') => Some (JNum n, r')
            | None => None
            end
      end
  end
with parse_elements (fuel : nat) (s : string)
  : option (list JsValue * string) :=
  match fuel with
  | O => None
  | S fuel' =>
      match parse_value fuel' s with
      | Some (v, r) =>
          match skip_ws r with
          | String "," r' =>
              match parse_elements fuel' r' with
              | Some (l, r'') => Some (v :: l, r'')
              | None => None
              end
          | String "]" r' => Some ([v], r')
          | _ => None
          end
      | None => None
      end
  end
with parse_members (fuel : nat) (s : string)
  : option (JsObject * string) :=
  match fuel with
  | O => None
  | S fuel' =>
      match skip_ws s with
      | String c r =>
          if (nat_of_ascii c =? 34)%nat then
            match parse_chars r with
            | Some (k, r1) =>
                match skip_ws r1 with
                | String ":" r2 =>
                    match parse_value fuel' r2 with
                    | Some (v, r3) =>
                        match skip_ws r3 with
                        | String "," r4 =>
                            match parse_members fuel' r4 with
                            | Some (o, r5) => Some ((k, v) :: o, r5)
                            | None => None
                            end
                        | String "}" r4 => Some ([(k, v)], r4)
                        | _ => None
                        end
                    | None => None
                    end
                | _ => None
                end
            | None => None
            end
          else None
      | EmptyString => None
      end
  end.

(** [JSON.parse(text)]; [None] when it throws. *)
Definition parse (text : string) : option JsValue :=
  match parse_value (S (String.length text)) text with
  | Some (v, r) =>
      match skip_ws r with
      | EmptyString => Some v
      | String _ _ => None
      end
  | None => None
  end.

End Json.

(** [btoa(JSON.stringify({ catalogueId, email, exp }))] and
    [JSON.parse(Buffer.from(token, 'base64').toString())] on Node.  The
    strings of the model are UTF-8 bytes, and the decoder parses the bytes
    of the token as they are, which is what [toString()]
    ([Buffer_toString] below) gives for well-formed UTF-8; in place of
    other bytes [toString()] puts U+FFFD, which this decoder does not. *)
Definition node_encodeToken (catalogueId : Z) (email : string) (exp : Z)
  : string :=
  Base64.encode (Json.stringify_token catalogueId email exp).

Definition node_decodeToken (token : string) : option JsValue :=
  Json.parse (Base64.decode token).

(** ** A platform to run the handlers on

    The decoder and encoder are the ones above.  The schemas are not in the
    source.

    Modelled from the spec: [insertProductSchema], [insertCatalogueSchema]
    and [insertOrderSchema] of [@shared/schema], as object schemas over the
    entity fields that section 3 of the specification lists and that
    [storage.ts] reads: a key of the wrong type fails the parse, an unknown
    key is dropped, a key that is absent stays absent. *)
Module Zod.

(** An optional key: [None] when the value has the wrong type. *)
Definition optional {A} (f : JsValue -> option A) (k : string)
           (o : JsObject) : option (option A) :=
  match obj_get k o with
  | None | Some JUndefined => Some None
  | Some v => option_map Some (f v)
  end.

Definition required {A} (f : JsValue -> option A) (k : string)
           (o : JsObject) : option A :=
  match obj_get k o with
  | Some v => f v
  | None => None
  end.

Definition string_ (v : JsValue) : option string :=
  match v with JStr x => Some x | _ => None end.
Definition number (v : JsValue) : option Z :=
  match v with JNum x => Some x | _ => None end.
Definition boolean (v : JsValue) : option bool :=
  match v with JBool x => Some x | _ => None end.
Definition any (v : JsValue) : option JsValue := Some v.
Definition nullable {A} (f : JsValue -> option A) (v : JsValue)
  : option (option A) :=
  match v with
  | JNull => Some None
  | _ => option_map Some (f v)
  end.
(** A decimal column takes a string or a number. *)
Definition decimal (v : JsValue) : option string :=
  match v with
  | JStr x => Some x
  | JNum x => Some (Z_toString x)
  | _ => None
  end.

Definition flat {A} (o : option (option A)) : option A :=
  match o with Some (Some a) => Some a | _ => None end.

Notation "x <- a ;; b" :=
  (match a with Some x => b | None => None end)
    (at level 61, a at next level, right associativity).

Definition insertProduct (o : JsObject) : option InsertProduct :=
  userId <- required number "userId" o ;;
  name <- required string_ "name" o ;;
  description <- optional (nullable string_) "description" o ;;
  price <- required decimal "price" o ;;
  imageUrl <- optional (nullable string_) "imageUrl" o ;;
  category <- optional (nullable string_) "category" o ;;
  inStock <- optional (nullable boolean) "inStock" o ;;
  Some (InsertProduct.mk userId name (flat description) price
          (flat imageUrl) (flat category) (flat inStock)).

Definition insertProduct_partial (o : JsObject) : option ProductUpdates :=
  userId <- optional number "userId" o ;;
  name <- optional string_ "name" o ;;
  description <- optional (nullable string_) "description" o ;;
  price <- optional decimal "price" o ;;
  imageUrl <- optional (nullable string_) "imageUrl" o ;;
  category <- optional (nullable string_) "category" o ;;
  inStock <- optional (nullable boolean) "inStock" o ;;
  Some (ProductUpdates.mk userId name description price imageUrl category
          inStock).

Definition insertCatalogue (o : JsObject) : option InsertCatalogue :=
  userId <- required number "userId" o ;;
  name <- required string_ "name" o ;;
  description <- optional (nullable string_) "description" o ;;
  shareableLink <- required string_ "shareableLink" o ;;
  isPublic <- optional (nullable boolean) "isPublic" o ;;
  Some (InsertCatalogue.mk userId name (flat description) shareableLink
          (flat isPublic)).

Definition insertCatalogue_partial (o : JsObject)
  : option CatalogueUpdates :=
  userId <- optional number "userId" o ;;
  name <- optional string_ "name" o ;;
  description <- optional (nullable string_) "description" o ;;
  shareableLink <- optional string_ "shareableLink" o ;;
  isPublic <- optional (nullable boolean) "isPublic" o ;;
  Some (CatalogueUpdates.mk userId name description shareableLink isPublic).

Definition insertOrder (o : JsObject) : option InsertOrder :=
  userId <- required number "userId" o ;;
  orderId <- optional string_ "orderId" o ;;
  catalogueId <- optional (nullable number) "catalogueId" o ;;
  retailerName <- required string_ "retailerName" o ;;
  retailerEmail <- required string_ "retailerEmail" o ;;
  retailerCompany <- optional (nullable string_) "retailerCompany" o ;;
  items <- required any "items" o ;;
  amount <- required decimal "amount" o ;;
  paymentStatus <- optional (nullable string_) "paymentStatus" o ;;
  Some (InsertOrder.mk userId orderId (flat catalogueId) retailerName
          retailerEmail (flat retailerCompany) items amount
          (flat paymentStatus)).

End Zod.

(** Node's codec with the schemas above.  The parts that need floating
    point are placeholders: comparing a non-number with the clock is false,
    as it is when the operand converts to [NaN]. *)
Definition node : Platform := {|
  decodeToken := node_decodeToken;
  encodeToken := node_encodeToken;
  lt_coerced := fun _ _ => false;
  sum_toFixed2 := fun _ => "0.00";
  thirtyDaysAgo := fun now => now - 30 * 24 * 60 * 60 * 1000;
  insertProductSchema_parse := Zod.insertProduct;
  insertProductSchema_partial_parse := Zod.insertProduct_partial;
  insertCatalogueSchema_parse := Zod.insertCatalogue;
  insertCatalogueSchema_partial_parse := Zod.insertCatalogue_partial;
  insertOrderSchema_parse := Zod.insertOrder
|}.

(** ** Statements: the vocabulary of the properties *)

(** *** Token failures (shared routes) *)

(** The token does not decode to an object with a truthy [catalogueId] and
    a truthy [exp]. *)
Definition malformed (pf : Platform) (token : string) : Prop :=
  decodeToken pf token = None
  \/ exists v, decodeToken pf token = Some v
               /\ (truthy v = false
                   \/ truthy (prop v "catalogueId") = false
                   \/ truthy (prop v "exp") = false).

(** The token carries a numeric [exp] that is before the clock. *)
Definition expired (pf : Platform) (token : string) (now : Z) : Prop :=
  exists v e, decodeToken pf token = Some v
              /\ prop v "exp" = JNum e /\ e < now.

(** The token's [catalogueId] is not the id of the catalogue [c]. *)
Definition wrong_catalogue (pf : Platform) (token : string) (c : Catalogue)
  : Prop :=
  exists v, decodeToken pf token = Some v
            /\ prop v "catalogueId" <> JNum (Catalogue.id c).

(** The decoded token [v] is well formed, names the catalogue [c] and is
    not before the clock. *)
Definition valid_token (v : JsValue) (c : Catalogue) (now : Z) : Prop :=
  truthy v = true
  /\ prop v "catalogueId" = JNum (Catalogue.id c) /\ Catalogue.id c <> 0
  /\ exists e, prop v "exp" = JNum e /\ e <> 0 /\ now <= e.

(** *** Ownership (distributor routes) *)

Definition session (r : Request) : option User :=
  match r with
  | GET_products u | GET_product u _ | POST_products u _ | PUT_product u _ _
  | DELETE_product u _ | GET_catalogues u | GET_catalogue u _
  | POST_catalogues u _ | PUT_catalogue u _ _ | DELETE_catalogue u _
  | GET_access_requests u _ | PUT_access_request u _ _ | GET_orders u
  | GET_order u _ | PUT_order_status u _ _ | GET_dashboard_stats u
  | GET_dashboard_recent_orders u => u
  | _ => None
  end.

(** The [userId] of the Product, Catalogue or Order that the request reads,
    modifies or deletes, when that entity exists. *)
Definition target_owner {S} {storage : IStorage S} (r : Request) (s : S)
  : option Z :=
  match r with
  | GET_product _ id | PUT_product _ id _ | DELETE_product _ id =>
      option_map Product.userId (getProduct id s)
  | GET_catalogue _ id | PUT_catalogue _ id _ | DELETE_catalogue _ id =>
      option_map Catalogue.userId (getCatalogue id s)
  | GET_order _ orderId | PUT_order_status _ orderId _ =>
      option_map Order.userId (getOrderByOrderId orderId s)
  | _ => None
  end.

(** PUT /api/orders/:orderId/status with no [paymentStatus] in the body. *)
Definition lacks_payment_status (r : Request) : bool :=
  match r with
  | PUT_order_status _ _ paymentStatus => negb (present paymentStatus)
  | _ => false
  end.

(** *** Order ids *)

Definition upper_or_digit (c : ascii) : bool :=
  let n := nat_of_ascii c in
  ((65 <=? n) && (n <=? 90) || (48 <=? n) && (n <=? 57))%nat.

(** [[A-Z0-9_-]] *)
Definition upper_digit_or_mark (c : ascii) : bool :=
  upper_or_digit c || (c =? "_")%char || (c =? "-")%char.

Fixpoint all_chars (p : ascii -> bool) (s : string) : bool :=
  match s with
  | EmptyString => true
  | String c s' => p c && all_chars p s'
  end.

(** The whole string matches [ORD-] followed by exactly six characters of
    the class [p]. *)
Definition matches_ORD (p : ascii -> bool) (s : string) : bool :=
  match s with
  | String "O" (String "R" (String "D" (String "-" six))) =>
      (String.length six =? 6)%nat && all_chars p six
  | _ => false
  end.

(** *** Access requests *)

Definition request_status {S} {storage : IStorage S} (id : Z) (s : S)
  : option Status :=
  option_map AccessRequest.status (getAccessRequest id s).

(** Approved or rejected. *)
Definition decided (o : option Status) : Prop :=
  o = Some approved \/ o = Some rejected.

(** ** The state of a running [MemStorage]

    What the constructor establishes and every method keeps: an entry sits
    under the key that is its [id], below the counter that hands out the
    next id. *)
Definition keyed {V} (id : V -> Z) (counter : Z) (m : JsMap.t V) : Prop :=
  Forall (fun kv => id (snd kv) = fst kv /\ fst kv < counter) m.

Definition consistent (s : MemStorage.t) : Prop :=
  keyed Catalogue.id (MemStorage.currentCatalogueId s) (MemStorage.catalogues s)
  /\ keyed AccessRequest.id (MemStorage.currentAccessRequestId s)
           (MemStorage.accessRequests s).

(** The ids of a running database table come from its sequence. *)
Definition sequenced {R} (id : R -> Z) (tb : Table.t R) : Prop :=
  Forall (fun r => id r < Table.nextId tb) (Table.rows tb).

Definition db_consistent (s : DatabaseStorage.t) : Prop :=
  sequenced AccessRequest.id (DatabaseStorage.accessRequests s).

(** ** Sample data *)
Module Example.

Definition alice : User :=
  User.mk 1 "alice" "$2b$10$hash-of-alice" "alice@example.com" None 0.
Definition bob : User :=
  User.mk 2 "bob" "$2b$10$hash-of-bob" "bob@example.com" None 0.

(** Two distributors; alice has three products, a catalogue and an order
    placed by a retailer. *)
Definition seed {S} {storage : IStorage S} (s0 : S) : S :=
  let (s1, _) :=
    createUser 0 (InsertUser.mk "alice" "$2b$10$hash-of-alice"
                                "alice@example.com" None) s0 in
  let (s2, _) :=
    createUser 0 (InsertUser.mk "bob" "$2b$10$hash-of-bob"
                                "bob@example.com" None) s1 in
  let (s3, _) :=
    createProduct 0 (InsertProduct.mk 1 "tea" None "4" None None None) s2 in
  let (s4, _) :=
    createProduct 0 (InsertProduct.mk 1 "rice" None "9" None None None) s3 in
  let (s5, _) :=
    createProduct 0 (InsertProduct.mk 1 "salt" None "1" None None None) s4 in
  let (s6, _) :=
    createCatalogue 0 (InsertCatalogue.mk 1 "spring" None
                                          "catalogue-V1StGXR8_Z" None) s5 in
  let (s7, _) :=
    createCatalogue 0 (InsertCatalogue.mk 2 "autumn" None
                                          "catalogue-3nG7xQ0pLm" None) s6 in
  let (s8, _) :=
    createOrder 0 (fun _ => 0)
      (InsertOrder.mk 1 (Some "ORD-7K2M9Q") (Some 1) "Rita" "rita@shop.io"
                      (Some "Shop") (JArr []) "13" None) s7 in
  s8.

Definition mem : MemStorage.t := seed MemStorage.empty.
Definition db : DatabaseStorage.t := seed DatabaseStorage.empty.

Definition link : string := "catalogue-V1StGXR8_Z".

Definition rita : AccessBody :=
  Build_AccessBody (Some "Rita") (Some "rita@shop.io") (Some "Shop") None.

Definition bearer (token : string) : option string :=
  Some ("Bearer " ++ token)%string.

Definition env (now : Z) : Env := Build_Env now (fun _ => 0).

(** An order as a retailer posts it. *)
Definition order_body : JsObject :=
  [ ("userId", JNum 1); ("retailerName", JStr "Rita");
    ("retailerEmail", JStr "rita@shop.io"); ("items", JArr []);
    ("amount", JStr "12.50") ].

(** Random bytes whose low six bits pick [X G 2 - 6 A]. *)
Definition dash_pool : Pool := fun i => nth i [19; 45; 9; 8; 10; 25] 0.

(** A token minted for catalogue 2 that expired at clock 1, and one for
    catalogue 1 that lasts until clock 5000. *)
Definition stale_token : string := node_encodeToken 2 "rita@shop.io" 1.
Definition fresh_token : string := node_encodeToken 1 "rita@shop.io" 5000.
Definition other_token : string := node_encodeToken 2 "rita@shop.io" 5000.

(** PUT /api/catalogues/1 bodies that list products by number and by
    string. *)
Definition put_body (productIds : list JsValue) : JsObject :=
  [ ("name", JStr "spring"); ("productIds", JArr productIds) ].

(** The ids of the products in a catalogue after two PUTs by alice. *)
Definition after_two_puts {S} {storage : IStorage S}
           (first second : list JsValue) (s : S) : list Z :=
  let s1 := fst (put_catalogue node (Some alice) 1 (put_body first) s) in
  let s2 := fst (put_catalogue node (Some alice) 1 (put_body second) s1) in
  map Product.id (getCatalogueProducts 1 s2).

(** Rita asks for access to alice's catalogue and alice approves. *)
Definition approve {S} {storage : IStorage S} (s : S) : S :=
  serve node
    [ (env 100, POST_request_access link rita);
      (env 200, PUT_access_request (Some alice) 1 (Some "approved")) ] s.

Definition approved_mem : MemStorage.t := approve mem.
Definition approved_db : DatabaseStorage.t := approve db.

(** A request-access body with no name. *)
Definition nameless : AccessBody :=
  Build_AccessBody None (Some "rita@shop.io") (Some "Shop") None.

End Example.

(** *** Catalogue ownership *)

Definition owner_of {S} {storage : IStorage S} (id : Z) (s : S) : option Z :=
  option_map Catalogue.userId (getCatalogue id s).

(** *** What POST /api/orders needs from [insertOrderSchema]

    The schema validates; it does not write: an [orderId] in its result is
    the string that the parsed object had under that key, and its result
    has no [paymentStatus] when the parsed object had none. *)
Definition order_schema_faithful (pf : Platform) : Prop :=
  forall body o,
    insertOrderSchema_parse pf body = Some o ->
    (forall x, InsertOrder.orderId o = Some x ->
               obj_get "orderId" body = Some (JStr x))
    /\ (obj_get "paymentStatus" body = None ->
        InsertOrder.paymentStatus o = None).

(** *** The access-request lifecycle *)

(** A platform with Node's token codec. *)
Definition on_node (pf : Platform) : Platform := {|
  decodeToken := node_decodeToken;
  encodeToken := node_encodeToken;
  lt_coerced := lt_coerced pf;
  sum_toFixed2 := sum_toFixed2 pf;
  thirtyDaysAgo := thirtyDaysAgo pf;
  insertProductSchema_parse := insertProductSchema_parse pf;
  insertProductSchema_partial_parse := insertProductSchema_partial_parse pf;
  insertCatalogueSchema_parse := insertCatalogueSchema_parse pf;
  insertCatalogueSchema_partial_parse :=
    insertCatalogueSchema_partial_parse pf;
  insertOrderSchema_parse := insertOrderSchema_parse pf
|}.

Definition pending_reply (id : Z) : Response :=
  Json 201 (JObj [("id", JNum id); ("status", JStr "pending")]).

Definition decision_reply (id : Z) (st : Status) : Response :=
  Json 200 (JObj [("id", JNum id); ("status", JStr (Status_to_string st))]).

Definition refused_reply : Response :=
  Json 200 (JObj [("granted", JBool false)]).

Definition granted_reply (accessToken : string) : Response :=
  Json 200 (JObj [("granted", JBool true);
                  ("accessToken", JStr accessToken)]).

(** A retailer asks for access with a complete body, on a storage [s]:
    an unknown link gives 404 and leaves [s] as it is; a known link, with
    no request yet for this catalogue and email, stores a pending request,
    after which check-access answers [granted: false]; once the owner of
    the catalogue has approved the request check-access answers
    [granted: true] with a token that decodes to the catalogue's id, the
    email and the expiry, and once the owner has rejected it check-access
    answers [granted: false]. *)
Definition lifecycle {S} {storage : IStorage S} (pf : Platform) (s : S)
           (link : string) (body : AccessBody) (now : Z) : Prop :=
  let email := text (body_email body) in
  (getCatalogueByLink link s = None ->
   request_access link body now s
   = (s, Json 404 (message "Catalogue not found")))
  /\ forall c,
      getCatalogueByLink link s = Some c ->
      getCatalogue (Catalogue.id c) s = Some c ->
      getAccessRequestByEmail (Catalogue.id c) email s = None ->
      exists id s1,
        request_access link body now s = (s1, pending_reply id)
        /\ (exists r,
               getAccessRequest id s1 = Some r
               /\ AccessRequest.status r = pending
               /\ AccessRequest.catalogueId r = Catalogue.id c
               /\ AccessRequest.email r = email)
        /\ (forall t1,
               check_access pf link (Some email) t1 s1 = (s1, refused_reply))
        /\ forall u,
            User.id u = Catalogue.userId c ->
            (exists s2,
                put_access_request (Some u) id (Some "approved") s1
                = (s2, decision_reply id approved)
                /\ forall t2,
                    let token :=
                      node_encodeToken (Catalogue.id c) email
                                       (t2 + week_ms) in
                    check_access (on_node pf) link (Some email) t2 s2
                    = (s2, granted_reply token)
                    /\ node_decodeToken token
                       = Some (JObj (tokenPayload (Catalogue.id c) email
                                                  (t2 + week_ms))))
            /\ (exists s3,
                   put_access_request (Some u) id (Some "rejected") s1
                   = (s3, decision_reply id rejected)
                   /\ forall t3,
                       check_access pf link (Some email) t3 s3
                       = (s3, refused_reply)).

(** The body names, emails and companies the retailer. *)
Definition complete (body : AccessBody) : Prop :=
  present (body_name body) = true
  /\ present (body_email body) = true
  /\ present (body_company body) = true.

(** The two routes that write access requests. *)
Definition writes_requests (r : Request) : bool :=
  match r with
  | POST_request_access _ _ | PUT_access_request _ _ _ => true
  | _ => false
  end.

(** The access requests of [s'] are those of [s]. *)
Definition mem_same_requests (s s' : MemStorage.t) : Prop :=
  MemStorage.accessRequests s' = MemStorage.accessRequests s
  /\ MemStorage.currentAccessRequestId s'
     = MemStorage.currentAccessRequestId s.

Definition db_same_requests (s s' : DatabaseStorage.t) : Prop :=
  DatabaseStorage.accessRequests s' = DatabaseStorage.accessRequests s.

(** The access requests of a running [MemStorage] sit under their ids,
    below the counter. *)
Definition mem_requests_keyed (s : MemStorage.t) : Prop :=
  keyed AccessRequest.id (MemStorage.currentAccessRequestId s)
        (MemStorage.accessRequests s).

(** What one request can do to the status [x] of the access request [id]:
    leave it, or, when the request is a PUT /api/access-requests/:id for
    that id, set it to the decision that the request carries. *)
Definition status_step {S} {storage : IStorage S} (r : Request) (id : Z)
           (x : Status) (s' : S) : Prop :=
  request_status id s' = Some x
  \/ exists u st d,
      r = PUT_access_request u id st
      /\ decision st = Some d /\ request_status id s' = Some d.

(** *** Keys of a response body *)

(** The key [k] occurs in [v], at any depth. *)
Fixpoint has_key (k : string) (v : JsValue) : bool :=
  match v with
  | JArr items =>
      (fix any (l : list JsValue) : bool :=
         match l with
         | [] => false
         | x :: l' => has_key k x || any l'
         end) items
  | JObj fields =>
      (fix any (l : list (string * JsValue)) : bool :=
         match l with
         | [] => false
         | (k', x) :: l' => (k' =? k)%string || has_key k x || any l'
         end) fields
  | _ => false
  end.

(** ** Statements: sessions and the tables a route writes *)

(** The routes that start with [if (!req.isAuthenticated()) return 401]. *)
Definition needs_session (r : Request) : bool :=
  match r with
  | GET_shared_info _ | POST_request_access _ _ | POST_check_access _ _
  | POST_retailer_info _ _ _ | GET_shared_orders _ _
  | PUT_shared_payment_status _ _ _ _ | GET_shared_view _ _
  | POST_orders _ => false
  | _ => true
  end.

(** The routes that call [createProduct], [updateProduct] or
    [deleteProduct]. *)
Definition writes_products (r : Request) : bool :=
  match r with
  | POST_products _ _ | PUT_product _ _ _ | DELETE_product _ _ => true
  | _ => false
  end.

(** The routes that call [createCatalogue], [updateCatalogue],
    [deleteCatalogue] or [incrementCatalogueViews]. *)
Definition writes_catalogues (r : Request) : bool :=
  match r with
  | POST_catalogues _ _ | PUT_catalogue _ _ _ | DELETE_catalogue _ _
  | GET_shared_view _ _ => true
  | _ => false
  end.

(** The routes that call [addProductToCatalogue] or
    [removeProductFromCatalogue]. *)
Definition writes_catalogueProducts (r : Request) : bool :=
  match r with
  | POST_catalogues _ _ | PUT_catalogue _ _ _ => true
  | _ => false
  end.

(** The routes that call [createOrder] or [updateOrderPaymentStatus]. *)
Definition writes_orders (r : Request) : bool :=
  match r with
  | POST_orders _ | PUT_order_status _ _ _
  | PUT_shared_payment_status _ _ _ _ => true
  | _ => false
  end.

(** The routes that call no writing method of the storage. *)
Definition reads_only (r : Request) : bool :=
  negb (writes_products r || writes_catalogues r
        || writes_catalogueProducts r || writes_orders r
        || writes_requests r).

(** What a request leaves of a [MemStorage] as it was: the users always,
    and each other map with its counter unless the route writes it. *)
Definition mem_kept (r : Request) (s s' : MemStorage.t) : Prop :=
  (MemStorage.users s' = MemStorage.users s
   /\ MemStorage.currentUserId s' = MemStorage.currentUserId s)
  /\ (writes_products r = false ->
      MemStorage.products s' = MemStorage.products s
      /\ MemStorage.currentProductId s' = MemStorage.currentProductId s)
  /\ (writes_catalogues r = false ->
      MemStorage.catalogues s' = MemStorage.catalogues s
      /\ MemStorage.currentCatalogueId s' = MemStorage.currentCatalogueId s)
  /\ (writes_catalogueProducts r = false ->
      MemStorage.catalogueProducts s' = MemStorage.catalogueProducts s
      /\ MemStorage.currentCatalogueProductId s'
         = MemStorage.currentCatalogueProductId s)
  /\ (writes_orders r = false ->
      MemStorage.orders s' = MemStorage.orders s
      /\ MemStorage.currentOrderId s' = MemStorage.currentOrderId s)
  /\ (writes_requests r = false ->
      MemStorage.accessRequests s' = MemStorage.accessRequests s
      /\ MemStorage.currentAccessRequestId s'
         = MemStorage.currentAccessRequestId s).

(** The same for the tables of a [DatabaseStorage]. *)
Definition db_kept (r : Request) (s s' : DatabaseStorage.t) : Prop :=
  DatabaseStorage.users s' = DatabaseStorage.users s
  /\ (writes_products r = false ->
      DatabaseStorage.products s' = DatabaseStorage.products s)
  /\ (writes_catalogues r = false ->
      DatabaseStorage.catalogues s' = DatabaseStorage.catalogues s)
  /\ (writes_catalogueProducts r = false ->
      DatabaseStorage.catalogueProducts s'
      = DatabaseStorage.catalogueProducts s)
  /\ (writes_orders r = false ->
      DatabaseStorage.orders s' = DatabaseStorage.orders s)
  /\ (writes_requests r = false ->
      DatabaseStorage.accessRequests s' = DatabaseStorage.accessRequests s).

(** ** Statements: ids

    A [Map] holds one entry per key; an entity of a running [MemStorage]
    sits under its own id, below the counter.  A row of a running table has
    an id of the sequence that no other row has. *)
Definition map_ok {V} (id : V -> Z) (counter : Z) (m : JsMap.t V) : Prop :=
  keyed id counter m /\ NoDup (map fst m).

Definition mem_well_formed (s : MemStorage.t) : Prop :=
  map_ok User.id (MemStorage.currentUserId s) (MemStorage.users s)
  /\ map_ok Product.id (MemStorage.currentProductId s) (MemStorage.products s)
  /\ map_ok Catalogue.id (MemStorage.currentCatalogueId s)
            (MemStorage.catalogues s)
  /\ map_ok CatalogueProduct.id (MemStorage.currentCatalogueProductId s)
            (MemStorage.catalogueProducts s)
  /\ map_ok Order.id (MemStorage.currentOrderId s) (MemStorage.orders s)
  /\ map_ok AccessRequest.id (MemStorage.currentAccessRequestId s)
            (MemStorage.accessRequests s).

Definition table_ok {R} (id : R -> Z) (tb : Table.t R) : Prop :=
  sequenced id tb /\ NoDup (map id (Table.rows tb)).

Definition db_well_formed (s : DatabaseStorage.t) : Prop :=
  table_ok User.id (DatabaseStorage.users s)
  /\ table_ok Product.id (DatabaseStorage.products s)
  /\ table_ok Catalogue.id (DatabaseStorage.catalogues s)
  /\ table_ok CatalogueProduct.id (DatabaseStorage.catalogueProducts s)
  /\ table_ok Order.id (DatabaseStorage.orders s)
  /\ table_ok AccessRequest.id (DatabaseStorage.accessRequests s).

(** ** Statements: what a created product, order or request is afterwards *)

(** The product of the 201 body [b] was not in [s]; in [s'] it is found
    under its id and shown by GET /api/products/:id to the user that its
    [userId] names and to nobody else, its owner's list is the old list
    with the product after it, and no other id and no other user's list
    has changed.  [alike] compares two lists: it is equality where the
    storage fixes the order of what it lists, and [Permutation] where the
    query has no [ORDER BY]. *)
Definition product_added {S} {storage : IStorage S}
           (alike : list Product -> list Product -> Prop) (s s' : S)
           (b : JsValue) : Prop :=
  exists p,
    b = JObj (Product.to_js p)
    /\ getProduct (Product.id p) s = None
    /\ getProduct (Product.id p) s' = Some p
    /\ (forall v,
           get_product (Some v) (Product.id p) s'
           = (s', if Product.userId p =? User.id v
                  then Json 200 b
                  else Json 403 (message "Unauthorized")))
    /\ (forall id, id <> Product.id p -> getProduct id s' = getProduct id s)
    /\ (forall uid,
           alike (getProducts uid s')
                 (getProducts uid s
                  ++ if Product.userId p =? uid then [p] else [])%list).


(** The product [id] of [s] is not in [s']: the lookup finds nothing, GET
    /api/products/:id answers 404 to everybody, the product has left the
    product list of every catalogue, and the other products are where they
    were. *)
Definition product_gone {S} {storage : IStorage S} (id : Z) (s s' : S)
  : Prop :=
  getProduct id s' = None
  /\ (forall v,
         get_product (Some v) id s'
         = (s', Json 404 (message "Product not found")))
  /\ (forall k, k <> id -> getProduct k s' = getProduct k s)
  /\ (forall c,
         getCatalogueProducts c s'
         = filter (fun p => negb (Product.id p =? id))
                  (getCatalogueProducts c s)).


(** The order [orderId] of [s] has the payment status [p] in [s'] and is
    otherwise the same, the 200 body [b] shows it so, and a lookup by any
    other order id finds what it found in [s]. *)
Definition payment_status_set {S} {storage : IStorage S} (orderId : string)
           (p : string) (s s' : S) (b : JsValue) : Prop :=
  exists o,
    getOrderByOrderId orderId s = Some o
    /\ b = JObj (Order.to_js (Order.with_paymentStatus (Some p) o))
    /\ getOrderByOrderId orderId s'
       = Some (Order.with_paymentStatus (Some p) o)
    /\ forall k, k <> orderId ->
                 getOrderByOrderId k s' = getOrderByOrderId k s.


(** ** Statements: orders by date *)

(** No entry of the list is older than a later one. *)
Definition newest_first {R} (date : R -> Z) (l : list R) : Prop :=
  StronglySorted (fun a b => date b <= date a) l.

(** The answer of GET /api/dashboard/recent-orders: at most five of the
    orders that the storage returns for the user, newest first, and none of
    the orders left out is newer than one that is shown. *)
Definition five_newest (all shown : list Order) : Prop :=
  (List.length shown <= 5)%nat
  /\ List.length shown = Nat.min 5 (List.length all)
  /\ newest_first Order.orderDate shown
  /\ exists rest,
      Permutation all (shown ++ rest)
      /\ forall o o', In o shown -> In o' rest ->
                      Order.orderDate o' <= Order.orderDate o.


(** ** Statements: what the token routes read *)

(** The three routes that take a bearer token and never look at an access
    request answer in [s2] as they answer in [s]. *)
Definition token_routes_agree {S} {storage : IStorage S} (pf : Platform)
           (s s2 : S) : Prop :=
  forall link orderId status authorization now,
    snd (shared_view pf link authorization now s2)
    = snd (shared_view pf link authorization now s)
    /\ snd (shared_orders pf link authorization s2)
       = snd (shared_orders pf link authorization s)
    /\ snd (shared_payment_status pf link orderId status authorization s2)
       = snd (shared_payment_status pf link orderId status authorization s).


(** ** Statements: what a created product or catalogue carries *)

(** [[A-Za-z0-9_-]], the alphabet of nanoid *)
Definition url_symbol (c : ascii) : bool :=
  let n := nat_of_ascii c in
  ((65 <=? n) && (n <=? 90) || (97 <=? n) && (n <=? 122)
   || (48 <=? n) && (n <=? 57))%nat
  || (c =? "_")%char || (c =? "-")%char.

(** The whole string is [catalogue-] followed by exactly ten symbols of
    that alphabet. *)
Definition matches_link (s : string) : bool :=
  match s with
  | String "c" (String "a" (String "t" (String "a" (String "l"
      (String "o" (String "g" (String "u" (String "e" (String "-"
         ten))))))))) =>
      (String.length ten =? 10)%nat && all_chars url_symbol ten
  | _ => false
  end.

(** What POST /api/products and POST /api/catalogues need from their
    schemas: the [userId] and the [shareableLink] of a result are those of
    the parsed object. *)
Definition product_schema_faithful (pf : Platform) : Prop :=
  forall body o,
    insertProductSchema_parse pf body = Some o ->
    obj_get "userId" body = Some (JNum (InsertProduct.userId o)).

Definition catalogue_schema_faithful (pf : Platform) : Prop :=
  forall body o,
    insertCatalogueSchema_parse pf body = Some o ->
    obj_get "userId" body = Some (JNum (InsertCatalogue.userId o))
    /\ obj_get "shareableLink" body
       = Some (JStr (InsertCatalogue.shareableLink o)).

(** The 201 body of POST /api/catalogues carries the session user and the
    link that the handler made. *)
Definition catalogue_of_session (u : User) (pool : Pool) (b : JsValue)
  : Prop :=
  prop b "userId" = JNum (User.id u)
  /\ prop b "shareableLink" = JStr ("catalogue-" ++ nanoid 10 pool).






(** Nothing answers for the catalogue [id] in [s]: the lookup finds
    nothing, GET /api/catalogues/:id answers 404 to everybody, and a
    request for access to it that is stored in [s] cannot be decided. *)
Definition catalogue_absent {S} {storage : IStorage S} (id : Z) (s : S)
  : Prop :=
  getCatalogue id s = None
  /\ (forall v,
         get_catalogue (Some v) id s
         = (s, Json 404 (message "Catalogue not found")))
  /\ (forall v rid status r,
         getAccessRequest rid s = Some r ->
         AccessRequest.catalogueId r = id ->
         status = Some "approved" \/ status = Some "rejected" ->
         put_access_request (Some v) rid status s
         = (s, Json 404 (message "Catalogue not found"))).

(** The catalogue [id] of [s] is not in [s']: nothing answers for it, no
    link leads to it, it has left the list of its owner, the other
    catalogues are where they were, and the access requests, those for
    this catalogue too, are all where they were.  [alike] compares two
    lists: equality where the storage fixes the order of what it lists,
    [Permutation] where the query has no [ORDER BY]. *)
Definition catalogue_gone {S} {storage : IStorage S}
           (alike : list Catalogue -> list Catalogue -> Prop) (id : Z)
           (s s' : S) : Prop :=
  catalogue_absent id s'
  /\ (forall k, k <> id -> getCatalogue k s' = getCatalogue k s)
  /\ (forall link c,
         getCatalogueByLink link s' = Some c -> Catalogue.id c <> id)
  /\ (forall uid,
         alike (getCatalogues uid s')
               (filter (fun c => negb (Catalogue.id c =? id))
                       (getCatalogues uid s)))
  /\ (forall rid, getAccessRequest rid s' = getAccessRequest rid s)
  /\ (forall k, getAccessRequests k s' = getAccessRequests k s).


(** ** Statements: the dashboard *)

(** The value that GET /api/dashboard/stats shows a user under a key. *)
Definition stat {S} {storage : IStorage S} (pf : Platform) (u : User)
           (now : Z) (key : string) (s : S) : JsValue :=
  prop (body_of (snd (dashboard_stats pf (Some u) now s))) key.

(** [catalogues.reduce((sum, c) => sum + (c.views || 0), 0)] *)
Definition total_views (l : list Catalogue) : Z :=
  fold_left (fun sum c => sum + or_zero (Catalogue.views c)) l 0.


(** ** [btoa] and [atob]

    The two functions that the routes file defines for itself:
    [Buffer.from(str).toString('base64')] and
    [Buffer.from(str, 'base64').toString()].

    A string of the model is the UTF-8 form of a JavaScript string, which
    is what [Buffer.from(str)] holds.  [toString()] decodes UTF-8 as the
    Encoding Standard says: a well-formed sequence is the character it
    encodes, and each maximal ill-formed part is replaced by U+FFFD, whose
    UTF-8 form is [EF BF BD]. *)
Definition replacement : string :=
  String (ascii_of_nat 239)
         (String (ascii_of_nat 191) (String (ascii_of_nat 189) EmptyString)).

(** What a byte opens when no sequence is open: a character of its own, a
    sequence of [needed] more bytes of which the next lies between [lower]
    and [upper], or nothing. *)
Inductive Opening :=
| One
| More (needed lower upper : nat)
| Bad.

Definition opening (b : nat) : Opening :=
  if (b <=? 127)%nat then One
  else if ((194 <=? b) && (b <=? 223))%nat then More 1 128 191
  else if (b =? 224)%nat then More 2 160 191
  else if (b =? 237)%nat then More 2 128 159
  else if ((225 <=? b) && (b <=? 239))%nat then More 2 128 191
  else if (b =? 240)%nat then More 3 144 191
  else if (b =? 244)%nat then More 3 128 143
  else if ((241 <=? b) && (b <=? 243))%nat then More 3 128 191
  else Bad.

(** The decoder, with [needed] bytes of the open sequence still to come
    and [seen] the bytes read of it.  A byte that cannot continue the open
    sequence ends it with a replacement and is read again with no sequence
    open. *)
Fixpoint utf8 (needed lower upper : nat) (seen : string) (bytes : string)
  : string :=
  match bytes with
  | EmptyString =>
      match needed with
      | O => EmptyString
      | S _ => replacement
      end
  | String c rest =>
      let b := nat_of_ascii c in
      let start :=
        match opening b with
        | One => String c (utf8 0 128 191 EmptyString rest)
        | More n lo hi => utf8 n lo hi (String c EmptyString) rest
        | Bad => (replacement ++ utf8 0 128 191 EmptyString rest)%string
        end in
      match needed with
      | O => start
      | S n =>
          if ((lower <=? b) && (b <=? upper))%nat
          then
            match n with
            | O => (seen ++ String c (utf8 0 128 191 EmptyString rest))%string
            | S _ => utf8 n 128 191 (seen ++ String c EmptyString) rest
            end
          else (replacement ++ start)%string
      end
  end.

(** [buffer.toString()] *)
Definition Buffer_toString (bytes : string) : string :=
  utf8 0 128 191 EmptyString bytes.

(** The byte strings that are well-formed UTF-8: the strings of JavaScript
    that hold no lone surrogate. *)
Fixpoint well_formed (needed lower upper : nat) (bytes : string) : bool :=
  match bytes with
  | EmptyString => (needed =? 0)%nat
  | String c rest =>
      let b := nat_of_ascii c in
      match needed with
      | O =>
          match opening b with
          | One => well_formed 0 128 191 rest
          | More n lo hi => well_formed n lo hi rest
          | Bad => false
          end
      | S n =>
          ((lower <=? b) && (b <=? upper))%nat && well_formed n 128 191 rest
      end
  end.

Definition utf8_string (str : string) : Prop :=
  well_formed 0 128 191 str = true.

Definition btoa (str : string) : string := Base64.encode str.

Definition atob (str : string) : string :=
  Buffer_toString (Base64.decode str).


(** The product [id] of [s] is in [s'] what [{ ...product, ...u }] makes
    of it, the 200 body [b] shows it so, GET /api/products/:id shows it to
    the user that its [userId] now names and to nobody else, and every
    other product is where it was. *)
Definition product_updated {S} {storage : IStorage S} (id : Z)
           (u : ProductUpdates) (s s' : S) (b : JsValue) : Prop :=
  exists p,
    getProduct id s = Some p
    /\ b = JObj (Product.to_js (ProductUpdates.apply u p))
    /\ getProduct id s' = Some (ProductUpdates.apply u p)
    /\ (forall v,
           get_product (Some v) id s'
           = (s', if or_else (ProductUpdates.userId u) (Product.userId p)
                     =? User.id v
                  then Json 200 b
                  else Json 403 (message "Unauthorized")))
    /\ (forall k, k <> id -> getProduct k s' = getProduct k s).


(** ** Statements: the products of a catalogue *)

(** The product ids that the rows of [catalogueProducts] give a catalogue,
    row by row. *)
Definition mem_links (catalogueId : Z) (s : MemStorage.t) : list Z :=
  map CatalogueProduct.productId
      (filter (fun cp => CatalogueProduct.catalogueId cp =? catalogueId)
              (JsMap.values (MemStorage.catalogueProducts s))).

Definition db_links (catalogueId : Z) (s : DatabaseStorage.t) : list Z :=
  map CatalogueProduct.productId
      (filter (fun cp => CatalogueProduct.catalogueId cp =? catalogueId)
              (Table.rows (DatabaseStorage.catalogueProducts s))).

(** No row of [catalogueProducts] names a catalogue id that is still to be
    handed out. *)
Definition mem_linked (s : MemStorage.t) : Prop :=
  Forall (fun cp => CatalogueProduct.catalogueId cp
                    < MemStorage.currentCatalogueId s)
         (JsMap.values (MemStorage.catalogueProducts s)).

Definition db_linked (s : DatabaseStorage.t) : Prop :=
  Forall (fun cp => CatalogueProduct.catalogueId cp
                    < Table.nextId (DatabaseStorage.catalogues s))
         (Table.rows (DatabaseStorage.catalogueProducts s)).

(** [req.body.productIds] when it is an array; no round of the loops runs
    otherwise. *)
Definition product_ids (body : JsObject) : list JsValue :=
  match obj_get "productIds" body with
  | Some (JArr l) => l
  | _ => []
  end.

(** The product that [storage.getProduct(n)] finds, as a list. *)
Definition found {S} {storage : IStorage S} (s : S) (n : Z) : list Product :=
  match getProduct n s with
  | Some p => [p]
  | None => []
  end.

(** What one element of [productIds] stands for in the storage [s] when
    [u] sends it: the product that [parseInt] of it names, if [u] owns
    it. *)
Definition attached {S} {storage : IStorage S} (u : User) (s : S)
           (productId : JsValue) : list Product :=
  match parseInt productId with
  | Some n =>
      match getProduct n s with
      | Some p => if Product.userId p =? User.id u then [p] else []
      | None => []
      end
  | None => []
  end.

(** The ids of the products that a catalogue lists. *)
Definition listed {S} {storage : IStorage S} (catalogueId : Z) (s : S)
  : list Z :=
  map Product.id (getCatalogueProducts catalogueId s).

(** [productIds] as a client sends them that has read the ids off earlier
    answers: each id as its decimal string. *)
Definition as_strings (wanted : list Z) : list JsValue :=
  map (fun n => JStr (Z_toString n)) wanted.

(** After the update of [s] to [s'] the catalogue lists a product exactly
    when the request names it and either the catalogue listed it before or
    [u] owns it; the other catalogues list what they did. *)
Definition synced {S} {storage : IStorage S} (u : User) (catalogueId : Z)
           (wanted : list Z) (s s' : S) : Prop :=
  (forall n,
      In n (listed catalogueId s')
      <-> In n wanted
          /\ (In n (listed catalogueId s)
              \/ exists p, getProduct n s = Some p
                           /\ Product.userId p = User.id u))
  /\ (forall d, d <> catalogueId ->
                getCatalogueProducts d s' = getCatalogueProducts d s).


(** The 201 body [b] is a catalogue that lists in [s'] what the elements
    of [productIds] stand for, one after the other and as often as they
    are named; the other catalogues list what they did in [s]. *)
Definition lists_attached {S} {storage : IStorage S}
           (alike : list Product -> list Product -> Prop) (u : User)
           (body : JsObject) (s s' : S) (b : JsValue) : Prop :=
  exists c,
    b = JObj (Catalogue.to_js c)
    /\ alike (getCatalogueProducts (Catalogue.id c) s')
             (flat_map (attached u s) (product_ids body))
    /\ forall d, d <> Catalogue.id c ->
                 getCatalogueProducts d s' = getCatalogueProducts d s.


(** ** Statements: what a created user is afterwards *)

(** [user] was not in [s]; in [s'] it is found under its id with the
    fields of [u], the other ids answer as before, and a lookup by username
    or e-mail answers the user who had the name first. *)
Definition user_added {S} {storage : IStorage S} (u : InsertUser)
           (s s' : S) (user : User) : Prop :=
  getUser (User.id user) s = None
  /\ getUser (User.id user) s' = Some user
  /\ (User.username user = InsertUser.username u
      /\ User.password user = InsertUser.password u
      /\ User.email user = InsertUser.email u
      /\ User.company user = InsertUser.company u)
  /\ (forall k, k <> User.id user -> getUser k s' = getUser k s)
  /\ (forall n,
         getUserByUsername n s'
         = match getUserByUsername n s with
           | Some x => Some x
           | None => if (User.username user =? n)%string then Some user
                     else None
           end)
  /\ (forall e,
         getUserByEmail e s'
         = match getUserByEmail e s with
           | Some x => Some x
           | None => if (User.email user =? e)%string then Some user
                     else None
           end).


(** ** Statements: ids over time *)

(** The six counters of a [MemStorage], and the next values of the six
    sequences of a [DatabaseStorage]. *)
Definition mem_counters (s : MemStorage.t) : list Z :=
  [ MemStorage.currentUserId s; MemStorage.currentProductId s;
    MemStorage.currentCatalogueId s; MemStorage.currentCatalogueProductId s;
    MemStorage.currentOrderId s; MemStorage.currentAccessRequestId s ].

Definition db_counters (s : DatabaseStorage.t) : list Z :=
  [ Table.nextId (DatabaseStorage.users s);
    Table.nextId (DatabaseStorage.products s);
    Table.nextId (DatabaseStorage.catalogues s);
    Table.nextId (DatabaseStorage.catalogueProducts s);
    Table.nextId (DatabaseStorage.orders s);
    Table.nextId (DatabaseStorage.accessRequests s) ].

(** No counter of [l'] is below the one of [l]. *)
Definition not_below (l l' : list Z) : Prop := Forall2 Z.le l l'.

(** An id that a creating method hands out in [s] is handed out by no
    later call: whatever requests [rs] are served after the creation, the
    next entity of the kind gets a larger id.  For users, products,
    catalogues, catalogue products, orders and access requests. *)
Definition ids_not_reused {S} {storage : IStorage S} (pf : Platform)
           (rs : list (Env * Request)) (s : S) : Prop :=
  (forall now u now' u',
      User.id (snd (createUser now u s))
      < User.id (snd (createUser now' u'
                        (serve pf rs (fst (createUser now u s))))))
  /\ (forall now p now' p',
         Product.id (snd (createProduct now p s))
         < Product.id (snd (createProduct now' p'
                              (serve pf rs (fst (createProduct now p s))))))
  /\ (forall now c now' c',
         Catalogue.id (snd (createCatalogue now c s))
         < Catalogue.id
             (snd (createCatalogue now' c'
                     (serve pf rs (fst (createCatalogue now c s))))))
  /\ (forall c p c' p',
         CatalogueProduct.id (snd (addProductToCatalogue c p s))
         < CatalogueProduct.id
             (snd (addProductToCatalogue c' p'
                     (serve pf rs (fst (addProductToCatalogue c p s))))))
  /\ (forall now pool o now' pool' o',
         Order.id (snd (createOrder now pool o s))
         < Order.id
             (snd (createOrder now' pool' o'
                     (serve pf rs (fst (createOrder now pool o s))))))
  /\ (forall now r now' r',
         snd (createAccessRequest now r s)
         < snd (createAccessRequest now' r'
                  (serve pf rs (fst (createAccessRequest now r s))))).


(** The integers that a JavaScript number holds exactly
    ([Number.isSafeInteger]): [parseInt] and [toString] agree with the
    decimal digits on these. *)
Definition safe_integer (n : Z) : Prop :=
  - 9007199254740991 <= n <= 9007199254740991.

(** The values of an [integer] column of the database. *)
Definition int4 (n : Z) : Prop := - 2147483648 <= n <= 2147483647.

(** Every number that [parseInt] reads from an element of [productIds] is
    [ok]. *)
Definition ids_read (ok : Z -> Prop) (productIds : list JsValue) : Prop :=
  Forall (fun x => forall n, parseInt x = Some n -> ok n) productIds.

(** [parseInt] reads a number from every element of [productIds], and it
    is [ok]. *)
Definition ids_given (ok : Z -> Prop) (productIds : list JsValue) : Prop :=
  Forall (fun x => exists n, parseInt x = Some n /\ ok n) productIds.

(** The update has a value for a column. *)
Definition sets_a_column (u : CatalogueUpdates) : bool :=
  match CatalogueUpdates.userId u, CatalogueUpdates.name u,
        CatalogueUpdates.description u, CatalogueUpdates.shareableLink u,
        CatalogueUpdates.isPublic u with
  | None, None, None, None, None => false
  | _, _, _, _, _ => true
  end.

(** What PUT /api/catalogues/:id passes to [updateCatalogue] has a value
    for a column: the body names a field of the catalogue besides
    [userId] and [productIds]. *)
Definition update_sets_a_column (pf : Platform) (body : JsObject) : Prop :=
  forall parsed,
    insertCatalogueSchema_partial_parse pf (obj_delete "productIds" body)
    = Some parsed ->
    sets_a_column (CatalogueUpdates.delete_userId parsed) = true.


(** ** Statements: who decides an access request *)

(** What changes the status [x] of the stored access request [id]: only
    a PUT /api/access-requests/:id for that id that carries a decision and
    comes from the user who owns the catalogue of the request; the status
    is then that decision. *)
Definition changed_by_owner {S} {storage : IStorage S} (pf : Platform)
           (e : Env) (r : Request) (id : Z) (x : Status) (s : S) : Prop :=
  request_status id s = Some x ->
  request_status id (fst (handle pf e r s)) <> Some x ->
  exists u st d z c,
    r = PUT_access_request (Some u) id st
    /\ decision st = Some d
    /\ getAccessRequest id s = Some z
    /\ getCatalogue (AccessRequest.catalogueId z) s = Some c
    /\ Catalogue.userId c = User.id u
    /\ request_status id (fst (handle pf e r s)) = Some d.

(** The owner of the catalogue decides, whatever the status of the
    request is: a PUT /api/access-requests/:id with [approved] or
    [rejected] from the owner is answered with the decision and leaves the
    request with it. *)
Definition owner_decides {S} {storage : IStorage S} (pf : Platform)
           (e : Env) (id : Z) (s : S) : Prop :=
  forall u st d z c,
    decision st = Some d ->
    getAccessRequest id s = Some z ->
    getCatalogue (AccessRequest.catalogueId z) s = Some c ->
    Catalogue.userId c = User.id u ->
    snd (handle pf e (PUT_access_request (Some u) id st) s)
    = decision_reply id d
    /\ request_status id
         (fst (handle pf e (PUT_access_request (Some u) id st) s))
       = Some d.

(** * Properties *)

Unset Implicit Arguments.

(** ** Objects *)

Lemma obj_get_set_same (k : string) (v : JsValue) (o : JsObject) :
  obj_get k (obj_set k v o) = Some v.
Proof.
  induction o as [|[k' v'] o IH]; simpl.
  - now rewrite String.eqb_refl.
  - destruct (k' =? k)%string eqn:E; simpl; rewrite E; auto.
Qed.

Lemma obj_get_set_other (k k' : string) (v : JsValue) (o : JsObject) :
  k <> k' -> obj_get k' (obj_set k v o) = obj_get k' o.
Proof.
  intros Hne. induction o as [|[k0 v0] o IH]; simpl.
  - destruct (k =? k')%string eqn:E; auto.
    apply String.eqb_eq in E. contradiction.
  - destruct (k0 =? k)%string eqn:E; simpl.
    + apply String.eqb_eq in E. subst k0.
      destruct (k =? k')%string eqn:E'; auto.
      apply String.eqb_eq in E'. contradiction.
    + destruct (k0 =? k')%string; auto.
Qed.

Lemma obj_get_delete_same (k : string) (o : JsObject) :
  obj_get k (obj_delete k o) = None.
Proof.
  induction o as [|[k' v'] o IH]; simpl; auto.
  destruct (k' =? k)%string eqn:E; simpl; auto.
  now rewrite E.
Qed.

Lemma obj_get_delete_other (k k' : string) (o : JsObject) :
  k <> k' -> obj_get k' (obj_delete k o) = obj_get k' o.
Proof.
  intros Hne. induction o as [|[k0 v0] o IH]; simpl; auto.
  destruct (k0 =? k)%string eqn:E; simpl.
  - apply String.eqb_eq in E. subst k0.
    destruct (k =? k')%string eqn:E'; auto.
    apply String.eqb_eq in E'. contradiction.
  - destruct (k0 =? k')%string; auto.
Qed.

(** ** The distributor in a shared view *)

Lemma product_has_no_password (p : Product) :
  has_key "password" (JObj (Product.to_js p)) = false.
Proof.
  destruct p as [id userId name description price imageUrl category inStock
                 createdAt].
  destruct description, imageUrl, category, inStock; reflexivity.
Qed.

Lemma products_have_no_password (l : list Product) :
  has_key "password" (products_js l) = false.
Proof.
  unfold products_js. induction l as [|p l IH]; [reflexivity|].
  simpl map.
  change (has_key "password" (JObj (Product.to_js p))
          || has_key "password" (JArr (map (fun p => JObj (Product.to_js p)) l))
          = false).
  now rewrite product_has_no_password, IH.
Qed.

Lemma view_body_has_no_password (c : Catalogue) (l : list Product) (u : User) :
  has_key "password"
    (JObj (obj_set "distributor"
             (JObj (obj_delete "password" (User.to_js u)))
             (obj_set "products" (products_js l) (Catalogue.to_js c))))
  = false.
Proof.
  pose proof (products_have_no_password l) as Hl.
  destruct c as [id userId name description link isPublic views createdAt].
  destruct u as [uid username password email company ucreated].
  revert Hl. generalize (products_js l). intros ps Hl.
  destruct description, isPublic, views, company; simpl; rewrite Hl;
    reflexivity.
Qed.

Section AnyStorage.
Context {S : Type} {storage : IStorage S}.
Variable pf : Platform.

(** C9.  A successful GET /api/shared/:link/view carries a [distributor]
    object that has every field of the catalogue's owner except
    [password]: the key [password] is absent, and every other key reads
    as it does in the user.  No object anywhere in the response body has a
    [password] key. *)
Theorem shared_view_omits_password
        (link : string) (authorization : option string) (now : Z)
        (s s' : S) (body : JsValue)
        (Hok : shared_view pf link authorization now s
               = (s', Json 200 body)) :
  exists catalogue user info,
    getCatalogueByLink link s = Some catalogue
    /\ getUser (Catalogue.userId catalogue) s' = Some user
    /\ prop body "distributor" = JObj info
    /\ obj_get "password" info = None
    /\ (forall k, k <> "password" ->
                  obj_get k info = obj_get k (User.to_js user))
    /\ has_key "password" body = false.
Proof.
  unfold shared_view in Hok.
  destruct (bearer_token authorization) as [token|]; [|discriminate].
  destruct (decode_twice pf token) as [tokenData|]; [|discriminate].
  destruct (bad_token_format tokenData); [discriminate|].
  destruct (js_lt pf (prop tokenData "exp") now); [discriminate|].
  destruct (getCatalogueByLink link s) as [catalogue|] eqn:Hc;
    [|discriminate].
  destruct (differs (Catalogue.id catalogue) (prop tokenData "catalogueId"));
    [discriminate|].
  destruct (getUser (Catalogue.userId catalogue)
                    (incrementCatalogueViews (Catalogue.id catalogue) s))
    as [user|] eqn:Hu; [|discriminate].
  injection Hok as <- <-.
  exists catalogue, user, (obj_delete "password" (User.to_js user)).
  split; [reflexivity|]. split; [exact Hu|]. split; [|split; [|split]].
  - reflexivity.
  - apply obj_get_delete_same.
  - intros k Hk. apply obj_get_delete_other. congruence.
  - apply view_body_has_no_password.
Qed.

(** *** Token failures *)

Lemma decode_twice_eq (token : string) :
  decode_twice pf token = decodeToken pf token.
Proof. unfold decode_twice. now destruct (decodeToken pf token). Qed.

Lemma differs_iff (n : Z) (v : JsValue) :
  differs n v = true <-> v <> JNum n.
Proof.
  destruct v; simpl; try (split; [discriminate|reflexivity]).
  rewrite negb_true_iff, Z.eqb_neq. split; congruence.
Qed.

Lemma malformed_cases (token : string) :
  malformed pf token ->
  decodeToken pf token = None
  \/ exists v, decodeToken pf token = Some v /\ bad_token_format v = true.
Proof.
  intros [H|[v [H Hv]]]; [now left|right].
  exists v. split; [exact H|]. unfold bad_token_format.
  destruct Hv as [Hv|[Hv|Hv]]; rewrite Hv; simpl;
    rewrite ?orb_true_r; reflexivity.
Qed.

Lemma expired_cases (token : string) (now : Z) :
  expired pf token now ->
  exists v, decodeToken pf token = Some v
            /\ js_lt pf (prop v "exp") now = true.
Proof.
  intros [v [e [H [He Hlt]]]]. exists v. split; [exact H|].
  rewrite He. simpl. now apply Z.ltb_lt.
Qed.

(** C4, amended.  On GET /api/shared/:link/view a malformed token, an
    expired token and a token for another catalogue are each answered
    with 401 and a message.  On POST /api/shared/:link/retailer-info a
    malformed or expired token is answered with 401, but a well-formed,
    unexpired token for another catalogue is answered with 404
    "Catalogue not found".  GET /api/shared/:link/orders and PUT
    .../payment-status answer 401 to a token that does not decode. *)
Theorem token_failures_by_route
        (link : string) (authorization : option string) (token : string)
        (now : Z) (s : S)
        (Hbearer : bearer_token authorization = Some token) :
  ((malformed pf token \/ expired pf token now
    \/ exists c, getCatalogueByLink link s = Some c
                 /\ wrong_catalogue pf token c) ->
   exists m, shared_view pf link authorization now s
             = (s, Json 401 (message m)))
  /\ (forall email,
        malformed pf token \/ expired pf token now ->
        exists m, retailer_info pf link email authorization now s
                  = (s, Json 401 (message m)))
  /\ (forall email c v,
        decodeToken pf token = Some v ->
        bad_token_format v = false ->
        js_lt pf (prop v "exp") now = false ->
        getCatalogueByLink link s = Some c ->
        prop v "catalogueId" <> JNum (Catalogue.id c) ->
        retailer_info pf link email authorization now s
        = (s, Json 404 (message "Catalogue not found")))
  /\ (decodeToken pf token = None ->
      shared_orders pf link authorization s
      = (s, Json 401 (message "Invalid token"))
      /\ forall orderId status,
          shared_payment_status pf link orderId status authorization s
          = (s, Json 401 (message "Invalid token"))).
Proof.
  repeat apply conj.
  - intros H. unfold shared_view. rewrite Hbearer, decode_twice_eq.
    destruct (decodeToken pf token) as [v|] eqn:Hd; [|eauto].
    destruct (bad_token_format v) eqn:Hf; [eauto|].
    destruct (js_lt pf (prop v "exp") now) eqn:Hx; [eauto|].
    destruct H as [H|[H|[c [Hc [v' [Hv' Hw]]]]]].
    + apply malformed_cases in H. destruct H as [H|[v' [H H']]];
        congruence.
    + apply expired_cases in H. destruct H as [v' [H H']]. congruence.
    + rewrite Hc. assert (v' = v) by congruence. subst v'.
      apply differs_iff in Hw. rewrite Hw. eauto.
  - intros email H. unfold retailer_info.
    rewrite Hbearer, decode_twice_eq.
    destruct (decodeToken pf token) as [v|] eqn:Hd; [|eauto].
    destruct (bad_token_format v) eqn:Hf; [eauto|].
    destruct (js_lt pf (prop v "exp") now) eqn:Hx; [eauto|].
    destruct H as [H|H].
    + apply malformed_cases in H. destruct H as [H|[v' [H H']]];
        congruence.
    + apply expired_cases in H. destruct H as [v' [H H']]. congruence.
  - intros email c v Hd Hf Hx Hc Hw. unfold retailer_info.
    rewrite Hbearer, decode_twice_eq, Hd, Hf, Hx, Hc.
    apply differs_iff in Hw. now rewrite Hw.
  - intros H. split.
    + unfold shared_orders. now rewrite Hbearer, H.
    + intros orderId status. unfold shared_payment_status.
      now rewrite Hbearer, H.
Qed.

(** *** Ownership *)

Lemma neq_negb_eqb (a b : Z) : a <> b -> negb (a =? b) = true.
Proof. intros H. now rewrite negb_true_iff, Z.eqb_neq. Qed.

(** C2, amended.  When the Product, Catalogue or Order that an
    authenticated request reads, modifies or deletes exists and belongs
    to another user, the storage is left as it was and the response is
    403 "Unauthorized"; except that PUT /api/orders/:orderId/status with
    no [paymentStatus] in its body is answered with 400 before the order
    is looked up. *)
Theorem foreign_entity_refused
        (e : Env) (r : Request) (s : S) (u : User) (owner : Z)
        (Hsession : session r = Some u)
        (Hexists : target_owner r s = Some owner)
        (Hforeign : owner <> User.id u) :
  handle pf e r s
  = (s, if lacks_payment_status r
        then Json 400 (message "Payment status is required")
        else Json 403 (message "Unauthorized")).
Proof.
  destruct r; simpl in Hsession, Hexists; try discriminate; subst user;
    simpl.
  - unfold get_product.
    destruct (getProduct id s) as [x|]; [|discriminate].
    injection Hexists as <-. now rewrite (neq_negb_eqb _ _ Hforeign).
  - unfold put_product.
    destruct (getProduct id s) as [x|]; [|discriminate].
    injection Hexists as <-. now rewrite (neq_negb_eqb _ _ Hforeign).
  - unfold delete_product.
    destruct (getProduct id s) as [x|]; [|discriminate].
    injection Hexists as <-. now rewrite (neq_negb_eqb _ _ Hforeign).
  - unfold get_catalogue.
    destruct (getCatalogue id s) as [x|]; [|discriminate].
    injection Hexists as <-. now rewrite (neq_negb_eqb _ _ Hforeign).
  - unfold put_catalogue.
    destruct (getCatalogue id s) as [x|]; [|discriminate].
    injection Hexists as <-. now rewrite (neq_negb_eqb _ _ Hforeign).
  - unfold delete_catalogue.
    destruct (getCatalogue id s) as [x|]; [|discriminate].
    injection Hexists as <-. now rewrite (neq_negb_eqb _ _ Hforeign).
  - unfold get_order.
    destruct (getOrderByOrderId orderId s) as [x|]; [|discriminate].
    injection Hexists as <-. now rewrite (neq_negb_eqb _ _ Hforeign).
  - unfold put_order_status.
    destruct (negb (present paymentStatus)); [reflexivity|].
    destruct (getOrderByOrderId orderId s) as [x|]; [|discriminate].
    injection Hexists as <-. now rewrite (neq_negb_eqb _ _ Hforeign).
Qed.

(** *** A valid token *)

Lemma valid_token_passes (v : JsValue) (c : Catalogue) (now : Z) :
  valid_token v c now ->
  bad_token_format v = false
  /\ js_lt pf (prop v "exp") now = false
  /\ differs (Catalogue.id c) (prop v "catalogueId") = false.
Proof.
  intros [Hv [Hc [Hid [e [He [He0 Hnow]]]]]].
  unfold bad_token_format. rewrite Hv, Hc, He. simpl.
  apply Z.eqb_neq in Hid, He0. rewrite Hid, He0, Z.eqb_refl. simpl.
  repeat split; auto. apply Z.ltb_ge. exact Hnow.
Qed.

Lemma shared_view_counts
      (link : string) (authorization : option string) (token : string)
      (v : JsValue) (now : Z) (s : S) (c : Catalogue) :
  bearer_token authorization = Some token ->
  decodeToken pf token = Some v ->
  getCatalogueByLink link s = Some c ->
  valid_token v c now ->
  fst (shared_view pf link authorization now s)
  = incrementCatalogueViews (Catalogue.id c) s.
Proof.
  intros Hb Hd Hc Hv. apply valid_token_passes in Hv.
  destruct Hv as [Hf [Hx Hm]].
  unfold shared_view. rewrite Hb, decode_twice_eq, Hd, Hf, Hx, Hc, Hm.
  now destruct (getUser _ _).
Qed.

End AnyStorage.

(** ** Maps and tables *)

Lemma JsMap_get_set {V} (k k' : Z) (v : V) (m : JsMap.t V) :
  JsMap.get k (JsMap.set k' v m) = if k' =? k then Some v else JsMap.get k m.
Proof.
  induction m as [|[k0 v0] m IH]; simpl.
  - reflexivity.
  - destruct (k0 =? k') eqn:E; simpl.
    + apply Z.eqb_eq in E. subst k0. now destruct (k' =? k).
    + rewrite IH. destruct (k0 =? k) eqn:E'; auto.
      destruct (k' =? k) eqn:E''; auto.
      apply Z.eqb_eq in E', E''. subst. now rewrite Z.eqb_refl in E.
Qed.

Lemma hd_error_map {A B} (f : A -> B) (l : list A) :
  hd_error (map f l) = option_map f (hd_error l).
Proof. now destruct l. Qed.

Lemma filter_map_stable {A} (p : A -> bool) (f : A -> A) (l : list A) :
  (forall x, p (f x) = p x) -> filter p (map f l) = map f (filter p l).
Proof.
  intros H. induction l as [|x l IH]; simpl; auto.
  rewrite H. destruct (p x); simpl; now rewrite IH.
Qed.

Lemma fold_left_keeps {A B} (P : A -> Prop) (f : A -> B -> A) (l : list B) :
  (forall a b, P a -> P (f a b)) -> forall a, P a -> P (fold_left f l a).
Proof.
  intros H. induction l as [|b l IH]; simpl; auto.
Qed.

Ltac break_match :=
  match goal with
  | |- context [match ?x with _ => _ end] => destruct x eqn:?
  end.

(** ** The owner of a catalogue *)

(** *** In memory *)

Lemma mem_sync_keeps_catalogues (u : User) (id : Z) (l : list JsValue)
      (s : MemStorage.t) :
  MemStorage.catalogues (sync_products u id l s) = MemStorage.catalogues s.
Proof.
  unfold sync_products.
  set (cur := map Product.id (getCatalogueProducts id s)).
  apply fold_left_keeps with
    (P := fun x => MemStorage.catalogues x = MemStorage.catalogues s).
  - intros a b Ha. unfold sync_remove. simpl.
    unfold MemStorage.removeProductFromCatalogue.
    repeat break_match; simpl; auto.
  - apply fold_left_keeps with
      (P := fun x => MemStorage.catalogues x = MemStorage.catalogues s);
      auto.
    intros a b Ha. unfold sync_add. simpl.
    repeat break_match; simpl; auto.
Qed.

Lemma mem_update_keeps_owner (id : Z) (u : CatalogueUpdates)
      (s : MemStorage.t) (k : Z) :
  CatalogueUpdates.userId u = None ->
  owner_of k (fst (MemStorage.updateCatalogue id u s)) = owner_of k s.
Proof.
  intros Hu. unfold owner_of, MemStorage.updateCatalogue. simpl.
  unfold MemStorage.getCatalogue.
  destruct (JsMap.get id (MemStorage.catalogues s)) as [c|] eqn:Hc; simpl;
    auto.
  rewrite JsMap_get_set. destruct (id =? k) eqn:E; auto.
  apply Z.eqb_eq in E. subst k. rewrite Hc. simpl. now rewrite Hu.
Qed.

(** *** In the database *)

Lemma db_sync_keeps_catalogues (u : User) (id : Z) (l : list JsValue)
      (s : DatabaseStorage.t) :
  DatabaseStorage.catalogues (sync_products u id l s)
  = DatabaseStorage.catalogues s.
Proof.
  unfold sync_products.
  set (cur := map Product.id (getCatalogueProducts id s)).
  apply fold_left_keeps with
    (P := fun x => DatabaseStorage.catalogues x
                   = DatabaseStorage.catalogues s).
  - intros a b Ha. unfold sync_remove. simpl.
    repeat break_match; simpl; auto.
  - apply fold_left_keeps with
      (P := fun x => DatabaseStorage.catalogues x
                     = DatabaseStorage.catalogues s); auto.
    intros a b Ha. unfold sync_add. simpl.
    repeat break_match; simpl; auto.
Qed.

Lemma db_update_keeps_owner (id : Z) (u : CatalogueUpdates)
      (s : DatabaseStorage.t) (k : Z) :
  CatalogueUpdates.userId u = None ->
  owner_of k (fst (DatabaseStorage.updateCatalogue id u s)) = owner_of k s.
Proof.
  intros Hu. unfold owner_of. simpl.
  unfold DatabaseStorage.getCatalogue, Table.select. simpl.
  set (f := fun r => if Catalogue.id r =? id
                     then CatalogueUpdates.apply u r else r).
  rewrite filter_map_stable with (f := f).
  - rewrite hd_error_map.
    destruct (hd_error _) as [c|]; simpl; auto.
    unfold f. destruct (Catalogue.id c =? id); auto.
    simpl. now rewrite Hu.
  - intros x. unfold f. now destruct (Catalogue.id x =? id).
Qed.

(** C10.  PUT /api/catalogues/:id leaves the owner of every catalogue as it
    was, whatever the body holds and whatever the schema lets through, on
    both storages. *)
Theorem put_catalogue_keeps_owner :
  (forall pf user id body (s : MemStorage.t) k,
      owner_of k (fst (put_catalogue pf user id body s)) = owner_of k s)
  /\ (forall pf user id body (s : DatabaseStorage.t) k,
         owner_of k (fst (put_catalogue pf user id body s)) = owner_of k s).
Proof.
  split; intros pf user id body s k; unfold put_catalogue.
  - destruct user as [u|]; auto.
    destruct (getCatalogue id s) as [c|]; auto.
    destruct (negb (Catalogue.userId c =? User.id u)); auto.
    destruct (insertCatalogueSchema_partial_parse pf _) as [parsed|]; auto.
    destruct (updateCatalogue id (CatalogueUpdates.delete_userId parsed) s)
      as [s1 updated] eqn:Hup. simpl fst.
    assert (H1 : owner_of k s1 = owner_of k s).
    { change s1 with (fst (s1, updated)). rewrite <- Hup.
      now apply mem_update_keeps_owner. }
    rewrite <- H1. unfold owner_of. simpl. unfold MemStorage.getCatalogue.
    destruct (obj_get "productIds" body) as [[]|]; auto.
    now rewrite mem_sync_keeps_catalogues.
  - destruct user as [u|]; auto.
    destruct (getCatalogue id s) as [c|]; auto.
    destruct (negb (Catalogue.userId c =? User.id u)); auto.
    destruct (insertCatalogueSchema_partial_parse pf _) as [parsed|]; auto.
    destruct (updateCatalogue id (CatalogueUpdates.delete_userId parsed) s)
      as [s1 updated] eqn:Hup. simpl fst.
    assert (H1 : owner_of k s1 = owner_of k s).
    { change s1 with (fst (s1, updated)). rewrite <- Hup.
      now apply db_update_keeps_owner. }
    rewrite <- H1. unfold owner_of. simpl.
    unfold DatabaseStorage.getCatalogue.
    destruct (obj_get "productIds" body) as [[]|]; auto.
    now rewrite db_sync_keeps_catalogues.
Qed.

(** ** The view counter *)

(** *** In memory *)

Lemma keyed_get {V} (id : V -> Z) (n : Z) (m : JsMap.t V) (k : Z) (v : V) :
  keyed id n m -> JsMap.get k m = Some v -> id v = k /\ k < n.
Proof.
  unfold keyed. induction m as [|[k0 v0] m IH]; simpl; [discriminate|].
  intros H Hg. inversion H as [|? ? [H1 H2] H3]; subst. simpl in *.
  destruct (k0 =? k) eqn:E.
  - apply Z.eqb_eq in E. injection Hg as <-. subst k0. auto.
  - auto.
Qed.

Lemma keyed_value_has_key {V} (id : V -> Z) (n : Z) (m : JsMap.t V)
      (p : V -> bool) (v : V) :
  keyed id n m -> find p (JsMap.values m) = Some v ->
  exists v0, JsMap.get (id v) m = Some v0.
Proof.
  unfold keyed. induction m as [|[k0 v0] m IH]; simpl; [discriminate|].
  intros H Hf. inversion H as [|? ? [H1 H2] H3]; subst. simpl in *.
  destruct (p v0).
  - injection Hf as <-. rewrite H1, Z.eqb_refl. eauto.
  - destruct (k0 =? id v); eauto.
Qed.

Lemma keyed_set {V} (id : V -> Z) (n : Z) (m : JsMap.t V) (k : Z) (v : V) :
  keyed id n m -> id v = k -> k < n -> keyed id n (JsMap.set k v m).
Proof.
  unfold keyed. intros H Hid Hk.
  induction m as [|[k0 v0] m IH]; simpl.
  - constructor; auto.
  - inversion H as [|? ? [H1 H2] H3]; subst. simpl in *.
    destruct (k0 =? id v) eqn:E.
    + constructor; auto. simpl. apply Z.eqb_eq in E. subst k0. auto.
    + constructor; auto.
Qed.

Lemma keyed_weaken {V} (id : V -> Z) (n n' : Z) (m : JsMap.t V) :
  keyed id n m -> n <= n' -> keyed id n' m.
Proof.
  unfold keyed. intros H Hn. eapply Forall_impl; [|exact H].
  simpl. intros a [H1 H2]. split; auto. lia.
Qed.

Lemma find_after_set {V} (id : V -> Z) (p : V -> bool) (k : Z) (v0 v' c : V)
      (m : JsMap.t V) :
  find p (JsMap.values m) = Some c ->
  JsMap.get k m = Some v0 ->
  p v' = p v0 -> id v' = id v0 ->
  exists c1, find p (JsMap.values (JsMap.set k v' m)) = Some c1
             /\ id c1 = id c.
Proof.
  intros Hf Hg Hp Hid. induction m as [|[k1 v1] m IH]; simpl in *;
    [discriminate|].
  destruct (k1 =? k) eqn:E; simpl.
  - injection Hg as ->. rewrite Hp.
    destruct (p v0); [|eauto]. injection Hf as <-. eauto.
  - destruct (p v1); eauto.
Qed.

Lemma mem_increment (link : string) (c : Catalogue) (s : MemStorage.t) :
  consistent s ->
  getCatalogueByLink link s = Some c ->
  let s1 := incrementCatalogueViews (Catalogue.id c) s in
  exists before c1,
    getCatalogue (Catalogue.id c) s = Some before
    /\ getCatalogue (Catalogue.id c) s1
       = Some (Catalogue.with_views
                 (Some (or_zero (Catalogue.views before) + 1)) before)
    /\ getCatalogueByLink link s1 = Some c1
    /\ Catalogue.id c1 = Catalogue.id c
    /\ consistent s1.
Proof.
  intros [Hk Hr] Hc. simpl in *.
  unfold MemStorage.getCatalogueByLink, MemStorage.getCatalogue,
    MemStorage.incrementCatalogueViews in *.
  destruct (keyed_value_has_key _ _ _ _ _ Hk Hc) as [before Hb].
  rewrite Hb. simpl.
  set (v' := Catalogue.with_views
               (Some (or_zero (Catalogue.views before) + 1)) before).
  destruct (find_after_set Catalogue.id _ _ _ v' _ _ Hc Hb eq_refl eq_refl)
    as [c1 [H1 H2]].
  exists before, c1. rewrite JsMap_get_set, Z.eqb_refl.
  repeat split; auto.
  destruct (keyed_get _ _ _ _ _ Hk Hb) as [H3 H4].
  apply keyed_set; auto.
Qed.

(** *** In the database *)

Lemma hd_filter_in {A} (p : A -> bool) (l : list A) (x : A) :
  hd_error (filter p l) = Some x -> In x l /\ p x = true.
Proof.
  intros H. assert (Hin : In x (filter p l)).
  { destruct (filter p l); [discriminate|]. injection H as ->. now left. }
  now apply filter_In in Hin.
Qed.

Lemma hd_filter_some {A} (p : A -> bool) (l : list A) (x : A) :
  In x l -> p x = true -> exists y, hd_error (filter p l) = Some y.
Proof.
  intros Hin Hp. assert (H : In x (filter p l)) by now apply filter_In.
  destruct (filter p l); [contradiction|]. simpl. eauto.
Qed.

Lemma db_increment (link : string) (c : Catalogue) (s : DatabaseStorage.t) :
  getCatalogueByLink link s = Some c ->
  let s1 := incrementCatalogueViews (Catalogue.id c) s in
  exists before c1,
    getCatalogue (Catalogue.id c) s = Some before
    /\ getCatalogue (Catalogue.id c) s1
       = Some (Catalogue.with_views
                 (Some (or_zero (Catalogue.views before) + 1)) before)
    /\ getCatalogueByLink link s1 = Some c1
    /\ Catalogue.id c1 = Catalogue.id c.
Proof.
  intros Hc. simpl in *.
  unfold DatabaseStorage.getCatalogueByLink, DatabaseStorage.getCatalogue,
    DatabaseStorage.incrementCatalogueViews, Table.select in *.
  destruct (hd_filter_in _ _ _ Hc) as [Hin _].
  destruct (hd_filter_some (fun c0 => Catalogue.id c0 =? Catalogue.id c)
                           _ c Hin (Z.eqb_refl _)) as [before Hb].
  unfold DatabaseStorage.getCatalogue, Table.select. rewrite Hb. simpl.
  set (v := Some (or_zero (Catalogue.views before) + 1)).
  set (f := fun r => if Catalogue.id r =? Catalogue.id c
                     then Catalogue.with_views v r else r).
  assert (Hidf : forall x, Catalogue.id (f x) = Catalogue.id x).
  { intros x. unfold f. now destruct (Catalogue.id x =? Catalogue.id c). }
  exists before, (f c).
  rewrite !filter_map_stable with (f := f).
  - rewrite !hd_error_map, Hb, Hc. simpl.
    repeat split; auto.
    destruct (hd_filter_in _ _ _ Hb) as [_ Hid].
    unfold f. now rewrite Hid.
  - intros x. unfold f.
    now destruct (Catalogue.id x =? Catalogue.id c).
  - intros x. now rewrite Hidf.
Qed.

(** C7.  Two GET /api/shared/:link/view requests in a row, each with a
    valid unexpired token for the catalogue, leave the catalogue's [views]
    two above what it was before the first ([null] counting as 0), on both
    storages. *)
Theorem two_views_count_two :
  (forall pf link authorization token v now1 now2 (s : MemStorage.t) c,
      consistent s ->
      bearer_token authorization = Some token ->
      decodeToken pf token = Some v ->
      getCatalogueByLink link s = Some c ->
      valid_token v c now1 -> valid_token v c now2 ->
      let s1 := fst (shared_view pf link authorization now1 s) in
      let s2 := fst (shared_view pf link authorization now2 s1) in
      exists before after,
        getCatalogue (Catalogue.id c) s = Some before
        /\ getCatalogue (Catalogue.id c) s2 = Some after
        /\ Catalogue.views after
           = Some (or_zero (Catalogue.views before) + 2))
  /\ (forall pf link authorization token v now1 now2
             (s : DatabaseStorage.t) c,
         bearer_token authorization = Some token ->
         decodeToken pf token = Some v ->
         getCatalogueByLink link s = Some c ->
         valid_token v c now1 -> valid_token v c now2 ->
         let s1 := fst (shared_view pf link authorization now1 s) in
         let s2 := fst (shared_view pf link authorization now2 s1) in
         exists before after,
           getCatalogue (Catalogue.id c) s = Some before
           /\ getCatalogue (Catalogue.id c) s2 = Some after
           /\ Catalogue.views after
              = Some (or_zero (Catalogue.views before) + 2)).
Proof.
  split.
  - intros pf link au token v now1 now2 s c Hs Hb Hd Hc Hv1 Hv2 s1 s2.
    subst s1 s2.
    rewrite (shared_view_counts pf link _ _ _ _ _ _ Hb Hd Hc Hv1).
    destruct (mem_increment link _ _ Hs Hc)
      as [before [c1 [H0 [H1 [Hc1 [Hid Hs1]]]]]].
    assert (Hv2' : valid_token v c1 now2).
    { unfold valid_token in *. now rewrite Hid. }
    rewrite (shared_view_counts pf link _ _ _ _ _ _ Hb Hd Hc1 Hv2').
    destruct (mem_increment link _ _ Hs1 Hc1)
      as [mid [c2 [H2 [H3 _]]]].
    rewrite Hid in *. rewrite H1 in H2. injection H2 as <-.
    eexists. eexists. split; [exact H0|]. split; [exact H3|].
    simpl. f_equal. lia.
  - intros pf link au token v now1 now2 s c Hb Hd Hc Hv1 Hv2 s1 s2.
    subst s1 s2.
    rewrite (shared_view_counts pf link _ _ _ _ _ _ Hb Hd Hc Hv1).
    destruct (db_increment link _ _ Hc) as [before [c1 [H0 [H1 [Hc1 Hid]]]]].
    assert (Hv2' : valid_token v c1 now2).
    { unfold valid_token in *. now rewrite Hid. }
    rewrite (shared_view_counts pf link _ _ _ _ _ _ Hb Hd Hc1 Hv2').
    destruct (db_increment link _ _ Hc1) as [mid [c2 [H2 [H3 _]]]].
    rewrite Hid in *. rewrite H1 in H2. injection H2 as <-.
    eexists. eexists. split; [exact H0|]. split; [exact H3|].
    simpl. f_equal. lia.
Qed.

(** ** Order creation *)

Lemma land_63_small (z : Z) : (Z.to_nat (Z.land z 63) < 64)%nat.
Proof.
  change 63 with (Z.ones 6). rewrite Z.land_ones by lia.
  pose proof (Z.mod_pos_bound z (2 ^ 6) ltac:(lia)). lia.
Qed.

Lemma nanoid_symbol_class (z : Z) :
  upper_digit_or_mark
    (upper_char (string_nth (Z.to_nat (Z.land z 63)) urlAlphabet)) = true.
Proof.
  pose proof (land_63_small z) as H.
  destruct (Z.to_nat (Z.land z 63)) as [|n]; [reflexivity|].
  do 63 (destruct n as [|n]; [reflexivity|]).
  lia.
Qed.

Lemma new_orderId_matches (pool : Pool) :
  matches_ORD upper_digit_or_mark (new_orderId pool) = true.
Proof.
  unfold new_orderId, nanoid. simpl.
  now rewrite !nanoid_symbol_class.
Qed.

Lemma node_order_schema_faithful : order_schema_faithful node.
Proof.
  intros body o H. simpl in H. unfold Zod.insertOrder in H.
  repeat match type of H with
         | match ?x with _ => _ end = _ => destruct x eqn:?; try discriminate
         end.
  injection H as <-. simpl. split.
  - intros x ->.
    match goal with
    | E : Zod.optional Zod.string_ "orderId" body = _ |- _ =>
        unfold Zod.optional in E;
        destruct (obj_get "orderId" body) as [[]|]; simpl in E;
        try discriminate; congruence
    end.
  - intros Hn.
    match goal with
    | E : Zod.optional _ "paymentStatus" body = _ |- _ =>
        unfold Zod.optional in E; rewrite Hn in E; now injection E as <-
    end.
Qed.

Lemma created_orderId (pf : Platform) (body : JsObject) (pool : Pool)
      (validated : InsertOrder) :
  order_schema_faithful pf ->
  insertOrderSchema_parse pf (obj_set "orderId" (JStr (new_orderId pool)) body)
  = Some validated ->
  matches_ORD upper_digit_or_mark
    (match InsertOrder.orderId validated with
     | Some x => if (x =? "")%string
                 then new_orderId (pool_skip 6 pool) else x
     | None => new_orderId (pool_skip 6 pool)
     end) = true
  /\ (obj_get "paymentStatus" body = None ->
      or_string (InsertOrder.paymentStatus validated) "pending" = "pending").
Proof.
  intros Hf Hp. destruct (Hf _ _ Hp) as [H1 H2]. split.
  - destruct (InsertOrder.orderId validated) as [x|].
    + specialize (H1 x eq_refl). rewrite obj_get_set_same in H1.
      injection H1 as <-.
      destruct (_ =? "")%string; apply new_orderId_matches.
    + apply new_orderId_matches.
  - intros Hn. rewrite H2; [reflexivity|].
    rewrite obj_get_set_other; [exact Hn|discriminate].
Qed.

(** C5, amended.  With a schema that validates without writing, every body
    that POST /api/orders accepts creates an order whose [orderId] is
    [ORD-] followed by exactly six characters of [A-Z], [0-9], [_] and [-],
    and whose [paymentStatus] is ["pending"] when the body gives none, on
    both storages. *)
Theorem created_order_id_and_status (pf : Platform)
        (Hschema : order_schema_faithful pf) :
  (forall body now pool (s s' : MemStorage.t) resp,
      post_orders pf body now pool s = (s', Json 201 resp) ->
      exists validated order,
        createOrder now (pool_skip 6 pool) validated s = (s', order)
        /\ resp = JObj (Order.to_js order)
        /\ matches_ORD upper_digit_or_mark (Order.orderId order) = true
        /\ (obj_get "paymentStatus" body = None ->
            Order.paymentStatus order = Some "pending"))
  /\ (forall body now pool (s s' : DatabaseStorage.t) resp,
         post_orders pf body now pool s = (s', Json 201 resp) ->
         exists validated order,
           createOrder now (pool_skip 6 pool) validated s = (s', order)
           /\ resp = JObj (Order.to_js order)
           /\ matches_ORD upper_digit_or_mark (Order.orderId order) = true
           /\ (obj_get "paymentStatus" body = None ->
               Order.paymentStatus order = Some "pending")).
Proof.
  split; intros body now pool s s' resp H; unfold post_orders in H;
    destruct (insertOrderSchema_parse pf _) as [validated|] eqn:Hp;
    try discriminate;
    destruct (created_orderId pf body pool validated Hschema Hp) as [H1 H2];
    destruct (createOrder now (pool_skip 6 pool) validated s)
      as [s1 order] eqn:Hc;
    injection H as <- <-; exists validated, order;
    (split; [exact Hc|]); (split; [reflexivity|]);
    simpl in Hc; injection Hc as _ <-; simpl; split; auto;
    intros Hn; now rewrite (H2 Hn).
Qed.

Lemma created_order_id_and_status_witness :
  let r := post_orders node Example.order_body 5 Example.dash_pool Example.db
  in
  exists validated order,
    createOrder 5 (pool_skip 6 Example.dash_pool) validated Example.db
    = (fst r, order)
    /\ body_of (snd r) = JObj (Order.to_js order)
    /\ matches_ORD upper_digit_or_mark (Order.orderId order) = true
    /\ (obj_get "paymentStatus" Example.order_body = None ->
        Order.paymentStatus order = Some "pending").
Proof.
  intros r.
  apply (proj2 (created_order_id_and_status node node_order_schema_faithful)
               Example.order_body 5 Example.dash_pool Example.db
               (fst r) (body_of (snd r))).
  vm_compute. reflexivity.
Defined.

(** C5 as claimed fails: the six characters of a created [orderId] can
    include [-], which [[A-Z0-9]] does not match. *)
Lemma order_id_with_dash :
  match post_orders node Example.order_body 5 Example.dash_pool Example.db
  with
  | (_, Json 201 resp) =>
      prop resp "orderId" = JStr "ORD-XG2-6A"
      /\ matches_ORD upper_or_digit "ORD-XG2-6A" = false
      /\ matches_ORD upper_digit_or_mark "ORD-XG2-6A" = true
  | _ => False
  end.
Proof. vm_compute. repeat split. Qed.

(** ** The routes at sample requests *)

(** C1.  GET /api/shared/:link/orders and PUT .../payment-status take a
    token that expired long ago and that names another catalogue: the
    orders of the token's email are listed, and the payment status of an
    order is changed, where GET /api/shared/:link/view answers the same
    token with 401. *)
Theorem stale_token_reads_and_writes_orders :
  node_decodeToken Example.stale_token
  = Some (JObj (tokenPayload 2 "rita@shop.io" 1))
  /\ option_map Catalogue.id (getCatalogueByLink Example.link Example.db)
     = Some 1
  /\ status_of (snd (shared_view node Example.link
                       (Example.bearer Example.stale_token) 1000 Example.db))
     = Some 401
  /\ shared_orders node Example.link (Example.bearer Example.stale_token)
                   Example.db
     = (Example.db,
        Json 200 (orders_js (getOrdersByEmail "rita@shop.io" Example.db)))
  /\ map Order.orderId (getOrdersByEmail "rita@shop.io" Example.db)
     = ["ORD-7K2M9Q"]
  /\ shared_orders node Example.link (Example.bearer Example.stale_token)
                   Example.mem
     = (Example.mem,
        Json 200 (orders_js (getOrdersByEmail "rita@shop.io" Example.mem)))
  /\ (let r := shared_payment_status node Example.link "ORD-7K2M9Q"
                 (Some "paid") (Example.bearer Example.stale_token)
                 Example.db in
      status_of (snd r) = Some 200
      /\ option_map Order.paymentStatus
           (getOrderByOrderId "ORD-7K2M9Q" (fst r)) = Some (Some "paid"))
  /\ (let r := shared_payment_status node Example.link "ORD-7K2M9Q"
                 (Some "paid") (Example.bearer Example.stale_token)
                 Example.mem in
      status_of (snd r) = Some 200
      /\ option_map Order.paymentStatus
           (getOrderByOrderId "ORD-7K2M9Q" (fst r)) = Some (Some "paid")).
Proof. vm_compute. repeat split. Qed.

(** C6.  With the product ids given as JSON numbers, PUT
    /api/catalogues/:id with [1, 2] and then with [2, 3] leaves product 3
    alone in the catalogue: the second request removes product 2 as well,
    on both storages.  With the ids given as strings the catalogue ends
    with products 2 and 3. *)
Theorem numeric_product_ids_drop_kept_product :
  Example.after_two_puts [JNum 1; JNum 2] [JNum 2; JNum 3] Example.mem = [3]
  /\ Example.after_two_puts [JNum 1; JNum 2] [JNum 2; JNum 3] Example.db
     = [3]
  /\ Example.after_two_puts [JStr "1"; JStr "2"] [JStr "2"; JStr "3"]
                            Example.mem = [2; 3]
  /\ Example.after_two_puts [JStr "1"; JStr "2"] [JStr "2"; JStr "3"]
                            Example.db = [2; 3]
  /\ map Product.userId
         (flat_map (fun id => match getProduct id Example.db with
                              | Some p => [p] | None => [] end) [1; 2; 3])
     = [User.id Example.alice; User.id Example.alice; User.id Example.alice]
  /\ owner_of 1 Example.db = Some (User.id Example.alice).
Proof. vm_compute. repeat split. Qed.

(** C2 as claimed fails: bob asks to set the status of alice's order and
    sends no [paymentStatus]; the answer is 400, not 403. *)
Lemma foreign_order_status_without_payment :
  let r := PUT_order_status (Some Example.bob) "ORD-7K2M9Q" None in
  session r = Some Example.bob
  /\ target_owner r Example.db = Some (User.id Example.alice)
  /\ User.id Example.alice <> User.id Example.bob
  /\ handle node (Example.env 0) r Example.db
     = (Example.db, Json 400 (message "Payment status is required")).
Proof. vm_compute. repeat split. discriminate. Qed.

Lemma foreign_entity_refused_witness :
  handle node (Example.env 0) (DELETE_catalogue (Some Example.bob) 1)
         Example.db
  = (Example.db, Json 403 (message "Unauthorized")).
Proof.
  apply (foreign_entity_refused node (Example.env 0)
           (DELETE_catalogue (Some Example.bob) 1) Example.db Example.bob 1).
  - reflexivity.
  - reflexivity.
  - vm_compute. discriminate.
Defined.

(** C4 as claimed fails: on POST /api/shared/:link/retailer-info a
    well-formed, unexpired token for another catalogue is answered with
    404, where GET /api/shared/:link/view answers it with 401. *)
Lemma retailer_info_other_catalogue_404 :
  node_decodeToken Example.other_token
  = Some (JObj (tokenPayload 2 "rita@shop.io" 5000))
  /\ option_map Catalogue.id (getCatalogueByLink Example.link Example.db)
     = Some 1
  /\ retailer_info node Example.link (Some "rita@shop.io")
                   (Example.bearer Example.other_token) 1000 Example.db
     = (Example.db, Json 404 (message "Catalogue not found"))
  /\ shared_view node Example.link (Example.bearer Example.other_token) 1000
                 Example.db
     = (Example.db, Json 401 (message "Invalid token for this catalogue")).
Proof. vm_compute. repeat split. Qed.

Lemma token_failures_by_route_witness :
  exists m,
    shared_view node Example.link (Example.bearer Example.stale_token) 1000
                Example.db
    = (Example.db, Json 401 (message m)).
Proof.
  apply (proj1 (token_failures_by_route node Example.link
                  (Example.bearer Example.stale_token) Example.stale_token
                  1000 Example.db eq_refl)).
  right. left. exists (JObj (tokenPayload 2 "rita@shop.io" 1)), 1.
  vm_compute. repeat split.
Defined.

Lemma shared_view_omits_password_witness :
  let r := shared_view node Example.link (Example.bearer Example.fresh_token)
                       1000 Example.db in
  exists catalogue user info,
    getCatalogueByLink Example.link Example.db = Some catalogue
    /\ getUser (Catalogue.userId catalogue) (fst r) = Some user
    /\ prop (body_of (snd r)) "distributor" = JObj info
    /\ obj_get "password" info = None
    /\ (forall k, k <> "password" ->
                  obj_get k info = obj_get k (User.to_js user))
    /\ has_key "password" (body_of (snd r)) = false.
Proof.
  intros r.
  apply (shared_view_omits_password node Example.link
           (Example.bearer Example.fresh_token) 1000 Example.db
           (fst r) (body_of (snd r))).
  vm_compute. reflexivity.
Defined.

Lemma two_views_count_two_witness :
  (let s2 := fst (shared_view node Example.link
                    (Example.bearer Example.fresh_token) 2000
                    (fst (shared_view node Example.link
                            (Example.bearer Example.fresh_token) 1000
                            Example.mem))) in
   exists before after,
     getCatalogue 1 Example.mem = Some before
     /\ getCatalogue 1 s2 = Some after
     /\ Catalogue.views after = Some (or_zero (Catalogue.views before) + 2))
  /\ (let s2 := fst (shared_view node Example.link
                       (Example.bearer Example.fresh_token) 2000
                       (fst (shared_view node Example.link
                               (Example.bearer Example.fresh_token) 1000
                               Example.db))) in
      exists before after,
        getCatalogue 1 Example.db = Some before
        /\ getCatalogue 1 s2 = Some after
        /\ Catalogue.views after
           = Some (or_zero (Catalogue.views before) + 2)).
Proof.
  split.
  - apply (proj1 two_views_count_two node Example.link
             (Example.bearer Example.fresh_token) Example.fresh_token
             (JObj (tokenPayload 1 "rita@shop.io" 5000)) 1000 2000
             Example.mem
             (Catalogue.mk 1 1 "spring" None Example.link None (Some 0) 0)).
    + split; unfold keyed; simpl; repeat constructor; simpl; lia.
    + reflexivity.
    + vm_compute. reflexivity.
    + reflexivity.
    + unfold valid_token; simpl; repeat split; try discriminate;
        exists 5000; repeat split; try discriminate; lia.
    + unfold valid_token; simpl; repeat split; try discriminate;
        exists 5000; repeat split; try discriminate; lia.
  - apply (proj2 two_views_count_two node Example.link
             (Example.bearer Example.fresh_token) Example.fresh_token
             (JObj (tokenPayload 1 "rita@shop.io" 5000)) 1000 2000
             Example.db
             (Catalogue.mk 1 1 "spring" None Example.link None (Some 0) 0)).
    + reflexivity.
    + vm_compute. reflexivity.
    + reflexivity.
    + unfold valid_token; simpl; repeat split; try discriminate;
        exists 5000; repeat split; try discriminate; lia.
    + unfold valid_token; simpl; repeat split; try discriminate;
        exists 5000; repeat split; try discriminate; lia.
Defined.

(** ** The access token survives its round trip *)

(** *** Base64 *)

Lemma list_ind3 {A} (P : list A -> Prop) :
  P [] -> (forall a, P [a]) -> (forall a b, P [a; b]) ->
  (forall a b c l, P l -> P (a :: b :: c :: l)) ->
  forall l, P l.
Proof.
  intros H0 H1 H2 H3. fix IH 1.
  intros [|a [|b [|c l]]].
  - exact H0.
  - apply H1.
  - apply H2.
  - apply H3. apply IH.
Qed.

Lemma base64_dec_enc (x : Base64.sextet) :
  Base64.dec_char (Base64.enc_char x) = Some x.
Proof. destruct x as [[] [] [] [] [] []]; reflexivity. Qed.

Lemma base64_enc_not_pad (x : Base64.sextet) :
  (Base64.enc_char x =? "=")%char = false.
Proof. destruct x as [[] [] [] [] [] []]; reflexivity. Qed.

Lemma base64_collect_enc (l : list Base64.sextet) (pad : string) :
  Base64.collect pad = [] ->
  Base64.collect (string_of_list_ascii (map Base64.enc_char l) ++ pad)%string
  = l.
Proof.
  intros Hp. induction l as [|x l IH]; simpl.
  - exact Hp.
  - now rewrite base64_enc_not_pad, base64_dec_enc, IH.
Qed.

Lemma base64_bytes_sextets (l : list ascii) :
  Base64.bytes_of_sextets (Base64.sextets_of_bytes l) = l.
Proof.
  induction l as [| a | a b | a b c l IH] using list_ind3.
  - reflexivity.
  - now destruct a.
  - now destruct a, b.
  - destruct a, b, c. simpl. unfold Base64.byte1, Base64.byte2, Base64.byte3.
    simpl. now rewrite IH.
Qed.

Lemma base64_padding_collects (n : nat) :
  Base64.collect (Base64.padding n) = [].
Proof.
  unfold Base64.padding. now destruct (n mod 3)%nat as [|[|[|k]]].
Qed.

Lemma base64_decode_encode (s : string) :
  Base64.decode (Base64.encode s) = s.
Proof.
  unfold Base64.decode, Base64.encode.
  rewrite base64_collect_enc by apply base64_padding_collects.
  rewrite base64_bytes_sextets. apply string_of_list_ascii_of_string.
Qed.

(** *** JSON *)

Lemma append_assoc (a b c : string) :
  ((a ++ b) ++ c = a ++ (b ++ c))%string.
Proof. induction a as [|x a IH]; simpl; [reflexivity|now rewrite IH]. Qed.

Lemma json_parse_escape (c : ascii) (x : string) :
  Json.parse_chars (Json.escape c ++ x)
  = Json.cons_chars (String c "") (Json.parse_chars x).
Proof. destruct c as [[] [] [] [] [] [] [] []]; reflexivity. Qed.

Lemma json_parse_quote_body (s r : string) :
  Json.parse_chars (Json.quote_body s ++ String Json.dq r) = Some (s, r).
Proof.
  induction s as [|c s IH]; simpl.
  - reflexivity.
  - now rewrite append_assoc, json_parse_escape, IH.
Qed.

Lemma json_digits_uint (u : Decimal.uint) (c : ascii) (r : string) :
  Json.is_digit c = false ->
  Json.digits (NilEmpty.string_of_uint u ++ String c r)
  = (NilEmpty.string_of_uint u, String c r).
Proof.
  intros Hc. induction u; simpl; try (now rewrite IHu).
  now rewrite Hc.
Qed.

Lemma to_uint_normal (p : positive) :
  Decimal.unorm (Pos.to_uint p) = Pos.to_uint p.
Proof.
  rewrite <- DecimalPos.Unsigned.to_of, DecimalPos.Unsigned.of_to.
  reflexivity.
Qed.

Lemma to_uint_head (p : positive) (u : Decimal.uint) :
  Pos.to_uint p <> Decimal.D0 u.
Proof.
  intros H. pose proof (to_uint_normal p) as Hn. rewrite H in Hn.
  rewrite DecimalFacts.unorm_D0 in Hn.
  assert (Hu : u = Decimal.Nil \/ u <> Decimal.Nil)
    by (destruct u; (now left) || (right; discriminate)).
  destruct Hu as [->|Hu].
  - apply (DecimalPos.Unsigned.to_uint_nonzero p). exact H.
  - pose proof (DecimalFacts.nb_digits_unorm u Hu) as L.
    rewrite Hn in L. simpl in L. lia.
Qed.

Lemma json_number_digits (p : positive) (c : ascii) (r : string)
      (negative : bool) :
  Json.is_digit c = false ->
  Json.starts_fraction (String c r) = false ->
  (let (d, r') :=
     Json.digits (NilZero.string_of_uint (Pos.to_uint p) ++ String c r) in
   if Json.leading_zero d || Json.starts_fraction r' then None
   else
     match NilZero.uint_of_string d with
     | Some u =>
         let v := Z.of_uint u in Some (if negative then - v else v, r')
     | None => None
     end)
  = Some (if negative then Z.neg p else Z.pos p, String c r).
Proof.
  intros Hc Hf.
  assert (Hs : NilZero.string_of_uint (Pos.to_uint p)
               = NilEmpty.string_of_uint (Pos.to_uint p)).
  { destruct (Pos.to_uint p) eqn:E; try reflexivity.
    exfalso. exact (DecimalPos.Unsigned.to_uint_nonnil p E). }
  assert (Hz : Json.leading_zero (NilZero.string_of_uint (Pos.to_uint p))
               = false).
  { destruct (Pos.to_uint p) eqn:E; try reflexivity.
    exfalso. exact (to_uint_head p _ E). }
  rewrite Hs at 1. rewrite json_digits_uint by exact Hc.
  rewrite <- Hs, Hz, Hf. simpl orb. cbv iota.
  rewrite NilZero.usu by apply DecimalPos.Unsigned.to_uint_nonnil.
  pose proof (DecimalZ.of_to (Z.pos p)) as Hv. simpl in Hv.
  cbv zeta. rewrite Hv. now destruct negative.
Qed.

Lemma json_number (n : Z) (c : ascii) (r : string) :
  Json.is_digit c = false ->
  Json.starts_fraction (String c r) = false ->
  Json.parse_number (Z_toString n ++ String c r) = Some (n, String c r).
Proof.
  intros Hc Hf. destruct n as [|p|p].
  - unfold Json.parse_number.
    change (Z_toString 0 ++ String c r)%string
      with (String "0" (String c r)).
    cbv beta iota.
    set (b := Ascii.eqb _ _). vm_compute in b. subst b. cbv beta iota.
    change (String "0" (String c r))
      with (NilEmpty.string_of_uint (Decimal.D0 Decimal.Nil) ++ String c r)%string.
    rewrite json_digits_uint by exact Hc.
    change (NilEmpty.string_of_uint (Decimal.D0 Decimal.Nil)) with "0"%string.
    change (Json.leading_zero "0") with false. rewrite Hf. reflexivity.
  - rewrite <- (json_number_digits p c r false Hc Hf).
    unfold Json.parse_number, Z_toString. simpl Z.to_int.
    simpl NilZero.string_of_int.
    destruct (Pos.to_uint p); reflexivity.
  - rewrite <- (json_number_digits p c r true Hc Hf).
    reflexivity.
Qed.

Lemma json_number_head (n : Z) :
  exists h t, Z_toString n = String h t
              /\ (Json.is_digit h = true \/ h = "-"%char).
Proof.
  destruct n as [|p|p]; unfold Z_toString; simpl.
  - exists "0"%char, EmptyString. auto.
  - destruct (Pos.to_uint p) eqn:E;
      try (eexists; eexists; split; [reflexivity|left; reflexivity]).
  - eexists. eexists. split; [reflexivity|now right].
Qed.

Lemma json_value_dispatch (f : nat) (h : ascii) (t : string) :
  Json.is_digit h = true \/ h = "-"%char ->
  Json.parse_value (S f) (String h t)
  = match Json.parse_number (String h t) with
    | Some (n, r') => Some (JNum n, r')
    | None => None
    end.
Proof.
  intros H.
  destruct h as [[] [] [] [] [] [] [] []];
    try reflexivity;
    exfalso; destruct H as [H|H]; discriminate.
Qed.

Lemma json_value_number (f : nat) (n : Z) (c : ascii) (r : string) :
  Json.is_digit c = false ->
  Json.starts_fraction (String c r) = false ->
  Json.parse_value (S f) (Z_toString n ++ String c r)
  = Some (JNum n, String c r).
Proof.
  intros Hc Hf.
  destruct (json_number_head n) as [h [t [Hs Hh]]].
  pose proof (json_number n c r Hc Hf) as Hn.
  rewrite Hs in *. simpl append in *.
  now rewrite json_value_dispatch, Hn.
Qed.

Lemma json_object_open (f : nat) (x : string) :
  Json.parse_value (S f) (String "{" (String Json.dq x))
  = match Json.parse_members f (String Json.dq x) with
    | Some (o, r') => Some (JObj (obj_spread [] o), r')
    | None => None
    end.
Proof. reflexivity. Qed.

Lemma json_member (f : nat) (k x : string) :
  Json.parse_members (S f)
    (String Json.dq (Json.quote_body k ++ String Json.dq (String ":" x)))
  = match Json.parse_value f x with
    | Some (v, r3) =>
        match Json.skip_ws r3 with
        | String "," r4 =>
            match Json.parse_members f r4 with
            | Some (o, r5) => Some ((k, v) :: o, r5)
            | None => None
            end
        | String "}" r4 => Some ([(k, v)], r4)
        | _ => None
        end
    | None => None
    end.
Proof.
  change (Json.parse_members (S f)
            (String Json.dq
               (Json.quote_body k ++ String Json.dq (String ":" x))))
    with (match Json.parse_chars
                  (Json.quote_body k ++ String Json.dq (String ":" x)) with
          | Some (k, r1) =>
              match Json.skip_ws r1 with
              | String ":" r2 =>
                  match Json.parse_value f r2 with
                  | Some (v, r3) =>
                      match Json.skip_ws r3 with
                      | String "," r4 =>
                          match Json.parse_members f r4 with
                          | Some (o, r5) => Some ((k, v) :: o, r5)
                          | None => None
                          end
                      | String "}" r4 => Some ([(k, v)], r4)
                      | _ => None
                      end
                  | None => None
                  end
              | _ => None
              end
          | None => None
          end).
  rewrite json_parse_quote_body. reflexivity.
Qed.

Lemma json_quote_append (k r : string) :
  (Json.quote k ++ r
   = String Json.dq (Json.quote_body k ++ String Json.dq r))%string.
Proof. unfold Json.quote. simpl. now rewrite append_assoc. Qed.

Lemma json_skip_comma (r : string) :
  Json.skip_ws (String "," r) = String "," r.
Proof. reflexivity. Qed.

Lemma json_skip_brace (r : string) :
  Json.skip_ws (String "}" r) = String "}" r.
Proof. reflexivity. Qed.

Lemma json_value_quoted (f : nat) (e r : string) :
  Json.parse_value (S f)
    (String Json.dq (Json.quote_body e ++ String Json.dq r))
  = Some (JStr e, r).
Proof.
  change (Json.parse_value (S f)
            (String Json.dq (Json.quote_body e ++ String Json.dq r)))
    with (match Json.parse_chars (Json.quote_body e ++ String Json.dq r) with
          | Some (x, r') => Some (JStr x, r')
          | None => None
          end).
  now rewrite json_parse_quote_body.
Qed.

Lemma json_token_parse (f : nat) (c : Z) (e : string) (x : Z) :
  Json.parse_value (S (S (S (S (S f))))) (Json.stringify_token c e x)
  = Some (JObj (tokenPayload c e x), EmptyString).
Proof.
  unfold Json.stringify_token.
  rewrite !json_quote_append.
  with_strategy opaque [Json.quote_body Z_toString] (simpl append).
  rewrite json_object_open, json_member.
  rewrite json_value_number by reflexivity.
  rewrite json_skip_comma. cbv beta iota.
  rewrite json_member, json_value_quoted.
  rewrite json_skip_comma. cbv beta iota.
  rewrite json_member.
  rewrite json_value_number by reflexivity.
  rewrite json_skip_brace. cbv beta iota.
  reflexivity.
Qed.

Lemma json_parse_stringify (c : Z) (e : string) (x : Z) :
  Json.parse (Json.stringify_token c e x) = Some (JObj (tokenPayload c e x)).
Proof.
  unfold Json.parse.
  assert (H : exists f, String.length (Json.stringify_token c e x)
                        = S (S (S (S f)))).
  { unfold Json.stringify_token. rewrite !json_quote_append.
    with_strategy opaque [Json.quote_body Z_toString] (simpl append).
    simpl String.length. eauto. }
  destruct H as [f ->]. now rewrite json_token_parse.
Qed.

(** The token that check-access mints decodes to its payload. *)
Lemma node_token_round_trip (c : Z) (e : string) (x : Z) :
  node_decodeToken (node_encodeToken c e x)
  = Some (JObj (tokenPayload c e x)).
Proof.
  unfold node_decodeToken, node_encodeToken.
  now rewrite base64_decode_encode, json_parse_stringify.
Qed.

(** ** The access-request lifecycle *)

Section Access.
Context {S : Type} {storage : IStorage S}.

Lemma complete_email (body : AccessBody) :
  complete body -> present (Some (text (body_email body))) = true.
Proof.
  intros [_ [H _]]. destruct (body_email body); [exact H|discriminate].
Qed.

Lemma request_access_unknown (link : string) (body : AccessBody) (now : Z)
      (s : S) :
  complete body ->
  getCatalogueByLink link s = None ->
  request_access link body now s
  = (s, Json 404 (message "Catalogue not found")).
Proof.
  intros [H1 [H2 H3]] Hc. unfold request_access.
  now rewrite H1, H2, H3, Hc.
Qed.

Lemma request_access_known (link : string) (body : AccessBody) (now : Z)
      (s : S) (c : Catalogue) :
  complete body ->
  getCatalogueByLink link s = Some c ->
  request_access link body now s
  = (let (s', requestId) :=
       createAccessRequest now
         (InsertAccessRequest.mk (Catalogue.id c) (text (body_name body))
            (text (body_email body)) (text (body_company body))
            (Some (or_string (body_message body) "")) (Some pending) now)
         s in
     (s', pending_reply requestId)).
Proof.
  intros [H1 [H2 H3]] Hc. unfold request_access.
  now rewrite H1, H2, H3, Hc.
Qed.

Lemma check_access_refused (pf : Platform) (link email : string) (now : Z)
      (s : S) (c : Catalogue) (r : AccessRequest) :
  present (Some email) = true ->
  getCatalogueByLink link s = Some c ->
  getAccessRequestByEmail (Catalogue.id c) email s = Some r ->
  AccessRequest.status r <> approved ->
  check_access pf link (Some email) now s = (s, refused_reply).
Proof.
  intros Hp Hc Hr Hs. unfold check_access. rewrite Hp. simpl.
  rewrite Hc, Hr. now destruct (AccessRequest.status r).
Qed.

Lemma check_access_granted (pf : Platform) (link email : string) (now : Z)
      (s : S) (c : Catalogue) (r : AccessRequest) :
  present (Some email) = true ->
  getCatalogueByLink link s = Some c ->
  getAccessRequestByEmail (Catalogue.id c) email s = Some r ->
  AccessRequest.status r = approved ->
  check_access pf link (Some email) now s
  = (s, granted_reply (encodeToken pf (Catalogue.id c) email
                                   (now + week_ms))).
Proof.
  intros Hp Hc Hr Hs. unfold check_access. rewrite Hp. simpl.
  now rewrite Hc, Hr, Hs.
Qed.

End Access.

(** *** In memory *)

Lemma JsMap_set_set {V} (k : Z) (v v' : V) (m : JsMap.t V) :
  JsMap.set k v' (JsMap.set k v m) = JsMap.set k v' m.
Proof.
  induction m as [|[k0 v0] m IH]; simpl.
  - now rewrite Z.eqb_refl.
  - destruct (k0 =? k) eqn:E; simpl; rewrite E; [reflexivity|now rewrite IH].
Qed.

Lemma find_set_none {V} (p : V -> bool) (k : Z) (v : V) (m : JsMap.t V) :
  find p (JsMap.values m) = None -> p v = true ->
  find p (JsMap.values (JsMap.set k v m)) = Some v.
Proof.
  intros Hn Hp. induction m as [|[k0 v0] m IH]; simpl in *.
  - now rewrite Hp.
  - destruct (p v0) eqn:E0; [discriminate|].
    destruct (k0 =? k); simpl; [now rewrite Hp|].
    rewrite E0. auto.
Qed.

Lemma mem_lifecycle (pf : Platform) (s : MemStorage.t) (link : string)
      (body : AccessBody) (now : Z) :
  complete body -> lifecycle pf s link body now.
Proof.
  intros Hb. split.
  - now apply request_access_unknown.
  - intros c Hc Hid Hnone.
    pose proof (complete_email body Hb) as He.
    set (email := text (body_email body)) in *.
    set (id := MemStorage.currentAccessRequestId s).
    set (r := AccessRequest.mk id (Catalogue.id c) (text (body_name body))
                email (text (body_company body))
                (Some (or_string (body_message body) "")) pending now).
    set (p := fun x => (AccessRequest.catalogueId x =? Catalogue.id c)
                       && (AccessRequest.email x =? email)%string).
    assert (Hpr : forall st, p (AccessRequest.with_status st r) = true).
    { intros st. unfold p. simpl.
      now rewrite Z.eqb_refl, String.eqb_refl. }
    set (s1 := MemStorage.set_accessRequests
                 (JsMap.set id r (MemStorage.accessRequests s)) (id + 1) s).
    exists id, s1. split; [|split; [|split]].
    + rewrite (request_access_known link body now s c Hb Hc). reflexivity.
    + exists r. repeat split. simpl. unfold MemStorage.getAccessRequest.
      simpl. now rewrite JsMap_get_set, Z.eqb_refl.
    + intros t1. apply (check_access_refused pf link email t1 s1 c r He).
      * exact Hc.
      * simpl. unfold MemStorage.getAccessRequestByEmail. simpl.
        apply (find_set_none p id r _ Hnone (Hpr pending)).
      * discriminate.
    + intros u Hu.
      assert (Hdec : forall d st,
                 decision (Some st) = Some d ->
                 exists s2,
                   put_access_request (Some u) id (Some st) s1
                   = (s2, decision_reply id d)
                   /\ getCatalogueByLink link s2 = Some c
                   /\ getAccessRequestByEmail (Catalogue.id c) email s2
                      = Some (AccessRequest.with_status d r)).
      { intros d st Hd.
        set (r' := AccessRequest.with_status d r).
        set (s2 := MemStorage.set_accessRequests
                     (JsMap.set id r' (MemStorage.accessRequests s1))
                     (MemStorage.currentAccessRequestId s1) s1).
        exists s2. split; [|split; [exact Hc|]].
        - unfold put_access_request. rewrite Hd.
          assert (Hg : getAccessRequest id s1 = Some r).
          { simpl. unfold MemStorage.getAccessRequest. simpl.
            now rewrite JsMap_get_set, Z.eqb_refl. }
          rewrite Hg.
          change (getCatalogue (AccessRequest.catalogueId r) s1)
            with (getCatalogue (Catalogue.id c) s).
          rewrite Hid, Hu, Z.eqb_refl. simpl negb. cbv iota.
          simpl updateAccessRequest. unfold MemStorage.updateAccessRequest.
          simpl in Hg. unfold MemStorage.getAccessRequest in Hg.
          rewrite Hg. reflexivity.
        - simpl. unfold MemStorage.getAccessRequestByEmail. simpl.
          rewrite JsMap_set_set.
          apply (find_set_none p id r' _ Hnone (Hpr d)). }
      split.
      * destruct (Hdec approved "approved" eq_refl)
          as (s2 & Hput & Hc2 & Hfind).
        exists s2. split; [exact Hput|].
        intros t2 token. split; [|apply node_token_round_trip].
        now apply (check_access_granted (on_node pf) link email t2 s2 c _
                     He Hc2 Hfind).
      * destruct (Hdec rejected "rejected" eq_refl)
          as (s3 & Hput & Hc3 & Hfind).
        exists s3. split; [exact Hput|]. intros t3.
        apply (check_access_refused pf link email t3 s3 c _ He Hc3 Hfind).
        discriminate.
Qed.

(** *** In the database *)

Lemma filter_none_of_old {R} (id : R -> Z) (n : Z) (rows : list R) :
  Forall (fun r => id r < n) rows ->
  filter (fun r => id r =? n) rows = [].
Proof.
  induction 1 as [|r rows Hr _ IH]; simpl; [reflexivity|].
  assert (E : (id r =? n) = false) by (apply Z.eqb_neq; lia).
  now rewrite E.
Qed.

Lemma map_id_of_old {R} (id : R -> Z) (n : Z) (f : R -> R) (rows : list R) :
  Forall (fun r => id r < n) rows ->
  map (fun r => if id r =? n then f r else r) rows = rows.
Proof.
  induction 1 as [|r rows Hr _ IH]; simpl; [reflexivity|].
  assert (E : (id r =? n) = false) by (apply Z.eqb_neq; lia).
  now rewrite E, IH.
Qed.

Lemma hd_filter_none {A} (p : A -> bool) (l : list A) :
  hd_error (filter p l) = None -> filter p l = [].
Proof. now destruct (filter p l). Qed.

Lemma db_lifecycle (pf : Platform) (s : DatabaseStorage.t) (link : string)
      (body : AccessBody) (now : Z) :
  db_consistent s -> complete body -> lifecycle pf s link body now.
Proof.
  intros Hs Hb. split.
  - now apply request_access_unknown.
  - intros c Hc Hid Hnone.
    pose proof (complete_email body Hb) as He.
    set (email := text (body_email body)) in *.
    set (tb := DatabaseStorage.accessRequests s) in *.
    set (id := Table.nextId tb).
    set (r := AccessRequest.mk id (Catalogue.id c) (text (body_name body))
                email (text (body_company body))
                (Some (or_string (body_message body) "")) pending now).
    set (p := fun x => (AccessRequest.catalogueId x =? Catalogue.id c)
                       && (AccessRequest.email x =? email)%string).
    assert (Hpr : forall st, p (AccessRequest.with_status st r) = true).
    { intros st. unfold p. simpl.
      now rewrite Z.eqb_refl, String.eqb_refl. }
    assert (Hold : filter p (Table.rows tb) = []).
    { apply hd_filter_none. exact Hnone. }
    assert (Hfresh : filter (fun x => AccessRequest.id x =? id)
                            (Table.rows tb) = []).
    { apply filter_none_of_old. exact Hs. }
    set (s1 := DatabaseStorage.set_accessRequests
                 (Table.mk (Table.rows tb ++ [r]) (id + 1)) s).
    assert (Hg : getAccessRequest id s1 = Some r).
    { simpl. unfold DatabaseStorage.getAccessRequest, Table.select. simpl.
      rewrite filter_app, Hfresh. simpl. now rewrite Z.eqb_refl. }
    exists id, s1. split; [|split; [|split]].
    + rewrite (request_access_known link body now s c Hb Hc). reflexivity.
    + exists r. repeat split. exact Hg.
    + intros t1. apply (check_access_refused pf link email t1 s1 c r He).
      * exact Hc.
      * change (hd_error (filter p (Table.rows tb ++ [r])) = Some r).
        rewrite filter_app, Hold.
        change (filter p [r]) with (if p r then [r] else []).
        now rewrite (Hpr pending : p r = true).
      * discriminate.
    + intros u Hu.
      assert (Hdec : forall d st,
                 decision (Some st) = Some d ->
                 exists s2,
                   put_access_request (Some u) id (Some st) s1
                   = (s2, decision_reply id d)
                   /\ getCatalogueByLink link s2 = Some c
                   /\ getAccessRequestByEmail (Catalogue.id c) email s2
                      = Some (AccessRequest.with_status d r)).
      { intros d st Hd.
        set (r' := AccessRequest.with_status d r).
        set (s2 := DatabaseStorage.set_accessRequests
                     (Table.mk (Table.rows tb ++ [r']) (id + 1)) s1).
        assert (Hup : fst (updateAccessRequest id d s1) = s2).
        { simpl. unfold DatabaseStorage.updateAccessRequest, Table.update.
          simpl. unfold s2. do 2 f_equal.
          rewrite map_app, (map_id_of_old AccessRequest.id id) by exact Hs.
          simpl. now rewrite Z.eqb_refl. }
        exists s2. split; [|split; [exact Hc|]].
        - unfold put_access_request. rewrite Hd, Hg.
          change (getCatalogue (AccessRequest.catalogueId r) s1)
            with (getCatalogue (Catalogue.id c) s).
          rewrite Hid, Hu, Z.eqb_refl. simpl negb. cbv iota.
          now rewrite Hup.
        - change (hd_error (filter p (Table.rows tb ++ [r'])) = Some r').
          rewrite filter_app, Hold.
          change (filter p [r']) with (if p r' then [r'] else []).
          now rewrite (Hpr d : p r' = true). }
      split.
      * destruct (Hdec approved "approved" eq_refl)
          as (s2 & Hput & Hc2 & Hfind).
        exists s2. split; [exact Hput|].
        intros t2 token. split; [|apply node_token_round_trip].
        now apply (check_access_granted (on_node pf) link email t2 s2 c _
                     He Hc2 Hfind).
      * destruct (Hdec rejected "rejected" eq_refl)
          as (s3 & Hput & Hc3 & Hfind).
        exists s3. split; [exact Hput|]. intros t3.
        apply (check_access_refused pf link email t3 s3 c _ He Hc3 Hfind).
        discriminate.
Qed.

(** C3, amended.  A request-access that lacks the name, the email or the
    company is answered with 400 whatever the link, and stores nothing.
    With the three present: on an unknown link it is answered with 404 and
    stores nothing; on a known link, when no request is stored yet for
    this catalogue and email, it stores a pending request, and
    check-access with the email then answers [granted: false]; after the
    owner of the catalogue has rejected the request check-access still
    answers [granted: false], and after the owner has approved it
    check-access answers [granted: true] with an [accessToken] that
    decodes (base64, then JSON) to the catalogue's id, the email and the
    expiry.  In every state, check-access answers [granted: false] when
    the request that the storage finds for the catalogue and the email is
    not approved.  On both storages. *)
Theorem access_request_lifecycle :
  (forall pf (s : MemStorage.t) link body now,
      complete body -> lifecycle pf s link body now)
  /\ (forall pf (s : DatabaseStorage.t) link body now,
         db_consistent s -> complete body -> lifecycle pf s link body now)
  /\ (forall S (storage : IStorage S) (s : S) link body now,
         ~ complete body ->
         request_access link body now s
         = (s, Json 400 (message "Missing required fields")))
  /\ (forall S (storage : IStorage S) pf (s : S) link email now c r,
         present (Some email) = true ->
         getCatalogueByLink link s = Some c ->
         getAccessRequestByEmail (Catalogue.id c) email s = Some r ->
         AccessRequest.status r <> approved ->
         check_access pf link (Some email) now s = (s, refused_reply)).
Proof.
  split; [|split; [|split]].
  - intros. now apply mem_lifecycle.
  - intros. now apply db_lifecycle.
  - intros S storage s link body now Hn. unfold request_access.
    destruct (present (body_name body)) eqn:E1;
      destruct (present (body_email body)) eqn:E2;
      destruct (present (body_company body)) eqn:E3;
      try reflexivity.
    exfalso. apply Hn. unfold complete. auto.
  - intros S storage pf s link email now c r.
    apply check_access_refused.
Qed.

(** ** Who writes access requests *)

Lemma fst_let {A B C} (x : A * B) (g : B -> C) :
  fst (let (a, b) := x in (a, g b)) = fst x.
Proof. now destruct x. Qed.

Ltac route_frame :=
  repeat first [rewrite fst_let | break_match]; cbn [fst]; auto.

(** A relation between storage states that every write leaves intact,
    except the two writes of access requests, is left intact by every
    route except the two that make those writes. *)
Section Frame.
Context {S : Type} {storage : IStorage S}.
Variable same : S -> S -> Prop.
Hypothesis same_refl : forall s, same s s.
Hypothesis same_trans : forall s s1 s2, same s s1 -> same s1 s2 -> same s s2.
Hypothesis createProduct_same :
  forall now p s, same s (fst (createProduct now p s)).
Hypothesis updateProduct_same :
  forall id u s, same s (fst (updateProduct id u s)).
Hypothesis deleteProduct_same : forall id s, same s (fst (deleteProduct id s)).
Hypothesis createCatalogue_same :
  forall now c s, same s (fst (createCatalogue now c s)).
Hypothesis updateCatalogue_same :
  forall id u s, same s (fst (updateCatalogue id u s)).
Hypothesis deleteCatalogue_same :
  forall id s, same s (fst (deleteCatalogue id s)).
Hypothesis incrementCatalogueViews_same :
  forall id s, same s (incrementCatalogueViews id s).
Hypothesis addProductToCatalogue_same :
  forall c p s, same s (fst (addProductToCatalogue c p s)).
Hypothesis removeProductFromCatalogue_same :
  forall c p s, same s (fst (removeProductFromCatalogue c p s)).
Hypothesis createOrder_same :
  forall now pool o s, same s (fst (createOrder now pool o s)).
Hypothesis updateOrderPaymentStatus_same :
  forall o st s, same s (fst (updateOrderPaymentStatus o st s)).

Lemma sync_same (u : User) (id : Z) (l : list JsValue) (s : S) :
  same s (sync_products u id l s).
Proof.
  unfold sync_products.
  set (cur := map Product.id (getCatalogueProducts id s)).
  apply fold_left_keeps with (P := same s).
  - intros a b Ha. apply (same_trans _ _ _ Ha).
    unfold sync_remove. route_frame.
  - apply fold_left_keeps with (P := same s); [|apply same_refl].
    intros a b Ha. apply (same_trans _ _ _ Ha).
    unfold sync_add. route_frame.
Qed.

Lemma attach_same (u : User) (id : Z) (l : list JsValue) (s : S) :
  same s (fold_left (attach_product u id) l s).
Proof.
  apply fold_left_keeps with (P := same s); [|apply same_refl].
  intros a b Ha. apply (same_trans _ _ _ Ha).
  unfold attach_product. route_frame.
Qed.

Lemma other_routes_same (pf : Platform) (e : Env) (r : Request) (s : S) :
  writes_requests r = false -> same s (fst (handle pf e r s)).
Proof.
  destruct r; simpl; try discriminate; intros _.
  - unfold get_products. route_frame.
  - unfold get_product. route_frame.
  - unfold post_products. route_frame.
  - unfold put_product. route_frame.
  - unfold delete_product. route_frame.
  - unfold get_catalogues. route_frame.
  - unfold get_catalogue. route_frame.
  - unfold post_catalogues.
    destruct user as [u|]; [|apply same_refl].
    destruct (insertCatalogueSchema_parse pf _) as [v|]; [|apply same_refl].
    destruct (createCatalogue (now e) v s) as [s1 c] eqn:E.
    assert (H1 : same s s1).
    { change s1 with (fst (s1, c)). rewrite <- E.
      apply createCatalogue_same. }
    simpl fst. apply (same_trans _ _ _ H1).
    destruct (obj_get "productIds" body) as [[]|]; try apply same_refl.
    apply attach_same.
  - unfold put_catalogue.
    destruct user as [u|]; [|apply same_refl].
    destruct (getCatalogue id s); [|apply same_refl].
    destruct (negb _); [apply same_refl|].
    destruct (insertCatalogueSchema_partial_parse pf _) as [v|];
      [|apply same_refl].
    destruct (updateCatalogue id (CatalogueUpdates.delete_userId v) s)
      as [s1 c] eqn:E.
    assert (H1 : same s s1).
    { change s1 with (fst (s1, c)). rewrite <- E.
      apply updateCatalogue_same. }
    simpl fst. apply (same_trans _ _ _ H1).
    destruct (obj_get "productIds" body) as [[]|]; try apply same_refl.
    apply sync_same.
  - unfold delete_catalogue. route_frame.
  - unfold shared_info. route_frame.
  - unfold check_access. route_frame.
  - unfold retailer_info. route_frame.
  - unfold shared_orders. route_frame.
  - unfold shared_payment_status. route_frame.
  - unfold shared_view. route_frame.
  - unfold get_access_requests. route_frame.
  - unfold get_orders. route_frame.
  - unfold get_order. route_frame.
  - unfold post_orders. route_frame.
  - unfold put_order_status. route_frame.
  - unfold dashboard_stats. route_frame.
  - unfold dashboard_recent_orders. route_frame.
Qed.

End Frame.

(** *** In memory *)

Ltac storage_op :=
  simpl; repeat (break_match; simpl); auto.

Lemma mem_same_refl (s : MemStorage.t) : mem_same_requests s s.
Proof. now split. Qed.

Lemma mem_same_trans (s s1 s2 : MemStorage.t) :
  mem_same_requests s s1 -> mem_same_requests s1 s2 ->
  mem_same_requests s s2.
Proof. intros [H1 H2] [H3 H4]. split; congruence. Qed.

Lemma mem_other_routes (pf : Platform) (e : Env) (r : Request)
      (s : MemStorage.t) :
  writes_requests r = false ->
  mem_same_requests s (fst (handle pf e r s)).
Proof.
  apply (other_routes_same mem_same_requests mem_same_refl mem_same_trans);
    intros; unfold mem_same_requests; simpl.
  - unfold MemStorage.createProduct. storage_op.
  - unfold MemStorage.updateProduct. storage_op.
  - unfold MemStorage.deleteProduct, JsMap.delete. storage_op.
  - unfold MemStorage.createCatalogue. storage_op.
  - unfold MemStorage.updateCatalogue. storage_op.
  - unfold MemStorage.deleteCatalogue, JsMap.delete. storage_op.
  - unfold MemStorage.incrementCatalogueViews. storage_op.
  - unfold MemStorage.addProductToCatalogue. storage_op.
  - unfold MemStorage.removeProductFromCatalogue, JsMap.delete. storage_op.
  - unfold MemStorage.createOrder. storage_op.
  - unfold MemStorage.updateOrderPaymentStatus. storage_op.
Qed.

(** *** In the database *)

Lemma db_other_routes (pf : Platform) (e : Env) (r : Request)
      (s : DatabaseStorage.t) :
  writes_requests r = false ->
  db_same_requests s (fst (handle pf e r s)).
Proof.
  apply (other_routes_same db_same_requests);
    unfold db_same_requests; intros; try congruence; simpl.
  - unfold DatabaseStorage.createProduct. storage_op.
  - unfold DatabaseStorage.updateProduct. storage_op.
  - unfold DatabaseStorage.deleteProduct. storage_op.
  - unfold DatabaseStorage.createCatalogue. storage_op.
  - unfold DatabaseStorage.updateCatalogue. storage_op.
  - unfold DatabaseStorage.deleteCatalogue. storage_op.
  - unfold DatabaseStorage.incrementCatalogueViews. storage_op.
  - unfold DatabaseStorage.addProductToCatalogue. storage_op.
  - unfold DatabaseStorage.removeProductFromCatalogue. storage_op.
  - unfold DatabaseStorage.createOrder. storage_op.
  - unfold DatabaseStorage.updateOrderPaymentStatus. storage_op.
Qed.

(** ** Running states

    The states in which the theorems above are stated are those the
    application runs in: the fresh storage is one, and every request keeps
    them. *)

Lemma keyed_filter {V} (id : V -> Z) (n : Z) (m : JsMap.t V)
      (p : Z * V -> bool) :
  keyed id n m -> keyed id n (filter p m).
Proof.
  unfold keyed. induction m as [|kv m IH]; simpl; [auto|].
  intros H. inversion H as [|? ? H1 H2]; subst.
  destruct (p kv); [constructor|]; auto.
Qed.

Lemma mem_catalogue_routes_consistent (pf : Platform) (e : Env) (r : Request)
      (s : MemStorage.t) :
  writes_requests r = false ->
  consistent s -> consistent (fst (handle pf e r s)).
Proof.
  apply (other_routes_same (fun s s' => consistent s -> consistent s')
           (fun s H => H) (fun s s1 s2 H1 H2 H => H2 (H1 H)));
    intros; simpl.
  - revert H. unfold MemStorage.createProduct. storage_op.
  - revert H. unfold MemStorage.updateProduct. storage_op.
  - revert H. unfold MemStorage.deleteProduct, JsMap.delete. storage_op.
  - destruct H as [H1 H2]. split; simpl; [|exact H2].
    apply keyed_set; [|reflexivity|lia].
    apply (keyed_weaken _ _ _ _ H1). lia.
  - destruct H as [H1 H2]. unfold MemStorage.updateCatalogue.
    destruct (JsMap.get id _) as [c|] eqn:Hc; simpl; [|now split].
    destruct (keyed_get _ _ _ _ _ H1 Hc) as [Hid Hlt].
    split; simpl; [|exact H2]. now apply keyed_set.
  - destruct H as [H1 H2]. unfold MemStorage.deleteCatalogue, JsMap.delete.
    split; simpl; [|exact H2]. now apply keyed_filter.
  - destruct H as [H1 H2]. unfold MemStorage.incrementCatalogueViews.
    destruct (JsMap.get id _) as [c|] eqn:Hc; simpl; [|now split].
    destruct (keyed_get _ _ _ _ _ H1 Hc) as [Hid Hlt].
    split; simpl; [|exact H2]. now apply keyed_set.
  - revert H. unfold MemStorage.addProductToCatalogue. storage_op.
  - revert H. unfold MemStorage.removeProductFromCatalogue, JsMap.delete.
    storage_op.
  - revert H. unfold MemStorage.createOrder. storage_op.
  - revert H. unfold MemStorage.updateOrderPaymentStatus. storage_op.
Qed.

Lemma mem_handle_consistent (pf : Platform) (e : Env) (r : Request)
      (s : MemStorage.t) :
  consistent s -> consistent (fst (handle pf e r s)).
Proof.
  destruct (writes_requests r) eqn:Hw;
    [|now apply mem_catalogue_routes_consistent].
  intros [H1 H2]. destruct r; try discriminate; simpl.
  - unfold request_access.
    destruct (_ || _); [now split|].
    destruct (getCatalogueByLink link s) as [c|]; [|now split].
    split; simpl; [exact H1|].
    apply keyed_set; [|reflexivity|lia].
    apply (keyed_weaken _ _ _ _ H2). lia.
  - unfold put_access_request.
    destruct user as [u|]; [|now split].
    destruct (decision status) as [d|]; [|now split].
    destruct (getAccessRequest id s) as [z|] eqn:Hz; [|now split].
    destruct (getCatalogue (AccessRequest.catalogueId z) s) as [c|];
      [|now split].
    destruct (negb _); [now split|].
    simpl in Hz. unfold MemStorage.getAccessRequest in Hz.
    simpl. unfold MemStorage.updateAccessRequest. rewrite Hz. simpl.
    destruct (keyed_get _ _ _ _ _ H2 Hz) as [Hid Hlt].
    split; simpl; [exact H1|]. now apply keyed_set.
Qed.

Lemma db_handle_consistent (pf : Platform) (e : Env) (r : Request)
      (s : DatabaseStorage.t) :
  db_consistent s -> db_consistent (fst (handle pf e r s)).
Proof.
  unfold db_consistent, sequenced. intros H.
  destruct (writes_requests r) eqn:Hw.
  2:{ pose proof (db_other_routes pf e r s Hw) as E.
      unfold db_same_requests in E. now rewrite E. }
  destruct r; try discriminate; simpl.
  - unfold request_access.
    destruct (_ || _); [exact H|].
    destruct (getCatalogueByLink link s) as [c|]; [|exact H].
    simpl. apply Forall_app. split.
    + eapply Forall_impl; [|exact H]. simpl. intros a Ha. lia.
    + constructor; [simpl; lia|constructor].
  - unfold put_access_request.
    destruct user as [u|]; [|exact H].
    destruct (decision status) as [d|]; [|exact H].
    destruct (getAccessRequest id s) as [z|]; [|exact H].
    destruct (getCatalogue (AccessRequest.catalogueId z) s) as [c|];
      [|exact H].
    destruct (negb _); [exact H|].
    simpl. apply Forall_map. eapply Forall_impl; [|exact H].
    simpl. intros a Ha. now destruct (AccessRequest.id a =? id).
Qed.

(** Every state that the API reaches from a fresh storage, and from any
    state of this kind, is of this kind: in memory an entry sits under its
    id below the counter, in the database the ids come from the
    sequence. *)
Theorem running_states_consistent (pf : Platform) (rs : list (Env * Request)) :
  (forall s : MemStorage.t, consistent s -> consistent (serve pf rs s))
  /\ consistent (serve pf rs MemStorage.empty)
  /\ (forall s : DatabaseStorage.t,
         db_consistent s -> db_consistent (serve pf rs s))
  /\ db_consistent (serve pf rs DatabaseStorage.empty).
Proof.
  assert (Hm : forall s : MemStorage.t,
             consistent s -> consistent (serve pf rs s)).
  { induction rs as [|[e r] rs IH]; simpl; intros s H; [exact H|].
    apply IH. now apply mem_handle_consistent. }
  assert (Hd : forall s : DatabaseStorage.t,
             db_consistent s -> db_consistent (serve pf rs s)).
  { clear Hm. induction rs as [|[e r] rs IH]; simpl; intros s H; [exact H|].
    apply IH. now apply db_handle_consistent. }
  split; [exact Hm|]. split; [|split; [exact Hd|]].
  - apply Hm. split; constructor.
  - apply Hd. constructor.
Qed.

(** ** Decided requests *)

(** *** One request *)

Lemma decision_decided (st : option string) (d : Status) :
  decision st = Some d -> decided (Some d).
Proof.
  unfold decision, decided. destruct st as [x|]; [|discriminate].
  destruct (x =? "approved")%string; [intros [= <-]; now left|].
  destruct (x =? "rejected")%string; [intros [= <-]; now right|].
  discriminate.
Qed.

Lemma mem_step (pf : Platform) (e : Env) (r : Request) (s : MemStorage.t)
      (id : Z) (x : Status) :
  mem_requests_keyed s ->
  request_status id s = Some x ->
  mem_requests_keyed (fst (handle pf e r s))
  /\ status_step r id x (fst (handle pf e r s)).
Proof.
  intros Hk Hx. destruct (writes_requests r) eqn:Hw.
  - unfold request_status in Hx. simpl in Hx.
    unfold MemStorage.getAccessRequest in Hx.
    destruct (JsMap.get id (MemStorage.accessRequests s)) as [y|] eqn:Hy;
      [|discriminate].
    destruct (keyed_get _ _ _ _ _ Hk Hy) as [Hid Hlt].
    destruct r; try discriminate; simpl.
    + (* request-access *)
      unfold request_access.
      destruct (_ || _); [split; [exact Hk|left]|].
      { unfold request_status. simpl. unfold MemStorage.getAccessRequest.
        now rewrite Hy. }
      destruct (getCatalogueByLink link s) as [c|];
        [|split; [exact Hk|left]].
      2:{ unfold request_status. simpl. unfold MemStorage.getAccessRequest.
          now rewrite Hy. }
      simpl. split.
      * unfold mem_requests_keyed. simpl. apply keyed_set.
        -- apply (keyed_weaken _ _ _ _ Hk). lia.
        -- reflexivity.
        -- lia.
      * left. unfold request_status. simpl.
        unfold MemStorage.getAccessRequest. simpl.
        rewrite JsMap_get_set.
        assert (E : (MemStorage.currentAccessRequestId s =? id) = false)
          by (apply Z.eqb_neq; lia).
        now rewrite E, Hy.
    + (* PUT access-requests *)
      rename id0 into rid. unfold put_access_request.
      assert (Hsame : request_status id s = Some x).
      { unfold request_status. simpl. unfold MemStorage.getAccessRequest.
        now rewrite Hy. }
      destruct user as [u|]; [|split; [exact Hk|now left]].
      destruct (decision status) as [d|] eqn:Hd;
        [|split; [exact Hk|now left]].
      destruct (getAccessRequest rid s) as [z|] eqn:Hz;
        [|split; [exact Hk|now left]].
      destruct (getCatalogue (AccessRequest.catalogueId z) s) as [c|];
        [|split; [exact Hk|now left]].
      destruct (negb _); [split; [exact Hk|now left]|].
      simpl in Hz. unfold MemStorage.getAccessRequest in Hz.
      simpl. unfold MemStorage.updateAccessRequest. rewrite Hz. simpl.
      destruct (keyed_get _ _ _ _ _ Hk Hz) as [Hzid Hzlt].
      split.
      * unfold mem_requests_keyed. simpl. apply keyed_set; auto.
      * unfold status_step, request_status. simpl.
        unfold MemStorage.getAccessRequest. simpl.
        rewrite JsMap_get_set. destruct (rid =? id) eqn:E.
        -- apply Z.eqb_eq in E. right.
           exists (Some u), status, d. rewrite E. auto.
        -- left. rewrite Hy. exact Hx.
  - destruct (mem_other_routes pf e r s Hw) as [H1 H2].
    split.
    + unfold mem_requests_keyed. now rewrite H1, H2.
    + left. unfold request_status in *. simpl in *.
      unfold MemStorage.getAccessRequest in *. now rewrite H1.
Qed.

Lemma hd_filter_app {A} (p : A -> bool) (l l' : list A) (y : A) :
  hd_error (filter p l) = Some y -> hd_error (filter p (l ++ l')) = Some y.
Proof.
  rewrite filter_app. now destruct (filter p l).
Qed.

Lemma db_step (pf : Platform) (e : Env) (r : Request)
      (s : DatabaseStorage.t) (id : Z) (x : Status) :
  request_status id s = Some x ->
  status_step r id x (fst (handle pf e r s)).
Proof.
  intros Hx. destruct (writes_requests r) eqn:Hw.
  - pose proof Hx as Hx0.
    unfold request_status in Hx. simpl in Hx.
    unfold DatabaseStorage.getAccessRequest, Table.select in Hx.
    destruct (hd_error _) as [y|] eqn:Hy; [|discriminate].
    destruct r; try discriminate; simpl.
    + unfold request_access.
      destruct (_ || _); [now left|].
      destruct (getCatalogueByLink link s) as [c|]; [|now left].
      left. unfold request_status. simpl.
      unfold DatabaseStorage.getAccessRequest, Table.select. simpl.
      now rewrite (hd_filter_app _ _ _ _ Hy).
    + rename id0 into rid. unfold put_access_request.
      destruct user as [u|]; [|now left].
      destruct (decision status) as [d|] eqn:Hd; [|now left].
      destruct (getAccessRequest rid s) as [z|]; [|now left].
      destruct (getCatalogue (AccessRequest.catalogueId z) s) as [c|];
        [|now left].
      destruct (negb _); [now left|].
      unfold status_step, request_status. simpl.
      unfold DatabaseStorage.getAccessRequest, Table.select. simpl.
      set (f := fun r0 => if AccessRequest.id r0 =? rid
                          then AccessRequest.with_status d r0 else r0).
      rewrite filter_map_stable with (f := f).
      2:{ intros a. unfold f. now destruct (AccessRequest.id a =? rid). }
      rewrite hd_error_map, Hy. simpl.
      destruct (hd_filter_in _ _ _ Hy) as [_ Hid]. apply Z.eqb_eq in Hid.
      unfold f. rewrite Hid. destruct (id =? rid) eqn:E.
      * apply Z.eqb_eq in E. subst rid. right.
        exists (Some u), status, d. auto.
      * now left.
  - left. pose proof (db_other_routes pf e r s Hw) as H1.
    unfold db_same_requests in H1.
    unfold request_status in *. simpl in *.
    unfold DatabaseStorage.getAccessRequest in *. now rewrite H1.
Qed.

Lemma status_step_decided {S} {storage : IStorage S} (r : Request) (id : Z)
      (x : Status) (s' : S) :
  decided (Some x) -> status_step r id x s' ->
  decided (request_status id s').
Proof.
  intros Hx [H|[u [st [d [_ [Hd H]]]]]]; rewrite H; auto.
  now apply decision_decided in Hd.
Qed.

Lemma decided_some (o : option Status) :
  decided o -> exists x, o = Some x /\ decided (Some x).
Proof. intros [->| ->]; eexists; split; eauto; [now left|now right]. Qed.

Lemma mem_serve_decided (pf : Platform) (rs : list (Env * Request)) (id : Z) :
  forall s : MemStorage.t,
    mem_requests_keyed s -> decided (request_status id s) ->
    decided (request_status id (serve pf rs s)).
Proof.
  induction rs as [|[e r] rs IH]; simpl; intros s Hk Hd; [exact Hd|].
  destruct (decided_some _ Hd) as [x [Hx Hdx]].
  destruct (mem_step pf e r s id x Hk Hx) as [Hk' Hstep].
  apply IH; [exact Hk'|]. now apply (status_step_decided r id x).
Qed.

Lemma db_serve_decided (pf : Platform) (rs : list (Env * Request)) (id : Z) :
  forall s : DatabaseStorage.t,
    decided (request_status id s) ->
    decided (request_status id (serve pf rs s)).
Proof.
  induction rs as [|[e r] rs IH]; simpl; intros s Hd; [exact Hd|].
  destruct (decided_some _ Hd) as [x [Hx Hdx]].
  apply IH. apply (status_step_decided r id x _ Hdx).
  now apply db_step.
Qed.

Lemma put_changes_by_owner {S} {storage : IStorage S} (user : option User)
      (id : Z) (st : option string) (x : Status) (s : S) :
  request_status id s = Some x ->
  request_status id (fst (put_access_request user id st s)) <> Some x ->
  exists u d z c,
    user = Some u
    /\ decision st = Some d
    /\ getAccessRequest id s = Some z
    /\ getCatalogue (AccessRequest.catalogueId z) s = Some c
    /\ Catalogue.userId c = User.id u.
Proof.
  intros Hx. unfold put_access_request.
  destruct user as [u|]; [|intros H; elim H; exact Hx].
  destruct (decision st) as [d|]; [|intros H; elim H; exact Hx].
  destruct (getAccessRequest id s) as [z|] eqn:Hz;
    [|intros H; elim H; exact Hx].
  destruct (getCatalogue (AccessRequest.catalogueId z) s) as [c|] eqn:Hc;
    [|intros H; elim H; exact Hx].
  destruct (negb _) eqn:E; [intros H; elim H; exact Hx|].
  intros _. exists u, d, z, c.
  apply negb_false_iff in E. apply Z.eqb_eq in E. auto.
Qed.

Lemma step_by_owner {S} {storage : IStorage S} (pf : Platform) (e : Env)
      (r : Request) (id : Z) (x : Status) (s : S) :
  status_step r id x (fst (handle pf e r s)) ->
  changed_by_owner pf e r id x s.
Proof.
  intros [H|(u0 & st & d & -> & Hd & Hs)] Hx Hne; [contradiction|].
  simpl in Hne.
  destruct (put_changes_by_owner u0 id st x s Hx Hne)
    as (u & d' & z & c & -> & Hd' & Hz & Hc & Hu).
  exists u, st, d, z, c. repeat split; assumption.
Qed.

Lemma mem_owner_decides (pf : Platform) (e : Env) (id : Z)
      (s : MemStorage.t) :
  owner_decides pf e id s.
Proof.
  intros u st d z c Hd Hz Hc Hu.
  change (handle pf e (PUT_access_request (Some u) id st) s)
    with (put_access_request (Some u) id st s).
  unfold put_access_request.
  rewrite Hd, Hz, Hc, Hu, Z.eqb_refl. simpl negb. cbv iota.
  split; [reflexivity|]. cbn [fst].
  simpl in Hz. unfold MemStorage.getAccessRequest in Hz.
  unfold request_status. simpl.
  unfold MemStorage.updateAccessRequest. rewrite Hz. simpl.
  unfold MemStorage.getAccessRequest. simpl.
  now rewrite JsMap_get_set, Z.eqb_refl.
Qed.

Lemma db_owner_decides (pf : Platform) (e : Env) (id : Z)
      (s : DatabaseStorage.t) :
  owner_decides pf e id s.
Proof.
  intros u st d z c Hd Hz Hc Hu.
  change (handle pf e (PUT_access_request (Some u) id st) s)
    with (put_access_request (Some u) id st s).
  unfold put_access_request.
  rewrite Hd, Hz, Hc, Hu, Z.eqb_refl. simpl negb. cbv iota.
  split; [reflexivity|]. cbn [fst].
  simpl in Hz. unfold DatabaseStorage.getAccessRequest, Table.select in Hz.
  unfold request_status. simpl.
  unfold DatabaseStorage.getAccessRequest, Table.select. simpl.
  set (f := fun r0 => if AccessRequest.id r0 =? id
                      then AccessRequest.with_status d r0 else r0).
  rewrite filter_map_stable with (f := f).
  2:{ intros a. unfold f.
      destruct (AccessRequest.id a =? id) eqn:Ea; simpl; rewrite ?Ea;
        reflexivity. }
  rewrite hd_error_map, Hz. simpl.
  destruct (hd_filter_in _ _ _ Hz) as [_ Hid].
  unfold f. now rewrite Hid.
Qed.

(** C8, amended.  The status of a stored access request is changed by no
    request to the API other than a PUT /api/access-requests/:id for its
    id that comes from the owner of the request's catalogue and carries
    [approved] or [rejected]; such a request sets the status to what it
    carries whatever the status was, so that an approved request can be
    rejected and a rejected one approved.  Hence a request that is
    approved or rejected stays approved or rejected over any sequence of
    requests to the API and does not return to pending, but neither of
    the two is final.  On both storages. *)
Theorem decided_requests_stay_decided :
  (forall pf rs id (s : MemStorage.t),
      consistent s -> decided (request_status id s) ->
      decided (request_status id (serve pf rs s)))
  /\ (forall pf rs id (s : DatabaseStorage.t),
         decided (request_status id s) ->
         decided (request_status id (serve pf rs s)))
  /\ (forall pf e r id x (s : MemStorage.t),
         consistent s -> request_status id s = Some x ->
         status_step r id x (fst (handle pf e r s)))
  /\ (forall pf e r id x (s : DatabaseStorage.t),
         request_status id s = Some x ->
         status_step r id x (fst (handle pf e r s)))
  /\ (forall pf e r id x (s : MemStorage.t),
         consistent s -> changed_by_owner pf e r id x s)
  /\ (forall pf e r id x (s : DatabaseStorage.t),
         changed_by_owner pf e r id x s)
  /\ (forall pf e id (s : MemStorage.t), owner_decides pf e id s)
  /\ (forall pf e id (s : DatabaseStorage.t), owner_decides pf e id s).
Proof.
  split; [|split; [|split; [|split; [|split; [|split; [|split]]]]]].
  - intros pf rs id s [_ Hk]. now apply mem_serve_decided.
  - intros. now apply db_serve_decided.
  - intros pf e r id x s [_ Hk] Hx. now apply mem_step.
  - intros. now apply db_step.
  - intros pf e r id x s [_ Hk] Hx.
    apply (step_by_owner pf e r id x s); [now apply mem_step|exact Hx].
  - intros pf e r id x s Hx.
    apply (step_by_owner pf e r id x s); [now apply db_step|exact Hx].
  - intros. apply mem_owner_decides.
  - intros. apply db_owner_decides.
Qed.

(** ** The lifecycle and the statuses at sample requests *)

Lemma access_request_lifecycle_witness :
  lifecycle node Example.db Example.link Example.rita 100.
Proof.
  apply (proj1 (proj2 access_request_lifecycle) node Example.db
               Example.link Example.rita 100).
  - unfold db_consistent, sequenced. simpl. constructor.
  - unfold complete. simpl. repeat split.
Defined.

(** C3 as claimed fails twice.  A request-access on an unknown link that
    lacks the name is answered with 400, not 404.  And with two requests
    stored for one catalogue and email, check-access reads the first: here
    the first is approved and the second, just created, is pending, and
    check-access answers [granted: true]. *)
Lemma request_access_400_and_duplicate :
  getCatalogueByLink "catalogue-nowhere" Example.db = None
  /\ request_access "catalogue-nowhere" Example.nameless 100 Example.db
     = (Example.db, Json 400 (message "Missing required fields"))
  /\ (let r := request_access Example.link Example.rita 300
                              Example.approved_db in
      snd r = pending_reply 2
      /\ request_status 2 (fst r) = Some pending
      /\ option_map AccessRequest.email (getAccessRequest 2 (fst r))
         = Some "rita@shop.io"
      /\ prop (body_of (snd (check_access node Example.link
                               (Some "rita@shop.io") 400 (fst r))))
              "granted"
         = JBool true).
Proof. vm_compute. repeat split. Qed.

(** C8 as claimed fails: an approved request is rejected by a second PUT
    /api/access-requests/:id, on both storages. *)
Lemma approved_request_rejected_later :
  request_status 1 Example.approved_db = Some approved
  /\ request_status 1
       (serve node
          [(Example.env 300,
            PUT_access_request (Some Example.alice) 1 (Some "rejected"))]
          Example.approved_db)
     = Some rejected
  /\ request_status 1 Example.approved_mem = Some approved
  /\ request_status 1
       (serve node
          [(Example.env 300,
            PUT_access_request (Some Example.alice) 1 (Some "rejected"))]
          Example.approved_mem)
     = Some rejected.
Proof. vm_compute. repeat split. Qed.

Lemma decided_requests_stay_decided_witness :
  decided
    (request_status 1
       (serve node
          [(Example.env 300, POST_request_access Example.link Example.rita);
           (Example.env 400, GET_shared_view Example.link
                               (Example.bearer Example.fresh_token));
           (Example.env 500,
            PUT_access_request (Some Example.bob) 1 (Some "rejected"))]
          Example.approved_mem)).
Proof.
  apply (proj1 decided_requests_stay_decided node).
  - split; unfold keyed; vm_compute; repeat constructor.
  - left. vm_compute. reflexivity.
Defined.

(** * Further properties of the routes and of the storages *)

(** ** Sessions *)

(** X1.  Each of the seventeen routes that ask for a session answers a
    request without one with 401 "Not authenticated" and leaves the storage
    as it is, whatever else the request holds. *)
Theorem unauthenticated_requests_refused {S} {storage : IStorage S}
        (pf : Platform) (e : Env) (r : Request) (s : S) :
  needs_session r = true -> session r = None ->
  handle pf e r s = (s, Json 401 (message "Not authenticated")).
Proof.
  intros Hn Hs. destruct r; simpl in *; try discriminate; subst;
    reflexivity.
Qed.

Lemma unauthenticated_requests_refused_witness :
  handle node (Example.env 100)
         (PUT_catalogue None 1 (Example.put_body [JStr "2"])) Example.db
  = (Example.db, Json 401 (message "Not authenticated")).
Proof.
  apply (unauthenticated_requests_refused node (Example.env 100)
           (PUT_catalogue None 1 (Example.put_body [JStr "2"])) Example.db);
    reflexivity.
Defined.

(** ** The tables a route writes *)

(** A relation between storage states that is kept by the writes of some
    of the five groups of writing methods is kept by every route that calls
    writing methods of those groups only. *)
Section Footprint.
Context {S : Type} {storage : IStorage S}.
Variable same : S -> S -> Prop.
Variables wp wc wj wo wr : bool.
Hypothesis same_refl : forall s, same s s.
Hypothesis same_trans : forall s s1 s2, same s s1 -> same s1 s2 -> same s s2.
Hypothesis createProduct_same :
  wp = true -> forall now p s, same s (fst (createProduct now p s)).
Hypothesis updateProduct_same :
  wp = true -> forall id u s, same s (fst (updateProduct id u s)).
Hypothesis deleteProduct_same :
  wp = true -> forall id s, same s (fst (deleteProduct id s)).
Hypothesis createCatalogue_same :
  wc = true -> forall now c s, same s (fst (createCatalogue now c s)).
Hypothesis updateCatalogue_same :
  wc = true -> forall id u s, same s (fst (updateCatalogue id u s)).
Hypothesis deleteCatalogue_same :
  wc = true -> forall id s, same s (fst (deleteCatalogue id s)).
Hypothesis incrementCatalogueViews_same :
  wc = true -> forall id s, same s (incrementCatalogueViews id s).
Hypothesis addProductToCatalogue_same :
  wj = true -> forall c p s, same s (fst (addProductToCatalogue c p s)).
Hypothesis removeProductFromCatalogue_same :
  wj = true -> forall c p s, same s (fst (removeProductFromCatalogue c p s)).
Hypothesis createOrder_same :
  wo = true -> forall now pool o s, same s (fst (createOrder now pool o s)).
Hypothesis updateOrderPaymentStatus_same :
  wo = true -> forall o st s, same s (fst (updateOrderPaymentStatus o st s)).
Hypothesis createAccessRequest_same :
  wr = true -> forall now r s, same s (fst (createAccessRequest now r s)).
Hypothesis updateAccessRequest_same :
  wr = true -> forall id st s, same s (fst (updateAccessRequest id st s)).

Lemma sync_kept (u : User) (id : Z) (l : list JsValue) (s : S) :
  wj = true -> same s (sync_products u id l s).
Proof.
  intros Hj. unfold sync_products.
  set (cur := map Product.id (getCatalogueProducts id s)).
  apply fold_left_keeps with (P := same s).
  - intros a b Ha. apply (same_trans _ _ _ Ha).
    unfold sync_remove. route_frame.
  - apply fold_left_keeps with (P := same s); [|apply same_refl].
    intros a b Ha. apply (same_trans _ _ _ Ha).
    unfold sync_add. route_frame.
Qed.

Lemma attach_kept (u : User) (id : Z) (l : list JsValue) (s : S) :
  wj = true -> same s (fold_left (attach_product u id) l s).
Proof.
  intros Hj.
  apply fold_left_keeps with (P := same s); [|apply same_refl].
  intros a b Ha. apply (same_trans _ _ _ Ha).
  unfold attach_product. route_frame.
Qed.

Lemma route_kept (pf : Platform) (e : Env) (r : Request) (s : S) :
  (writes_products r = true -> wp = true) ->
  (writes_catalogues r = true -> wc = true) ->
  (writes_catalogueProducts r = true -> wj = true) ->
  (writes_orders r = true -> wo = true) ->
  (writes_requests r = true -> wr = true) ->
  same s (fst (handle pf e r s)).
Proof.
  destruct r; simpl; intros Hp Hc Hj Ho Hr;
    try specialize (Hp eq_refl); try specialize (Hc eq_refl);
    try specialize (Hj eq_refl); try specialize (Ho eq_refl);
    try specialize (Hr eq_refl).
  - unfold get_products. route_frame.
  - unfold get_product. route_frame.
  - unfold post_products. route_frame.
  - unfold put_product. route_frame.
  - unfold delete_product. route_frame.
  - unfold get_catalogues. route_frame.
  - unfold get_catalogue. route_frame.
  - unfold post_catalogues.
    destruct user as [u|]; [|apply same_refl].
    destruct (insertCatalogueSchema_parse pf _) as [v|]; [|apply same_refl].
    destruct (createCatalogue (now e) v s) as [s1 c] eqn:E.
    assert (H1 : same s s1).
    { change s1 with (fst (s1, c)). rewrite <- E.
      now apply createCatalogue_same. }
    simpl fst. apply (same_trans _ _ _ H1).
    destruct (obj_get "productIds" body) as [[]|]; try apply same_refl.
    now apply attach_kept.
  - unfold put_catalogue.
    destruct user as [u|]; [|apply same_refl].
    destruct (getCatalogue id s); [|apply same_refl].
    destruct (negb _); [apply same_refl|].
    destruct (insertCatalogueSchema_partial_parse pf _) as [v|];
      [|apply same_refl].
    destruct (updateCatalogue id (CatalogueUpdates.delete_userId v) s)
      as [s1 c] eqn:E.
    assert (H1 : same s s1).
    { change s1 with (fst (s1, c)). rewrite <- E.
      now apply updateCatalogue_same. }
    simpl fst. apply (same_trans _ _ _ H1).
    destruct (obj_get "productIds" body) as [[]|]; try apply same_refl.
    now apply sync_kept.
  - unfold delete_catalogue. route_frame.
  - unfold shared_info. route_frame.
  - unfold request_access. route_frame.
  - unfold check_access. route_frame.
  - unfold retailer_info. route_frame.
  - unfold shared_orders. route_frame.
  - unfold shared_payment_status. route_frame.
  - unfold shared_view. route_frame.
  - unfold get_access_requests. route_frame.
  - unfold put_access_request. route_frame.
  - unfold get_orders. route_frame.
  - unfold get_order. route_frame.
  - unfold post_orders. route_frame.
  - unfold put_order_status. route_frame.
  - unfold dashboard_stats. route_frame.
  - unfold dashboard_recent_orders. route_frame.
Qed.

End Footprint.

(** X2.  The thirteen routes that call no writing method of the storage
    leave the storage exactly as it was, on any implementation of
    [IStorage] and whatever they answer. *)
Theorem read_routes_keep_storage {S} {storage : IStorage S}
        (pf : Platform) (e : Env) (r : Request) (s : S) :
  reads_only r = true -> fst (handle pf e r s) = s.
Proof.
  intros H. symmetry.
  apply (route_kept (fun a b => a = b) false false false false false);
    try discriminate; try congruence;
    destruct r; simpl in H; try discriminate H; discriminate.
Qed.

Lemma read_routes_keep_storage_witness :
  fst (handle node (Example.env 100)
              (POST_check_access Example.link (Some "rita@shop.io"))
              Example.approved_db)
  = Example.approved_db.
Proof.
  apply (read_routes_keep_storage node (Example.env 100)
           (POST_check_access Example.link (Some "rita@shop.io"))
           Example.approved_db).
  reflexivity.
Defined.

Ltac unfold_writes :=
  unfold MemStorage.createProduct, MemStorage.updateProduct,
    MemStorage.deleteProduct, MemStorage.createCatalogue,
    MemStorage.updateCatalogue, MemStorage.deleteCatalogue,
    MemStorage.incrementCatalogueViews, MemStorage.addProductToCatalogue,
    MemStorage.removeProductFromCatalogue, MemStorage.createOrder,
    MemStorage.updateOrderPaymentStatus, MemStorage.createAccessRequest,
    MemStorage.updateAccessRequest, JsMap.delete,
    DatabaseStorage.createProduct, DatabaseStorage.updateProduct,
    DatabaseStorage.deleteProduct, DatabaseStorage.createCatalogue,
    DatabaseStorage.updateCatalogue, DatabaseStorage.deleteCatalogue,
    DatabaseStorage.incrementCatalogueViews,
    DatabaseStorage.addProductToCatalogue,
    DatabaseStorage.removeProductFromCatalogue, DatabaseStorage.createOrder,
    DatabaseStorage.updateOrderPaymentStatus,
    DatabaseStorage.createAccessRequest, DatabaseStorage.updateAccessRequest.

Ltac kept_premises :=
  try (intros; reflexivity);
  try (intros; simpl; now split);
  try (intros ? ? ? [] []; split; congruence);
  try congruence;
  try discriminate;
  try (intros; simpl; unfold_writes; storage_op; fail).

(** X3.  A request changes only the tables of its route: the users are
    written by no route, and products, catalogues, catalogue products,
    orders and access requests each stay as they were, with their id
    counters, under every route that calls none of their writing methods.
    On both storages. *)
Theorem routes_write_their_tables_only (pf : Platform) (e : Env)
        (r : Request) :
  (forall s : MemStorage.t, mem_kept r s (fst (handle pf e r s)))
  /\ (forall s : DatabaseStorage.t, db_kept r s (fst (handle pf e r s))).
Proof.
  split; intros s; unfold mem_kept, db_kept.
  - split; [|split; [|split; [|split; [|split]]]].
    + apply (route_kept
               (fun a b => MemStorage.users b = MemStorage.users a
                           /\ MemStorage.currentUserId b
                              = MemStorage.currentUserId a)
               true true true true true); kept_premises.
    + intros H.
      apply (route_kept
               (fun a b => MemStorage.products b = MemStorage.products a
                           /\ MemStorage.currentProductId b
                              = MemStorage.currentProductId a)
               false true true true true); kept_premises.
    + intros H.
      apply (route_kept
               (fun a b => MemStorage.catalogues b = MemStorage.catalogues a
                           /\ MemStorage.currentCatalogueId b
                              = MemStorage.currentCatalogueId a)
               true false true true true); kept_premises.
    + intros H.
      apply (route_kept
               (fun a b => MemStorage.catalogueProducts b
                           = MemStorage.catalogueProducts a
                           /\ MemStorage.currentCatalogueProductId b
                              = MemStorage.currentCatalogueProductId a)
               true true false true true); kept_premises.
    + intros H.
      apply (route_kept
               (fun a b => MemStorage.orders b = MemStorage.orders a
                           /\ MemStorage.currentOrderId b
                              = MemStorage.currentOrderId a)
               true true true false true); kept_premises.
    + intros H.
      apply (route_kept
               (fun a b => MemStorage.accessRequests b
                           = MemStorage.accessRequests a
                           /\ MemStorage.currentAccessRequestId b
                              = MemStorage.currentAccessRequestId a)
               true true true true false); kept_premises.
  - split; [|split; [|split; [|split; [|split]]]].
    + apply (route_kept
               (fun a b => DatabaseStorage.users b = DatabaseStorage.users a)
               true true true true true); kept_premises.
    + intros H.
      apply (route_kept
               (fun a b => DatabaseStorage.products b
                           = DatabaseStorage.products a)
               false true true true true); kept_premises.
    + intros H.
      apply (route_kept
               (fun a b => DatabaseStorage.catalogues b
                           = DatabaseStorage.catalogues a)
               true false true true true); kept_premises.
    + intros H.
      apply (route_kept
               (fun a b => DatabaseStorage.catalogueProducts b
                           = DatabaseStorage.catalogueProducts a)
               true true false true true); kept_premises.
    + intros H.
      apply (route_kept
               (fun a b => DatabaseStorage.orders b
                           = DatabaseStorage.orders a)
               true true true false true); kept_premises.
    + intros H.
      apply (route_kept
               (fun a b => DatabaseStorage.accessRequests b
                           = DatabaseStorage.accessRequests a)
               true true true true false); kept_premises.
Qed.

(** ** Ids *)

(** *** Maps *)

Lemma JsMap_keys_set {V} (k : Z) (v : V) (m : JsMap.t V) :
  map fst (JsMap.set k v m)
  = if JsMap.has k m then map fst m else (map fst m ++ [k])%list.
Proof.
  unfold JsMap.has. induction m as [|[k0 v0] m IH]; simpl; [reflexivity|].
  destruct (k0 =? k) eqn:E; simpl; [reflexivity|].
  rewrite IH. now destruct (JsMap.get k m).
Qed.

Lemma JsMap_get_in {V} (k : Z) (v : V) (m : JsMap.t V) :
  JsMap.get k m = Some v -> In k (map fst m).
Proof.
  induction m as [|[k0 v0] m IH]; simpl; [discriminate|].
  destruct (k0 =? k) eqn:E; [apply Z.eqb_eq in E; auto|auto].
Qed.

Lemma JsMap_in_get {V} (k : Z) (m : JsMap.t V) :
  In k (map fst m) -> exists v, JsMap.get k m = Some v.
Proof.
  induction m as [|[k0 v0] m IH]; simpl; [tauto|].
  intros [->|H]; [rewrite Z.eqb_refl; eauto|].
  destruct (k0 =? k); eauto.
Qed.

Lemma keyed_keys_below {V} (id : V -> Z) (n : Z) (m : JsMap.t V) :
  keyed id n m -> forall k, In k (map fst m) -> k < n.
Proof.
  unfold keyed. intros H k Hk. apply in_map_iff in Hk.
  destruct Hk as [kv [<- Hin]].
  rewrite Forall_forall in H. now apply H.
Qed.

Lemma filter_keeps_NoDup {K V} (p : V -> bool) (key : V -> K) :
  forall m : list V, NoDup (map key m) -> NoDup (map key (filter p m)).
Proof.
  intros m. induction m as [|x xs IHxs]; intros Hnd; cbn in *.
  - exact Hnd.
  - apply NoDup_cons_iff in Hnd. destruct Hnd as [Hx Hxs].
    destruct (p x); cbn; auto.
    apply NoDup_cons_iff. split; auto.
    intros Hin. apply Hx.
    apply in_map_iff in Hin. destruct Hin as [y [Hy Hin]].
    apply filter_In in Hin. apply in_map_iff. exists y. tauto.
Qed.

Lemma map_ok_set_new {V} (id : V -> Z) (n : Z) (v : V) (m : JsMap.t V) :
  map_ok id n m -> id v = n -> map_ok id (n + 1) (JsMap.set n v m).
Proof.
  intros [Hk Hd] Hv. split.
  - apply keyed_set; [|exact Hv|lia]. apply (keyed_weaken _ _ _ _ Hk). lia.
  - rewrite JsMap_keys_set. unfold JsMap.has.
    destruct (JsMap.get n m) as [v0|] eqn:E.
    + apply JsMap_get_in in E. apply (keyed_keys_below _ _ _ Hk) in E. lia.
    + apply NoDup_app; [exact Hd|repeat constructor; simpl; tauto|].
      intros k Hin [<-|[]].
      apply (keyed_keys_below _ _ _ Hk) in Hin. lia.
Qed.

Lemma map_ok_set_old {V} (id : V -> Z) (n k : Z) (v v0 : V)
      (m : JsMap.t V) :
  map_ok id n m -> JsMap.get k m = Some v0 -> id v = k ->
  map_ok id n (JsMap.set k v m).
Proof.
  intros [Hk Hd] Hg Hv. destruct (keyed_get _ _ _ _ _ Hk Hg) as [_ Hlt].
  split.
  - now apply keyed_set.
  - rewrite JsMap_keys_set. unfold JsMap.has. now rewrite Hg.
Qed.

Lemma map_ok_filter {V} (id : V -> Z) (n : Z) (p : Z * V -> bool)
      (m : JsMap.t V) :
  map_ok id n m -> map_ok id n (filter p m).
Proof.
  intros [Hk Hd]. split; [now apply keyed_filter|].
  now apply filter_keeps_NoDup.
Qed.

Lemma JsMap_keys_mutate {V} (p : V -> bool) (f : V -> V) (m : JsMap.t V) :
  map fst (JsMap.mutate_first p f m) = map fst m.
Proof.
  induction m as [|[k v] m IH]; simpl; [reflexivity|].
  destruct (p v); simpl; [reflexivity|now rewrite IH].
Qed.

Lemma map_ok_mutate {V} (id : V -> Z) (n : Z) (p : V -> bool) (f : V -> V)
      (m : JsMap.t V) :
  (forall v, id (f v) = id v) ->
  map_ok id n m -> map_ok id n (JsMap.mutate_first p f m).
Proof.
  intros Hf [Hk Hd]. split; [|now rewrite JsMap_keys_mutate].
  clear Hd. unfold keyed in *.
  induction m as [|[k v] m IH]; simpl; [constructor|].
  inversion Hk as [|? ? [H1 H2] H3]; subst. simpl in *.
  destruct (p v); constructor; simpl; auto. now rewrite Hf.
Qed.

Lemma JsMap_get_mutate_some {V} (p : V -> bool) (f : V -> V) (k : Z)
      (m : JsMap.t V) :
  JsMap.has k (JsMap.mutate_first p f m) = JsMap.has k m.
Proof.
  unfold JsMap.has. induction m as [|[k0 v] m IH]; simpl; [reflexivity|].
  destruct (p v); simpl; destruct (k0 =? k); auto.
Qed.

(** *** Tables *)

Lemma table_ok_insert {R} (id : R -> Z) (r : R) (tb : Table.t R) :
  id r = Table.nextId tb -> table_ok id tb ->
  table_ok id (Table.mk (Table.rows tb ++ [r]) (Table.nextId tb + 1)).
Proof.
  intros Hrow [Hs Hd]. unfold table_ok, sequenced in *. simpl. split.
  - apply Forall_app. split.
    + eapply Forall_impl; [|exact Hs]. simpl. intros a Ha. lia.
    + constructor; [rewrite Hrow; lia|constructor].
  - rewrite map_app. simpl. apply NoDup_app; [exact Hd| |].
    + repeat constructor. simpl. tauto.
    + intros k Hin [<-|[]]. rewrite Hrow in Hin.
      apply in_map_iff in Hin. destruct Hin as [x [Hx Hin]].
      rewrite Forall_forall in Hs. apply Hs in Hin. lia.
Qed.

Lemma table_ok_update {R} (id : R -> Z) (g : R -> R) (tb : Table.t R) :
  (forall r, id (g r) = id r) -> table_ok id tb ->
  table_ok id (Table.mk (map g (Table.rows tb)) (Table.nextId tb)).
Proof.
  intros Hg [Hs Hd]. unfold table_ok, sequenced in *. simpl.
  assert (E : map id (map g (Table.rows tb)) = map id (Table.rows tb)).
  { rewrite map_map. apply map_ext. exact Hg. }
  split; [|now rewrite E].
  apply Forall_map. eapply Forall_impl; [|exact Hs].
  simpl. intros a Ha. now rewrite Hg.
Qed.

Lemma table_ok_delete {R} (id : R -> Z) (p : R -> bool) (tb : Table.t R) :
  table_ok id tb ->
  table_ok id (Table.mk (filter p (Table.rows tb)) (Table.nextId tb)).
Proof.
  intros [Hs Hd]. unfold table_ok, sequenced in *. simpl. split.
  - apply Forall_forall. intros x Hx. apply filter_In in Hx.
    rewrite Forall_forall in Hs. now apply Hs.
  - now apply filter_keeps_NoDup.
Qed.

(** *** Every writing method keeps the ids in order *)

Ltac six_parts :=
  split; [|split; [|split; [|split; [|split]]]]; try assumption.

Ltac mem_wf_parts :=
  intros (Hu & Hp & Hc & Hj & Ho & Hr); unfold mem_well_formed; simpl.

Lemma mem_createUser_ok (now : Z) (u : InsertUser) (s : MemStorage.t) :
  mem_well_formed s -> mem_well_formed (fst (MemStorage.createUser now u s)).
Proof.
  mem_wf_parts. six_parts; now apply map_ok_set_new.
Qed.

Lemma mem_createProduct_ok (now : Z) (p : InsertProduct) (s : MemStorage.t) :
  mem_well_formed s ->
  mem_well_formed (fst (MemStorage.createProduct now p s)).
Proof.
  mem_wf_parts. six_parts; now apply map_ok_set_new.
Qed.

Lemma mem_updateProduct_ok (id : Z) (u : ProductUpdates) (s : MemStorage.t) :
  mem_well_formed s ->
  mem_well_formed (fst (MemStorage.updateProduct id u s)).
Proof.
  mem_wf_parts. unfold MemStorage.updateProduct.
  destruct (JsMap.get id (MemStorage.products s)) as [p|] eqn:Hg; simpl;
    [|six_parts].
  six_parts; apply (map_ok_set_old _ _ _ _ p); auto;
    simpl; now apply (keyed_get _ _ _ _ _ (proj1 Hp) Hg).
Qed.

Lemma mem_deleteProduct_ok (id : Z) (s : MemStorage.t) :
  mem_well_formed s -> mem_well_formed (fst (MemStorage.deleteProduct id s)).
Proof.
  mem_wf_parts. six_parts; now apply map_ok_filter.
Qed.

Lemma mem_createCatalogue_ok (now : Z) (c : InsertCatalogue)
      (s : MemStorage.t) :
  mem_well_formed s ->
  mem_well_formed (fst (MemStorage.createCatalogue now c s)).
Proof.
  mem_wf_parts. six_parts; now apply map_ok_set_new.
Qed.

Lemma mem_updateCatalogue_ok (id : Z) (u : CatalogueUpdates)
      (s : MemStorage.t) :
  mem_well_formed s ->
  mem_well_formed (fst (MemStorage.updateCatalogue id u s)).
Proof.
  mem_wf_parts. unfold MemStorage.updateCatalogue.
  destruct (JsMap.get id (MemStorage.catalogues s)) as [c|] eqn:Hg; simpl;
    [|six_parts].
  six_parts; apply (map_ok_set_old _ _ _ _ c); auto;
    simpl; now apply (keyed_get _ _ _ _ _ (proj1 Hc) Hg).
Qed.

Lemma mem_deleteCatalogue_ok (id : Z) (s : MemStorage.t) :
  mem_well_formed s ->
  mem_well_formed (fst (MemStorage.deleteCatalogue id s)).
Proof.
  mem_wf_parts. six_parts; now apply map_ok_filter.
Qed.

Lemma mem_incrementCatalogueViews_ok (id : Z) (s : MemStorage.t) :
  mem_well_formed s ->
  mem_well_formed (MemStorage.incrementCatalogueViews id s).
Proof.
  mem_wf_parts. unfold MemStorage.incrementCatalogueViews.
  destruct (JsMap.get id (MemStorage.catalogues s)) as [c|] eqn:Hg; simpl;
    [|six_parts].
  six_parts; apply (map_ok_set_old _ _ _ _ c); auto;
    simpl; now apply (keyed_get _ _ _ _ _ (proj1 Hc) Hg).
Qed.

Lemma mem_addProductToCatalogue_ok (c p : Z) (s : MemStorage.t) :
  mem_well_formed s ->
  mem_well_formed (fst (MemStorage.addProductToCatalogue c p s)).
Proof.
  mem_wf_parts. six_parts; now apply map_ok_set_new.
Qed.

Lemma mem_removeProductFromCatalogue_ok (c p : Z) (s : MemStorage.t) :
  mem_well_formed s ->
  mem_well_formed (fst (MemStorage.removeProductFromCatalogue c p s)).
Proof.
  mem_wf_parts. unfold MemStorage.removeProductFromCatalogue.
  destruct (find _ _) as [cp|]; simpl; [|six_parts].
  six_parts; now apply map_ok_filter.
Qed.

Lemma mem_createOrder_ok (now : Z) (pool : Pool) (o : InsertOrder)
      (s : MemStorage.t) :
  mem_well_formed s ->
  mem_well_formed (fst (MemStorage.createOrder now pool o s)).
Proof.
  mem_wf_parts. six_parts; now apply map_ok_set_new.
Qed.

Lemma mem_updateOrderPaymentStatus_ok (orderId : string)
      (st : option string) (s : MemStorage.t) :
  mem_well_formed s ->
  mem_well_formed (fst (MemStorage.updateOrderPaymentStatus orderId st s)).
Proof.
  mem_wf_parts. unfold MemStorage.updateOrderPaymentStatus.
  destruct (find _ _) as [o|] eqn:Hf; simpl; [|six_parts].
  destruct (keyed_value_has_key _ _ _ _ _ (proj1 Ho) Hf) as [v0 Hv0].
  set (p := fun o0 => (Order.orderId o0 =? orderId)%string) in *.
  set (m := JsMap.mutate_first p (Order.with_paymentStatus st)
                               (MemStorage.orders s)).
  assert (Hm : map_ok Order.id (MemStorage.currentOrderId s) m)
    by (now apply map_ok_mutate).
  assert (Hh : JsMap.has (Order.id o) m = true).
  { unfold m. rewrite JsMap_get_mutate_some. unfold JsMap.has.
    now rewrite Hv0. }
  unfold JsMap.has in Hh.
  destruct (JsMap.get (Order.id o) m) as [v1|] eqn:Hv1; [|discriminate].
  six_parts; now apply (map_ok_set_old _ _ _ _ v1).
Qed.

Lemma mem_createAccessRequest_ok (now : Z) (r : InsertAccessRequest)
      (s : MemStorage.t) :
  mem_well_formed s ->
  mem_well_formed (fst (MemStorage.createAccessRequest now r s)).
Proof.
  mem_wf_parts. six_parts; now apply map_ok_set_new.
Qed.

Lemma mem_updateAccessRequest_ok (id : Z) (st : Status) (s : MemStorage.t) :
  mem_well_formed s ->
  mem_well_formed (fst (MemStorage.updateAccessRequest id st s)).
Proof.
  mem_wf_parts. unfold MemStorage.updateAccessRequest.
  destruct (JsMap.get id (MemStorage.accessRequests s)) as [c|] eqn:Hg;
    simpl; [|six_parts].
  six_parts; apply (map_ok_set_old _ _ _ _ c); auto;
    simpl; now apply (keyed_get _ _ _ _ _ (proj1 Hr) Hg).
Qed.

Ltac db_wf_parts :=
  intros (Hu & Hp & Hc & Hj & Ho & Hr); unfold db_well_formed; simpl.

Ltac db_wf_table :=
  six_parts;
  first [ apply table_ok_insert | apply table_ok_update
        | apply table_ok_delete ];
  auto; intros; repeat break_match; reflexivity.

Lemma db_writes_ok (s : DatabaseStorage.t) :
  db_well_formed s ->
  (forall now u, db_well_formed (fst (DatabaseStorage.createUser now u s)))
  /\ (forall now p,
         db_well_formed (fst (DatabaseStorage.createProduct now p s)))
  /\ (forall id u,
         db_well_formed (fst (DatabaseStorage.updateProduct id u s)))
  /\ (forall id, db_well_formed (fst (DatabaseStorage.deleteProduct id s)))
  /\ (forall now c,
         db_well_formed (fst (DatabaseStorage.createCatalogue now c s)))
  /\ (forall id u,
         db_well_formed (fst (DatabaseStorage.updateCatalogue id u s)))
  /\ (forall id, db_well_formed (fst (DatabaseStorage.deleteCatalogue id s)))
  /\ (forall id, db_well_formed (DatabaseStorage.incrementCatalogueViews id s))
  /\ (forall c p,
         db_well_formed (fst (DatabaseStorage.addProductToCatalogue c p s)))
  /\ (forall c p,
         db_well_formed
           (fst (DatabaseStorage.removeProductFromCatalogue c p s)))
  /\ (forall now pool o,
         db_well_formed (fst (DatabaseStorage.createOrder now pool o s)))
  /\ (forall o st,
         db_well_formed
           (fst (DatabaseStorage.updateOrderPaymentStatus o st s)))
  /\ (forall now r,
         db_well_formed (fst (DatabaseStorage.createAccessRequest now r s)))
  /\ (forall id st,
         db_well_formed (fst (DatabaseStorage.updateAccessRequest id st s))).
Proof.
  db_wf_parts.
  repeat apply conj; intros; simpl;
    try (unfold DatabaseStorage.incrementCatalogueViews;
         destruct (DatabaseStorage.getCatalogue _ _); simpl);
    db_wf_table.
Qed.

Lemma mem_handle_ok (pf : Platform) (e : Env) (r : Request)
      (s : MemStorage.t) :
  mem_well_formed s -> mem_well_formed (fst (handle pf e r s)).
Proof.
  apply (route_kept (fun a b => mem_well_formed a -> mem_well_formed b)
                    true true true true true);
    try reflexivity; auto; intros _; intros; simpl.
  - now apply mem_createProduct_ok.
  - now apply mem_updateProduct_ok.
  - now apply mem_deleteProduct_ok.
  - now apply mem_createCatalogue_ok.
  - now apply mem_updateCatalogue_ok.
  - now apply mem_deleteCatalogue_ok.
  - now apply mem_incrementCatalogueViews_ok.
  - now apply mem_addProductToCatalogue_ok.
  - now apply mem_removeProductFromCatalogue_ok.
  - now apply mem_createOrder_ok.
  - now apply mem_updateOrderPaymentStatus_ok.
  - now apply mem_createAccessRequest_ok.
  - now apply mem_updateAccessRequest_ok.
Qed.

Lemma db_handle_ok (pf : Platform) (e : Env) (r : Request)
      (s : DatabaseStorage.t) :
  db_well_formed s -> db_well_formed (fst (handle pf e r s)).
Proof.
  apply (route_kept (fun a b => db_well_formed a -> db_well_formed b)
                    true true true true true);
    try reflexivity; auto; intros _; intros; now apply db_writes_ok.
Qed.

Lemma not_below_refl (l : list Z) : not_below l l.
Proof. induction l; constructor; [lia|assumption]. Qed.

Lemma not_below_trans (l1 l2 l3 : list Z) :
  not_below l1 l2 -> not_below l2 l3 -> not_below l1 l3.
Proof.
  intros H. revert l3.
  induction H as [|a b l l' Hab H IH]; intros l3 H3.
  - exact H3.
  - inversion H3 as [|? c ? l3' Hbc H3']; subst.
    constructor; [lia|now apply IH].
Qed.

Ltac counters_step :=
  intros _; intros; unfold not_below, mem_counters, db_counters; simpl;
  unfold_writes; simpl; repeat (break_match; simpl);
  repeat (constructor; try lia).

Lemma mem_counters_handle (pf : Platform) (e : Env) (r : Request)
      (s : MemStorage.t) :
  not_below (mem_counters s) (mem_counters (fst (handle pf e r s))).
Proof.
  apply (route_kept (fun a b => not_below (mem_counters a) (mem_counters b))
                    true true true true true);
    try reflexivity;
    [ intros; apply not_below_refl
    | intros ? ? ?; apply not_below_trans | .. ];
    counters_step.
Qed.

Lemma db_counters_handle (pf : Platform) (e : Env) (r : Request)
      (s : DatabaseStorage.t) :
  not_below (db_counters s) (db_counters (fst (handle pf e r s))).
Proof.
  apply (route_kept (fun a b => not_below (db_counters a) (db_counters b))
                    true true true true true);
    try reflexivity;
    [ intros; apply not_below_refl
    | intros ? ? ?; apply not_below_trans | .. ];
    counters_step.
Qed.

Lemma mem_counters_serve (pf : Platform) (rs : list (Env * Request)) :
  forall s : MemStorage.t,
    not_below (mem_counters s) (mem_counters (serve pf rs s)).
Proof.
  induction rs as [|[e r] rs IH]; simpl; intros s;
    [apply not_below_refl|].
  eapply not_below_trans; [apply mem_counters_handle|apply IH].
Qed.

Lemma db_counters_serve (pf : Platform) (rs : list (Env * Request)) :
  forall s : DatabaseStorage.t,
    not_below (db_counters s) (db_counters (serve pf rs s)).
Proof.
  induction rs as [|[e r] rs IH]; simpl; intros s;
    [apply not_below_refl|].
  eapply not_below_trans; [apply db_counters_handle|apply IH].
Qed.

Ltac six_counters H :=
  unfold not_below, mem_counters, db_counters in H;
  inversion H as [|? ? ? ? H1 T1]; subst; clear H;
  inversion T1 as [|? ? ? ? H2 T2]; subst; clear T1;
  inversion T2 as [|? ? ? ? H3 T3]; subst; clear T2;
  inversion T3 as [|? ? ? ? H4 T4]; subst; clear T3;
  inversion T4 as [|? ? ? ? H5 T5]; subst; clear T4;
  inversion T5 as [|? ? ? ? H6 T6]; subst; clear T5 T6.

Lemma mem_ids_not_reused (pf : Platform) (rs : list (Env * Request))
      (s : MemStorage.t) :
  ids_not_reused pf rs s.
Proof.
  unfold ids_not_reused. repeat split; intros;
    match goal with
    | |- context [serve pf rs ?x] =>
        pose proof (mem_counters_serve pf rs x) as H
    end;
    six_counters H; simpl in *; lia.
Qed.

Lemma db_ids_not_reused (pf : Platform) (rs : list (Env * Request))
      (s : DatabaseStorage.t) :
  ids_not_reused pf rs s.
Proof.
  unfold ids_not_reused. repeat split; intros;
    match goal with
    | |- context [serve pf rs ?x] =>
        pose proof (db_counters_serve pf rs x) as H
    end;
    six_counters H; simpl in *; lia.
Qed.

(** X4.  Ids are never reused and never shared.  Never shared: from a
    fresh storage, and from any storage where this holds, every sequence
    of requests and every [createUser] leaves each entity of a
    [MemStorage] under its own id and below the counter of its map, and
    each row of a [DatabaseStorage] with an id below the next value of its
    sequence that no other row of the table has.  Never reused: no
    sequence of requests and no [createUser] lowers a counter or a
    sequence, a deletion does not roll it back, and so an id that a
    creating method has handed out is smaller than every id that the
    method hands out later, whatever requests come in between. *)
Theorem ids_stay_in_order (pf : Platform) (rs : list (Env * Request))
        (now : Z) (u : InsertUser) :
  (forall s : MemStorage.t,
      mem_well_formed s ->
      mem_well_formed (serve pf rs s)
      /\ mem_well_formed (fst (createUser now u s)))
  /\ mem_well_formed MemStorage.empty
  /\ (forall s : DatabaseStorage.t,
         db_well_formed s ->
         db_well_formed (serve pf rs s)
         /\ db_well_formed (fst (createUser now u s)))
  /\ db_well_formed DatabaseStorage.empty
  /\ (forall s : MemStorage.t,
         not_below (mem_counters s) (mem_counters (serve pf rs s))
         /\ not_below (mem_counters s)
                      (mem_counters (fst (createUser now u s)))
         /\ ids_not_reused pf rs s)
  /\ (forall s : DatabaseStorage.t,
         not_below (db_counters s) (db_counters (serve pf rs s))
         /\ not_below (db_counters s)
                      (db_counters (fst (createUser now u s)))
         /\ ids_not_reused pf rs s).
Proof.
  split; [|split; [|split; [|split; [|split]]]].
  5:{ intros s. split; [apply mem_counters_serve|].
      split; [|apply mem_ids_not_reused].
      unfold not_below, mem_counters. simpl.
      repeat (constructor; try lia). }
  5:{ intros s. split; [apply db_counters_serve|].
      split; [|apply db_ids_not_reused].
      unfold not_below, db_counters. simpl.
      repeat (constructor; try lia). }
  - intros s H. split; [|now apply mem_createUser_ok].
    revert s H. induction rs as [|[e r] rs IH]; simpl; intros s H;
      [exact H|].
    apply IH. now apply mem_handle_ok.
  - unfold mem_well_formed, map_ok, keyed. simpl.
    repeat split; constructor.
  - intros s H. split; [|now apply db_writes_ok].
    revert s H. induction rs as [|[e r] rs IH]; simpl; intros s H;
      [exact H|].
    apply IH. now apply db_handle_ok.
  - unfold db_well_formed, table_ok, sequenced. simpl.
    repeat split; constructor.
Qed.

Lemma sample_mem_well_formed : mem_well_formed Example.mem.
Proof.
  unfold mem_well_formed, map_ok, keyed. simpl.
  repeat split; repeat constructor; simpl; try lia;
    intros H; repeat destruct H as [H|H]; try discriminate H; exact H.
Qed.

Lemma sample_db_well_formed : db_well_formed Example.db.
Proof.
  unfold db_well_formed, table_ok, sequenced. simpl.
  repeat split; repeat constructor; simpl; try lia;
    intros H; repeat destruct H as [H|H]; try discriminate H; exact H.
Qed.

Lemma ids_stay_in_order_witness :
  mem_well_formed
    (serve node
       [(Example.env 300, POST_request_access Example.link Example.rita);
        (Example.env 400, POST_orders Example.order_body);
        (Example.env 500, DELETE_product (Some Example.alice) 2)]
       Example.mem).
Proof.
  apply (proj1 (proj1 (ids_stay_in_order node
           [(Example.env 300, POST_request_access Example.link Example.rita);
            (Example.env 400, POST_orders Example.order_body);
            (Example.env 500, DELETE_product (Some Example.alice) 2)]
           0 (InsertUser.mk "carol" "x" "carol@example.com" None))
         Example.mem sample_mem_well_formed)).
Defined.

(** ** Insert and lookup *)

Lemma keyed_fresh {V} (id : V -> Z) (n : Z) (m : JsMap.t V) :
  keyed id n m -> JsMap.get n m = None.
Proof.
  intros Hk. destruct (JsMap.get n m) as [v|] eqn:E; [|reflexivity].
  apply JsMap_get_in in E. apply (keyed_keys_below _ _ _ Hk) in E. lia.
Qed.

Lemma JsMap_values_set_new {V} (k : Z) (v : V) (m : JsMap.t V) :
  JsMap.get k m = None ->
  JsMap.values (JsMap.set k v m) = (JsMap.values m ++ [v])%list.
Proof.
  unfold JsMap.values. induction m as [|[k0 v0] m IH]; simpl;
    [reflexivity|].
  destruct (k0 =? k); [discriminate|]. intros H. simpl. now rewrite IH.
Qed.

Lemma get_other_after_set {V} (k k' : Z) (v : V) (m : JsMap.t V) :
  k' <> k -> JsMap.get k' (JsMap.set k v m) = JsMap.get k' m.
Proof.
  intros H. rewrite JsMap_get_set.
  destruct (k =? k') eqn:E; [|reflexivity].
  apply Z.eqb_eq in E. congruence.
Qed.

Lemma hd_filter_id_new {R} (id : R -> Z) (tb : Table.t R) (r : R) :
  sequenced id tb -> id r = Table.nextId tb ->
  hd_error (filter (fun x => id x =? id r) (Table.rows tb ++ [r])) = Some r.
Proof.
  intros Hs Hr. rewrite filter_app, Hr.
  rewrite (filter_none_of_old id _ _ Hs). simpl.
  now rewrite <- Hr, Z.eqb_refl.
Qed.

Lemma hd_filter_id_other {R} (id : R -> Z) (rows : list R) (r : R) (k : Z) :
  k <> id r ->
  hd_error (filter (fun x => id x =? k) (rows ++ [r]))
  = hd_error (filter (fun x => id x =? k) rows).
Proof.
  intros H. rewrite filter_app. simpl.
  destruct (id r =? k) eqn:E; [apply Z.eqb_eq in E; congruence|].
  now rewrite List.app_nil_r.
Qed.

Lemma get_product_of (S : Type) (storage : IStorage S) (p : Product)
      (v : User) (s : S) :
  getProduct (Product.id p) s = Some p ->
  get_product (Some v) (Product.id p) s
  = (s, if Product.userId p =? User.id v
        then Json 200 (JObj (Product.to_js p))
        else Json 403 (message "Unauthorized")).
Proof.
  intros H. unfold get_product. rewrite H.
  now destruct (Product.userId p =? User.id v).
Qed.

(** X5.  A product that POST /api/products answers with 201 gets an id that
    no product had; afterwards the storage returns it under that id, GET
    /api/products/:id shows it to the user its [userId] names and answers
    403 to any other, it is one more entry of its owner's product list,
    and every other product and every other user's list are as before.  In
    a [MemStorage] the new product is the last entry of the list; the
    database query has no [ORDER BY], so there the list is the old one
    with the product added, in some order. *)
Theorem posted_product_round_trip (pf : Platform) (u : User)
        (body : JsObject) (now : Z) (b : JsValue) :
  (forall s s' : MemStorage.t,
      mem_well_formed s ->
      post_products pf (Some u) body now s = (s', Json 201 b) ->
      product_added eq s s' b)
  /\ (forall s s' : DatabaseStorage.t,
         db_well_formed s ->
         post_products pf (Some u) body now s = (s', Json 201 b) ->
         product_added (@Permutation Product) s s' b).
Proof.
  split; intros s s' Hwf Hpost; unfold post_products in Hpost;
    destruct (insertProductSchema_parse pf _) as [v|]; try discriminate;
    destruct Hwf as (_ & [Hk Hd] & _).
  - simpl in Hpost. injection Hpost as <- <-.
    set (p := Product.mk _ _ _ _ _ _ _ _ _).
    pose proof (keyed_fresh _ _ _ Hk) as Hnew.
    assert (Hget : getProduct (Product.id p)
                     (MemStorage.set_products
                        (JsMap.set (MemStorage.currentProductId s) p
                                   (MemStorage.products s))
                        (MemStorage.currentProductId s + 1) s) = Some p).
    { simpl. unfold MemStorage.getProduct. simpl.
      now rewrite JsMap_get_set, Z.eqb_refl. }
    exists p. split; [reflexivity|]. split; [exact Hnew|].
    split; [exact Hget|]. split; [|split].
    + intros w. now apply get_product_of.
    + intros id Hid. simpl. unfold MemStorage.getProduct. simpl.
      now apply get_other_after_set.
    + intros uid. simpl. unfold MemStorage.getProducts. simpl.
      rewrite (JsMap_values_set_new _ _ _ Hnew), filter_app. reflexivity.
  - simpl in Hpost. injection Hpost as <- <-.
    set (p := Product.mk _ _ _ _ _ _ _ _ _).
    assert (Hget : getProduct (Product.id p)
                     (DatabaseStorage.set_products
                        (Table.mk (Table.rows (DatabaseStorage.products s)
                                     ++ [p])
                                  (Table.nextId (DatabaseStorage.products s)
                                   + 1)) s) = Some p).
    { simpl. unfold DatabaseStorage.getProduct, Table.select. simpl.
      now apply (hd_filter_id_new Product.id _ p Hk). }
    exists p. split; [reflexivity|]. split; [|split; [exact Hget|split]].
    + simpl. unfold DatabaseStorage.getProduct, Table.select.
      now rewrite (filter_none_of_old Product.id _ _ Hk).
    + intros w. now apply get_product_of.
    + split.
      * intros id Hid. simpl.
        unfold DatabaseStorage.getProduct, Table.select. simpl.
        now apply (hd_filter_id_other Product.id).
      * intros uid. simpl. unfold DatabaseStorage.getProducts, Table.select.
        simpl. rewrite filter_app. apply Permutation_refl.
Qed.

Lemma posted_product_round_trip_witness :
  let body := [("name", JStr "oil"); ("price", JNum 7)] in
  let r := post_products node (Some Example.alice) body 50 Example.db in
  product_added (@Permutation Product) Example.db (fst r)
                (body_of (snd r)).
Proof.
  intros body r.
  apply (proj2 (posted_product_round_trip node Example.alice body 50
                  (body_of (snd r))) Example.db (fst r)
               sample_db_well_formed).
  reflexivity.
Defined.

(** ** Delete and lookup *)

Lemma JsMap_get_delete {V} (k id : Z) (m : JsMap.t V) :
  JsMap.get k (filter (fun kv => negb (fst kv =? id)) m)
  = if k =? id then None else JsMap.get k m.
Proof.
  induction m as [|[k0 v0] m IH]; simpl.
  - now destruct (k =? id).
  - destruct (k0 =? id) eqn:E; simpl.
    + rewrite IH. destruct (k =? id) eqn:E'; [reflexivity|].
      destruct (k0 =? k) eqn:E''; [|reflexivity].
      apply Z.eqb_eq in E, E''. subst. now rewrite Z.eqb_refl in E'.
    + destruct (k0 =? k) eqn:E'.
      * apply Z.eqb_eq in E'. subst k0. now rewrite E.
      * exact IH.
Qed.

Lemma filter_flat_map {A B} (p : B -> bool) (f : A -> list B) (l : list A) :
  filter p (flat_map f l) = flat_map (fun a => filter p (f a)) l.
Proof.
  induction l as [|a l IH]; simpl; [reflexivity|].
  now rewrite filter_app, IH.
Qed.

Lemma filter_swap {A} (p q : A -> bool) (l : list A) :
  filter p (filter q l) = filter q (filter p l).
Proof.
  induction l as [|a l IH]; simpl; [reflexivity|].
  destruct (p a) eqn:Hp, (q a) eqn:Hq; simpl; rewrite ?Hp, ?Hq, IH;
    reflexivity.
Qed.

Lemma filter_all {A} (p : A -> bool) (l : list A) :
  (forall x, In x l -> p x = true) -> filter p l = l.
Proof.
  induction l as [|a l IH]; simpl; intros H; [reflexivity|].
  rewrite (H a) by auto. f_equal. apply IH. auto.
Qed.

Lemma get_product_none (S : Type) (storage : IStorage S) (id : Z) (v : User)
      (s : S) :
  getProduct id s = None ->
  get_product (Some v) id s = (s, Json 404 (message "Product not found")).
Proof. intros H. unfold get_product. now rewrite H. Qed.

(** X6.  After DELETE /api/products/:id has answered 204 the product is
    gone: the storage finds nothing under the id, GET /api/products/:id
    answers 404 to every user, the product list of every catalogue is what
    it was without this product, and every other product is where it was.
    On both storages. *)
Theorem deleted_product_is_gone (u : User) (id : Z) :
  (forall s : MemStorage.t,
      mem_well_formed s ->
      snd (delete_product (Some u) id s) = Send 204 ->
      product_gone id s (fst (delete_product (Some u) id s)))
  /\ (forall s : DatabaseStorage.t,
         snd (delete_product (Some u) id s) = Send 204 ->
         product_gone id s (fst (delete_product (Some u) id s))).
Proof.
  split.
  - intros s (_ & [Hk _] & _) H. unfold delete_product in *.
    destruct (getProduct id s) as [p|]; [|discriminate].
    destruct (negb _); [discriminate|]. clear H. simpl.
    assert (Hnone : MemStorage.getProduct id
                      (fst (MemStorage.deleteProduct id s)) = None).
    { unfold MemStorage.getProduct. simpl.
      now rewrite JsMap_get_delete, Z.eqb_refl. }
    split; [exact Hnone|]. split; [|split].
    + intros v. now apply (get_product_none _ MemStorage_IStorage).
    + intros k Hk'. simpl. unfold MemStorage.getProduct. simpl.
      rewrite JsMap_get_delete.
      destruct (k =? id) eqn:E; [apply Z.eqb_eq in E; congruence|easy].
    + intros c. simpl. unfold MemStorage.getCatalogueProducts. simpl.
      rewrite filter_flat_map. apply flat_map_ext. intros cp.
      rewrite JsMap_get_delete.
      destruct (JsMap.get (CatalogueProduct.productId cp)
                          (MemStorage.products s)) as [q|] eqn:Hq.
      * destruct (keyed_get _ _ _ _ _ Hk Hq) as [Hid _]. simpl.
        rewrite Hid.
        now destruct (CatalogueProduct.productId cp =? id).
      * now destruct (CatalogueProduct.productId cp =? id).
  - intros s H. unfold delete_product in *.
    destruct (getProduct id s) as [p|]; [|discriminate].
    destruct (negb _); [discriminate|]. clear H. simpl.
    set (gone := fun p0 : Product => negb (Product.id p0 =? id)).
    assert (Hnone : DatabaseStorage.getProduct id
                      (fst (DatabaseStorage.deleteProduct id s)) = None).
    { unfold DatabaseStorage.getProduct, Table.select. simpl.
      fold gone. rewrite filter_swap.
      replace (filter gone (filter (fun p0 => Product.id p0 =? id)
                              (Table.rows (DatabaseStorage.products s))))
        with (@nil Product); [reflexivity|].
      symmetry. induction (Table.rows _) as [|a l IH]; simpl; auto.
      destruct (Product.id a =? id) eqn:E; simpl; auto.
      unfold gone at 1. now rewrite E. }
    split; [exact Hnone|]. split; [|split].
    + intros v. now apply (get_product_none _ DatabaseStorage_IStorage).
    + intros k Hk'. simpl.
      unfold DatabaseStorage.getProduct, Table.select. simpl.
      fold gone. rewrite filter_swap. f_equal. apply filter_all.
      intros x Hx. apply filter_In in Hx. destruct Hx as [_ Hx].
      apply Z.eqb_eq in Hx. unfold gone. apply neq_negb_eqb. congruence.
    + intros c. simpl. unfold DatabaseStorage.getCatalogueProducts,
        Table.select. simpl. fold gone.
      rewrite filter_flat_map. apply flat_map_ext. intros cp.
      apply filter_swap.
Qed.

Lemma deleted_product_is_gone_witness :
  product_gone 2 Example.mem
    (fst (delete_product (Some Example.alice) 2 Example.mem)).
Proof.
  apply (proj1 (deleted_product_is_gone Example.alice 2) Example.mem
               sample_mem_well_formed).
  reflexivity.
Defined.

(** ** The payment status of an order *)

Lemma JsMap_set_same {V} (k : Z) (v : V) (m : JsMap.t V) :
  JsMap.get k m = Some v -> JsMap.set k v m = m.
Proof.
  induction m as [|[k0 v0] m IH]; simpl; [discriminate|].
  destruct (k0 =? k) eqn:E.
  - intros [= ->]. reflexivity.
  - intros H. now rewrite IH.
Qed.

Lemma get_mutated {V} (id : V -> Z) (n : Z) (p : V -> bool) (f : V -> V)
      (m : JsMap.t V) (o : V) :
  map_ok id n m -> find p (JsMap.values m) = Some o ->
  JsMap.get (id o) (JsMap.mutate_first p f m) = Some (f o).
Proof.
  intros [Hk Hd]. unfold keyed in Hk.
  induction m as [|[k v] m IH]; simpl; [discriminate|].
  inversion Hk as [|? ? [H1 H2] H3]; subst. simpl in *. subst k.
  apply NoDup_cons_iff in Hd. destruct Hd as [Hnot Hd].
  destruct (p v) eqn:Hp.
  - intros [= <-]. simpl. now rewrite Z.eqb_refl.
  - intros Hf. simpl.
    destruct (keyed_value_has_key id n m p o H3 Hf) as [v0 Hv0].
    apply JsMap_get_in in Hv0.
    destruct (id v =? id o) eqn:E.
    + apply Z.eqb_eq in E. rewrite E in Hnot. contradiction.
    + now apply IH.
Qed.

Lemma find_mutated {V} (p : V -> bool) (f : V -> V) (m : JsMap.t V) (o : V) :
  (forall v, p (f v) = p v) -> find p (JsMap.values m) = Some o ->
  find p (JsMap.values (JsMap.mutate_first p f m)) = Some (f o).
Proof.
  intros Hf. unfold JsMap.values.
  induction m as [|[k v] m IH]; simpl; [discriminate|].
  destruct (p v) eqn:Hp; simpl.
  - intros [= <-]. now rewrite Hf, Hp.
  - rewrite Hp. exact IH.
Qed.

Lemma find_other_mutated {V} (p q : V -> bool) (f : V -> V) (m : JsMap.t V) :
  (forall v, p v = true -> q v = false /\ q (f v) = false) ->
  find q (JsMap.values (JsMap.mutate_first p f m))
  = find q (JsMap.values m).
Proof.
  intros H. unfold JsMap.values.
  induction m as [|[k v] m IH]; simpl; [reflexivity|].
  destruct (p v) eqn:Hp; simpl.
  - destruct (H v Hp) as [-> ->]. reflexivity.
  - now rewrite IH.
Qed.

Lemma map_fixed {A} (g : A -> A) (l : list A) :
  (forall x, In x l -> g x = x) -> map g l = l.
Proof.
  induction l as [|a l IH]; simpl; intros H; [reflexivity|].
  rewrite (H a) by auto. f_equal. apply IH. auto.
Qed.

Lemma string_eqb_other (a b k : string) :
  (a =? b)%string = true -> k <> b -> (a =? k)%string = false.
Proof.
  intros H Hk. apply String.eqb_eq in H. subst a.
  apply String.eqb_neq. congruence.
Qed.

Lemma mem_status_update (orderId p : string) (s : MemStorage.t) (o : Order) :
  mem_well_formed s ->
  getOrderByOrderId orderId s = Some o ->
  let o' := Order.with_paymentStatus (Some p) o in
  let s' := fst (updateOrderPaymentStatus orderId (Some p) s) in
  snd (updateOrderPaymentStatus orderId (Some p) s) = Some o'
  /\ getOrderByOrderId orderId s' = Some o'
  /\ forall k, k <> orderId ->
               getOrderByOrderId k s' = getOrderByOrderId k s.
Proof.
  intros (_ & _ & _ & _ & Ho & _) Hf. simpl in *.
  unfold MemStorage.getOrderByOrderId in *.
  unfold MemStorage.updateOrderPaymentStatus. rewrite Hf. simpl.
  set (q := fun o0 => (Order.orderId o0 =? orderId)%string) in *.
  set (f := Order.with_paymentStatus (Some p)).
  assert (Hq : forall v, q (f v) = q v) by reflexivity.
  rewrite (JsMap_set_same _ _ _
             (get_mutated Order.id _ q f _ o Ho Hf)).
  split; [reflexivity|]. split.
  - now apply find_mutated.
  - intros k Hk. apply find_other_mutated. intros v Hv.
    unfold q in Hv. simpl. split; now apply (string_eqb_other _ orderId).
Qed.

Lemma db_status_update (orderId p : string) (s : DatabaseStorage.t)
      (o : Order) :
  getOrderByOrderId orderId s = Some o ->
  let o' := Order.with_paymentStatus (Some p) o in
  let s' := fst (updateOrderPaymentStatus orderId (Some p) s) in
  snd (updateOrderPaymentStatus orderId (Some p) s) = Some o'
  /\ getOrderByOrderId orderId s' = Some o'
  /\ forall k, k <> orderId ->
               getOrderByOrderId k s' = getOrderByOrderId k s.
Proof.
  intros Hf. simpl in *.
  unfold DatabaseStorage.getOrderByOrderId, Table.select in *. simpl.
  set (q := fun o0 => (Order.orderId o0 =? orderId)%string) in *.
  set (f := Order.with_paymentStatus (Some p)).
  set (g := fun r => if q r then f r else r).
  destruct (hd_filter_in _ _ _ Hf) as [_ Hqo].
  split; [now rewrite hd_error_map, Hf|]. split.
  - rewrite (filter_map_stable q g).
    + rewrite hd_error_map, Hf. simpl. unfold g. now rewrite Hqo.
    + intros x. unfold g. destruct (q x) eqn:E; [exact E|exact E].
  - intros k Hk.
    rewrite (filter_map_stable (fun o0 => (Order.orderId o0 =? k)%string) g).
    + f_equal. apply map_fixed. intros x Hx. apply filter_In in Hx.
      destruct Hx as [_ Hx]. unfold g.
      destruct (q x) eqn:E; [|reflexivity].
      unfold q in E. apply String.eqb_eq in E, Hx. congruence.
    + intros x. unfold g. now destruct (q x).
Qed.

(** X7.  When PUT /api/orders/:orderId/status answers 200, the order has
    the payment status of the body and is otherwise as it was, the body of
    the answer is that order, a GET /api/orders/:orderId by the same user
    right after answers with the same body, and a lookup by any other
    order id finds what it found before.  On both storages. *)
Theorem order_status_round_trip (u : User) (orderId p : string)
        (b : JsValue) :
  (forall s s' : MemStorage.t,
      mem_well_formed s ->
      put_order_status (Some u) orderId (Some p) s = (s', Json 200 b) ->
      payment_status_set orderId p s s' b
      /\ get_order (Some u) orderId s' = (s', Json 200 b))
  /\ (forall s s' : DatabaseStorage.t,
         put_order_status (Some u) orderId (Some p) s = (s', Json 200 b) ->
         payment_status_set orderId p s s' b
         /\ get_order (Some u) orderId s' = (s', Json 200 b)).
Proof.
  split.
  - intros s s' Hwf H. unfold put_order_status in H.
    destruct (negb (present (Some p))); [discriminate|].
    destruct (getOrderByOrderId orderId s) as [o|] eqn:Ho; [|discriminate].
    destruct (negb (Order.userId o =? User.id u)) eqn:Hown; [discriminate|].
    destruct (mem_status_update orderId p s o Hwf Ho) as (H1 & H2 & H3).
    destruct (updateOrderPaymentStatus orderId (Some p) s) as [s1 r].
    cbn [fst snd] in H1, H2, H3. subst r. injection H as <- <-.
    split; [exists o; auto|].
    unfold get_order. rewrite H2. simpl. now rewrite Hown.
  - intros s s' H. unfold put_order_status in H.
    destruct (negb (present (Some p))); [discriminate|].
    destruct (getOrderByOrderId orderId s) as [o|] eqn:Ho; [|discriminate].
    destruct (negb (Order.userId o =? User.id u)) eqn:Hown; [discriminate|].
    destruct (db_status_update orderId p s o Ho) as (H1 & H2 & H3).
    destruct (updateOrderPaymentStatus orderId (Some p) s) as [s1 r].
    cbn [fst snd] in H1, H2, H3. subst r. injection H as <- <-.
    split; [exists o; auto|].
    unfold get_order. rewrite H2. simpl. now rewrite Hown.
Qed.

Lemma order_status_round_trip_witness :
  let r := put_order_status (Some Example.alice) "ORD-7K2M9Q" (Some "paid")
                            Example.mem in
  payment_status_set "ORD-7K2M9Q" "paid" Example.mem (fst r)
                     (body_of (snd r))
  /\ get_order (Some Example.alice) "ORD-7K2M9Q" (fst r)
     = (fst r, Json 200 (body_of (snd r))).
Proof.
  intros r.
  apply (proj1 (order_status_round_trip Example.alice "ORD-7K2M9Q" "paid"
                  (body_of (snd r))) Example.mem (fst r)
               sample_mem_well_formed).
  vm_compute. reflexivity.
Defined.

(** ** Orders by date *)

Lemma insert_desc_perm {R} (key : R -> Z) (x : R) (l : list R) :
  Permutation (x :: l) (Table.insert_desc key x l).
Proof.
  induction l as [|y l IH]; simpl; [reflexivity|].
  destruct (key y <=? key x); [reflexivity|].
  rewrite perm_swap. now constructor.
Qed.

Lemma order_by_desc_perm {R} (key : R -> Z) (l : list R) :
  Permutation l (Table.order_by_desc key l).
Proof.
  unfold Table.order_by_desc. induction l as [|x l IH]; simpl;
    [reflexivity|].
  rewrite <- insert_desc_perm. now constructor.
Qed.

Lemma insert_desc_sorted {R} (key : R -> Z) (x : R) (l : list R) :
  newest_first key l -> newest_first key (Table.insert_desc key x l).
Proof.
  unfold newest_first. induction l as [|y l IH]; simpl; intros H.
  - repeat constructor.
  - apply StronglySorted_inv in H. destruct H as [Hl Hy].
    destruct (key y <=? key x) eqn:E.
    + apply Z.leb_le in E. constructor; [now constructor|].
      constructor; [exact E|].
      eapply Forall_impl; [|exact Hy]. simpl. intros a Ha. lia.
    + apply Z.leb_gt in E. constructor; [now apply IH|].
      apply Forall_forall. intros a Ha.
      apply (Permutation_in _ (Permutation_sym (insert_desc_perm key x l)))
        in Ha.
      destruct Ha as [<-|Ha]; [lia|].
      rewrite Forall_forall in Hy. now apply Hy.
Qed.

Lemma order_by_desc_sorted {R} (key : R -> Z) (l : list R) :
  newest_first key (Table.order_by_desc key l).
Proof.
  unfold Table.order_by_desc. induction l as [|x l IH]; simpl.
  - constructor.
  - now apply insert_desc_sorted.
Qed.

Lemma in_firstn {A} (a : A) (n : nat) (l : list A) :
  In a (firstn n l) -> In a l.
Proof.
  intros H. rewrite <- (firstn_skipn n l). apply in_or_app. now left.
Qed.

Lemma in_skipn {A} (a : A) (n : nat) (l : list A) :
  In a (skipn n l) -> In a l.
Proof.
  intros H. rewrite <- (firstn_skipn n l). apply in_or_app. now right.
Qed.

Lemma sorted_firstn {R} (key : R -> Z) (n : nat) (l : list R) :
  newest_first key l ->
  newest_first key (firstn n l)
  /\ forall a b, In a (firstn n l) -> In b (skipn n l) -> key b <= key a.
Proof.
  unfold newest_first. revert l. induction n as [|n IH]; intros l H; simpl.
  - split; [constructor|]. intros a b [].
  - destruct l as [|x l]; [split; [constructor|intros a b []]|].
    apply StronglySorted_inv in H. destruct H as [Hl Hx].
    destruct (IH l Hl) as [H1 H2]. split.
    + constructor; [exact H1|].
      apply Forall_forall. intros a Ha. apply in_firstn in Ha.
      rewrite Forall_forall in Hx. now apply Hx.
    + intros a b [<-|Ha] Hb.
      * rewrite Forall_forall in Hx. apply Hx.
        now apply (in_skipn b n l).
      * now apply H2.
Qed.

(** X8.  GET /api/dashboard/recent-orders answers a signed-in user with at
    most five orders, as many as the user has when that is fewer: they are
    among the orders that the storage returns for the user, they come
    newest first, and no order left out is newer than one that is shown.
    The orders that either storage returns for a user are orders of that
    user. *)
Theorem recent_orders_are_the_five_newest :
  (forall S (storage : IStorage S) (u : User) (s : S),
      exists shown,
        dashboard_recent_orders (Some u) s = (s, Json 200 (orders_js shown))
        /\ five_newest (getOrders (User.id u) s) shown)
  /\ (forall (s : MemStorage.t) uid o,
         In o (getOrders uid s) -> Order.userId o = uid)
  /\ (forall (s : DatabaseStorage.t) uid o,
         In o (getOrders uid s) -> Order.userId o = uid).
Proof.
  split; [|split].
  - intros S storage u s.
    set (all := getOrders (User.id u) s).
    set (sorted := Table.order_by_desc Order.orderDate all).
    exists (firstn 5 sorted). split; [reflexivity|].
    destruct (sorted_firstn Order.orderDate 5 sorted
                (order_by_desc_sorted _ _)) as [H1 H2].
    assert (Hlen : List.length sorted = List.length all).
    { symmetry. apply Permutation_length, order_by_desc_perm. }
    split; [apply firstn_le_length|]. split; [|split; [exact H1|]].
    + now rewrite length_firstn, Hlen.
    + exists (skipn 5 sorted). split; [|exact H2].
      rewrite firstn_skipn. apply order_by_desc_perm.
  - intros s uid o H. simpl in H. unfold MemStorage.getOrders in H.
    apply filter_In in H. now apply Z.eqb_eq.
  - intros s uid o H. simpl in H. unfold DatabaseStorage.getOrders in H.
    apply (Permutation_in _ (Permutation_sym (order_by_desc_perm _ _))) in H.
    apply filter_In in H. now apply Z.eqb_eq.
Qed.

(** X9.  On the database the lists come newest first.  GET /api/orders
    answers a signed-in user with exactly the order rows of that user,
    sorted by [orderDate] with the newest first; GET
    /api/catalogues/:id/access-requests answers the owner of the catalogue
    with exactly the request rows of that catalogue, sorted by
    [requestDate] with the newest first. *)
Theorem database_lists_newest_first (u : User) (s : DatabaseStorage.t) :
  (exists l,
      get_orders (Some u) s = (s, Json 200 (orders_js l))
      /\ newest_first Order.orderDate l
      /\ Permutation
           (filter (fun o => Order.userId o =? User.id u)
                   (Table.rows (DatabaseStorage.orders s))) l)
  /\ forall c,
      getCatalogue (Catalogue.id c) s = Some c ->
      Catalogue.userId c = User.id u ->
      exists l,
        get_access_requests (Some u) (Catalogue.id c) s
        = (s, Json 200 (JArr (map (fun r => JObj (AccessRequest.to_js r)) l)))
        /\ newest_first AccessRequest.requestDate l
        /\ Permutation
             (filter (fun r => AccessRequest.catalogueId r =? Catalogue.id c)
                     (Table.rows (DatabaseStorage.accessRequests s))) l.
Proof.
  split.
  - exists (getOrders (User.id u) s). split; [reflexivity|]. split.
    + apply order_by_desc_sorted.
    + apply order_by_desc_perm.
  - intros c Hc Hu. exists (getAccessRequests (Catalogue.id c) s).
    split; [|split].
    + unfold get_access_requests. rewrite Hc, Hu, Z.eqb_refl. reflexivity.
    + apply order_by_desc_sorted.
    + apply order_by_desc_perm.
Qed.

Lemma database_lists_newest_first_witness :
  let c := Catalogue.mk 1 1 "spring" None Example.link None (Some 0) 0 in
  exists l,
    get_access_requests (Some Example.alice) (Catalogue.id c)
                        Example.approved_db
    = (Example.approved_db,
       Json 200 (JArr (map (fun r => JObj (AccessRequest.to_js r)) l)))
    /\ newest_first AccessRequest.requestDate l
    /\ Permutation
         (filter (fun r => AccessRequest.catalogueId r =? Catalogue.id c)
                 (Table.rows (DatabaseStorage.accessRequests
                                Example.approved_db))) l.
Proof.
  intros c.
  apply (proj2 (database_lists_newest_first Example.alice
                  Example.approved_db) c);
    vm_compute; reflexivity.
Defined.

(** ** Lookups in a storage with ids in order *)

Lemma found_is_keyed {V} (id : V -> Z) (n : Z) (p : V -> bool)
      (m : JsMap.t V) (o : V) :
  map_ok id n m -> find p (JsMap.values m) = Some o ->
  JsMap.get (id o) m = Some o.
Proof.
  intros [Hk Hd]. unfold keyed in Hk.
  induction m as [|[k v] m IH]; simpl; [discriminate|].
  inversion Hk as [|? ? [H1 H2] H3]; subst. simpl in *. subst k.
  apply NoDup_cons_iff in Hd. destruct Hd as [Hnot Hd].
  destruct (p v) eqn:Hp.
  - intros [= <-]. now rewrite Z.eqb_refl.
  - intros Hf.
    destruct (keyed_value_has_key id n m p o H3 Hf) as [v0 Hv0].
    apply JsMap_get_in in Hv0.
    destruct (id v =? id o) eqn:E.
    + apply Z.eqb_eq in E. rewrite E in Hnot. contradiction.
    + now apply IH.
Qed.

Lemma filter_nothing {A} (p : A -> bool) (l : list A) :
  (forall x, In x l -> p x = false) -> filter p l = [].
Proof.
  induction l as [|a l IH]; simpl; intros H; [reflexivity|].
  rewrite (H a) by auto. apply IH. auto.
Qed.

Lemma row_by_id {R} (id : R -> Z) (rows : list R) (r : R) :
  NoDup (map id rows) -> In r rows ->
  filter (fun x => id x =? id r) rows = [r].
Proof.
  induction rows as [|a l IH]; simpl; [tauto|].
  intros Hd Hin. apply NoDup_cons_iff in Hd. destruct Hd as [Hnot Hd].
  destruct Hin as [->|Hin].
  - rewrite Z.eqb_refl. f_equal.
    apply filter_nothing. intros x Hx.
    apply Z.eqb_neq. intros E. apply Hnot. rewrite <- E.
    now apply in_map.
  - destruct (id a =? id r) eqn:E; [|now apply IH].
    apply Z.eqb_eq in E. exfalso. apply Hnot. rewrite E. now apply in_map.
Qed.

Lemma mem_found_catalogue (link : string) (c : Catalogue)
      (s : MemStorage.t) :
  mem_well_formed s -> getCatalogueByLink link s = Some c ->
  getCatalogue (Catalogue.id c) s = Some c.
Proof.
  intros (_ & _ & Hc & _) H.
  exact (found_is_keyed Catalogue.id _ _ _ c Hc H).
Qed.

Lemma db_found_catalogue (link : string) (c : Catalogue)
      (s : DatabaseStorage.t) :
  db_well_formed s -> getCatalogueByLink link s = Some c ->
  getCatalogue (Catalogue.id c) s = Some c.
Proof.
  intros (_ & _ & [_ Hd] & _) H. simpl in *.
  unfold DatabaseStorage.getCatalogueByLink, DatabaseStorage.getCatalogue,
    Table.select in *.
  apply hd_filter_in in H. destruct H as [Hin _].
  now rewrite (row_by_id Catalogue.id _ c Hd Hin).
Qed.

Lemma wf_consistent (s : MemStorage.t) : mem_well_formed s -> consistent s.
Proof. intros (_ & _ & [Hc _] & _ & _ & [Hr _]). now split. Qed.

Lemma view_body_views (c : Catalogue) (x y : JsValue) :
  prop (JObj (obj_set "distributor" x
                (obj_set "products" y (Catalogue.to_js c)))) "views"
  = opt_js JNum (Catalogue.views c).
Proof.
  unfold prop. rewrite !obj_get_set_other by discriminate. reflexivity.
Qed.

(** X10.  The catalogue that GET /api/shared/:link/view answers with is
    the object the handler read before it counted the view.  [MemStorage]
    hands out the stored object and counts in place, so its answer shows
    the count with this view included; a database row is a copy, so the
    answer of [DatabaseStorage] shows the count as it was before.  The
    stored count is one more on both. *)
Theorem view_answer_and_counter (pf : Platform) (link : string)
        (authorization : option string) (now : Z) (c : Catalogue)
        (b : JsValue) :
  (forall s s' : MemStorage.t,
      mem_well_formed s ->
      getCatalogueByLink link s = Some c ->
      shared_view pf link authorization now s = (s', Json 200 b) ->
      prop b "views" = JNum (or_zero (Catalogue.views c) + 1)
      /\ option_map Catalogue.views (getCatalogue (Catalogue.id c) s')
         = Some (Some (or_zero (Catalogue.views c) + 1)))
  /\ (forall s s' : DatabaseStorage.t,
         db_well_formed s ->
         getCatalogueByLink link s = Some c ->
         shared_view pf link authorization now s = (s', Json 200 b) ->
         prop b "views" = opt_js JNum (Catalogue.views c)
         /\ option_map Catalogue.views (getCatalogue (Catalogue.id c) s')
            = Some (Some (or_zero (Catalogue.views c) + 1))).
Proof.
  split; intros s s' Hwf Hc H; unfold shared_view in H;
    destruct (bearer_token authorization) as [token|]; try discriminate;
    destruct (decode_twice pf token) as [v|]; try discriminate;
    destruct (bad_token_format v); try discriminate;
    destruct (js_lt pf (prop v "exp") now); try discriminate;
    rewrite Hc in H;
    destruct (differs (Catalogue.id c) (prop v "catalogueId"));
    try discriminate;
    destruct (getUser (Catalogue.userId c)
                      (incrementCatalogueViews (Catalogue.id c) s))
      as [user|]; try discriminate;
    pose proof (f_equal (fun r => prop (body_of (snd r)) "views") H) as Hb;
    cbn [fst snd body_of] in Hb; rewrite view_body_views in Hb;
    apply (f_equal fst) in H; cbn [fst] in H; subst s'; rewrite <- Hb;
    clear Hb.
  - destruct (mem_increment link c s (wf_consistent s Hwf) Hc)
      as (before & c1 & H1 & H2 & _).
    rewrite (mem_found_catalogue link c s Hwf Hc) in H1.
    injection H1 as <-.
    change (held (incrementCatalogueViews (Catalogue.id c) s) c)
      with (match getCatalogue (Catalogue.id c)
                    (incrementCatalogueViews (Catalogue.id c) s) with
            | Some c' => c'
            | None => c
            end).
    rewrite H2. split; reflexivity.
  - destruct (db_increment link c s Hc) as (before & c1 & H1 & H2 & _).
    rewrite (db_found_catalogue link c s Hwf Hc) in H1.
    injection H1 as <-. rewrite H2. split; reflexivity.
Qed.

Lemma view_answer_and_counter_witness :
  let r := shared_view node Example.link (Example.bearer Example.fresh_token)
                       1000 Example.mem in
  let c := Catalogue.mk 1 1 "spring" None Example.link None (Some 0) 0 in
  prop (body_of (snd r)) "views" = JNum (or_zero (Catalogue.views c) + 1)
  /\ option_map Catalogue.views (getCatalogue (Catalogue.id c) (fst r))
     = Some (Some (or_zero (Catalogue.views c) + 1)).
Proof.
  intros r c.
  apply (proj1 (view_answer_and_counter node Example.link
                  (Example.bearer Example.fresh_token) 1000 c
                  (body_of (snd r))) Example.mem (fst r)
               sample_mem_well_formed);
    vm_compute; reflexivity.
Defined.

(** ** The token that check-access grants *)

Lemma substring_whole (t : string) :
  String.substring 0 (String.length t) t = t.
Proof. induction t as [|a t IH]; simpl; [reflexivity|now rewrite IH]. Qed.

Lemma prefix_nil (t : string) : String.prefix "" t = true.
Proof. now destruct t. Qed.

Lemma bearer_token_of (t : string) :
  bearer_token (Some ("Bearer " ++ t)) = Some t.
Proof.
  unfold bearer_token.
  change (String.prefix "Bearer " ("Bearer " ++ t)) with (String.prefix "" t).
  rewrite prefix_nil.
  change (String.length ("Bearer " ++ t)) with (7 + String.length t)%nat.
  replace (7 + String.length t - 7)%nat with (String.length t) by lia.
  change (String.substring 7 (String.length t) ("Bearer " ++ t))
    with (String.substring 0 (String.length t) t).
  now rewrite substring_whole.
Qed.

Lemma granted_token {S} {storage : IStorage S} (pf : Platform)
      (link email t : string) (now : Z) (s : S) (c : Catalogue) :
  getCatalogueByLink link s = Some c ->
  check_access pf link (Some email) now s = (s, granted_reply t) ->
  t = encodeToken pf (Catalogue.id c) email (now + week_ms).
Proof.
  intros Hc H. unfold check_access in H.
  destruct (negb (present (Some email))); [discriminate|].
  rewrite Hc in H.
  destruct (getAccessRequestByEmail _ _ _) as [r|]; [|discriminate].
  destruct (Status_eqb _ _); [|discriminate].
  unfold granted_reply in H. simpl in H. congruence.
Qed.

(** X11.  The token that check-access hands to an approved retailer opens
    GET /api/shared/:link/view of that catalogue for one week: presented
    up to seven days after it was granted, the view is counted and
    answered (with 404 only when the owner of the catalogue is not a
    user); presented later, the answer is 401 "Token expired" and nothing
    is counted.  With Node's base64 and JSON, on any storage. *)
Theorem granted_token_opens_view {S} {storage : IStorage S} (pf : Platform)
        (link email t : string) (now1 now2 : Z) (s : S) (c : Catalogue) :
  getCatalogueByLink link s = Some c ->
  Catalogue.id c <> 0 -> 0 <= now1 ->
  check_access (on_node pf) link (Some email) now1 s = (s, granted_reply t) ->
  let view := shared_view (on_node pf) link (Some ("Bearer " ++ t)) now2 s in
  (now2 <= now1 + week_ms ->
   fst view = incrementCatalogueViews (Catalogue.id c) s
   /\ (status_of (snd view) = Some 200
       \/ getUser (Catalogue.userId c) (fst view) = None
          /\ snd view = Json 404 (message "Distributor not found")))
  /\ (now1 + week_ms < now2 ->
      view = (s, Json 401 (message "Token expired"))).
Proof.
  intros Hc Hid Hnow Hgrant view.
  apply (granted_token (on_node pf) link email t now1 s c Hc) in Hgrant.
  simpl in Hgrant.
  assert (Hweek : 0 < week_ms) by reflexivity.
  set (exp := now1 + week_ms) in *.
  assert (Hdec : decode_twice (on_node pf) t
                 = Some (JObj (tokenPayload (Catalogue.id c) email exp))).
  { rewrite decode_twice_eq. simpl. rewrite Hgrant.
    apply node_token_round_trip. }
  assert (Hfmt : bad_token_format
                   (JObj (tokenPayload (Catalogue.id c) email exp)) = false).
  { unfold bad_token_format. simpl.
    destruct (Catalogue.id c =? 0) eqn:E1;
      [apply Z.eqb_eq in E1; contradiction|].
    destruct (exp =? 0) eqn:E2; [apply Z.eqb_eq in E2; lia|reflexivity]. }
  assert (Hsame : differs (Catalogue.id c)
                    (prop (JObj (tokenPayload (Catalogue.id c) email exp))
                          "catalogueId") = false).
  { simpl. now rewrite Z.eqb_refl. }
  unfold view, shared_view.
  rewrite bearer_token_of, Hdec, Hfmt.
  change (js_lt (on_node pf)
            (prop (JObj (tokenPayload (Catalogue.id c) email exp)) "exp")
            now2)
    with (exp <? now2).
  split; intros Hlate.
  - assert (E : (exp <? now2) = false) by (apply Z.ltb_ge; lia).
    rewrite E, Hc, Hsame.
    destruct (getUser (Catalogue.userId c)
                (incrementCatalogueViews (Catalogue.id c) s)) as [user|]
      eqn:Hu; simpl.
    + split; [reflexivity|now left].
    + split; [reflexivity|]. right. rewrite Hu. now split.
  - assert (E : (exp <? now2) = true) by (apply Z.ltb_lt; lia).
    now rewrite E.
Qed.

Lemma granted_token_opens_view_witness :
  let t := node_encodeToken 1 "rita@shop.io" (400 + week_ms) in
  let view := shared_view (on_node node) Example.link (Some ("Bearer " ++ t))
                          (400 + week_ms + 1) Example.approved_db in
  view = (Example.approved_db, Json 401 (message "Token expired")).
Proof.
  intros t view.
  apply (granted_token_opens_view node Example.link "rita@shop.io" t 400
           (400 + week_ms + 1) Example.approved_db
           (Catalogue.mk 1 1 "spring" None Example.link None (Some 0) 0));
    try (vm_compute; reflexivity); try discriminate; lia.
Defined.

(** ** What the token routes read *)

Ltac same_answer :=
  simpl;
  repeat (break_match; simpl in *; try reflexivity; try congruence).

Lemma mem_token_routes_read (pf : Platform) (s s2 : MemStorage.t) :
  MemStorage.users s2 = MemStorage.users s ->
  MemStorage.products s2 = MemStorage.products s ->
  MemStorage.catalogues s2 = MemStorage.catalogues s ->
  MemStorage.catalogueProducts s2 = MemStorage.catalogueProducts s ->
  MemStorage.orders s2 = MemStorage.orders s ->
  token_routes_agree pf s s2.
Proof.
  destruct s, s2. simpl. intros -> -> -> -> ->.
  intros link orderId status authorization now. split; [|split].
  - unfold shared_view. simpl.
    unfold MemStorage.getCatalogueByLink,
      MemStorage.incrementCatalogueViews, MemStorage.getUser,
      MemStorage.getCatalogueProducts, MemStorage.getCatalogue.
    same_answer.
  - unfold shared_orders. simpl.
    unfold MemStorage.getCatalogueByLink, MemStorage.getOrdersByEmail.
    same_answer.
  - unfold shared_payment_status. simpl.
    unfold MemStorage.getOrderByOrderId,
      MemStorage.updateOrderPaymentStatus.
    same_answer.
Qed.

Lemma db_token_routes_read (pf : Platform) (s s2 : DatabaseStorage.t) :
  DatabaseStorage.users s2 = DatabaseStorage.users s ->
  DatabaseStorage.products s2 = DatabaseStorage.products s ->
  DatabaseStorage.catalogues s2 = DatabaseStorage.catalogues s ->
  DatabaseStorage.catalogueProducts s2 = DatabaseStorage.catalogueProducts s ->
  DatabaseStorage.orders s2 = DatabaseStorage.orders s ->
  token_routes_agree pf s s2.
Proof.
  destruct s, s2. simpl. intros -> -> -> -> ->.
  intros link orderId status authorization now. split; [|split].
  - unfold shared_view. simpl.
    unfold DatabaseStorage.getCatalogueByLink,
      DatabaseStorage.incrementCatalogueViews, DatabaseStorage.getUser,
      DatabaseStorage.getCatalogueProducts, DatabaseStorage.getCatalogue.
    same_answer.
  - unfold shared_orders. simpl.
    unfold DatabaseStorage.getCatalogueByLink,
      DatabaseStorage.getOrdersByEmail.
    same_answer.
  - unfold shared_payment_status. simpl.
    unfold DatabaseStorage.getOrderByOrderId,
      DatabaseStorage.updateOrderPaymentStatus.
    same_answer.
Qed.

(** X12.  A token is not revoked by a decision.  GET /api/shared/:link/view,
    GET /api/shared/:link/orders and PUT .../payment-status read no access
    request: after a request-access or a PUT /api/access-requests/:id,
    whatever it decided, each of the three answers every request as it
    answered before.  On both storages. *)
Theorem decisions_do_not_revoke_tokens (pf : Platform) (e : Env)
        (r : Request) :
  writes_requests r = true ->
  (forall s : MemStorage.t,
      token_routes_agree pf s (fst (handle pf e r s)))
  /\ (forall s : DatabaseStorage.t,
         token_routes_agree pf s (fst (handle pf e r s))).
Proof.
  intros Hr.
  assert (Hw : writes_products r = false /\ writes_catalogues r = false
               /\ writes_catalogueProducts r = false
               /\ writes_orders r = false)
    by (destruct r; try discriminate Hr; repeat split).
  destruct Hw as (Wp & Wc & Wj & Wo).
  split; intros s.
  - apply (route_kept (token_routes_agree pf) false false false false true);
      try congruence; try discriminate.
    + intros a. now apply mem_token_routes_read.
    + intros a b c Hab Hbc l o st au n.
      destruct (Hab l o st au n) as (H1 & H2 & H3).
      destruct (Hbc l o st au n) as (H4 & H5 & H6).
      repeat split; congruence.
    + intros _ now0 x a. now apply mem_token_routes_read.
    + intros _ id st a. apply mem_token_routes_read; simpl;
        unfold MemStorage.updateAccessRequest; now break_match.
  - apply (route_kept (token_routes_agree pf) false false false false true);
      try congruence; try discriminate.
    + intros a. now apply db_token_routes_read.
    + intros a b c Hab Hbc l o st au n.
      destruct (Hab l o st au n) as (H1 & H2 & H3).
      destruct (Hbc l o st au n) as (H4 & H5 & H6).
      repeat split; congruence.
    + intros _ now0 x a. now apply db_token_routes_read.
    + intros _ id st a. now apply db_token_routes_read.
Qed.

Lemma decisions_do_not_revoke_tokens_witness :
  token_routes_agree node Example.approved_db
    (fst (handle node (Example.env 300)
            (PUT_access_request (Some Example.alice) 1 (Some "rejected"))
            Example.approved_db)).
Proof.
  apply (proj2 (decisions_do_not_revoke_tokens node (Example.env 300)
                  (PUT_access_request (Some Example.alice) 1
                                      (Some "rejected"))
                  eq_refl)).
Defined.

(** ** The owner and the link of what is created *)

Lemma nanoid_url_symbol (z : Z) :
  url_symbol (string_nth (Z.to_nat (Z.land z 63)) urlAlphabet) = true.
Proof.
  pose proof (land_63_small z) as H.
  destruct (Z.to_nat (Z.land z 63)) as [|n]; [reflexivity|].
  do 63 (destruct n as [|n]; [reflexivity|]).
  lia.
Qed.

Lemma new_link_matches (pool : Pool) :
  matches_link ("catalogue-" ++ nanoid 10 pool) = true.
Proof.
  unfold nanoid. simpl. now rewrite !nanoid_url_symbol.
Qed.

Ltac parse_steps H :=
  repeat match type of H with
         | match ?x with _ => _ end = _ => destruct x eqn:?; try discriminate
         end.

Lemma zod_required_number (k : string) (body : JsObject) (n : Z) :
  Zod.required Zod.number k body = Some n -> obj_get k body = Some (JNum n).
Proof.
  unfold Zod.required. destruct (obj_get k body) as [[]|]; simpl;
    try discriminate. congruence.
Qed.

Lemma zod_required_string (k : string) (body : JsObject) (x : string) :
  Zod.required Zod.string_ k body = Some x -> obj_get k body = Some (JStr x).
Proof.
  unfold Zod.required. destruct (obj_get k body) as [[]|]; simpl;
    try discriminate. congruence.
Qed.

Lemma node_product_schema_faithful : product_schema_faithful node.
Proof.
  intros body o H. simpl in H. unfold Zod.insertProduct in H.
  parse_steps H. injection H as <-. simpl.
  now apply zod_required_number.
Qed.

Lemma node_catalogue_schema_faithful : catalogue_schema_faithful node.
Proof.
  intros body o H. simpl in H. unfold Zod.insertCatalogue in H.
  parse_steps H. injection H as <-. simpl. split.
  - now apply zod_required_number.
  - now apply zod_required_string.
Qed.

Lemma forced_userId (u : User) (body : JsObject) (n : Z) :
  obj_get "userId" (obj_set "userId" (JNum (User.id u)) body)
  = Some (JNum n) -> n = User.id u.
Proof. rewrite obj_get_set_same. congruence. Qed.

Lemma forced_link (u : User) (link : string) (body : JsObject)
      (n : Z) (x : string) :
  obj_get "userId"
    (obj_set "shareableLink" (JStr link)
       (obj_set "userId" (JNum (User.id u)) body)) = Some (JNum n) ->
  obj_get "shareableLink"
    (obj_set "shareableLink" (JStr link)
       (obj_set "userId" (JNum (User.id u)) body)) = Some (JStr x) ->
  n = User.id u /\ x = link.
Proof.
  rewrite obj_get_set_other by discriminate.
  rewrite !obj_get_set_same. split; congruence.
Qed.

(** X13.  A client chooses neither the owner nor the link of what it
    creates.  With schemas that validate without writing, the product of a
    201 answer of POST /api/products and the catalogue of a 201 answer of
    POST /api/catalogues carry the id of the session user as [userId],
    whatever [userId] the body gives; the catalogue's [shareableLink] is
    the one the handler made, whatever [shareableLink] the body gives, and
    it is [catalogue-] followed by exactly ten characters of [A-Z], [a-z],
    [0-9], [_] and [-].  On both storages. *)
Theorem created_entities_carry_session_user (pf : Platform) (u : User)
        (body : JsObject) (now : Z) (pool : Pool) (b : JsValue) :
  product_schema_faithful pf -> catalogue_schema_faithful pf ->
  (forall s s' : MemStorage.t,
      post_products pf (Some u) body now s = (s', Json 201 b) ->
      prop b "userId" = JNum (User.id u))
  /\ (forall s s' : DatabaseStorage.t,
         post_products pf (Some u) body now s = (s', Json 201 b) ->
         prop b "userId" = JNum (User.id u))
  /\ (forall s s' : MemStorage.t,
         post_catalogues pf (Some u) body now pool s = (s', Json 201 b) ->
         catalogue_of_session u pool b)
  /\ (forall s s' : DatabaseStorage.t,
         post_catalogues pf (Some u) body now pool s = (s', Json 201 b) ->
         catalogue_of_session u pool b)
  /\ matches_link ("catalogue-" ++ nanoid 10 pool) = true.
Proof.
  intros Hp Hc.
  split; [|split; [|split; [|split; [|apply new_link_matches]]]];
    intros s s' H.
  - unfold post_products in H.
    destruct (insertProductSchema_parse pf _) as [v|] eqn:E;
      [|discriminate].
    apply Hp, forced_userId in E.
    apply (f_equal (fun r => prop (body_of (snd r)) "userId")) in H.
    simpl in H. now rewrite <- H, E.
  - unfold post_products in H.
    destruct (insertProductSchema_parse pf _) as [v|] eqn:E;
      [|discriminate].
    apply Hp, forced_userId in E.
    apply (f_equal (fun r => prop (body_of (snd r)) "userId")) in H.
    simpl in H. now rewrite <- H, E.
  - unfold post_catalogues in H.
    destruct (insertCatalogueSchema_parse pf _) as [v|] eqn:E;
      [|discriminate].
    apply Hc in E. destruct E as [E1 E2].
    destruct (forced_link _ _ _ _ _ E1 E2) as [Hu Hl].
    split.
    + apply (f_equal (fun r => prop (body_of (snd r)) "userId")) in H.
      simpl in H. now rewrite <- H, Hu.
    + apply (f_equal (fun r => prop (body_of (snd r)) "shareableLink")) in H.
      simpl in H. now rewrite <- H, Hl.
  - unfold post_catalogues in H.
    destruct (insertCatalogueSchema_parse pf _) as [v|] eqn:E;
      [|discriminate].
    apply Hc in E. destruct E as [E1 E2].
    destruct (forced_link _ _ _ _ _ E1 E2) as [Hu Hl].
    split.
    + apply (f_equal (fun r => prop (body_of (snd r)) "userId")) in H.
      simpl in H. now rewrite <- H, Hu.
    + apply (f_equal (fun r => prop (body_of (snd r)) "shareableLink")) in H.
      simpl in H. now rewrite <- H, Hl.
Qed.

Lemma created_entities_carry_session_user_witness :
  let body := [("name", JStr "winter"); ("userId", JNum 2);
               ("shareableLink", JStr "catalogue-mine")] in
  let r := post_catalogues node (Some Example.alice) body 50
                           Example.dash_pool Example.db in
  catalogue_of_session Example.alice Example.dash_pool (body_of (snd r)).
Proof.
  intros body r.
  apply (proj1 (proj2 (proj2 (proj2
           (created_entities_carry_session_user node Example.alice body 50
              Example.dash_pool (body_of (snd r))
              node_product_schema_faithful
              node_catalogue_schema_faithful))))
         Example.db (fst r)).
  vm_compute. reflexivity.
Defined.

(** ** A posted order *)

Lemma find_last {A} (p : A -> bool) (l : list A) (a : A) :
  find p (l ++ [a])
  = match find p l with
    | Some x => Some x
    | None => if p a then Some a else None
    end.
Proof.
  induction l as [|x l IH]; simpl; [reflexivity|].
  now destruct (p x).
Qed.

Lemma hd_filter_last {A} (p : A -> bool) (l : list A) (a : A) :
  hd_error (filter p (l ++ [a]))
  = match hd_error (filter p l) with
    | Some x => Some x
    | None => if p a then Some a else None
    end.
Proof.
  rewrite filter_app. simpl.
  destruct (filter p l); simpl; [|reflexivity].
  now destruct (p a).
Qed.




(** ** Guards of the retailer's payment-status route and of the decisions *)

(** X15.  PUT /api/shared/:link/orders/:orderId/payment-status never looks
    at its [:link]: with any other link, also one of no catalogue, it does
    and answers the same.  It writes only for the holder of a token whose
    [email] is the [retailerEmail] of the order: otherwise the storage
    stays as it was.  On any storage. *)
Theorem payment_status_route_guard {S} {storage : IStorage S}
        (pf : Platform) (link orderId : string) (status : option string)
        (authorization : option string) (s : S) :
  (forall other,
      shared_payment_status pf other orderId status authorization s
      = shared_payment_status pf link orderId status authorization s)
  /\ (fst (shared_payment_status pf link orderId status authorization s) = s
      \/ exists token v o,
          bearer_token authorization = Some token
          /\ decodeToken pf token = Some v
          /\ getOrderByOrderId orderId s = Some o
          /\ prop v "email" = JStr (Order.retailerEmail o)
          /\ shared_payment_status pf link orderId status authorization s
             = (fst (updateOrderPaymentStatus orderId status s),
                Json 200 (opt_obj Order.to_js
                            (snd (updateOrderPaymentStatus orderId status
                                                           s))))).
Proof.
  split; [reflexivity|].
  unfold shared_payment_status.
  destruct (bearer_token authorization) as [token|] eqn:Hb; [|now left].
  destruct (decodeToken pf token) as [v|] eqn:Hv; [|now left].
  destruct (getOrderByOrderId orderId s) as [o|] eqn:Ho; [|now left].
  destruct (token_email v) as [email|] eqn:He; [|now left].
  destruct (differs_string (Order.retailerEmail o) email) eqn:Hd;
    [now left|].
  right. exists token, v, o.
  split; [reflexivity|]. split; [exact Hv|].
  split; [first [reflexivity|exact Ho]|].
  split.
  - unfold token_email in He. unfold differs_string in Hd.
    destruct email as [| | | |x| | |]; try discriminate.
    apply negb_false_iff, String.eqb_eq in Hd. subst x.
    destruct v; try discriminate; injection He as He; exact He.
  - now destruct (updateOrderPaymentStatus orderId status s).
Qed.

(** X16.  Access requests are shown to and decided by the owner of their
    catalogue only: GET /api/catalogues/:id/access-requests by another
    user, and PUT /api/access-requests/:id with a valid decision by a user
    who does not own the catalogue of the request, are answered with 403
    and leave the storage as it was.  On any storage. *)
Theorem foreign_access_requests_refused {S} {storage : IStorage S}
        (u : User) (c : Catalogue) (s : S) :
  Catalogue.userId c <> User.id u ->
  (getCatalogue (Catalogue.id c) s = Some c ->
   get_access_requests (Some u) (Catalogue.id c) s
   = (s, Json 403 (message "Unauthorized")))
  /\ (forall id r status,
         getAccessRequest id s = Some r ->
         getCatalogue (AccessRequest.catalogueId r) s = Some c ->
         status = Some "approved" \/ status = Some "rejected" ->
         put_access_request (Some u) id status s
         = (s, Json 403 (message "Unauthorized"))).
Proof.
  intros Hne. split.
  - intros Hc. unfold get_access_requests.
    now rewrite Hc, (neq_negb_eqb _ _ Hne).
  - intros id r status Hr Hc Hst. unfold put_access_request.
    assert (Hd : exists d, decision status = Some d)
      by (destruct Hst as [-> | ->]; eexists; reflexivity).
    destruct Hd as [d ->].
    now rewrite Hr, Hc, (neq_negb_eqb _ _ Hne).
Qed.

Lemma foreign_access_requests_refused_witness :
  put_access_request (Some Example.bob) 1 (Some "rejected")
                     Example.approved_db
  = (Example.approved_db, Json 403 (message "Unauthorized")).
Proof.
  apply (proj2 (foreign_access_requests_refused Example.bob
                  (Catalogue.mk 1 1 "spring" None Example.link None
                                (Some 0) 0)
                  Example.approved_db ltac:(discriminate))
               1 (AccessRequest.mk 1 1 "Rita" "rita@shop.io" "Shop"
                                   (Some "") approved 100));
    try (vm_compute; reflexivity).
  now right.
Defined.

(** ** A request for access *)

Lemma mem_serve_ok (pf : Platform) (rs : list (Env * Request)) :
  forall s : MemStorage.t,
    mem_well_formed s -> mem_well_formed (serve pf rs s).
Proof.
  induction rs as [|[e r] rs IH]; simpl; intros s H; [exact H|].
  apply IH. now apply mem_handle_ok.
Qed.

Lemma db_serve_ok (pf : Platform) (rs : list (Env * Request)) :
  forall s : DatabaseStorage.t,
    db_well_formed s -> db_well_formed (serve pf rs s).
Proof.
  induction rs as [|[e r] rs IH]; simpl; intros s H; [exact H|].
  apply IH. now apply db_handle_ok.
Qed.


Lemma sample_approved_mem_well_formed : mem_well_formed Example.approved_mem.
Proof. apply mem_serve_ok, sample_mem_well_formed. Qed.






(** ** A deleted catalogue *)

Lemma values_without_key {V} (id : V -> Z) (n k : Z) (m : JsMap.t V) :
  keyed id n m ->
  JsMap.values (filter (fun kv => negb (fst kv =? k)) m)
  = filter (fun v => negb (id v =? k)) (JsMap.values m).
Proof.
  unfold keyed, JsMap.values. induction m as [|[k0 v0] m IH]; simpl;
    [reflexivity|].
  intros H. inversion H as [|? ? [H1 H2] H3]; subst. simpl in *.
  rewrite H1. destruct (k0 =? k); simpl; now rewrite IH.
Qed.

Lemma find_in_filter {A} (p q : A -> bool) (l : list A) (a : A) :
  find p (filter q l) = Some a -> q a = true.
Proof.
  intros H. apply find_some in H. destruct H as [H _].
  now apply filter_In in H.
Qed.

Lemma hd_filter_filter {A} (p q : A -> bool) (l : list A) (a : A) :
  hd_error (filter p (filter q l)) = Some a -> q a = true.
Proof.
  intros H. apply hd_filter_in in H. destruct H as [H _].
  now apply filter_In in H.
Qed.

Lemma orphan_request {S} {storage : IStorage S} (v : User) (rid : Z)
      (status : option string) (r : AccessRequest) (s : S) :
  getAccessRequest rid s = Some r ->
  getCatalogue (AccessRequest.catalogueId r) s = None ->
  status = Some "approved" \/ status = Some "rejected" ->
  put_access_request (Some v) rid status s
  = (s, Json 404 (message "Catalogue not found")).
Proof.
  intros Hr Hc Hst. unfold put_access_request.
  assert (Hd : exists d, decision status = Some d)
    by (destruct Hst as [-> | ->]; eexists; reflexivity).
  destruct Hd as [d ->]. now rewrite Hr, Hc.
Qed.

Lemma get_catalogue_none {S} {storage : IStorage S} (id : Z) (v : User)
      (s : S) :
  getCatalogue id s = None ->
  get_catalogue (Some v) id s
  = (s, Json 404 (message "Catalogue not found")).
Proof. intros H. unfold get_catalogue. now rewrite H. Qed.

Lemma mem_retired_kept (pf : Platform) (e : Env) (r : Request) (id : Z)
      (s : MemStorage.t) :
  getCatalogue id s = None /\ id < MemStorage.currentCatalogueId s ->
  getCatalogue id (fst (handle pf e r s)) = None
  /\ id < MemStorage.currentCatalogueId (fst (handle pf e r s)).
Proof.
  apply (route_kept
           (fun a b : MemStorage.t =>
              getCatalogue id a = None
              /\ id < MemStorage.currentCatalogueId a ->
              getCatalogue id b = None
              /\ id < MemStorage.currentCatalogueId b)
           true true true true true);
    try reflexivity; auto; intros _; intros; simpl in *;
    unfold MemStorage.getCatalogue in *;
    try (unfold_writes; simpl; repeat (break_match; simpl); assumption).
  - (* createCatalogue *)
    destruct H as [Hg Hl]. simpl. split; [|lia].
    rewrite get_other_after_set; [exact Hg|lia].
  - (* updateCatalogue *)
    destruct H as [Hg Hl]. unfold MemStorage.updateCatalogue.
    destruct (JsMap.get id0 (MemStorage.catalogues s0)) eqn:E; simpl;
      [|now split].
    split; [|exact Hl]. rewrite get_other_after_set; [exact Hg|].
    intros ->. congruence.
  - (* deleteCatalogue *)
    destruct H as [Hg Hl]. unfold MemStorage.deleteCatalogue, JsMap.delete.
    simpl. split; [|exact Hl]. rewrite JsMap_get_delete, Hg.
    now destruct (id =? id0).
  - (* incrementCatalogueViews *)
    destruct H as [Hg Hl]. unfold MemStorage.incrementCatalogueViews.
    destruct (JsMap.get id0 (MemStorage.catalogues s0)) eqn:E; simpl;
      [|now split].
    split; [|exact Hl]. rewrite get_other_after_set; [exact Hg|].
    intros ->. congruence.
Qed.

Lemma db_retired_kept (pf : Platform) (e : Env) (r : Request) (id : Z)
      (s : DatabaseStorage.t) :
  getCatalogue id s = None
  /\ id < Table.nextId (DatabaseStorage.catalogues s) ->
  getCatalogue id (fst (handle pf e r s)) = None
  /\ id < Table.nextId (DatabaseStorage.catalogues (fst (handle pf e r s))).
Proof.
  apply (route_kept
           (fun a b : DatabaseStorage.t =>
              getCatalogue id a = None
              /\ id < Table.nextId (DatabaseStorage.catalogues a) ->
              getCatalogue id b = None
              /\ id < Table.nextId (DatabaseStorage.catalogues b))
           true true true true true);
    try reflexivity; auto; intros _; intros; simpl in *;
    unfold DatabaseStorage.getCatalogue, Table.select in *;
    try (unfold_writes; simpl; repeat (break_match; simpl); assumption).
  - (* createCatalogue *)
    destruct H as [Hg Hl]. simpl. split; [|lia].
    rewrite (hd_filter_id_other Catalogue.id); [exact Hg|simpl; lia].
  - (* updateCatalogue *)
    destruct H as [Hg Hl]. simpl. split; [|exact Hl].
    rewrite filter_map_stable.
    + now rewrite hd_error_map, Hg.
    + intros x. now destruct (Catalogue.id x =? id0).
  - (* deleteCatalogue *)
    destruct H as [Hg Hl]. simpl. split; [|exact Hl].
    rewrite filter_swap. now rewrite (hd_filter_none _ _ Hg).
  - (* incrementCatalogueViews *)
    destruct H as [Hg Hl]. unfold DatabaseStorage.incrementCatalogueViews.
    destruct (DatabaseStorage.getCatalogue id0 s0); simpl; [|now split].
    split; [|exact Hl]. rewrite filter_map_stable.
    + now rewrite hd_error_map, Hg.
    + intros x. now destruct (Catalogue.id x =? id0).
Qed.

Lemma mem_retired_after (pf : Platform) (rs : list (Env * Request))
      (id : Z) :
  forall s : MemStorage.t,
    getCatalogue id s = None /\ id < MemStorage.currentCatalogueId s ->
    getCatalogue id (serve pf rs s) = None.
Proof.
  induction rs as [|[e r] rs IH]; simpl; intros s H; [tauto|].
  apply IH. now apply mem_retired_kept.
Qed.

Lemma db_retired_after (pf : Platform) (rs : list (Env * Request))
      (id : Z) :
  forall s : DatabaseStorage.t,
    getCatalogue id s = None
    /\ id < Table.nextId (DatabaseStorage.catalogues s) ->
    getCatalogue id (serve pf rs s) = None.
Proof.
  induction rs as [|[e r] rs IH]; simpl; intros s H; [tauto|].
  apply IH. now apply db_retired_kept.
Qed.

Lemma absent_of_none {S} {storage : IStorage S} (id : Z) (s : S) :
  getCatalogue id s = None -> catalogue_absent id s.
Proof.
  intros Hnone. split; [exact Hnone|]. split.
  - intros v. now apply get_catalogue_none.
  - intros v rid status r Hr Hid Hst.
    apply (orphan_request v rid status r s Hr); [|exact Hst].
    now rewrite Hid.
Qed.

(** X18.  After DELETE /api/catalogues/:id has answered 204 the catalogue
    is gone and nothing else is: the storage finds nothing under the id,
    GET /api/catalogues/:id answers 404 to every user, no shareable link
    resolves to it, the list of its owner is what it was without it, and
    every other catalogue is where it was.  The access requests are all
    where they were, those for the deleted catalogue too.  And the
    catalogue stays gone: after any sequence of further requests the
    storage still finds nothing under the id, GET /api/catalogues/:id
    still answers 404, and PUT /api/access-requests/:id answers every
    stored request for this catalogue with 404.  On both storages; the
    list of the owner is up to order on the database. *)
Theorem deleted_catalogue_is_gone (u : User) (id : Z) :
  (forall s : MemStorage.t,
      mem_well_formed s ->
      snd (delete_catalogue (Some u) id s) = Send 204 ->
      catalogue_gone eq id s (fst (delete_catalogue (Some u) id s)))
  /\ (forall s : DatabaseStorage.t,
         snd (delete_catalogue (Some u) id s) = Send 204 ->
         catalogue_gone (@Permutation Catalogue) id s
                        (fst (delete_catalogue (Some u) id s)))
  /\ (forall pf rs (s : MemStorage.t),
         mem_well_formed s ->
         snd (delete_catalogue (Some u) id s) = Send 204 ->
         catalogue_absent
           id (serve pf rs (fst (delete_catalogue (Some u) id s))))
  /\ (forall pf rs (s : DatabaseStorage.t),
         db_well_formed s ->
         snd (delete_catalogue (Some u) id s) = Send 204 ->
         catalogue_absent
           id (serve pf rs (fst (delete_catalogue (Some u) id s)))).
Proof.
  split; [|split; [|split]].
  3:{ intros pf rs s (_ & _ & [Hk _] & _) H. apply absent_of_none.
      apply mem_retired_after. unfold delete_catalogue in *.
      destruct (getCatalogue id s) as [c|] eqn:Hc; [|discriminate].
      destruct (negb _); [discriminate|]. cbn [fst]. simpl. split.
      - unfold MemStorage.getCatalogue. simpl.
        now rewrite JsMap_get_delete, Z.eqb_refl.
      - exact (proj2 (keyed_get _ _ _ _ _ Hk Hc)). }
  3:{ intros pf rs s (_ & _ & [Hk _] & _) H. apply absent_of_none.
      apply db_retired_after. unfold delete_catalogue in *.
      destruct (getCatalogue id s) as [c|] eqn:Hc; [|discriminate].
      destruct (negb _); [discriminate|]. cbn [fst]. simpl. split.
      - unfold DatabaseStorage.getCatalogue, Table.select. simpl.
        rewrite filter_swap.
        rewrite (filter_nothing (fun c0 => negb (Catalogue.id c0 =? id)));
          [reflexivity|].
        intros x Hx. apply filter_In in Hx. destruct Hx as [_ Hx].
        now rewrite Hx.
      - simpl in Hc. unfold DatabaseStorage.getCatalogue in Hc.
        destruct (hd_filter_in _ _ _ Hc) as [Hin Hid].
        apply Z.eqb_eq in Hid. unfold sequenced in Hk.
        rewrite Forall_forall in Hk. apply Hk in Hin. lia. }
  - intros s (_ & _ & [Hk _] & _) H. unfold delete_catalogue in *.
    destruct (getCatalogue id s) as [c|]; [|discriminate].
    destruct (negb _); [discriminate|]. clear H. cbn [fst].
    set (s' := fst (deleteCatalogue id s)).
    assert (Hnone : getCatalogue id s' = None).
    { simpl. unfold MemStorage.getCatalogue. simpl.
      now rewrite JsMap_get_delete, Z.eqb_refl. }
    split; [now apply absent_of_none|].
    split; [|split; [|split; [|split]]]; try reflexivity.
    + intros k Hk'. simpl. unfold MemStorage.getCatalogue. simpl.
      rewrite JsMap_get_delete.
      destruct (k =? id) eqn:E; [apply Z.eqb_eq in E; congruence|easy].
    + intros link c' Hc'. simpl in Hc'.
      unfold MemStorage.getCatalogueByLink in Hc'. simpl in Hc'.
      rewrite (values_without_key Catalogue.id _ _ _ Hk) in Hc'.
      apply find_in_filter in Hc'.
      apply negb_true_iff, Z.eqb_neq in Hc'. exact Hc'.
    + intros uid. simpl. unfold MemStorage.getCatalogues. simpl.
      rewrite (values_without_key Catalogue.id _ _ _ Hk).
      apply filter_swap.
  - intros s H. unfold delete_catalogue in *.
    destruct (getCatalogue id s) as [c|]; [|discriminate].
    destruct (negb _); [discriminate|]. clear H. cbn [fst].
    set (s' := fst (deleteCatalogue id s)).
    set (gone := fun c0 : Catalogue => negb (Catalogue.id c0 =? id)).
    assert (Hnone : getCatalogue id s' = None).
    { simpl. unfold DatabaseStorage.getCatalogue, Table.select. simpl.
      fold gone. rewrite filter_swap.
      rewrite (filter_nothing gone); [reflexivity|].
      intros x Hx. apply filter_In in Hx. destruct Hx as [_ Hx].
      unfold gone. now rewrite Hx. }
    split; [now apply absent_of_none|].
    split; [|split; [|split; [|split]]]; try reflexivity.
    + intros k Hk'. simpl. unfold DatabaseStorage.getCatalogue, Table.select.
      simpl. fold gone. rewrite filter_swap. f_equal. apply filter_all.
      intros x Hx. apply filter_In in Hx. destruct Hx as [_ Hx].
      apply Z.eqb_eq in Hx. unfold gone. apply neq_negb_eqb. congruence.
    + intros link c' Hc'. simpl in Hc'.
      unfold DatabaseStorage.getCatalogueByLink, Table.select in Hc'.
      simpl in Hc'. apply hd_filter_filter in Hc'.
      apply negb_true_iff, Z.eqb_neq in Hc'. exact Hc'.
    + intros uid. simpl. unfold DatabaseStorage.getCatalogues, Table.select.
      simpl. rewrite filter_swap. apply Permutation_refl.
Qed.

Lemma deleted_catalogue_is_gone_witness :
  catalogue_gone eq 1 Example.approved_mem
    (fst (delete_catalogue (Some Example.alice) 1 Example.approved_mem)).
Proof.
  apply (proj1 (deleted_catalogue_is_gone Example.alice 1)
               Example.approved_mem sample_approved_mem_well_formed).
  vm_compute. reflexivity.
Defined.

(** ** The dashboard after a view *)

Lemma mem_replaced {V} (k : Z) (v v' : V) (m : JsMap.t V) :
  JsMap.get k m = Some v ->
  exists l1 l2,
    JsMap.values m = (l1 ++ v :: l2)%list
    /\ JsMap.values (JsMap.set k v' m) = (l1 ++ v' :: l2)%list.
Proof.
  unfold JsMap.values. induction m as [|[k0 v0] m IH]; simpl;
    [discriminate|].
  destruct (k0 =? k) eqn:E.
  - intros [= ->]. exists [], (map snd m). now split.
  - intros H. destruct (IH H) as (l1 & l2 & H1 & H2).
    exists (v0 :: l1), l2. simpl. now rewrite H1, H2.
Qed.

Lemma db_replaced {R} (id : R -> Z) (f : R -> R) (rows : list R) (r : R) :
  NoDup (map id rows) -> In r rows ->
  exists l1 l2,
    rows = (l1 ++ r :: l2)%list
    /\ map (fun x => if id x =? id r then f x else x) rows
       = (l1 ++ f r :: l2)%list.
Proof.
  induction rows as [|a l IH]; simpl; [tauto|].
  intros Hd Hin. apply NoDup_cons_iff in Hd. destruct Hd as [Hnot Hd].
  destruct Hin as [->|Hin].
  - exists [], l. rewrite Z.eqb_refl. split; [reflexivity|].
    simpl. f_equal. apply map_fixed. intros x Hx.
    destruct (id x =? id r) eqn:E; [|reflexivity].
    apply Z.eqb_eq in E. exfalso. apply Hnot. rewrite <- E.
    now apply in_map.
  - destruct (IH Hd Hin) as (l1 & l2 & H1 & H2).
    exists (a :: l1), l2. simpl. rewrite H2, <- H1.
    destruct (id a =? id r) eqn:E; [|now split].
    apply Z.eqb_eq in E. exfalso. apply Hnot. rewrite E. now apply in_map.
Qed.

Lemma total_views_from (l : list Catalogue) (a : Z) :
  fold_left (fun sum c => sum + or_zero (Catalogue.views c)) l a
  = a + total_views l.
Proof.
  unfold total_views. revert a. induction l as [|c l IH]; simpl; intros a;
    [lia|].
  rewrite (IH (a + or_zero (Catalogue.views c))).
  rewrite (IH (or_zero (Catalogue.views c))). lia.
Qed.

Lemma total_views_cons (c : Catalogue) (l : list Catalogue) :
  total_views (c :: l) = or_zero (Catalogue.views c) + total_views l.
Proof.
  unfold total_views at 1. simpl. now rewrite total_views_from.
Qed.

Lemma total_views_app (l1 l2 : list Catalogue) :
  total_views (l1 ++ l2) = total_views l1 + total_views l2.
Proof.
  induction l1 as [|a l IH]; simpl; [reflexivity|].
  rewrite !total_views_cons, IH. lia.
Qed.

Lemma total_views_replaced (q : Catalogue -> bool) (c : Catalogue)
      (l1 l2 : list Catalogue) :
  let c' := Catalogue.with_views (Some (or_zero (Catalogue.views c) + 1)) c in
  q c' = q c ->
  total_views (filter q (l1 ++ c' :: l2))
  = total_views (filter q (l1 ++ c :: l2)) + if q c then 1 else 0.
Proof.
  intros c' Hq. rewrite !filter_app, !total_views_app. simpl. rewrite Hq.
  destruct (q c); [|lia]. rewrite !total_views_cons. simpl. lia.
Qed.

Lemma viewed_state {S} {storage : IStorage S} (pf : Platform)
      (link : string) (authorization : option string) (now : Z) (s s' : S)
      (c : Catalogue) (b : JsValue) :
  getCatalogueByLink link s = Some c ->
  shared_view pf link authorization now s = (s', Json 200 b) ->
  s' = incrementCatalogueViews (Catalogue.id c) s.
Proof.
  intros Hc H. unfold shared_view in H.
  destruct (bearer_token authorization) as [token|]; [|discriminate].
  destruct (decode_twice pf token) as [v|]; [|discriminate].
  destruct (bad_token_format v); [discriminate|].
  destruct (js_lt pf (prop v "exp") now); [discriminate|].
  rewrite Hc in H.
  destruct (differs (Catalogue.id c) (prop v "catalogueId"));
    [discriminate|].
  destruct (getUser _ _); [|discriminate].
  apply (f_equal fst) in H. simpl in H. now symmetry.
Qed.

(** X19.  A view shows on the dashboard of the owner.  When GET
    /api/shared/:link/view has answered 200, [catalogueViews] of GET
    /api/dashboard/stats is one more than before for the owner of the
    catalogue and as before for every other user; it is the sum of the
    views of the user's catalogues.  On both storages. *)
Theorem view_raises_owner_dashboard (pf : Platform) (link : string)
        (authorization : option string) (now now' : Z) (c : Catalogue)
        (b : JsValue) (u : User) :
  (forall s s' : MemStorage.t,
      mem_well_formed s ->
      getCatalogueByLink link s = Some c ->
      shared_view pf link authorization now s = (s', Json 200 b) ->
      stat pf u now' "catalogueViews" s
      = JNum (total_views (getCatalogues (User.id u) s))
      /\ stat pf u now' "catalogueViews" s'
         = JNum (total_views (getCatalogues (User.id u) s)
                 + if Catalogue.userId c =? User.id u then 1 else 0))
  /\ (forall s s' : DatabaseStorage.t,
         db_well_formed s ->
         getCatalogueByLink link s = Some c ->
         shared_view pf link authorization now s = (s', Json 200 b) ->
         stat pf u now' "catalogueViews" s
         = JNum (total_views (getCatalogues (User.id u) s))
         /\ stat pf u now' "catalogueViews" s'
            = JNum (total_views (getCatalogues (User.id u) s)
                    + if Catalogue.userId c =? User.id u then 1 else 0)).
Proof.
  split; intros s s' Hwf Hc H; (split; [reflexivity|]);
    rewrite (viewed_state pf link authorization now s s' c b Hc H);
    change (stat pf u now' "catalogueViews"
              (incrementCatalogueViews (Catalogue.id c) s))
      with (JNum (total_views
                    (getCatalogues (User.id u)
                       (incrementCatalogueViews (Catalogue.id c) s))));
    f_equal.
  - pose proof (mem_found_catalogue link c s Hwf Hc) as Hg.
    simpl in *. unfold MemStorage.getCatalogue in Hg.
    unfold MemStorage.incrementCatalogueViews, MemStorage.getCatalogues.
    rewrite Hg. simpl.
    destruct (mem_replaced (Catalogue.id c) c
                (Catalogue.with_views
                   (Some (or_zero (Catalogue.views c) + 1)) c)
                (MemStorage.catalogues s) Hg) as (l1 & l2 & H1 & H2).
    rewrite H1, H2.
    now apply (total_views_replaced
                 (fun x => Catalogue.userId x =? User.id u)).
  - pose proof (db_found_catalogue link c s Hwf Hc) as Hg.
    destruct Hwf as (_ & _ & [_ Hd] & _).
    simpl in *. unfold DatabaseStorage.incrementCatalogueViews.
    rewrite Hg. unfold DatabaseStorage.getCatalogues, Table.select. simpl.
    unfold DatabaseStorage.getCatalogueByLink, Table.select in Hc.
    apply hd_filter_in in Hc. destruct Hc as [Hin _].
    destruct (db_replaced Catalogue.id
                (Catalogue.with_views
                   (Some (or_zero (Catalogue.views c) + 1)))
                _ c Hd Hin) as (l1 & l2 & H1 & H2).
    rewrite H2, H1.
    now apply (total_views_replaced
                 (fun x => Catalogue.userId x =? User.id u)).
Qed.

Lemma view_raises_owner_dashboard_witness :
  let r := shared_view node Example.link (Example.bearer Example.fresh_token)
                       1000 Example.db in
  let c := Catalogue.mk 1 1 "spring" None Example.link None (Some 0) 0 in
  stat node Example.alice 2000 "catalogueViews" Example.db
  = JNum (total_views (getCatalogues (User.id Example.alice) Example.db))
  /\ stat node Example.alice 2000 "catalogueViews" (fst r)
     = JNum (total_views (getCatalogues (User.id Example.alice) Example.db)
             + if Catalogue.userId c =? User.id Example.alice
               then 1 else 0).
Proof.
  intros r c.
  apply (proj2 (view_raises_owner_dashboard node Example.link
                  (Example.bearer Example.fresh_token) 1000 2000 c
                  (body_of (snd r)) Example.alice)
               Example.db (fst r) sample_db_well_formed);
    vm_compute; reflexivity.
Defined.

(** ** [btoa] and [atob] *)

Lemma base64_encode_length (l : list ascii) :
  List.length (map Base64.enc_char (Base64.sextets_of_bytes l))
  = match (List.length l mod 3)%nat with
    | 0%nat => (4 * (List.length l / 3))%nat
    | 1%nat => (4 * (List.length l / 3) + 2)%nat
    | _ => (4 * (List.length l / 3) + 3)%nat
    end.
Proof.
  rewrite length_map.
  induction l as [| a | a b | a b c l IH] using list_ind3.
  - reflexivity.
  - now destruct a.
  - now destruct a, b.
  - destruct a, b, c.
    change (List.length (Base64.sextets_of_bytes (_ :: _ :: _ :: l)))
      with (4 + List.length (Base64.sextets_of_bytes l))%nat.
    change (List.length (_ :: _ :: _ :: l)) with (3 + List.length l)%nat.
    rewrite IH.
    replace (3 + List.length l)%nat with (List.length l + 1 * 3)%nat by lia.
    rewrite Nat.Div0.mod_add, Nat.div_add by lia.
    destruct (List.length l mod 3)%nat as [|[|k]]; lia.
Qed.

Lemma string_length_append (a b : string) :
  String.length (a ++ b) = (String.length a + String.length b)%nat.
Proof. induction a as [|c a IH]; simpl; [reflexivity|now rewrite IH]. Qed.

Lemma string_length_of_list (l : list ascii) :
  String.length (string_of_list_ascii l) = List.length l.
Proof. induction l as [|c l IH]; simpl; [reflexivity|now rewrite IH]. Qed.

Lemma list_length_of_string (s : string) :
  List.length (list_ascii_of_string s) = String.length s.
Proof. induction s as [|c s IH]; simpl; [reflexivity|now rewrite IH]. Qed.

Lemma opening_more (b n lo hi : nat) : opening b = More n lo hi -> n <> O.
Proof.
  unfold opening.
  repeat match goal with
         | |- context [if ?c then _ else _] => destruct c
         end; intros [= <- _ _]; discriminate.
Qed.

Lemma utf8_well_formed (bytes : string) :
  forall needed lower upper seen,
    well_formed needed lower upper bytes = true ->
    utf8 needed lower upper seen bytes
    = ((match needed with O => EmptyString | S _ => seen end)
       ++ bytes)%string.
Proof.
  induction bytes as [|c rest IH]; intros needed lower upper seen H.
  - destruct needed; [reflexivity|discriminate].
  - cbn [well_formed] in H. cbn [utf8]. cbv zeta in *.
    destruct needed as [|n].
    + destruct (opening (nat_of_ascii c)) as [|k lo hi|] eqn:E;
        [| |discriminate].
      * now rewrite (IH _ _ _ _ H).
      * rewrite (IH _ _ _ _ H).
        pose proof (opening_more _ _ _ _ E) as Hk.
        destruct k; [contradiction|reflexivity].
    + apply andb_true_iff in H. destruct H as [Hr H]. rewrite Hr.
      destruct n as [|n'].
      * now rewrite (IH _ _ _ _ H).
      * rewrite (IH _ _ _ _ H). apply append_assoc.
Qed.

(** X20.  [atob] undoes [btoa] on the strings of JavaScript that hold no
    lone surrogate, which are the byte strings that are well-formed UTF-8:
    such a string comes back from its base64 form, through the UTF-8
    decoding of [toString()].  The base64 form of any string has a length
    that is a multiple of four. *)
Theorem atob_undoes_btoa (str : string) :
  (utf8_string str -> atob (btoa str) = str)
  /\ (String.length (btoa str) mod 4 = 0)%nat.
Proof.
  split.
  { intros H. unfold atob, btoa. rewrite base64_decode_encode.
    apply (utf8_well_formed str 0 128 191 EmptyString H). }
  unfold btoa, Base64.encode.
  rewrite string_length_append, string_length_of_list.
  rewrite base64_encode_length, list_length_of_string.
  unfold Base64.padding.
  set (n := String.length str).
  pose proof (Nat.mod_upper_bound n 3 ltac:(lia)) as Hb.
  destruct (n mod 3)%nat as [|[|[|k]]]; simpl String.length; [| | |lia].
  - rewrite Nat.add_0_r, Nat.mul_comm. apply Nat.Div0.mod_mul.
  - replace (4 * (n / 3) + 2 + 2)%nat with ((n / 3 + 1) * 4)%nat by lia.
    apply Nat.Div0.mod_mul.
  - replace (4 * (n / 3) + 3 + 1)%nat with ((n / 3 + 1) * 4)%nat by lia.
    apply Nat.Div0.mod_mul.
Qed.

Lemma atob_undoes_btoa_witness :
  let str := ("caf" ++ String (ascii_of_nat 195)
                         (String (ascii_of_nat 169) " au lait"))%string in
  atob (btoa str) = str.
Proof.
  intros str. apply (proj1 (atob_undoes_btoa str)).
  vm_compute. reflexivity.
Defined.

(** ** An updated product *)

Lemma get_product_at {S} {storage : IStorage S} (id : Z) (p : Product)
      (v : User) (s : S) :
  getProduct id s = Some p ->
  get_product (Some v) id s
  = (s, if Product.userId p =? User.id v
        then Json 200 (JObj (Product.to_js p))
        else Json 403 (message "Unauthorized")).
Proof.
  intros H. unfold get_product. rewrite H.
  now destruct (Product.userId p =? User.id v).
Qed.

(** X21.  PUT /api/products/:id stores the product with the validated
    fields of the body over its own, and answers with it: a field that the
    body gives replaces the product's, a field that it does not give is
    kept, [id] and [createdAt] never change, and no other product changes.
    Unlike PUT /api/catalogues/:id the handler does not remove [userId]
    from the validated data: when the schema lets a [userId] through, the
    product passes to that user, and GET /api/products/:id answers the
    former owner with 403.  On both storages. *)
Theorem put_product_round_trip (pf : Platform) (u : User) (id : Z)
        (body : JsObject) (parsed : ProductUpdates) (b : JsValue) :
  insertProductSchema_partial_parse pf body = Some parsed ->
  (forall s s' : MemStorage.t,
      put_product pf (Some u) id body s = (s', Json 200 b) ->
      product_updated id parsed s s' b)
  /\ (forall s s' : DatabaseStorage.t,
         put_product pf (Some u) id body s = (s', Json 200 b) ->
         product_updated id parsed s s' b).
Proof.
  intros Hparse. split; intros s s' H; unfold put_product in H;
    destruct (getProduct id s) as [p|] eqn:Hp; try discriminate;
    destruct (negb _); try discriminate; rewrite Hparse in H.
  - simpl in H, Hp. unfold MemStorage.getProduct in Hp.
    unfold MemStorage.updateProduct in H. rewrite Hp in H.
    injection H as <- <-.
    exists p. split; [exact Hp|]. split; [reflexivity|].
    assert (Hg : getProduct id
                   (MemStorage.set_products
                      (JsMap.set id (ProductUpdates.apply parsed p)
                                 (MemStorage.products s))
                      (MemStorage.currentProductId s) s)
                 = Some (ProductUpdates.apply parsed p)).
    { simpl. unfold MemStorage.getProduct. simpl.
      now rewrite JsMap_get_set, Z.eqb_refl. }
    split; [exact Hg|]. split.
    + intros v. exact (get_product_at id _ v _ Hg).
    + intros k Hk. simpl. unfold MemStorage.getProduct. simpl.
      now apply get_other_after_set.
  - simpl in H, Hp.
    unfold DatabaseStorage.updateProduct in H.
    unfold DatabaseStorage.getProduct, Table.select in *.
    set (q := fun x => Product.id x =? id) in *.
    assert (Hprice : match ProductUpdates.price parsed with
                     | Some x => Some x
                     | None =>
                         option_map Product.price
                           match ProductUpdates.price parsed with
                           | Some _ => None
                           | None =>
                               hd_error
                                 (filter q (Table.rows
                                              (DatabaseStorage.products s)))
                           end
                     end
                     = Some (or_else (ProductUpdates.price parsed)
                                     (Product.price p))).
    { destruct (ProductUpdates.price parsed); [reflexivity|].
      now rewrite Hp. }
    rewrite Hprice in H. simpl in H. injection H as <- <-.
    set (f := ProductUpdates.apply
                (ProductUpdates.with_price
                   (Some (or_else (ProductUpdates.price parsed)
                                  (Product.price p))) parsed)).
    set (g := fun r => if q r then f r else r).
    destruct (hd_filter_in _ _ _ Hp) as [_ Hq].
    assert (Hstable : forall x, q (g x) = q x).
    { intros x. unfold g. destruct (q x) eqn:E; [exact E|exact E]. }
    assert (Hg : getProduct id
                   (DatabaseStorage.set_products
                      (Table.mk (map g (Table.rows
                                          (DatabaseStorage.products s)))
                                (Table.nextId (DatabaseStorage.products s)))
                      s)
                 = Some (ProductUpdates.apply parsed p)).
    { simpl. unfold DatabaseStorage.getProduct, Table.select. simpl.
      fold q. rewrite (filter_map_stable q g _ Hstable), hd_error_map, Hp.
      simpl. unfold g. now rewrite Hq. }
    exists p. split; [exact Hp|]. split; [now rewrite hd_error_map, Hp|].
    split; [exact Hg|]. split.
    + intros v. rewrite hd_error_map, Hp.
      exact (get_product_at id _ v _ Hg).
    + intros k Hk. simpl. unfold DatabaseStorage.getProduct, Table.select.
      simpl.
      rewrite (filter_map_stable (fun x => Product.id x =? k) g).
      * f_equal. apply map_fixed. intros x Hx. apply filter_In in Hx.
        destruct Hx as [_ Hx]. unfold g.
        destruct (q x) eqn:E; [|reflexivity].
        unfold q in E. apply Z.eqb_eq in E, Hx. congruence.
      * intros x. unfold g. now destruct (q x).
Qed.

Lemma put_product_round_trip_witness :
  let body := [("price", JNum 5); ("userId", JNum 2)] in
  let r := put_product node (Some Example.alice) 1 body Example.db in
  product_updated 1 (ProductUpdates.mk (Some 2) None None (Some "5") None
                                       None None)
                  Example.db (fst r) (body_of (snd r)).
Proof.
  intros body r.
  apply (proj2 (put_product_round_trip node Example.alice 1 body
                  (ProductUpdates.mk (Some 2) None None (Some "5") None
                                     None None)
                  (body_of (snd r)) eq_refl)
               Example.db (fst r)).
  vm_compute. reflexivity.
Defined.

(** ** Decimal strings and [parseInt] *)

Ltac digit_step :=
  cbn [parse_digits];
  match goal with
  | |- context [digit_of ?c] =>
      let d := eval vm_compute in (digit_of c) in
      change (digit_of c) with d
  end; cbv beta iota;
  match goal with
  | |- context [?d <? 10] =>
      let b := eval vm_compute in (d <? 10) in
      change (d <? 10) with b
  end; cbv beta iota.

Lemma parse_digits_uint (u : Decimal.uint) (a : positive) :
  parse_digits 10 (NilEmpty.string_of_uint u) (Some (Z.pos a))
  = Some (Z.pos (Pos.of_uint_acc u a)).
Proof.
  revert a. induction u; intros a; simpl NilEmpty.string_of_uint;
    try reflexivity;
    cbn [Pos.of_uint_acc]; digit_step;
    (etransitivity; [|apply IHu]); f_equal; f_equal; unfold or_zero; lia.
Qed.

Lemma skip_space_digit (a : ascii) (r : string) :
  (nat_of_ascii a < 128)%nat -> is_space1 (nat_of_ascii a) = false ->
  skip_space (String a r) = String a r.
Proof.
  intros Ha Hs. cbn [skip_space]. rewrite Hs.
  destruct r as [|b [|c r]]; try reflexivity.
  - replace (is_space2 (nat_of_ascii a) (nat_of_ascii b)) with false;
      [reflexivity|].
    unfold is_space2. symmetry. apply andb_false_intro1.
    apply Nat.eqb_neq. lia.
  - replace (is_space2 (nat_of_ascii a) (nat_of_ascii b)) with false.
    2:{ unfold is_space2. symmetry. apply andb_false_intro1.
        apply Nat.eqb_neq. lia. }
    replace (is_space3 (nat_of_ascii a) (nat_of_ascii b) (nat_of_ascii c))
      with false; [reflexivity|].
    unfold is_space3. symmetry.
    assert (H1 : (nat_of_ascii a =? 225)%nat = false) by (apply Nat.eqb_neq; lia).
    assert (H2 : (nat_of_ascii a =? 226)%nat = false) by (apply Nat.eqb_neq; lia).
    assert (H3 : (nat_of_ascii a =? 227)%nat = false) by (apply Nat.eqb_neq; lia).
    assert (H4 : (nat_of_ascii a =? 239)%nat = false) by (apply Nat.eqb_neq; lia).
    rewrite H1, H2, H3, H4. reflexivity.
Qed.

Lemma parseInt_digits (p : positive) (negative : bool) :
  parseInt_string ((if negative then "-" else "")
                   ++ NilEmpty.string_of_uint (Pos.to_uint p))
  = Some (if negative then Z.neg p else Z.pos p).
Proof.
  pose proof (DecimalPos.Unsigned.of_to p) as Hv.
  pose proof (DecimalPos.Unsigned.to_uint_nonnil p) as Hn.
  pose proof (to_uint_head p) as Hh.
  destruct (Pos.to_uint p) as [|u|u|u|u|u|u|u|u|u|u];
    [now elim Hn | now elim (Hh u) | | | | | | | | |];
    simpl in Hv; injection Hv as Hv; rewrite <- Hv;
    simpl NilEmpty.string_of_uint; unfold parseInt_string;
    destruct negative; simpl append;
    rewrite skip_space_digit by (vm_compute; (lia || reflexivity));
    cbv beta iota zeta; digit_step;
    match goal with
    | |- context [or_zero None * 10 + ?d] =>
        let v := eval vm_compute in (or_zero None * 10 + d) in
        change (or_zero None * 10 + d) with v
    end;
    rewrite parse_digits_uint; reflexivity.
Qed.

Lemma parseInt_toString (n : Z) : parseInt (JStr (Z_toString n)) = Some n.
Proof.
  destruct n as [|p|p]; [reflexivity| |].
  - rewrite <- (parseInt_digits p false). simpl parseInt. f_equal.
    unfold Z_toString. simpl.
    destruct (Pos.to_uint p) eqn:E; try reflexivity.
    now elim (DecimalPos.Unsigned.to_uint_nonnil p).
  - rewrite <- (parseInt_digits p true). simpl parseInt. f_equal.
    unfold Z_toString. simpl.
    destruct (Pos.to_uint p) eqn:E; try reflexivity.
    now elim (DecimalPos.Unsigned.to_uint_nonnil p).
Qed.

Lemma Z_toString_inj (n m : Z) : Z_toString n = Z_toString m -> n = m.
Proof.
  intros H. pose proof (parseInt_toString n) as Hn.
  rewrite H, parseInt_toString in Hn. now injection Hn.
Qed.

Lemma includes_as_strings (wanted : list Z) (k : Z) :
  includes_string (as_strings wanted) (Z_toString k) = true <-> In k wanted.
Proof.
  unfold includes_string, as_strings. rewrite existsb_exists. split.
  - intros (v & Hv & E). apply in_map_iff in Hv as (w & <- & Hw).
    apply String.eqb_eq in E. apply Z_toString_inj in E. now subst.
  - intros H. exists (JStr (Z_toString k)). split.
    + apply in_map_iff. now exists k.
    + apply String.eqb_refl.
Qed.

(** ** The join table as links *)

Lemma count_filter_kept (f : Z -> bool) (n : Z) (L : list Z) :
  f n = true ->
  count_occ Z.eq_dec (filter f L) n = count_occ Z.eq_dec L n.
Proof.
  intros Hf. induction L as [|a L IH]; simpl; [reflexivity|].
  destruct (f a) eqn:Ea; simpl; destruct (Z.eq_dec a n) as [->|Hn];
    try congruence; auto.
Qed.

Lemma count_filter_dropped (f : Z -> bool) (n : Z) (L : list Z) :
  f n = false -> count_occ Z.eq_dec (filter f L) n = O.
Proof.
  intros Hf. apply count_occ_not_In. intros H.
  apply filter_In in H. destruct H as [_ H]. congruence.
Qed.

Lemma flat_map_of_map {A B C} (g : A -> B) (f : B -> list C) (l : list A) :
  flat_map f (map g l) = flat_map (fun a => f (g a)) l.
Proof. induction l as [|a l IH]; simpl; [reflexivity|now rewrite IH]. Qed.

Lemma filter_under {A} (p g : A -> bool) (l : list A) :
  (forall x, p x = true -> g x = true) ->
  filter p (filter g l) = filter p l.
Proof.
  intros H. induction l as [|a l IH]; simpl; [reflexivity|].
  destruct (g a) eqn:Eg; simpl; destruct (p a) eqn:Ep; try congruence.
  apply H in Ep. congruence.
Qed.

(** The entry that [find] meets first is the one entry under its id;
    the [Map] without it is what [delete] leaves. *)
Lemma split_at_found {V} (id : V -> Z) (n : Z) (q : V -> bool)
      (m : JsMap.t V) (o : V) :
  map_ok id n m -> find q (JsMap.values m) = Some o ->
  q o = true
  /\ exists m1 m2,
      m = (m1 ++ (id o, o) :: m2)%list
      /\ filter (fun kv => negb (fst kv =? id o)) m = (m1 ++ m2)%list.
Proof.
  intros [Hk Hn]. induction m as [|[k v] m IH]; simpl; [discriminate|].
  inversion Hk as [|? ? [Hid _] Hk']; subst. simpl in Hid.
  inversion Hn as [|? ? Hnot Hn']; subst.
  destruct (q v) eqn:Eq.
  - intros [= <-]. split; [exact Eq|]. exists [], m. split; [reflexivity|].
    simpl. rewrite Z.eqb_refl. simpl. apply filter_all.
    intros [k' v'] Hin. simpl. apply negb_true_iff, Z.eqb_neq.
    intros ->. apply Hnot. apply in_map_iff. now exists (id v, v').
  - intros Hf. destruct (IH Hk' Hn' Hf) as (Hq & m1 & m2 & E1 & E2).
    split; [exact Hq|]. exists ((id v, v) :: m1), m2. split.
    + simpl. now rewrite <- E1.
    + simpl. assert (Hne : id v <> id o).
      { intros E. apply Hnot. rewrite E1, map_app. apply in_or_app.
        right. left. simpl. now symmetry. }
      apply Z.eqb_neq in Hne. rewrite Hne. simpl. now rewrite E2.
Qed.

Lemma links_of_app (d : Z) (l1 l2 : list CatalogueProduct) :
  map CatalogueProduct.productId
      (filter (fun cp => CatalogueProduct.catalogueId cp =? d) (l1 ++ l2))
  = (map CatalogueProduct.productId
         (filter (fun cp => CatalogueProduct.catalogueId cp =? d) l1)
     ++ map CatalogueProduct.productId
            (filter (fun cp => CatalogueProduct.catalogueId cp =? d) l2))%list.
Proof. now rewrite filter_app, map_app. Qed.

Lemma mem_links_list (c : Z) (s : MemStorage.t) :
  getCatalogueProducts c s = flat_map (found s) (mem_links c s).
Proof.
  unfold mem_links. rewrite flat_map_of_map. reflexivity.
Qed.

Lemma mem_found_id (n : Z) (s : MemStorage.t) (p : Product) :
  mem_well_formed s -> getProduct n s = Some p -> Product.id p = n.
Proof.
  intros (_ & [Hp _] & _) H.
  exact (proj1 (keyed_get _ _ _ _ _ Hp H)).
Qed.

Lemma mem_add_links (c p : Z) (s : MemStorage.t) :
  mem_well_formed s ->
  mem_well_formed (fst (addProductToCatalogue c p s))
  /\ (forall k, getProduct k (fst (addProductToCatalogue c p s))
                = getProduct k s)
  /\ (forall d, mem_links d (fst (addProductToCatalogue c p s))
                = (mem_links d s ++ if d =? c then [p] else [])%list).
Proof.
  intros Hw. split; [now apply mem_addProductToCatalogue_ok|].
  split; [reflexivity|]. intros d.
  destruct Hw as (_ & _ & _ & [Hj _] & _).
  unfold mem_links. simpl.
  rewrite JsMap_values_set_new by now apply keyed_fresh with (1 := Hj).
  rewrite links_of_app. f_equal. simpl. rewrite (Z.eqb_sym c d).
  now destruct (d =? c).
Qed.

Lemma mem_remove_links (c p : Z) (s : MemStorage.t) :
  mem_well_formed s ->
  mem_well_formed (fst (removeProductFromCatalogue c p s))
  /\ (forall k, getProduct k (fst (removeProductFromCatalogue c p s))
                = getProduct k s)
  /\ (forall d, d <> c ->
                mem_links d (fst (removeProductFromCatalogue c p s))
                = mem_links d s)
  /\ (forall k, k <> p ->
                count_occ Z.eq_dec
                  (mem_links c (fst (removeProductFromCatalogue c p s))) k
                = count_occ Z.eq_dec (mem_links c s) k)
  /\ (count_occ Z.eq_dec
        (mem_links c (fst (removeProductFromCatalogue c p s))) p
      <= pred (count_occ Z.eq_dec (mem_links c s) p))%nat.
Proof.
  intros Hw. split; [now apply mem_removeProductFromCatalogue_ok|].
  destruct Hw as (_ & _ & _ & Hj & _).
  simpl. unfold MemStorage.removeProductFromCatalogue.
  destruct (find _ _) as [o|] eqn:Ef.
  - destruct (split_at_found _ _ _ _ _ Hj Ef) as (Hq & m1 & m2 & E1 & E2).
    apply andb_true_iff in Hq. destruct Hq as [Hc Hp].
    apply Z.eqb_eq in Hc, Hp.
    unfold JsMap.delete. simpl. split; [reflexivity|].
    unfold mem_links. simpl. rewrite E2. rewrite E1.
    unfold JsMap.values. rewrite !map_app. simpl map.
    change (?x :: map snd m2) with ([x] ++ map snd m2)%list.
    split; [|split].
    + intros d Hd. apply Z.eqb_neq in Hd. rewrite Z.eqb_sym in Hd.
      rewrite !links_of_app. simpl. rewrite Hc, Hd. reflexivity.
    + intros k Hk. rewrite !links_of_app. simpl.
      rewrite Hc, Z.eqb_refl. simpl. rewrite !count_occ_app. simpl.
      rewrite Hp. destruct (Z.eq_dec p k); [congruence|lia].
    + rewrite !links_of_app. simpl.
      rewrite Hc, Z.eqb_refl. simpl. rewrite !count_occ_app. simpl.
      rewrite Hp. destruct (Z.eq_dec p p); [lia|congruence].
  - simpl. split; [reflexivity|]. split; [reflexivity|].
    split; [reflexivity|].
    replace (count_occ Z.eq_dec (mem_links c s) p) with O; [lia|].
    symmetry. apply count_occ_not_In. unfold mem_links. intros H.
    apply in_map_iff in H. destruct H as (o & Ho & Hin).
    apply filter_In in Hin. destruct Hin as [Hin Hc].
    apply (find_none _ _ Ef) in Hin. simpl in Hin.
    rewrite Hc, Ho, Z.eqb_refl in Hin. discriminate.
Qed.

Lemma mem_create_links (now : Z) (v : InsertCatalogue) (s : MemStorage.t) :
  mem_well_formed s ->
  mem_well_formed (fst (createCatalogue now v s))
  /\ (forall k, getProduct k (fst (createCatalogue now v s)) = getProduct k s)
  /\ (forall d, mem_links d (fst (createCatalogue now v s)) = mem_links d s).
Proof.
  intros Hw. split; [now apply mem_createCatalogue_ok|]. now split.
Qed.

Lemma mem_update_links (id : Z) (v : CatalogueUpdates) (s : MemStorage.t) :
  mem_well_formed s ->
  mem_well_formed (fst (updateCatalogue id v s))
  /\ (forall k, getProduct k (fst (updateCatalogue id v s)) = getProduct k s)
  /\ (forall d, mem_links d (fst (updateCatalogue id v s)) = mem_links d s).
Proof.
  intros Hw. split; [now apply mem_updateCatalogue_ok|].
  simpl. unfold MemStorage.updateCatalogue.
  destruct (JsMap.get id (MemStorage.catalogues s)); now split.
Qed.

Lemma one_row {R} (id : R -> Z) (n : Z) (rows : list R) :
  NoDup (map id rows) ->
  filter (fun r => n =? id r) rows
  = match hd_error (filter (fun r => id r =? n) rows) with
    | Some r => [r]
    | None => []
    end.
Proof.
  intros Hn.
  assert (E : filter (fun r => n =? id r) rows
              = filter (fun r => id r =? n) rows).
  { apply filter_ext. intros r. apply Z.eqb_sym. }
  rewrite E. destruct (filter (fun r => id r =? n) rows) as [|r l] eqn:Ef;
    [reflexivity|]. simpl.
  assert (Hin : In r (filter (fun r => id r =? n) rows))
    by (rewrite Ef; now left).
  apply filter_In in Hin. destruct Hin as [Hin Hid]. apply Z.eqb_eq in Hid.
  rewrite <- Ef. subst n. now apply row_by_id.
Qed.

Lemma db_links_list (c : Z) (s : DatabaseStorage.t) :
  db_well_formed s ->
  getCatalogueProducts c s = flat_map (found s) (db_links c s).
Proof.
  intros (_ & [_ Hp] & _). unfold db_links. rewrite flat_map_of_map.
  simpl. unfold DatabaseStorage.getCatalogueProducts, Table.select.
  apply flat_map_ext. intros cp. unfold found. simpl.
  unfold DatabaseStorage.getProduct, Table.select.
  now apply one_row.
Qed.

Lemma db_found_id (n : Z) (s : DatabaseStorage.t) (p : Product) :
  db_well_formed s -> getProduct n s = Some p -> Product.id p = n.
Proof.
  intros _. simpl. unfold DatabaseStorage.getProduct, Table.select.
  destruct (filter _ _) as [|r l] eqn:Ef; [discriminate|].
  intros [= ->].
  assert (Hin : In p (filter (fun p => Product.id p =? n)
                             (Table.rows (DatabaseStorage.products s))))
    by (rewrite Ef; now left).
  apply filter_In in Hin. now apply Z.eqb_eq.
Qed.

Lemma db_add_links (c p : Z) (s : DatabaseStorage.t) :
  db_well_formed s ->
  db_well_formed (fst (addProductToCatalogue c p s))
  /\ (forall k, getProduct k (fst (addProductToCatalogue c p s))
                = getProduct k s)
  /\ (forall d, db_links d (fst (addProductToCatalogue c p s))
                = (db_links d s ++ if d =? c then [p] else [])%list).
Proof.
  intros Hw. split; [now apply db_writes_ok|].
  split; [reflexivity|]. intros d.
  unfold db_links. simpl. rewrite links_of_app. f_equal. simpl.
  rewrite (Z.eqb_sym c d). now destruct (d =? c).
Qed.

Lemma db_remove_links (c p : Z) (s : DatabaseStorage.t) :
  db_well_formed s ->
  db_well_formed (fst (removeProductFromCatalogue c p s))
  /\ (forall k, getProduct k (fst (removeProductFromCatalogue c p s))
                = getProduct k s)
  /\ (forall d, d <> c ->
                db_links d (fst (removeProductFromCatalogue c p s))
                = db_links d s)
  /\ (forall k, k <> p ->
                count_occ Z.eq_dec
                  (db_links c (fst (removeProductFromCatalogue c p s))) k
                = count_occ Z.eq_dec (db_links c s) k)
  /\ (count_occ Z.eq_dec
        (db_links c (fst (removeProductFromCatalogue c p s))) p
      <= pred (count_occ Z.eq_dec (db_links c s) p))%nat.
Proof.
  intros Hw. split; [now apply db_writes_ok|].
  split; [reflexivity|].
  assert (E : db_links c (fst (removeProductFromCatalogue c p s))
              = filter (fun k => negb (k =? p)) (db_links c s)).
  { unfold db_links. simpl.
    induction (Table.rows (DatabaseStorage.catalogueProducts s))
      as [|r rows IH]; simpl; [reflexivity|].
    destruct (CatalogueProduct.catalogueId r =? c) eqn:Ec;
      destruct (CatalogueProduct.productId r =? p) eqn:Ep;
      simpl; rewrite ?Ec; simpl; rewrite ?Ep; simpl;
      rewrite ?IH; reflexivity. }
  split; [|split].
  - intros d Hd. unfold db_links. simpl. f_equal. apply filter_under.
    intros r Hr. apply Z.eqb_eq in Hr. apply negb_true_iff.
    apply andb_false_intro1. apply Z.eqb_neq. congruence.
  - intros k Hk. rewrite E. apply count_filter_kept.
    apply negb_true_iff. now apply Z.eqb_neq.
  - rewrite E. rewrite count_filter_dropped; [lia|].
    apply negb_false_iff. apply Z.eqb_refl.
Qed.

Lemma db_create_links (now : Z) (v : InsertCatalogue)
      (s : DatabaseStorage.t) :
  db_well_formed s ->
  db_well_formed (fst (createCatalogue now v s))
  /\ (forall k, getProduct k (fst (createCatalogue now v s)) = getProduct k s)
  /\ (forall d, db_links d (fst (createCatalogue now v s)) = db_links d s).
Proof.
  intros Hw. split; [now apply db_writes_ok|]. now split.
Qed.

Lemma db_update_links (id : Z) (v : CatalogueUpdates)
      (s : DatabaseStorage.t) :
  db_well_formed s ->
  db_well_formed (fst (updateCatalogue id v s))
  /\ (forall k, getProduct k (fst (updateCatalogue id v s)) = getProduct k s)
  /\ (forall d, db_links d (fst (updateCatalogue id v s)) = db_links d s).
Proof.
  intros Hw. split; [now apply db_writes_ok|]. now split.
Qed.

Lemma includes_number_in (l : list Z) (n : Z) :
  includes_number l n = true <-> In n l.
Proof.
  unfold includes_number. rewrite existsb_exists. split.
  - intros (m & Hm & E). apply Z.eqb_eq in E. now subst.
  - intros H. exists n. split; [exact H|apply Z.eqb_refl].
Qed.

(** The first loop of the update runs the rounds of the loop of the
    creation, for the elements that name no listed product. *)
Lemma sync_add_as_attach {S} {storage : IStorage S} (u : User) (c : Z)
      (cur : list Z) (l : list JsValue) :
  forall s : S,
    fold_left (sync_add u c cur) l s
    = fold_left (attach_product u c)
                (filter (fun x => match parseInt x with
                                  | Some n => negb (includes_number cur n)
                                  | None => false
                                  end) l) s.
Proof.
  induction l as [|x l IH]; intros s; simpl; [reflexivity|].
  unfold sync_add at 2.
  destruct (parseInt x) as [n|] eqn:E; [|apply IH].
  destruct (includes_number cur n); simpl; [apply IH|].
  rewrite IH. unfold attach_product at 3. now rewrite E.
Qed.

Section Links.
Context {S : Type} {storage : IStorage S}.
Variable ok : S -> Prop.
Variable links : Z -> S -> list Z.

Hypothesis links_list :
  forall c s, ok s ->
              getCatalogueProducts c s = flat_map (found s) (links c s).
Hypothesis found_id :
  forall n s p, ok s -> getProduct n s = Some p -> Product.id p = n.
Hypothesis add_links :
  forall c p s,
    ok s ->
    ok (fst (addProductToCatalogue c p s))
    /\ (forall k, getProduct k (fst (addProductToCatalogue c p s))
                  = getProduct k s)
    /\ (forall d, links d (fst (addProductToCatalogue c p s))
                  = (links d s ++ if d =? c then [p] else [])%list).
Hypothesis remove_links :
  forall c p s,
    ok s ->
    ok (fst (removeProductFromCatalogue c p s))
    /\ (forall k, getProduct k (fst (removeProductFromCatalogue c p s))
                  = getProduct k s)
    /\ (forall d, d <> c ->
                  links d (fst (removeProductFromCatalogue c p s))
                  = links d s)
    /\ (forall k, k <> p ->
                  count_occ Z.eq_dec
                    (links c (fst (removeProductFromCatalogue c p s))) k
                  = count_occ Z.eq_dec (links c s) k)
    /\ (count_occ Z.eq_dec
          (links c (fst (removeProductFromCatalogue c p s))) p
        <= pred (count_occ Z.eq_dec (links c s) p))%nat.
Hypothesis create_links :
  forall now v s,
    ok s ->
    ok (fst (createCatalogue now v s))
    /\ (forall k, getProduct k (fst (createCatalogue now v s))
                  = getProduct k s)
    /\ (forall d, links d (fst (createCatalogue now v s)) = links d s).
Hypothesis update_links :
  forall id v s,
    ok s ->
    ok (fst (updateCatalogue id v s))
    /\ (forall k, getProduct k (fst (updateCatalogue id v s))
                  = getProduct k s)
    /\ (forall d, links d (fst (updateCatalogue id v s)) = links d s).

Lemma found_same (s s' : S) :
  (forall k, getProduct k s' = getProduct k s) ->
  forall n, found s' n = found s n.
Proof. intros H n. unfold found. now rewrite H. Qed.

Lemma attached_same (u : User) (s s' : S) :
  (forall k, getProduct k s' = getProduct k s) ->
  forall x, attached u s' x = attached u s x.
Proof.
  intros H x. unfold attached.
  destruct (parseInt x); [now rewrite H|reflexivity].
Qed.

Lemma listing_same (d : Z) (s s' : S) :
  ok s -> ok s' -> (forall k, getProduct k s' = getProduct k s) ->
  links d s' = links d s ->
  getCatalogueProducts d s' = getCatalogueProducts d s.
Proof.
  intros Hs Hs' Hp Hl. rewrite !links_list by assumption. rewrite Hl.
  apply flat_map_ext. now apply found_same.
Qed.

Lemma listed_links (c : Z) (s : S) :
  ok s ->
  listed c s
  = filter (fun n => match getProduct n s with
                     | Some _ => true
                     | None => false
                     end) (links c s).
Proof.
  intros Hok. unfold listed. rewrite links_list by assumption.
  induction (links c s) as [|a L IH]; simpl; [reflexivity|].
  rewrite map_app, IH. unfold found.
  destruct (getProduct a s) eqn:E; simpl; [|reflexivity].
  now rewrite (found_id _ _ _ Hok E).
Qed.

Lemma attach_step (u : User) (c : Z) (s : S) (x : JsValue) :
  ok s ->
  ok (attach_product u c s x)
  /\ (forall k, getProduct k (attach_product u c s x) = getProduct k s)
  /\ (forall d, links d (attach_product u c s x)
                = (links d s
                   ++ if d =? c then map Product.id (attached u s x)
                      else [])%list).
Proof.
  intros Hok. unfold attach_product, attached.
  assert (Hid : ok s /\ (forall k, getProduct k s = getProduct k s)
                /\ forall d, links d s
                             = (links d s
                                ++ if d =? c then map Product.id [] else [])%list).
  { split; [exact Hok|]. split; [reflexivity|]. intros d.
    destruct (d =? c); simpl; now rewrite List.app_nil_r. }
  destruct (parseInt x) as [n|]; [|exact Hid].
  destruct (getProduct n s) as [p|] eqn:E; [|exact Hid].
  destruct (Product.userId p =? User.id u); [|exact Hid].
  exact (add_links c (Product.id p) s Hok).
Qed.

Lemma attach_links (u : User) (c : Z) (l : list JsValue) :
  forall s,
    ok s ->
    ok (fold_left (attach_product u c) l s)
    /\ (forall k, getProduct k (fold_left (attach_product u c) l s)
                  = getProduct k s)
    /\ (forall d, links d (fold_left (attach_product u c) l s)
                  = (links d s
                     ++ if d =? c
                        then map Product.id (flat_map (attached u s) l)
                        else [])%list).
Proof.
  induction l as [|x l IH]; intros s Hok; simpl fold_left.
  - split; [exact Hok|]. split; [reflexivity|]. intros d.
    destruct (d =? c); simpl; now rewrite List.app_nil_r.
  - destruct (attach_step u c s x Hok) as (H1 & H2 & H3).
    destruct (IH _ H1) as (K1 & K2 & K3).
    split; [exact K1|]. split.
    + intros k. now rewrite K2, H2.
    + intros d. rewrite K3, H3, <- List.app_assoc. f_equal.
      rewrite (flat_map_ext _ _ (attached_same u _ _ H2)).
      simpl flat_map. rewrite map_app. now destruct (d =? c).
Qed.

Lemma attached_found (u : User) (s : S) (l : list JsValue) :
  ok s ->
  flat_map (found s) (map Product.id (flat_map (attached u s) l))
  = flat_map (attached u s) l.
Proof.
  intros Hok. induction l as [|x l IH]; simpl; [reflexivity|].
  rewrite map_app, flat_map_app, IH. f_equal.
  unfold attached. destruct (parseInt x) as [n|]; [|reflexivity].
  destruct (getProduct n s) as [p|] eqn:E; [|reflexivity].
  destruct (Product.userId p =? User.id u); [|reflexivity].
  simpl. rewrite (found_id _ _ _ Hok E). unfold found. now rewrite E.
Qed.

(** POST /api/catalogues, when no link names the id that the new
    catalogue gets. *)
Lemma post_listing (pf : Platform) (u : User) (body : JsObject) (now : Z)
      (pool : Pool) (s s' : S) (b : JsValue) :
  ok s ->
  (forall v, links (Catalogue.id (snd (createCatalogue now v s))) s = []) ->
  post_catalogues pf (Some u) body now pool s = (s', Json 201 b) ->
  exists c,
    b = JObj (Catalogue.to_js c) /\ ok s'
    /\ getCatalogueProducts (Catalogue.id c) s'
       = flat_map (attached u s) (product_ids body)
    /\ forall d, d <> Catalogue.id c ->
                 getCatalogueProducts d s' = getCatalogueProducts d s.
Proof.
  intros Hok Hfresh. unfold post_catalogues.
  destruct (insertCatalogueSchema_parse pf _) as [v|]; [|discriminate].
  specialize (Hfresh v).
  destruct (create_links now v s Hok) as (C1 & C2 & C3).
  destruct (createCatalogue now v s) as [s1 c]. simpl in Hfresh, C1, C2, C3.
  intros H. injection H as Hs Hb. subst s' b. exists c.
  split; [reflexivity|]. unfold product_ids.
  assert (Hgen : forall l,
             ok (fold_left (attach_product u (Catalogue.id c)) l s1)
             /\ getCatalogueProducts
                  (Catalogue.id c)
                  (fold_left (attach_product u (Catalogue.id c)) l s1)
                = flat_map (attached u s) l
             /\ forall d, d <> Catalogue.id c ->
                          getCatalogueProducts
                            d (fold_left (attach_product u (Catalogue.id c))
                                         l s1)
                          = getCatalogueProducts d s).
  { intros l.
    destruct (attach_links u (Catalogue.id c) l s1 C1) as (A1 & A2 & A3).
    split; [exact A1|]. split.
    - rewrite links_list by exact A1. rewrite A3, Z.eqb_refl, C3, Hfresh.
      simpl app.
      rewrite (flat_map_ext _ _ (attached_same u _ _ C2)).
      rewrite (flat_map_ext _ _ (found_same s _
                                   (fun k => eq_trans (A2 k) (C2 k)))).
      now apply attached_found.
    - intros d Hd. apply listing_same; try assumption.
      + intros k. now rewrite A2, C2.
      + rewrite A3, C3. apply Z.eqb_neq in Hd. rewrite Hd.
        apply List.app_nil_r. }
  destruct (obj_get "productIds" body) as [[]|];
    first [exact (Hgen []) | apply Hgen].
Qed.

Lemma added_in (u : User) (cur wanted : list Z) (s : S) (n : Z) :
  ok s ->
  In n (map Product.id
            (flat_map (attached u s)
               (filter (fun x => match parseInt x with
                                 | Some k => negb (includes_number cur k)
                                 | None => false
                                 end) (as_strings wanted))))
  <-> In n wanted /\ includes_number cur n = false
      /\ exists p, getProduct n s = Some p
                   /\ Product.userId p = User.id u.
Proof.
  intros Hok. rewrite in_map_iff. split.
  - intros (p & Hp & Hin). apply in_flat_map in Hin.
    destruct Hin as (x & Hx & Hpx). apply filter_In in Hx.
    destruct Hx as [Hx Hk]. apply in_map_iff in Hx.
    destruct Hx as (w & <- & Hw). unfold attached in Hpx.
    rewrite parseInt_toString in Hk, Hpx.
    destruct (getProduct w s) as [p'|] eqn:E; [|contradiction].
    destruct (Product.userId p' =? User.id u) eqn:Eu; [|contradiction].
    destruct Hpx as [<-|[]]. pose proof (found_id _ _ _ Hok E) as Hid.
    assert (Hn : w = n) by congruence. clear Hid Hp. subst w.
    split; [exact Hw|]. split; [now apply negb_true_iff|].
    exists p'. split; [exact E|now apply Z.eqb_eq].
  - intros (Hw & Hi & p & Hp & Hu). exists p.
    split; [now apply (found_id _ _ _ Hok)|]. apply in_flat_map.
    exists (JStr (Z_toString n)). split.
    + apply filter_In. split; [apply in_map_iff; now exists n|].
      rewrite parseInt_toString. now apply negb_true_iff.
    + unfold attached. rewrite parseInt_toString, Hp.
      apply Z.eqb_eq in Hu. rewrite Hu. now left.
Qed.

Lemma remove_loop (c : Z) (pids : list JsValue) (R : list Z) :
  forall s,
    ok s ->
    ok (fold_left (sync_remove c pids) R s)
    /\ (forall k, getProduct k (fold_left (sync_remove c pids) R s)
                  = getProduct k s)
    /\ (forall d, d <> c ->
                  links d (fold_left (sync_remove c pids) R s) = links d s)
    /\ (forall k, includes_string pids (Z_toString k) = true ->
                  count_occ Z.eq_dec
                    (links c (fold_left (sync_remove c pids) R s)) k
                  = count_occ Z.eq_dec (links c s) k)
    /\ (forall k, includes_string pids (Z_toString k) = false ->
                  (count_occ Z.eq_dec
                     (links c (fold_left (sync_remove c pids) R s)) k
                   <= count_occ Z.eq_dec (links c s) k
                      - count_occ Z.eq_dec R k)%nat).
Proof.
  induction R as [|r R IH]; intros s Hok; simpl fold_left.
  - split; [exact Hok|]. repeat (split; [reflexivity|]).
    intros k _. simpl. lia.
  - unfold sync_remove at 2 4 6 8 10.
    destruct (includes_string pids (Z_toString r)) eqn:Er; simpl negb;
      cbv iota.
    + destruct (IH s Hok) as (K1 & K2 & K3 & K4 & K5).
      split; [exact K1|]. split; [exact K2|]. split; [exact K3|].
      split; [exact K4|]. intros k Hk. specialize (K5 k Hk).
      simpl. destruct (Z.eq_dec r k) as [->|_]; [congruence|exact K5].
    + destruct (remove_links c r s Hok) as (H1 & H2 & H3 & H4 & H5).
      destruct (IH _ H1) as (K1 & K2 & K3 & K4 & K5).
      split; [exact K1|]. split; [intros k; now rewrite K2, H2|].
      split; [intros d Hd; now rewrite K3, H3|]. split.
      * intros k Hk. rewrite (K4 k Hk). apply H4. congruence.
      * intros k Hk. specialize (K5 k Hk). simpl.
        destruct (Z.eq_dec r k) as [->|Hn].
        -- lia.
        -- rewrite H4 in K5 by congruence. exact K5.
Qed.

Lemma sync_links (u : User) (c : Z) (wanted : list Z) (s : S) :
  ok s ->
  ok (sync_products u c (as_strings wanted) s)
  /\ (forall k, getProduct k (sync_products u c (as_strings wanted) s)
                = getProduct k s)
  /\ (forall d, d <> c ->
                links d (sync_products u c (as_strings wanted) s)
                = links d s)
  /\ (forall n,
         In n (listed c (sync_products u c (as_strings wanted) s))
         <-> In n wanted
             /\ (In n (listed c s)
                 \/ exists p, getProduct n s = Some p
                              /\ Product.userId p = User.id u)).
Proof.
  intros Hok. unfold sync_products.
  change (map Product.id (getCatalogueProducts c s)) with (listed c s).
  set (cur := listed c s).
  rewrite sync_add_as_attach.
  pose proof (added_in u cur wanted s) as HA.
  set (kept := filter _ (as_strings wanted)) in *.
  destruct (attach_links u c kept s Hok) as (A1 & A2 & A3).
  set (s1 := fold_left (attach_product u c) kept s) in *.
  destruct (remove_loop c (as_strings wanted) cur s1 A1)
    as (R1 & R2 & R3 & R4 & R5).
  set (s2 := fold_left _ cur s1) in *.
  assert (Hprod : forall k, getProduct k s2 = getProduct k s)
    by (intros; now rewrite R2, A2).
  split; [exact R1|]. split; [exact Hprod|]. split.
  { intros d Hd. rewrite R3, A3 by assumption. apply Z.eqb_neq in Hd.
    rewrite Hd. apply List.app_nil_r. }
  intros n. rewrite (listed_links c s2 R1), filter_In, Hprod.
  assert (Hcur : forall k, In k cur
                           <-> In k (links c s) /\ getProduct k s <> None).
  { intros k. unfold cur. rewrite (listed_links c s Hok), filter_In.
    destruct (getProduct k s); intuition congruence. }
  specialize (A3 c). rewrite Z.eqb_refl in A3.
  destruct (in_dec Z.eq_dec n wanted) as [Hw|Hw].
  - assert (Hc : count_occ Z.eq_dec (links c s2) n
                 = count_occ Z.eq_dec (links c s1) n).
    { apply R4. now apply includes_as_strings. }
    rewrite (count_occ_In Z.eq_dec), Hc, <- (count_occ_In Z.eq_dec), A3,
      in_app_iff, (HA n Hok).
    split.
    + intros [[Hl|Ha] Hp]; (split; [exact Hw|]).
      * left. apply Hcur. split; [exact Hl|].
        destruct (getProduct n s); congruence.
      * right. destruct Ha as (_ & _ & p & Hp1 & Hp2). eauto.
    + intros [_ [Hl|(p & Hp1 & Hp2)]].
      * apply Hcur in Hl. destruct Hl as [Hl Hp]. split; [now left|].
        destruct (getProduct n s); congruence.
      * rewrite Hp1. split; [|reflexivity].
        destruct (includes_number cur n) eqn:Ei.
        -- left. apply includes_number_in in Ei. apply Hcur in Ei. tauto.
        -- right. split; [exact Hw|]. split; [reflexivity|]. eauto.
  - split; [|tauto]. intros [Hl Hp]. exfalso.
    assert (Hx : includes_string (as_strings wanted) (Z_toString n) = false).
    { destruct (includes_string _ _) eqn:E; [|reflexivity].
      apply includes_as_strings in E. contradiction. }
    pose proof (R5 n Hx) as Hle. rewrite A3, count_occ_app in Hle.
    assert (H0 : count_occ Z.eq_dec
                   (map Product.id (flat_map (attached u s) kept)) n = O).
    { apply count_occ_not_In. rewrite (HA n Hok). tauto. }
    assert (H1 : count_occ Z.eq_dec cur n
                 = count_occ Z.eq_dec (links c s) n).
    { unfold cur. rewrite (listed_links c s Hok).
      apply count_filter_kept. destruct (getProduct n s); congruence. }
    apply (count_occ_In Z.eq_dec) in Hl. lia.
Qed.

(** PUT /api/catalogues/:id with the ids as strings. *)
Lemma put_listing (pf : Platform) (u : User) (c : Z) (body : JsObject)
      (wanted : list Z) (s s' : S) (b : JsValue) :
  ok s ->
  obj_get "productIds" body = Some (JArr (as_strings wanted)) ->
  put_catalogue pf (Some u) c body s = (s', Json 200 b) ->
  ok s' /\ synced u c wanted s s'.
Proof.
  intros Hok Hb. unfold put_catalogue.
  destruct (getCatalogue c s) as [x|]; [|discriminate].
  destruct (negb _); [discriminate|].
  destruct (insertCatalogueSchema_partial_parse pf _) as [v|];
    [|discriminate].
  destruct (update_links c (CatalogueUpdates.delete_userId v) s Hok)
    as (U1 & U2 & U3).
  destruct (updateCatalogue c (CatalogueUpdates.delete_userId v) s)
    as [s1 r]. simpl in U1, U2, U3. rewrite Hb.
  intros H. injection H as Hs _. subst s'.
  destruct (sync_links u c wanted s1 U1) as (Y1 & Y2 & Y3 & Y4).
  split; [exact Y1|]. split.
  - intros n. rewrite Y4, U2. unfold listed.
    now rewrite (listing_same c s s1 Hok U1 U2 (U3 c)).
  - intros d Hd. apply listing_same; try assumption.
    + intros k. now rewrite Y2, U2.
    + now rewrite Y3, U3.
Qed.

(** PUT /api/catalogues/:id with no array of ids. *)
Lemma put_keeps_listing (pf : Platform) (u : User) (c : Z)
      (body : JsObject) (s s' : S) (b : JsValue) :
  ok s ->
  (forall l, obj_get "productIds" body <> Some (JArr l)) ->
  put_catalogue pf (Some u) c body s = (s', Json 200 b) ->
  ok s' /\ forall d, getCatalogueProducts d s' = getCatalogueProducts d s.
Proof.
  intros Hok Hb. unfold put_catalogue.
  destruct (getCatalogue c s) as [x|]; [|discriminate].
  destruct (negb _); [discriminate|].
  destruct (insertCatalogueSchema_partial_parse pf _) as [v|];
    [|discriminate].
  destruct (update_links c (CatalogueUpdates.delete_userId v) s Hok)
    as (U1 & U2 & U3).
  destruct (updateCatalogue c (CatalogueUpdates.delete_userId v) s)
    as [s1 r]. simpl in U1, U2, U3.
  assert (Hs : match obj_get "productIds" body with
               | Some (JArr productIds) => sync_products u c productIds s1
               | _ => s1
               end = s1).
  { destruct (obj_get "productIds" body) as [j|]; [|reflexivity].
    destruct j; try reflexivity. exfalso. eapply Hb. reflexivity. }
  rewrite Hs. intros H. injection H as <- _.
  split; [exact U1|]. intros d. now apply listing_same.
Qed.

End Links.

Lemma mem_unlinked (s : MemStorage.t) (c : Z) :
  mem_linked s -> MemStorage.currentCatalogueId s <= c -> mem_links c s = [].
Proof.
  intros Hl Hc. unfold mem_links. rewrite filter_nothing; [reflexivity|].
  intros cp Hin. unfold mem_linked in Hl. rewrite Forall_forall in Hl.
  apply Hl in Hin. apply Z.eqb_neq. lia.
Qed.

Lemma db_unlinked (s : DatabaseStorage.t) (c : Z) :
  db_linked s -> Table.nextId (DatabaseStorage.catalogues s) <= c ->
  db_links c s = [].
Proof.
  intros Hl Hc. unfold db_links. rewrite filter_nothing; [reflexivity|].
  intros cp Hin. unfold db_linked in Hl. rewrite Forall_forall in Hl.
  apply Hl in Hin. apply Z.eqb_neq. lia.
Qed.

(** X22.  POST /api/catalogues fills the new catalogue from
    [req.body.productIds] as sent: each element that [parseInt] turns into
    the id of a product of the session user adds that product, in the order
    of the array and once for each time it is named; elements that name no
    product, or a product of somebody else, add nothing, and so does a body
    whose [productIds] is no array.  Nothing that an earlier catalogue
    listed shows up in the new one, and the other catalogues list what they
    did.  In a [MemStorage], for arrays in which every number that
    [parseInt] reads is a safe integer, so that JavaScript neither rounds
    it nor prints it with an exponent.  On the database, for arrays of
    which [parseInt] reads every element as a value of an [integer]
    column, so that no query is sent for [NaN] or for a number out of
    range; there the order of the rows is left open. *)
Theorem new_catalogue_lists_named_products (pf : Platform) (u : User)
        (body : JsObject) (now : Z) (pool : Pool) (b : JsValue) :
  (forall s s' : MemStorage.t,
      mem_well_formed s -> mem_linked s ->
      ids_read safe_integer (product_ids body) ->
      post_catalogues pf (Some u) body now pool s = (s', Json 201 b) ->
      lists_attached eq u body s s' b)
  /\ (forall s s' : DatabaseStorage.t,
         db_well_formed s -> db_linked s ->
         ids_given int4 (product_ids body) ->
         post_catalogues pf (Some u) body now pool s = (s', Json 201 b) ->
         lists_attached (@Permutation Product) u body s s' b).
Proof.
  split.
  - intros s s' Hw Hl _ H.
    destruct (post_listing
                (fun x => mem_well_formed x) mem_links
                (fun c x _ => mem_links_list c x) mem_found_id
                mem_add_links mem_create_links
                pf u body now pool s s' b Hw
                (fun v => mem_unlinked s _ Hl (Z.le_refl _)) H)
      as (c & Hb & _ & Hc & Hd).
    exists c. auto.
  - intros s s' Hw Hl _ H.
    destruct (post_listing
                db_well_formed db_links db_links_list db_found_id
                db_add_links db_create_links
                pf u body now pool s s' b Hw
                (fun v => db_unlinked s _ Hl (Z.le_refl _)) H)
      as (c & Hb & _ & Hc & Hd).
    exists c. rewrite Hc. auto.
Qed.

Lemma new_catalogue_lists_named_products_witness :
  let body := [("name", JStr "winter");
               ("productIds", JArr [JStr "3"; JNum 1; JStr "9"; JStr "3"])] in
  let m := post_catalogues node (Some Example.alice) body 50 Example.dash_pool
                           Example.mem in
  let d := post_catalogues node (Some Example.alice) body 50 Example.dash_pool
                           Example.db in
  lists_attached eq Example.alice body Example.mem (fst m) (body_of (snd m))
  /\ lists_attached (@Permutation Product) Example.alice body Example.db
                    (fst d) (body_of (snd d)).
Proof.
  intros body m d.
  assert (Hsafe : ids_read safe_integer (product_ids body)).
  { apply Forall_forall. intros x Hx. vm_compute in Hx.
    repeat destruct Hx as [<-|Hx]; try contradiction;
      intros n H; vm_compute in H; injection H as <-;
      unfold safe_integer; lia. }
  assert (Hint : ids_given int4 (product_ids body)).
  { apply Forall_forall. intros x Hx. vm_compute in Hx.
    repeat destruct Hx as [<-|Hx]; try contradiction;
      eexists; (split; [vm_compute; reflexivity|]); unfold int4; lia. }
  split.
  - apply (proj1 (new_catalogue_lists_named_products
                    node Example.alice body 50 Example.dash_pool
                    (body_of (snd m)))
                 Example.mem (fst m) sample_mem_well_formed);
      [constructor|exact Hsafe|vm_compute; reflexivity].
  - apply (proj2 (new_catalogue_lists_named_products
                    node Example.alice body 50 Example.dash_pool
                    (body_of (snd d)))
                 Example.db (fst d) sample_db_well_formed);
      [constructor|exact Hint|vm_compute; reflexivity].
Defined.

(** X23.  PUT /api/catalogues/:id with [productIds] given as the decimal
    strings of ids brings the catalogue to the named products: afterwards
    it lists a product exactly when the request names it and either the
    catalogue listed it before or the session user owns it.  A listed
    product that is not named is taken out with all the rows that linked
    it; a named product of another user is not put in, but stays if it was
    in.  The other catalogues list what they did.  In a [MemStorage], for
    ids that are safe integers.  On the database, for ids that are values
    of an [integer] column and for a body that also has a value for a
    column of the catalogue: the statement does not cover a body with
    nothing to set, for which the model leaves the table as it is. *)
Theorem listed_products_follow_update (pf : Platform) (u : User) (id : Z)
        (body : JsObject) (wanted : list Z) (b : JsValue) :
  obj_get "productIds" body = Some (JArr (as_strings wanted)) ->
  (forall s s' : MemStorage.t,
      mem_well_formed s ->
      Forall safe_integer wanted ->
      put_catalogue pf (Some u) id body s = (s', Json 200 b) ->
      synced u id wanted s s')
  /\ (forall s s' : DatabaseStorage.t,
         db_well_formed s ->
         Forall int4 wanted ->
         update_sets_a_column pf body ->
         put_catalogue pf (Some u) id body s = (s', Json 200 b) ->
         synced u id wanted s s').
Proof.
  intros Hb. split.
  - intros s s' Hw _ H.
    exact (proj2 (put_listing
                    (fun x => mem_well_formed x) mem_links
                    (fun c x _ => mem_links_list c x) mem_found_id
                    mem_add_links mem_remove_links mem_update_links
                    pf u id body wanted s s' b Hw Hb H)).
  - intros s s' Hw _ _ H.
    exact (proj2 (put_listing
                    db_well_formed db_links db_links_list db_found_id
                    db_add_links db_remove_links db_update_links
                    pf u id body wanted s s' b Hw Hb H)).
Qed.

Lemma listed_products_follow_update_witness :
  let body := Example.put_body [JStr "1"; JStr "3"] in
  let r := put_catalogue node (Some Example.alice) 1 body Example.db in
  synced Example.alice 1 [1; 3] Example.db (fst r).
Proof.
  intros body r.
  apply (proj2 (listed_products_follow_update
                  node Example.alice 1 body [1; 3] (body_of (snd r))
                  eq_refl)
               Example.db (fst r) sample_db_well_formed).
  - repeat constructor; unfold int4; lia.
  - intros parsed H. vm_compute in H. injection H as <-. reflexivity.
  - vm_compute. reflexivity.
Defined.

Lemma nothing_listed {S} {storage : IStorage S} (c : Z) (s : S) :
  (forall n, ~ In n (listed c s)) -> getCatalogueProducts c s = [].
Proof.
  unfold listed. destruct (getCatalogueProducts c s) as [|p l];
    [reflexivity|].
  intros H. elim (H (Product.id p)). now left.
Qed.

(** X24.  The two edge cases of the update of a catalogue.  With
    [productIds: []] the catalogue lists nothing afterwards, whoever owns
    the products it listed.  With a body whose [productIds] is no array, as
    when only the name is changed, every catalogue lists what it did.  On
    both storages; on the database for a body that also has a value for a
    column of the catalogue: the statement does not cover a body with
    nothing to set, such as [productIds: []] alone, for which the model
    leaves the table as it is. *)
Theorem update_with_no_product_ids (pf : Platform) (u : User) (id : Z)
        (body : JsObject) (b : JsValue) :
  (forall s s' : MemStorage.t,
      mem_well_formed s ->
      put_catalogue pf (Some u) id body s = (s', Json 200 b) ->
      (obj_get "productIds" body = Some (JArr []) ->
       getCatalogueProducts id s' = [])
      /\ ((forall l, obj_get "productIds" body <> Some (JArr l)) ->
          forall d, getCatalogueProducts d s' = getCatalogueProducts d s))
  /\ (forall s s' : DatabaseStorage.t,
         db_well_formed s ->
         update_sets_a_column pf body ->
         put_catalogue pf (Some u) id body s = (s', Json 200 b) ->
         (obj_get "productIds" body = Some (JArr []) ->
          getCatalogueProducts id s' = [])
         /\ ((forall l, obj_get "productIds" body <> Some (JArr l)) ->
             forall d, getCatalogueProducts d s' = getCatalogueProducts d s)).
Proof.
  split.
  - intros s s' Hw H. split.
    + intros Hb. apply nothing_listed. intros n Hn.
      apply (proj1 (proj2 (put_listing
                    (fun x => mem_well_formed x) mem_links
                    (fun c x _ => mem_links_list c x) mem_found_id
                    mem_add_links mem_remove_links mem_update_links
                    pf u id body [] s s' b Hw Hb H))) in Hn.
      now destruct Hn.
    + intros Hb.
      exact (proj2 (put_keeps_listing
                      (fun x => mem_well_formed x) mem_links
                      (fun c x _ => mem_links_list c x)
                      mem_update_links
                      pf u id body s s' b Hw Hb H)).
  - intros s s' Hw _ H. split.
    + intros Hb. apply nothing_listed. intros n Hn.
      apply (proj1 (proj2 (put_listing
                    db_well_formed db_links db_links_list db_found_id
                    db_add_links db_remove_links db_update_links
                    pf u id body [] s s' b Hw Hb H))) in Hn.
      now destruct Hn.
    + intros Hb.
      exact (proj2 (put_keeps_listing
                      db_well_formed db_links db_links_list
                      db_update_links
                      pf u id body s s' b Hw Hb H)).
Qed.

Lemma update_with_no_product_ids_witness :
  let s := fst (put_catalogue node (Some Example.alice) 1
                              (Example.put_body [JStr "1"; JStr "3"])
                              Example.db) in
  let r := put_catalogue node (Some Example.alice) 1 (Example.put_body [])
                         s in
  listed 1 s = [1; 3] /\ getCatalogueProducts 1 (fst r) = [].
Proof.
  intros s r. split; [vm_compute; reflexivity|].
  refine (proj1 (proj2 (update_with_no_product_ids
                          node Example.alice 1 (Example.put_body [])
                          (body_of (snd r)))
                       s (fst r)
                       (db_handle_ok node (Example.env 0)
                          (PUT_catalogue (Some Example.alice) 1
                             (Example.put_body [JStr "1"; JStr "3"]))
                          Example.db sample_db_well_formed)
                       _ _) eq_refl).
  - intros parsed H. vm_compute in H. injection H as <-. reflexivity.
  - vm_compute. reflexivity.
Defined.

(** ** Links name catalogues that exist or existed *)

Lemma values_set_all {V} (P : V -> Prop) (k : Z) (v : V) (m : JsMap.t V) :
  Forall P (JsMap.values m) -> P v ->
  Forall P (JsMap.values (JsMap.set k v m)).
Proof.
  intros Hm Hv. induction m as [|[k' v'] m IH]; simpl.
  - now constructor.
  - inversion Hm; subst. destruct (k' =? k); simpl; constructor; auto.
Qed.

Lemma values_filter_all {V} (P : V -> Prop) (q : Z * V -> bool)
      (m : JsMap.t V) :
  Forall P (JsMap.values m) -> Forall P (JsMap.values (filter q m)).
Proof.
  intros Hm. induction m as [|[k v] m IH]; simpl; [constructor|].
  inversion Hm; subst. destruct (q (k, v)); simpl; auto.
Qed.

Lemma rows_filter_all {R} (P : R -> Prop) (q : R -> bool) (l : list R) :
  Forall P l -> Forall P (filter q l).
Proof.
  rewrite !Forall_forall. intros H x Hx. apply filter_In in Hx.
  now apply H.
Qed.

Lemma mem_known_catalogue (s : MemStorage.t) (c : Z) (x : Catalogue) :
  mem_well_formed s -> getCatalogue c s = Some x ->
  c < MemStorage.currentCatalogueId s.
Proof.
  intros (_ & _ & [Hc _] & _) H.
  apply (keyed_keys_below _ _ _ Hc). now apply JsMap_get_in with (v := x).
Qed.

Lemma db_known_catalogue (s : DatabaseStorage.t) (c : Z) (x : Catalogue) :
  db_well_formed s -> getCatalogue c s = Some x ->
  c < Table.nextId (DatabaseStorage.catalogues s).
Proof.
  intros (_ & _ & [Hc _] & _). simpl.
  unfold DatabaseStorage.getCatalogue, Table.select.
  destruct (filter _ _) as [|r l] eqn:Ef; [discriminate|]. intros [= ->].
  assert (Hin : In x (filter (fun c0 => Catalogue.id c0 =? c)
                             (Table.rows (DatabaseStorage.catalogues s))))
    by (rewrite Ef; now left).
  apply filter_In in Hin. destruct Hin as [Hin E]. apply Z.eqb_eq in E.
  unfold sequenced in Hc. rewrite Forall_forall in Hc.
  apply Hc in Hin. lia.
Qed.

Lemma mem_link_writes (c p : Z) (s : MemStorage.t) :
  mem_linked s ->
  (c < MemStorage.currentCatalogueId s ->
   mem_linked (fst (addProductToCatalogue c p s)))
  /\ mem_linked (fst (removeProductFromCatalogue c p s))
  /\ MemStorage.currentCatalogueId (fst (addProductToCatalogue c p s))
     = MemStorage.currentCatalogueId s
  /\ MemStorage.currentCatalogueId (fst (removeProductFromCatalogue c p s))
     = MemStorage.currentCatalogueId s.
Proof.
  intros Hl. unfold mem_linked in *. simpl.
  unfold MemStorage.removeProductFromCatalogue. split; [|split; [|split]].
  - intros Hc. now apply values_set_all.
  - destruct (find _ _); simpl; [|exact Hl]. now apply values_filter_all.
  - reflexivity.
  - now destruct (find _ _).
Qed.

Lemma db_link_writes (c p : Z) (s : DatabaseStorage.t) :
  db_linked s ->
  (c < Table.nextId (DatabaseStorage.catalogues s) ->
   db_linked (fst (addProductToCatalogue c p s)))
  /\ db_linked (fst (removeProductFromCatalogue c p s))
  /\ Table.nextId (DatabaseStorage.catalogues
                     (fst (addProductToCatalogue c p s)))
     = Table.nextId (DatabaseStorage.catalogues s)
  /\ Table.nextId (DatabaseStorage.catalogues
                     (fst (removeProductFromCatalogue c p s)))
     = Table.nextId (DatabaseStorage.catalogues s).
Proof.
  intros Hl. unfold db_linked in *. simpl. split; [|split; [|split]].
  - intros Hc. apply Forall_app. split; [exact Hl|]. now constructor.
  - now apply rows_filter_all.
  - reflexivity.
  - reflexivity.
Qed.

Section Linked.
Context {S : Type} {storage : IStorage S}.
Variable ok linked : S -> Prop.
Variable next : S -> Z.

Hypothesis known : forall s c x, ok s -> getCatalogue c s = Some x ->
                                 c < next s.
Hypothesis link_writes :
  forall c p s,
    linked s ->
    (c < next s -> linked (fst (addProductToCatalogue c p s)))
    /\ linked (fst (removeProductFromCatalogue c p s))
    /\ next (fst (addProductToCatalogue c p s)) = next s
    /\ next (fst (removeProductFromCatalogue c p s)) = next s.
Hypothesis create_linked :
  forall now v s,
    linked s ->
    linked (fst (createCatalogue now v s))
    /\ Catalogue.id (snd (createCatalogue now v s))
       < next (fst (createCatalogue now v s)).
Hypothesis update_linked :
  forall id v s,
    linked s ->
    linked (fst (updateCatalogue id v s))
    /\ next (fst (updateCatalogue id v s)) = next s.

Lemma attach_linked (u : User) (c : Z) (l : list JsValue) (s : S) :
  c < next s -> linked s -> linked (fold_left (attach_product u c) l s).
Proof.
  intros Hc Hl.
  apply (fold_left_keeps (fun x => linked x /\ c < next x)
                         (attach_product u c) l); [|now split].
  intros a x [Ha Hn]. unfold attach_product.
  destruct (parseInt x) as [n|]; [|now split].
  destruct (getProduct n a) as [p|]; [|now split].
  destruct (Product.userId p =? User.id u); [|now split].
  destruct (link_writes c (Product.id p) a Ha) as (K1 & _ & K3 & _).
  split; [now apply K1|]. now rewrite K3.
Qed.

Lemma sync_linked (u : User) (c : Z) (l : list JsValue) (s : S) :
  c < next s -> linked s -> linked (sync_products u c l s).
Proof.
  intros Hc Hl. unfold sync_products.
  apply (fold_left_keeps (fun x => linked x /\ c < next x)).
  - intros a k [Ha Hn]. unfold sync_remove.
    destruct (negb _); [|now split].
    destruct (link_writes c k a Ha) as (_ & K2 & _ & K4).
    split; [exact K2|]. now rewrite K4.
  - apply (fold_left_keeps (fun x => linked x /\ c < next x));
      [|now split].
    intros a x [Ha Hn]. unfold sync_add.
    destruct (parseInt x) as [n|]; [|now split].
    destruct (includes_number _ n); [now split|].
    destruct (getProduct n a) as [p|]; [|now split].
    destruct (Product.userId p =? User.id u); [|now split].
    destruct (link_writes c (Product.id p) a Ha) as (K1 & _ & K3 & _).
    split; [now apply K1|]. now rewrite K3.
Qed.

Lemma link_routes_linked (pf : Platform) (e : Env) (r : Request) (s : S) :
  writes_catalogueProducts r = true ->
  ok s -> linked s -> linked (fst (handle pf e r s)).
Proof.
  intros Hr Hok Hl. destruct r; try discriminate Hr; simpl.
  - unfold post_catalogues. destruct user as [u|]; [|exact Hl].
    destruct (insertCatalogueSchema_parse pf _) as [v|]; [|exact Hl].
    destruct (create_linked (now e) v s Hl) as [C1 C2].
    destruct (createCatalogue (now e) v s) as [s1 c]. simpl in C1, C2.
    simpl fst.
    destruct (obj_get "productIds" body) as [j|]; [|exact C1].
    destruct j; try exact C1. now apply attach_linked.
  - unfold put_catalogue. destruct user as [u|]; [|exact Hl].
    destruct (getCatalogue id s) as [x|] eqn:Ex; [|exact Hl].
    destruct (negb _); [exact Hl|].
    destruct (insertCatalogueSchema_partial_parse pf _) as [v|];
      [|exact Hl].
    destruct (update_linked id (CatalogueUpdates.delete_userId v) s Hl)
      as [U1 U2].
    destruct (updateCatalogue id (CatalogueUpdates.delete_userId v) s)
      as [s1 c]. simpl in U1, U2. simpl fst.
    destruct (obj_get "productIds" body) as [j|]; [|exact U1].
    destruct j; try exact U1. apply sync_linked; [|exact U1].
    rewrite U2. now apply known with (x := x).
Qed.

End Linked.

Lemma mem_linked_kept (pf : Platform) (e : Env) (r : Request)
      (s : MemStorage.t) :
  mem_well_formed s -> mem_linked s -> mem_linked (fst (handle pf e r s)).
Proof.
  intros Hw. destruct (writes_catalogueProducts r) eqn:Er.
  - apply (link_routes_linked mem_well_formed mem_linked
                              MemStorage.currentCatalogueId);
      try assumption.
    + intros s0 c x. apply mem_known_catalogue.
    + intros c p s0. apply mem_link_writes.
    + intros now v s0 Hl. unfold mem_linked in *. simpl. split; [|lia].
      eapply Forall_impl; [|exact Hl]. simpl. intros; lia.
    + intros id v s0 Hl. unfold mem_linked in *. simpl.
      unfold MemStorage.updateCatalogue.
      destruct (JsMap.get id (MemStorage.catalogues s0)); now split.
  - apply (route_kept (fun a b => mem_linked a -> mem_linked b)
                      true true false true true);
      try reflexivity; try congruence; auto;
      try (intros _; intros; unfold mem_linked in *; simpl; unfold_writes;
           simpl; repeat (break_match; simpl); assumption).
    intros _ now v s0 Hl. unfold mem_linked in *. simpl.
    eapply Forall_impl; [|exact Hl]. simpl. intros; lia.
Qed.

Lemma db_linked_kept (pf : Platform) (e : Env) (r : Request)
      (s : DatabaseStorage.t) :
  db_well_formed s -> db_linked s -> db_linked (fst (handle pf e r s)).
Proof.
  intros Hw. destruct (writes_catalogueProducts r) eqn:Er.
  - apply (link_routes_linked db_well_formed db_linked
             (fun x => Table.nextId (DatabaseStorage.catalogues x)));
      try assumption.
    + intros s0 c x. apply db_known_catalogue.
    + intros c p s0. apply db_link_writes.
    + intros now v s0 Hl. unfold db_linked in *. simpl. split; [|lia].
      eapply Forall_impl; [|exact Hl]. simpl. intros; lia.
    + intros id v s0 Hl. unfold db_linked in *. simpl. now split.
  - apply (route_kept (fun a b => db_linked a -> db_linked b)
                      true true false true true);
      try reflexivity; try congruence; auto;
      try (intros _; intros; unfold db_linked in *; simpl; unfold_writes;
           simpl; repeat (break_match; simpl); assumption).
    intros _ now v s0 Hl. unfold db_linked in *. simpl.
    eapply Forall_impl; [|exact Hl]. simpl. intros; lia.
Qed.

Lemma mem_serve_linked (pf : Platform) (rs : list (Env * Request)) :
  forall s : MemStorage.t,
    mem_well_formed s -> mem_linked s -> mem_linked (serve pf rs s).
Proof.
  induction rs as [|[e r] rs IH]; simpl; intros s Hw Hl; [exact Hl|].
  apply IH; [now apply mem_handle_ok|now apply mem_linked_kept].
Qed.

Lemma db_serve_linked (pf : Platform) (rs : list (Env * Request)) :
  forall s : DatabaseStorage.t,
    db_well_formed s -> db_linked s -> db_linked (serve pf rs s).
Proof.
  induction rs as [|[e r] rs IH]; simpl; intros s Hw Hl; [exact Hl|].
  apply IH; [now apply db_handle_ok|now apply db_linked_kept].
Qed.

(** X25.  The rows of [catalogueProducts] only name catalogue ids that
    have been handed out.  This holds in a fresh storage and is kept by
    every sequence of requests and by [createUser], although DELETE
    /api/catalogues/:id leaves the rows of the deleted catalogue behind:
    ids are not handed out twice, so in every state that the requests
    reach, an id that is still to come lists no product.  On both
    storages. *)
Theorem links_name_issued_catalogues (pf : Platform)
        (rs : list (Env * Request)) (now : Z) (u : InsertUser) :
  (forall s : MemStorage.t,
      mem_well_formed s -> mem_linked s ->
      mem_linked (serve pf rs s)
      /\ mem_linked (fst (createUser now u s))
      /\ forall c, MemStorage.currentCatalogueId (serve pf rs s) <= c ->
                   getCatalogueProducts c (serve pf rs s) = [])
  /\ mem_linked MemStorage.empty
  /\ (forall s : DatabaseStorage.t,
         db_well_formed s -> db_linked s ->
         db_linked (serve pf rs s)
         /\ db_linked (fst (createUser now u s))
         /\ forall c,
             Table.nextId (DatabaseStorage.catalogues (serve pf rs s)) <= c ->
             getCatalogueProducts c (serve pf rs s) = [])
  /\ db_linked DatabaseStorage.empty.
Proof.
  split; [|split; [constructor|split; [|constructor]]].
  - intros s Hw Hl. pose proof (mem_serve_linked pf rs s Hw Hl) as H.
    split; [exact H|]. split; [exact Hl|]. intros c Hc.
    rewrite mem_links_list. now rewrite (mem_unlinked _ c H Hc).
  - intros s Hw Hl. pose proof (db_serve_linked pf rs s Hw Hl) as H.
    split; [exact H|]. split; [exact Hl|]. intros c Hc.
    rewrite db_links_list by now apply db_serve_ok.
    now rewrite (db_unlinked _ c H Hc).
Qed.

Lemma links_name_issued_catalogues_witness :
  let rs :=
    [ (Example.env 10,
       POST_catalogues (Some Example.alice)
         [("name", JStr "winter"); ("productIds", JArr [JStr "1"])]);
      (Example.env 20, DELETE_catalogue (Some Example.alice) 3);
      (Example.env 30,
       POST_catalogues (Some Example.alice) [("name", JStr "summer")]) ] in
  mem_linked (serve node rs Example.mem)
  /\ listed 3 (serve node rs Example.mem) = [1]
  /\ listed 4 (serve node rs Example.mem) = [].
Proof.
  intros rs. split.
  - apply (proj1 (links_name_issued_catalogues
                    node rs 0 (InsertUser.mk "carol" "x" "c@example.com" None))
                 Example.mem sample_mem_well_formed).
    constructor.
  - split; vm_compute; reflexivity.
Defined.

(** ** The retailer-info route *)

Lemma retailer_info_with_granted {S} {storage : IStorage S} (pf : Platform)
      (link e1 t : string) (email : option string) (now1 now2 : Z) (s : S)
      (c : Catalogue) :
  getCatalogueByLink link s = Some c ->
  Catalogue.id c <> 0 -> 0 <= now1 -> now2 <= now1 + week_ms ->
  check_access (on_node pf) link (Some e1) now1 s = (s, granted_reply t) ->
  retailer_info (on_node pf) link email (Some ("Bearer " ++ t)) now2 s
  = match match email with
          | Some e => getAccessRequestByEmail (Catalogue.id c) e s
          | None => None
          end with
    | Some r =>
        if negb (Status_eqb (AccessRequest.status r) approved)
        then (s, Json 404 (message
                             "Access request not found or not approved"))
        else (s, Json 200 (JObj [("name", JStr (AccessRequest.name r));
                                 ("email", JStr (AccessRequest.email r));
                                 ("company",
                                  JStr (AccessRequest.company r))]))
    | None => (s, Json 404 (message
                              "Access request not found or not approved"))
    end.
Proof.
  intros Hc Hid Hnow Hlate Hgrant.
  apply (granted_token (on_node pf) link e1 t now1 s c Hc) in Hgrant.
  simpl in Hgrant.
  assert (Hweek : 0 < week_ms) by reflexivity.
  set (exp := now1 + week_ms) in *.
  unfold retailer_info.
  rewrite bearer_token_of, decode_twice_eq. simpl decodeToken.
  rewrite Hgrant, node_token_round_trip.
  assert (Hfmt : bad_token_format
                   (JObj (tokenPayload (Catalogue.id c) e1 exp)) = false).
  { unfold bad_token_format. simpl.
    destruct (Catalogue.id c =? 0) eqn:E1;
      [apply Z.eqb_eq in E1; contradiction|].
    destruct (exp =? 0) eqn:E2; [apply Z.eqb_eq in E2; lia|reflexivity]. }
  rewrite Hfmt.
  change (js_lt (on_node pf)
            (prop (JObj (tokenPayload (Catalogue.id c) e1 exp)) "exp") now2)
    with (exp <? now2).
  assert (E : (exp <? now2) = false) by (apply Z.ltb_ge; lia).
  rewrite E, Hc.
  assert (Hsame : differs (Catalogue.id c)
                    (prop (JObj (tokenPayload (Catalogue.id c) e1 exp))
                          "catalogueId") = false).
  { simpl. now rewrite Z.eqb_refl. }
  rewrite Hsame. reflexivity.
Qed.

(** X26.  POST /api/shared/:link/retailer-info looks up the e-mail of the
    request body, never the e-mail in the token.  With the token that
    check-access granted to one retailer of a catalogue, presented within
    its week, the route answers 200 with the name, e-mail and company of any
    retailer whose request for that catalogue is approved, and 404 "Access
    request not found or not approved" when the body names no e-mail or an
    e-mail with no approved request; the storage is not changed.  With
    Node's base64 and JSON, on any storage. *)
Theorem retailer_info_looks_up_body_email {S} {storage : IStorage S}
        (pf : Platform) (link e1 t : string) (email : option string)
        (now1 now2 : Z) (s : S) (c : Catalogue) :
  getCatalogueByLink link s = Some c ->
  Catalogue.id c <> 0 -> 0 <= now1 -> now2 <= now1 + week_ms ->
  check_access (on_node pf) link (Some e1) now1 s = (s, granted_reply t) ->
  let answer :=
    retailer_info (on_node pf) link email (Some ("Bearer " ++ t)) now2 s in
  (forall e2 r,
      email = Some e2 ->
      getAccessRequestByEmail (Catalogue.id c) e2 s = Some r ->
      AccessRequest.status r = approved ->
      answer = (s, Json 200 (JObj [("name", JStr (AccessRequest.name r));
                                   ("email", JStr (AccessRequest.email r));
                                   ("company",
                                    JStr (AccessRequest.company r))])))
  /\ ((forall e2 r,
          email = Some e2 ->
          getAccessRequestByEmail (Catalogue.id c) e2 s = Some r ->
          AccessRequest.status r <> approved) ->
      answer = (s, Json 404 (message
                               "Access request not found or not approved"))).
Proof.
  intros Hc Hid Hnow Hlate Hgrant answer. unfold answer.
  rewrite (retailer_info_with_granted pf link e1 t email now1 now2 s c
             Hc Hid Hnow Hlate Hgrant).
  split.
  - intros e2 r -> Hr Hs. rewrite Hr, Hs. reflexivity.
  - intros H. destruct email as [e2|]; [|reflexivity].
    destruct (getAccessRequestByEmail (Catalogue.id c) e2 s) as [r|] eqn:Hr;
      [|reflexivity].
    specialize (H e2 r eq_refl Hr).
    destruct (AccessRequest.status r); try reflexivity. now elim H.
Qed.

Lemma retailer_info_looks_up_body_email_witness :
  let eve := Build_AccessBody (Some "Eve") (Some "eve@mart.io") (Some "Mart")
                              None in
  let s := serve node
             [ (Example.env 250, POST_request_access Example.link eve);
               (Example.env 260,
                PUT_access_request (Some Example.alice) 2 (Some "approved")) ]
             Example.approved_db in
  let t := node_encodeToken 1 "eve@mart.io" (400 + week_ms) in
  retailer_info (on_node node) Example.link (Some "rita@shop.io")
                (Some ("Bearer " ++ t)) 500 s
  = (s, Json 200 (JObj [("name", JStr "Rita");
                        ("email", JStr "rita@shop.io");
                        ("company", JStr "Shop")])).
Proof.
  intros eve s t.
  refine (proj1 (@retailer_info_looks_up_body_email
                   _ DatabaseStorage_IStorage
                   node Example.link "eve@mart.io" t (Some "rita@shop.io")
                   400 500 s
                   (Catalogue.mk 1 1 "spring" None Example.link None (Some 0)
                                 0)
                   _ _ _ _ _)
                "rita@shop.io"
                (AccessRequest.mk 1 1 "Rita" "rita@shop.io" "Shop"
                                  (Some EmptyString) approved 100)
                eq_refl _ _).
  all: try (vm_compute; reflexivity).
  all: try (vm_compute; discriminate).
  all: try discriminate.
  all: try lia.
Defined.

(** ** Users *)

(** X27.  [createUser] stores the user as given, under an id that was
    free: [getUser] finds it under that id and answers as before for every
    other id, and [getUserByUsername] and [getUserByEmail] find it unless an
    earlier user has the same username or e-mail.  [MemStorage] does not
    refuse a username that is taken: the second user is stored, and the
    lookup by name keeps answering the first.  On the database the
    statement is for a username and an e-mail that no user has. *)
Theorem created_user_round_trip (now : Z) (u : InsertUser) :
  (forall s : MemStorage.t,
      mem_well_formed s ->
      user_added u s (fst (createUser now u s)) (snd (createUser now u s)))
  /\ (forall s : DatabaseStorage.t,
         db_well_formed s ->
         getUserByUsername (InsertUser.username u) s = None ->
         getUserByEmail (InsertUser.email u) s = None ->
         user_added u s (fst (createUser now u s))
                    (snd (createUser now u s))).
Proof.
  split.
  - intros s ([Hk _] & _). unfold user_added. simpl.
    unfold MemStorage.getUser, MemStorage.getUserByUsername,
      MemStorage.getUserByEmail. simpl.
    pose proof (keyed_fresh _ _ _ Hk) as Hf.
    rewrite !JsMap_values_set_new by exact Hf.
    split; [exact Hf|]. split.
    { rewrite JsMap_get_set. now rewrite Z.eqb_refl. }
    split; [now repeat split|]. split.
    { intros k Hne. rewrite JsMap_get_set.
      destruct (MemStorage.currentUserId s =? k) eqn:E; [|reflexivity].
      apply Z.eqb_eq in E. congruence. }
    split; intros n.
    + exact (find_last (fun x => (User.username x =? n)%string) _ _).
    + exact (find_last (fun x => (User.email x =? n)%string) _ _).
  - intros s ([Hk _] & _) _ _. unfold user_added. simpl.
    unfold DatabaseStorage.getUser, DatabaseStorage.getUserByUsername,
      DatabaseStorage.getUserByEmail, Table.select. simpl.
    set (user := User.mk _ _ _ _ _ _).
    split.
    { rewrite (filter_none_of_old User.id); [reflexivity|exact Hk]. }
    split.
    { apply (hd_filter_id_new User.id (DatabaseStorage.users s) user Hk).
      reflexivity. }
    split; [now repeat split|]. split.
    { intros k Hne. now apply hd_filter_id_other. }
    split; intros n.
    + exact (hd_filter_last (fun x => (User.username x =? n)%string) _ _).
    + exact (hd_filter_last (fun x => (User.email x =? n)%string) _ _).
Qed.

Lemma created_user_round_trip_witness :
  let u := InsertUser.mk "alice" "$2b$10$other" "alice@else.org" None in
  let r := createUser 7 u Example.mem in
  User.id (snd r) = 3
  /\ getUser 3 (fst r) = Some (snd r)
  /\ getUserByUsername "alice" (fst r) = Some Example.alice.
Proof.
  intros u r.
  destruct (proj1 (created_user_round_trip 7 u) Example.mem
                  sample_mem_well_formed)
    as (_ & H2 & _ & _ & H5 & _).
  split; [reflexivity|]. split; [exact H2|]. exact (H5 "alice").
Defined.
